(* ===== verification/_CoqProject ===== *)
-Q . S2P
Prelude.v
JsValue.v
JsJson.v
Fetch.v
Api.v
Provision.v
JsRegex.v
ValidateIP.v
Pages.v
Views.v
Widgets.v
EndpointModal.v
Peering.v
Handlers.v
Session.v
Command.v
Acl.v
AdminApi.v
AdminPages.v
Tables.v
Checks.v
TagPanel.v
DataSource.v
Console.v
ConsoleProofs.v
ConsoleTables.v
Home.v
HomeTables.v
Directory.v
Circuits.v
MapHistory.v
MapIndex.v
MapGrid.v
AdminForms.v
NetworkMap.v
NetworkMapProofs.v
Decimals.v
Graph.v
MapBounds.v
MapView.v
MapSelect.v
MapNavigate.v
MapPopup.v
MapEvents.v
MapLayers.v
AdminRoutes.v
