(* ===== verification/Prelude.v ===== *)
(** * OESS web front end: a verification library

    OESS provisions layer 2 and layer 3 connections over a research network.
    This library models the JavaScript of its web front end
    (src/frontend/www) and proves what its pages do with the user's input, what
    they send to the web services, and what they make of the replies.  The web
    services themselves (Perl, src/frontend/webservice) are the environment of
    the model: they may answer anything.

    ** The program and the files

    A page keeps its state in JavaScript objects, offers it in lists and
    dialogs, and calls a service client that builds a request, sends it and
    decodes the reply.  The files follow these layers.

    The language:
    - [Prelude]: strings, digits and lists, the notations, the hint database
      [oess] and the tactic [crush];
    - [JsValue]: values, objects in property order, conversions, equalities,
      [parseInt], and computations that may throw ([res]);
    - [JsJson]: [JSON.stringify], [JSON.parse], [encodeURIComponent] and its
      inverse, with their round trips;
    - [JsRegex]: regular expressions, a derivative matcher and its agreement
      with the language;
    - [Fetch]: asynchronous code as programs over requests, questions and page
      actions ([io]), run against an environment with a trace of events.

    The service client (js_templates/api):
    - [Api]: one definition per function of vlan, interfaces, entity, user,
      workgroup, command, configuration, circuit, vrf and acl; query strings
      and how a server splits them;
    - [Provision]: [provisionVRF] and [provisionCircuit].

    The connection pages (js_templates):
    - [ValidateIP]: the address expressions and the validity of a field
      (api/validateIP.js);
    - [Pages]: the endpoint lists of provision_cloud.js, modify_cloud.js,
      provision_l2vpn.js and modify_l2vpn.js on a heap of shared endpoint
      objects; the class [EndpointPage] is what the list operations need of a
      page, and the four pages are its instances; l3/endpoint.js; and the endpoint
      dialog over time, with the answers it waits for;
    - [Views]: the cards, rows and buttons those lists become (l3/peering.js,
      l3/endpoint.js, l2/endpoint.js), the statistics frames of modify_cloud.js
      and the tables of l2/circuit.js;
    - [EndpointModal]: both forms of l2/endpoint_selection_modal.js, which
      submit to any [EndpointPage];
    - [Peering]: l3/peering_modal.js;
    - [Handlers]: the save, delete and load handlers of the four pages and
      l2/schedule.js.

    The rest of the front end:
    - [Session]: cookie.js and user_menu.js;
    - [Command]: command/selector.js;
    - [Acl]: acl.js and acl/, and the panel and table of
      js_utilities/interface_acl_panel.js and interface_acl_table.js;
    - [AdminApi]: the client of the newer administration pages
      (new/admin_new/src/api), in the module [Admin];
    - [AdminPages]: their ACL pages and contexts/PageContext.jsx;
    - [Tables]: datatable_utils.js and path_utils.js over the class
      [DataTable], the documented behaviour of a YUI table; a list is an
      instance;
    - [TagPanel]: makeTagSelectPanel of utility.js as a step function on events;
    - [Widgets]: the calendar, help panels and radio buttons of utility.js;
    - [Graph]: the traffic graph of graph.js, a state machine over answers,
      timers and choices, with [Decimals], the decimal numbers it and the map
      round and print;
    - [AdminForms]: the forms, lists and tables of the newer administration pages
      (new/admin_new/src/components and pages), on top of the client [Admin];
    - [AdminRoutes]: their routes (App.jsx, pages/AdminRoute.jsx), the links that
      lead to them and what each page asks for when it opens, over the class
      [Router], the documented matching of paths;
    - [Home]: the home page (index.js) and the search of its tables (utility.js);
    - [HomeTables]: the columns of its tables, its tabs, its feedback panel and
      its ACL tab;
    - [Directory]: phonebook.js, entity.js, welcome.js and workgroups.js;
    - [Circuits]: the pages of one circuit (edit_details.js, interdomain.js,
      circuit_details_box.js, edit_circuit_name.js) and their next button.

    The older administration page (js_templates/admin.js):
    - [DataSource]: a YUI data source as the class [DataSource], its documented
      laws [DataSourceLaws], an instance, and the attributes of buttons and
      tables after a run;
    - [Checks]: the conditions under which its forms refuse their input;
    - [Console]: its handlers, one definition per button or row, and
      js_utilities/misc_funcs.js;
    - [ConsoleProofs]: their theorems;
    - [ConsoleTables]: its tables and cell editors, its searches and the form
      that moves a configuration.

    The network map (js_templates/maps.js and map_legend.js):
    - [NetworkMap]: the nodes and links on the layer as a store of shared
      features, drawn, removed and coloured from the session;
    - [NetworkMapProofs]: their theorems.

    The map engine (openlayers/lib/OpenLayers), on which the network map draws:
    - [MapHistory]: Control/NavigationHistory.js, with a bounded history as its
      specification;
    - [MapIndex]: the drawing order of Renderer/Elements.js;
    - [MapGrid]: the grid of tiles of Layer/Grid.js;
    - [MapBounds]: the positions, pixels, sizes and bounds of BaseTypes;
    - [MapView]: the centre, zoom and resolutions of Map.js and Layer.js, and the
      zoom the page keeps;
    - [MapSelect]: the features of Layer/Vector.js under the two selection
      controls of the page (Control/SelectFeature.js, Handler/Feature.js);
    - [MapNavigate]: dragging, double clicks and the wheel (Handler/Drag.js, Click.js
      and MouseWheel.js, Control/DragPan.js and Navigation.js), which move the
      view of [MapView];
    - [MapPopup]: the size and place of popups and the panning that brings them
      into view (Popup.js, Popup/Anchored.js, Popup/Framed.js, [panTo] of Map.js);
    - [MapEvents]: the listeners of Events.js and the handlers of Handler.js, with a
      list of the handlers on duty as their specification;
    - [MapLayers]: the layers and popups of Map.js, the handlers that raise a
      layer, and the layers of the page through its reloads (maps.js).

    ** What the theorems show

    - Provisioning: the endpoints accepted are exactly those that follow the
      peering rules of their cloud provider, all are checked before anything is
      sent, one request is sent, and the receiver reads the endpoints back from
      it ([Provision]).
    - Endpoint lists: whatever the user does who waits for the forms of the endpoint
      dialog, every endpoint knows its position, so that buttons and dialogs act on
      the endpoint they show and on no other; a user who does not wait can leave a
      hole in the list ([Pages], an invariant by induction on the actions).
    - Dialogs: the lists offer and preselect the right VLANs and interfaces, what
      is shown is what is submitted, and submission throws exactly without an
      endpoint to write to, for an empty bandwidth list and for a GCP endpoint with
      jumbo frames ([EndpointModal]); a peering has addresses of one family
      ([Peering]).
    - Address expressions: they accept exactly the IPv4 and IPv6 texts, with the
      prefix lengths in range ([ValidateIP]).
    - Asynchrony: client calls used without a handler never throw ([Api]); saving
      never leaves the page covered ([Handlers]); the tag panel hands over an
      endpoint only for a click whose two checks passed, with the tag the fields named
      at that click, in any interleaving, and at most once without MAC addresses
      ([TagPanel]).
    - Round trips: the session through storage or cookie and the loading of the next
      page ([Session]), an ACL
      through the panel and the form that edit it ([Acl], [AdminPages]), a cloud gateway
      through its form ([EndpointModal]).
    - Tables: dragging permutes the rows as shown, and choosing a link replaces
      its group's link ([Tables]); a command is run on the endpoint the lists show
      ([Command]); the VLAN filter of the home page, which deletes rows while it
      corrects their indices, leaves exactly the rows meant ([Home]); the pages of
      a table show every row once ([AdminForms]).
    - Forms: the form of a node submits texts and numbers only, and the parameters of
      the request are what was typed last, else the document, else the default, as
      long as nothing in them means something in a query ([AdminForms], composed with
      [Admin]); the form of a
      circuit goes to the page of the option chosen, with a bandwidth in its
      range, and an interdomain circuit leaves its page with two endpoints
      ([Circuits]).
    - The older administration page: a panel sends exactly when its checks pass
      and the user confirms; a remote link is written exactly when its form is
      acceptable, the service lists the links, and no name clashes; coordinates and VLAN ranges that are sent are in
      range, the service reads every field back, and the buttons are enabled
      again whatever the reply is ([Checks], [ConsoleProofs]).
    - The map engine: the two stacks of the navigation history refine a bounded
      history with a cursor ([MapHistory]); the binary search ends and puts an
      element where a scan would, keeping the order sorted ([MapIndex]); tiling
      covers the viewport, dragging keeps the tiles side by side and near its
      corner, and the spiral draws every tile once, all of them with termination
      ([MapGrid]); the intersection of bounds is that of their points, and
      wrapping a longitude ends inside the map ([MapBounds]); pixels and positions
      are inverse to each other, and whatever the user does the view stays centred and
      within its extent, and once changed its zoom is at least 2 ([MapView]).
    - Selection: with mouse events, drawing and removal in any order no callback
      throws and at most one feature, one of the layer, is selected; a click
      toggles; the popup follows the mouse until a feature is clicked
      ([MapSelect]).
    - The mouse: within the extents of the map, after a drag that was noticed the
      position that was grabbed is under the mouse, whatever moves were skipped,
      and the wheel zooms around the position under it ([MapNavigate], composed
      with [MapView]); a popup that sizes itself is
      within the margins of the map once it is drawn ([MapPopup], composed with
      both).
    - Events and layers: the listeners of a map refine the list of the handlers
      on duty, the latest first, and triggering a mouse event is what the
      selection controls are shown ([MapEvents], composed with [MapSelect]);
      operations on layers throw only for removing a layer that is not there and
      never put one on the map twice, and disciplined ones keep one visible base
      layer and the z-indices of their order, which is the order painted as long as
      base layers and overlays have room; reloading the network leaves one layer of
      it on the map ([MapLayers]).
    - Routes: every link of the newer administration pages opens the page it is
      for, with the identifiers of its row, and the page asks the service for that
      record first and ends without an unhandled exception, with the outcome of each
      page when the service cannot be reached ([AdminRoutes], composed with [Admin]).
    - The network map: features on the layer are well formed after any sequence
      of operations, none of which throws but for removals; an update from the
      session paints every node and link as the session says; a click on a node
      opens its panel with what the service sent, unless it has no datapath identifier
      ([NetworkMapProofs]).
    - Pages as rendered: every card and row shows the endpoint or peering at its
      position and its delete button removes that one; the statistics show the
      endpoint selected, with the addresses of its graphs ([Views]).
    - Timers: a graph that says it is loading has a request or a timer under way,
      and polls once as long as choices wait for their answer ([Graph]); the
      search of workgroups ends with the text in its box, and the two lists of the
      form that moves a configuration are filled for one node ([ConsoleTables]); a
      calendar shows the time it was opened with ([Widgets]).

    Some theorems state what the code does where that is not what it means to
    do: the schedule of a new circuit is shifted by an argument, a failed layer 2
    deletion leaves the dialog open, a row dragged away and back is moved, an ACL
    can be saved without its workgroup before the workgroups arrive, an error of
    the tag check disables the panel for good, ACL notes can add parameters, the
    page context forgets the type of a workgroup, some buttons stay disabled
    after a failure, replies that overtake each other show the changes of another
    node, going back in the phonebook loses the trail, a history without limit
    keeps one view, a grid that shrinks can lose a tile, overlapping requests
    leave a graph with a timer nothing stops, a connection without endpoints
    cannot be opened, a help panel appears after the mouse has left, a popup
    stays on the map when the mouse leaves a selected feature, a reload of the
    network leaves its old controls active, zooming out at the smallest zoom
    recentres the map, a quick drag after another is lost, the wheel moves the map at
    the deepest zoom, a button of the endpoint dialog pressed before its form arrives
    acts on another position, and errors of some administration pages are not shown
    or take the page down.

    ** Modelling choices and bounds

    - Numbers are NaN or finite decimals; the program only computes with values
      far below 2^53, where doubles agree with them.  Strings are UTF-8 bytes.
    - Fuel: printing a number uses its binary size plus one as fuel, and
      [JSON.parse] the length of its text plus one; [dec_digits_value] and
      [json_parse_stringify] show that they are enough.  The loops of the map
      engine run on fuel and return [None] when it ends: [insert_terminates]
      bounds the rounds of the binary search by a logarithm, the spiral has five
      rounds for each tile and five more ([spiral_draws_all]), tiling as many as
      the distance to the far edges in tiles, the least number of rows or
      columns, and two ([viewport_covered]), and dragging needs as many as the
      pixels the first tile is away from its place ([tiles_follow]).  Drawing a
      node draws its neighbours in turn, with one more fuel than the nodes not yet
      drawn ([session_shown]); wrapping a longitude takes as many turns as whole
      widths it is away ([wrapped_longitude]); the listener that keeps the zoom is
      called again by its own change, once, so that two are enough
      ([view_kept]).  Everything else is structural recursion.
    - Coordinates of the map are rationals, pixels integers; [Math.round] of a
      pixel offset is kept.
    - An await is a point where only the awaited request happens.  Where the
      order of events matters ([TagPanel], the replies of the panel in [Acl], the
      configuration panel in [Console], the endpoint dialog in [Pages], the dialogs of
      [AdminForms], [Graph],
      [ConsoleTables], [Widgets], [MapSelect] and [MapNavigate]) the events are explicit.
    - Widgets of libraries are classes with their documented laws and an
      instance: [DataTable], [DataSource], [Router], the slider and the search
      expressions of [Circuits] and [Home].  The law of [Router] is stated for
      paths of lower-case letters and digits, which the links are made of.  Parsing
      the label of a line as markup and writing it again is the class [LabelMarkup]
      of [NetworkMap], whose law is stated for texts without tags and references.
    - The frames of an animated pan are any positions; what the browser measures
      of a popup is any size.
    - Positions of mouse events are objects with an identity where the code
      compares them ([MapNavigate]).
    - Requests a page starts together and waits for together run one after the
      other.

    ** What is not modelled

    The HTML that pages render (but for the texts they state, the rows of their
    tables and the arguments of their buttons and links); the YUI, jQuery, Chosen,
    React and flot libraries; of OpenLayers, everything but the parts above: what
    is left draws, parses formats or listens to the browser; the geometry of the
    lines and the width of the popups of the network map; the layout of boxes and
    panels; component.js, a counter and a table of objects; and the Perl back
    end. *)

From Stdlib Require Import ZArith Lia Ascii String.
From stdpp Require Import base option list strings gmap numbers tactics.

Declare Scope js_scope.
Delimit Scope js_scope with js.

(** The empty string; a name for it, used everywhere a literal would be. *)
Abbreviation estr := EmptyString.

#[global] Arguments String.append !_ _ / : simpl nomatch.

(** The double quote character and the one-character string holding it. *)
Definition dq_char : ascii := ascii_of_nat 34.
Definition dq : string := String dq_char estr.

(** Database of rewriting and resolution lemmas of the library. *)
Create HintDb oess discriminated.

(** Simplify, case on every match of goal and context, split, search. *)
Ltac crush :=
  repeat (simplify_eq/= || case_match || destruct_and? || destruct_or?); eauto with oess.

(** ** Characters *)

Definition is_digit (c : ascii) : bool :=
  let n := nat_of_ascii c in Nat.leb 48 n && Nat.leb n 57.

Definition digit_val (c : ascii) : N := N_of_ascii c - 48.

Definition digit_char (d : N) : ascii := ascii_of_N (48 + d).

Definition is_hex (c : ascii) : bool :=
  let n := nat_of_ascii c in
  is_digit c || (Nat.leb 65 n && Nat.leb n 70) || (Nat.leb 97 n && Nat.leb n 102).

Definition hex_val (c : ascii) : N :=
  let n := N_of_ascii c in
  if is_digit c then n - 48
  else if (n <=? 70)%N then n - 55 else n - 87.

(** Lower-case hexadecimal digit. *)
Definition hex_char (d : N) : ascii :=
  if (d <? 10)%N then ascii_of_N (48 + d) else ascii_of_N (87 + d).

(** Upper-case hexadecimal digit. *)
Definition hex_char_up (d : N) : ascii :=
  if (d <? 10)%N then ascii_of_N (48 + d) else ascii_of_N (55 + d).

(** ** Strings *)

Fixpoint str_forall (p : ascii -> bool) (s : string) : bool :=
  match s with
  | EmptyString => true
  | String c s' => p c && str_forall p s'
  end.

(** Longest prefix of characters satisfying [p], and the rest. *)
Fixpoint span (p : ascii -> bool) (s : string) : string * string :=
  match s with
  | EmptyString => (estr, estr)
  | String c s' =>
      if p c then let '(a, b) := span p s' in (String c a, b) else (estr, s)
  end.

Fixpoint str_concat (l : list string) : string :=
  match l with
  | [] => estr
  | s :: l' => s +:+ str_concat l'
  end.

Fixpoint str_join (sep : string) (l : list string) : string :=
  match l with
  | [] => estr
  | [s] => s
  | s :: l' => s +:+ sep +:+ str_join sep l'
  end.

#[global] Arguments str_join : simpl never.

(** ** Decimal printing *)

(** Digits of [n] in front of [acc]; [fuel] is at least the number of digits. *)
Fixpoint dec_digits (fuel : nat) (n : N) (acc : string) : string :=
  match fuel with
  | O => acc
  | S f =>
      let acc' := String (digit_char (n mod 10)) acc in
      if (n <? 10)%N then acc' else dec_digits f (n / 10) acc'
  end.

Definition string_of_N (n : N) : string := dec_digits (S (N.size_nat n)) n estr.

Definition string_of_Z (z : Z) : string :=
  match z with
  | Z0 => string_of_N 0
  | Zpos p => string_of_N (Npos p)
  | Zneg p => String "-" (string_of_N (Npos p))
  end.

(** Value of a digit string in base 10 or 16, most significant first. *)
Fixpoint digits_value (base : N) (dv : ascii -> N) (acc : N) (s : string) : N :=
  match s with
  | EmptyString => acc
  | String c s' => digits_value base dv (acc * base + dv c) s'
  end.

Definition dec_value (s : string) : N := digits_value 10 digit_val 0 s.

(** ** Lists *)

(** [Array.prototype.splice(i, 1)] for a non-negative [i]. *)
Definition splice1 {A} (i : nat) (l : list A) : list A := take i l ++ drop (S i) l.

(** [Array.prototype.splice(i, 0, x)]: insertion in front of position [i]. *)
Definition insert_at {A} (i : nat) (x : A) (l : list A) : list A := take i l ++ x :: drop i l.

(** ** Lemmas: characters and strings *)

Lemma str_app_assoc (a b c : string) : (a +:+ b) +:+ c = a +:+ (b +:+ c).
Proof. induction a; simpl; congruence. Qed.

Lemma str_app_nil_r (a : string) : a +:+ estr = a.
Proof. induction a; simpl; congruence. Qed.

Lemma str_app_cons c (a b : string) : String c a +:+ b = String c (a +:+ b).
Proof. reflexivity. Qed.

Lemma str_forall_app p a b : str_forall p (a +:+ b) = str_forall p a && str_forall p b.
Proof. induction a; simpl; [done|]. rewrite IHa. by rewrite andb_assoc. Qed.

Lemma str_length_app a b : String.length (a +:+ b) = String.length a + String.length b.
Proof. induction a; simpl; congruence. Qed.

Lemma str_join_one sep x : str_join sep [x] = x.
Proof. reflexivity. Qed.

Lemma str_join_cons sep x y l : str_join sep (x :: y :: l) = x +:+ sep +:+ str_join sep (y :: l).
Proof. reflexivity. Qed.

(** [span] of a string of matching characters followed by a mismatch. *)
Lemma span_app p a b :
  str_forall p a = true ->
  (match b with EmptyString => True | String c _ => p c = false end) ->
  span p (a +:+ b) = (a, b).
Proof.
  induction a as [|c a IH]; simpl; intros Ha Hb.
  - destruct b as [|d b]; simpl; [done|]. by rewrite Hb.
  - apply andb_true_iff in Ha as [Hc Ha]. rewrite Hc, (IH Ha Hb). done.
Qed.

Lemma span_spec p s a b :
  span p s = (a, b) ->
  s = a +:+ b /\ str_forall p a = true /\
  match b with EmptyString => True | String c _ => p c = false end.
Proof.
  revert a b; induction s as [|c s IH]; simpl; intros a b H; [by simplify_eq|].
  destruct (p c) eqn:Hc.
  - destruct (span p s) as [a' b'] eqn:E. simplify_eq/=.
    destruct (IH _ _ eq_refl) as (-> & Ha & Hb). by rewrite Hc, Ha.
  - simplify_eq/=. by rewrite Hc.
Qed.

(** ** Lemmas: decimal printing *)

Lemma digit_char_is_digit d : (d < 10)%N -> is_digit (digit_char d) = true.
Proof.
  intros H. destruct d as [|p]; [reflexivity|].
  do 4 (destruct p as [p|p|]; try reflexivity; try lia).
Qed.

Lemma digit_val_char d : (d < 10)%N -> digit_val (digit_char d) = d.
Proof.
  intros H. unfold digit_val, digit_char. rewrite N_ascii_embedding; lia.
Qed.

Lemma dec_digits_digits fuel n acc :
  str_forall is_digit acc = true -> str_forall is_digit (dec_digits fuel n acc) = true.
Proof.
  revert n acc; induction fuel as [|f IH]; simpl; intros n acc H; [done|].
  assert (str_forall is_digit (String (digit_char (n mod 10)) acc) = true) as H'.
  { simpl. rewrite H, digit_char_is_digit; [done|]. apply N.mod_lt. lia. }
  case_match; [done|]. by apply IH.
Qed.

Lemma digits_value_app b dv a s1 s2 :
  digits_value b dv a (s1 +:+ s2) = digits_value b dv (digits_value b dv a s1) s2.
Proof. revert a; induction s1; simpl; intros; auto. Qed.

Lemma size_nat_bound n : (n < 2 ^ N.of_nat (N.size_nat n))%N.
Proof.
  destruct n as [|p]; [reflexivity|]. simpl.
  induction p as [p IH|p IH|]; simpl; [| |reflexivity].
  - rewrite Nat2N.inj_succ, N.pow_succ_r' . simpl in IH. lia.
  - rewrite Nat2N.inj_succ, N.pow_succ_r'. simpl in IH. lia.
Qed.

Lemma dec_digits_value fuel n acc a :
  (n < 2 ^ N.of_nat fuel)%N -> fuel <> 0 ->
  exists k, digits_value 10 digit_val a (dec_digits fuel n acc)
    = digits_value 10 digit_val (a * 10 ^ k + n) acc.
Proof.
  revert n acc a; induction fuel as [|f IH]; intros n acc a Hn Hf; [done|].
  simpl dec_digits. destruct (n <? 10)%N eqn:E.
  - apply N.ltb_lt in E. exists 1%N. simpl.
    rewrite (N.mod_small n 10) by lia. by rewrite digit_val_char, N.pow_1_r by lia.
  - apply N.ltb_ge in E.
    assert (n / 10 < 2 ^ N.of_nat f)%N as Hlt.
    { apply N.Div0.div_lt_upper_bound. rewrite Nat2N.inj_succ, N.pow_succ_r' in Hn. lia. }
    assert (f <> 0) as Hf0.
    { intros ->. simpl in Hlt. assert (n / 10 = 0)%N as Hz by lia.
      apply N.div_small_iff in Hz; lia. }
    destruct (IH (n / 10)%N (String (digit_char (n mod 10)) acc) a Hlt Hf0) as [k ->].
    exists (N.succ k). simpl. rewrite digit_val_char by (apply N.mod_lt; lia).
    f_equal. rewrite N.pow_succ_r'. pose proof (N.div_mod n 10). lia.
Qed.

Lemma string_of_N_digits n : str_forall is_digit (string_of_N n) = true.
Proof. by apply dec_digits_digits. Qed.

Lemma dec_value_string_of_N n : dec_value (string_of_N n) = n.
Proof.
  unfold dec_value, string_of_N.
  destruct (dec_digits_value (S (N.size_nat n)) n estr 0%N) as [k ->]; [|done|simpl; lia].
  pose proof (size_nat_bound n). rewrite Nat2N.inj_succ, N.pow_succ_r'. lia.
Qed.

Lemma dec_digits_nonempty fuel n acc :
  fuel <> 0 -> exists c s, dec_digits fuel n acc = String c s.
Proof.
  revert n acc; induction fuel as [|f IH]; intros n acc H; [done|].
  simpl. case_match; [eauto|]. destruct f; [simpl; eauto|]. by apply IH.
Qed.

Lemma string_of_N_cons n : exists c s, string_of_N n = String c s /\ is_digit c = true.
Proof.
  destruct (dec_digits_nonempty (S (N.size_nat n)) n estr) as (c & s & H); [done|].
  exists c, s. split; [done|]. pose proof (string_of_N_digits n) as D.
  unfold string_of_N in D. rewrite H in D. simpl in D. by apply andb_true_iff in D as [].
Qed.

Lemma string_of_N_inj n m : string_of_N n = string_of_N m -> n = m.
Proof. intros H. by rewrite <-(dec_value_string_of_N n), H, dec_value_string_of_N. Qed.

(** ** Lemmas: lists *)

Lemma length_splice1 {A} i (l : list A) : i < length l -> length (splice1 i l) = length l - 1.
Proof. intros. unfold splice1. rewrite length_app, length_take, length_drop. lia. Qed.

Lemma splice1_ge {A} i (l : list A) : length l <= i -> splice1 i l = l.
Proof. intros. unfold splice1. rewrite take_ge, drop_ge by lia. apply app_nil_r. Qed.

Lemma splice1_lookup_lt {A} i j (l : list A) : j < i -> splice1 i l !! j = l !! j.
Proof.
  intros. unfold splice1. destruct (decide (j < length l)).
  - rewrite lookup_app_l by (rewrite length_take; lia). by rewrite lookup_take_lt.
  - rewrite (lookup_ge_None_2 l) by lia. apply lookup_ge_None.
    rewrite length_app, length_take, length_drop. lia.
Qed.

Lemma splice1_lookup_ge {A} i j (l : list A) :
  i < length l -> i <= j -> splice1 i l !! j = l !! S j.
Proof.
  intros. unfold splice1. rewrite lookup_app_r by (rewrite length_take; lia).
  rewrite lookup_drop, length_take. f_equal. lia.
Qed.

Lemma splice1_sublist {A} i (l : list A) : sublist (splice1 i l) l.
Proof.
  unfold splice1. rewrite <-(take_drop i l) at 3. apply sublist_app; [done|].
  destruct (drop i l) as [|x r] eqn:E.
  - apply (f_equal length) in E. rewrite length_drop in E. simpl in E.
    rewrite drop_ge by lia. done.
  - assert (drop (S i) l = r) as ->.
    { replace (S i) with (i + 1) by lia. rewrite <-drop_drop, E. done. }
    by apply sublist_cons.
Qed.

Lemma splice1_NoDup {A} i (l : list A) : NoDup l -> NoDup (splice1 i l).
Proof. intros H. eapply sublist_NoDup; [exact H|apply splice1_sublist]. Qed.
