(* ===== verification/JsValue.v ===== *)
(** * JavaScript values

    The part of the language every component of the front end uses: the
    primitive values, plain objects and arrays, truthiness, the two
    equalities, the conversions to number and to string, [parseInt], the
    relational operators, property access with its [TypeError], and the
    result of a computation that may throw.

    A number is NaN or a finite decimal [man * 10^-scale]; the program only
    computes with identifiers, VLAN tags, bandwidths, positions and times, all
    far below 2^53, where the decimal and the double agree.  The literal
    Infinity is outside the model.  A string is the UTF-8 encoding of the
    JavaScript string. *)

From Stdlib Require Import ZArith Lia Ascii String.
From stdpp Require Import base option list strings gmap numbers tactics.
From S2P Require Import Prelude.

(** ** Data *)

Record dec := Dec { dman : Z; dscale : nat }.

Inductive num :=
  | NaN
  | Fin (d : dec).

Inductive val :=
  | VUndef
  | VNull
  | VBool (b : bool)
  | VNum (n : num)
  | VStr (s : string)
  | VArr (l : list val)
  | VObj (o : list (string * val)).

Abbreviation VInt z := (VNum (Fin (Dec z 0))).

(** What a computation can throw: an engine error (of some class), or a value
    thrown by [throw]. *)
Inductive exn :=
  | EType
  | ERef
  | ESyntax
  | EURI
  | ENet
  | EVal (v : val).

Inductive res (A : Type) :=
  | Ok (a : A)
  | Err (e : exn).

#[global] Arguments Ok {A} a.
#[global] Arguments Err {A} e.

Definition res_bind {A B} (m : res A) (f : A -> res B) : res B :=
  match m with
  | Ok a => f a
  | Err e => Err e
  end.

Notation "'let?' x ':=' m 'in' k" := (res_bind m (fun x => k))
  (at level 10, x binder, m at level 100, k at level 200) : js_scope.

Open Scope js_scope.

(** ** Numbers *)

Definition dscale_up (d : dec) (k : nat) : Z := (dman d * 10 ^ Z.of_nat k)%Z.

Definition dec_compare (a b : dec) : comparison :=
  Z.compare (dscale_up a (dscale b)) (dscale_up b (dscale a)).

Definition num_eqb (a b : num) : bool :=
  match a, b with
  | Fin x, Fin y => match dec_compare x y with Eq => true | _ => false end
  | _, _ => false
  end.

Definition num_ltb (a b : num) : bool :=
  match a, b with
  | Fin x, Fin y => match dec_compare x y with Lt => true | _ => false end
  | _, _ => false
  end.

Definition num_leb (a b : num) : bool :=
  match a, b with
  | Fin x, Fin y => match dec_compare x y with Gt => false | _ => true end
  | _, _ => false
  end.

(** Remove trailing zeros after the decimal point. *)
Fixpoint dec_strip (m : Z) (s : nat) : dec :=
  match s with
  | O => Dec m 0
  | S s' => if (m mod 10 =? 0)%Z then dec_strip (m / 10) s' else Dec m s
  end.

Definition dec_norm (d : dec) : dec := dec_strip (dman d) (dscale d).

(** [n] on [w] digits, filled with zeros on the left. *)
Definition pad_left (w : nat) (n : N) : string :=
  let s := string_of_N n in
  str_concat (replicate (w - String.length s) (String "0" estr)) +:+ s.

Definition num_to_string (n : num) : string :=
  match n with
  | NaN => "NaN"
  | Fin d =>
      let '(Dec m s) := dec_norm d in
      match s with
      | O => string_of_Z m
      | _ =>
          let a := Z.to_N (Z.abs m) in
          let p := (10 ^ N.of_nat s)%N in
          (if (m <? 0)%Z then "-" else estr)
            +:+ string_of_N (a / p) +:+ "." +:+ pad_left s (a mod p)
      end
  end.

(** Division by a power of ten, as in [x / 1000]. *)
Definition num_shift (k : nat) (n : num) : num :=
  match n with
  | NaN => NaN
  | Fin (Dec m s) => Fin (dec_norm (Dec m (s + k)))
  end.

Definition num_opp (n : num) : num :=
  match n with NaN => NaN | Fin (Dec m s) => Fin (Dec (- m) s) end.

Definition num_add (a b : num) : num :=
  match a, b with
  | Fin x, Fin y =>
      Fin (dec_norm (Dec (dscale_up x (dscale y) + dscale_up y (dscale x)) (dscale x + dscale y)))
  | _, _ => NaN
  end.

(** ** Text of numbers *)

Definition is_space (c : ascii) : bool :=
  let n := nat_of_ascii c in Nat.eqb n 32 || (Nat.leb 9 n && Nat.leb n 13).

Definition ltrim (s : string) : string := snd (span is_space s).

Fixpoint rtrim (s : string) : string :=
  match s with
  | EmptyString => estr
  | String c s' =>
      match rtrim s' with
      | EmptyString => if is_space c then estr else String c estr
      | r => String c r
      end
  end.

(** [String.prototype.trim]. *)
Definition js_trim (s : string) : string := rtrim (ltrim s).

(** Sign of a numeric text: whether it is negative, and the rest. *)
Definition take_sign (s : string) : bool * string :=
  match s with
  | String "-" s' => (true, s')
  | String "+" s' => (false, s')
  | _ => (false, s)
  end.

Definition signed (neg : bool) (n : num) : num := if neg then num_opp n else n.

(** Exponent part of a decimal literal: [None] if malformed. *)
Definition take_exponent (s : string) : option Z :=
  match s with
  | EmptyString => Some 0%Z
  | String c s' =>
      if (Ascii.eqb c "e" || Ascii.eqb c "E")%char then
        let '(neg, r) := take_sign s' in
        let '(ds, rest) := span is_digit r in
        match ds, rest with
        | EmptyString, _ => None
        | _, EmptyString =>
            Some (if neg then - Z.of_N (dec_value ds) else Z.of_N (dec_value ds))%Z
        | _, _ => None
        end
      else None
  end.

Definition scale_by (m : Z) (s : nat) (e : Z) : num :=
  let sc := (Z.of_nat s - e)%Z in
  if (sc <? 0)%Z then Fin (Dec (m * 10 ^ (- sc)) 0)
  else Fin (dec_norm (Dec m (Z.to_nat sc))).

(** Unsigned decimal literal: digits, optional fraction, optional exponent. *)
Definition unsigned_literal (s : string) : num :=
  let '(ip, r) := span is_digit s in
  let '(fp, r') :=
    match r with
    | String "." r1 => span is_digit r1
    | _ => (estr, r)
    end in
  match ip +:+ fp with
  | EmptyString => NaN
  | ds =>
      match take_exponent r' with
      | None => NaN
      | Some e => scale_by (Z.of_N (dec_value ds)) (String.length fp) e
      end
  end.

(** ToNumber of a string. *)
Definition string_to_num (s : string) : num :=
  let t := js_trim s in
  match t with
  | EmptyString => Fin (Dec 0 0)
  | String "0" (String c h) =>
      if (Ascii.eqb c "x" || Ascii.eqb c "X")%char then
        match h with
        | EmptyString => NaN
        | _ => if str_forall is_hex h
               then Fin (Dec (Z.of_N (digits_value 16 hex_val 0 h)) 0) else NaN
        end
      else unsigned_literal t
  | _ => let '(neg, u) := take_sign t in signed neg (unsigned_literal u)
  end.

(** [parseInt] without a radix, on a string. *)
Definition parse_int_str (s : string) : num :=
  let '(neg, r) := take_sign (ltrim s) in
  let hex (h : string) :=
    match span is_hex h with
    | (EmptyString, _) => NaN
    | (ds, _) => signed neg (Fin (Dec (Z.of_N (digits_value 16 hex_val 0 ds)) 0))
    end in
  let decimal :=
    match span is_digit r with
    | (EmptyString, _) => NaN
    | (ds, _) => signed neg (Fin (Dec (Z.of_N (dec_value ds)) 0))
    end in
  match r with
  | String "0" (String c h) =>
      if (Ascii.eqb c "x" || Ascii.eqb c "X")%char then hex h else decimal
  | _ => decimal
  end.

(** ** Conversions *)

Definition truthy (v : val) : bool :=
  match v with
  | VUndef | VNull => false
  | VBool b => b
  | VNum NaN => false
  | VNum (Fin d) => negb (dman d =? 0)%Z
  | VStr EmptyString => false
  | VStr _ => true
  | VArr _ | VObj _ => true
  end.

(** ToString; an array prints its elements joined by commas, with undefined
    and null as the empty string. *)
Fixpoint to_string (v : val) : string :=
  match v with
  | VUndef => "undefined"
  | VNull => "null"
  | VBool true => "true"
  | VBool false => "false"
  | VNum n => num_to_string n
  | VStr s => s
  | VArr l =>
      str_join "," (map (fun x => match x with
                                  | VUndef | VNull => estr
                                  | _ => to_string x
                                  end) l)
  | VObj _ => "[object Object]"
  end.

Definition to_number (v : val) : num :=
  match v with
  | VUndef => NaN
  | VNull => Fin (Dec 0 0)
  | VBool b => Fin (Dec (if b then 1 else 0) 0)
  | VNum n => n
  | VStr s => string_to_num s
  | VArr _ | VObj _ => string_to_num (to_string v)
  end.

Definition parseInt (v : val) : num := parse_int_str (to_string v).

(** Is the value an object (of any kind)? *)
Definition is_object (v : val) : bool :=
  match v with VArr _ | VObj _ => true | _ => false end.

(** [===].  The program only compares with a primitive on one side, where an
    object is always different; two objects are never compared. *)
Definition strict_eq (a b : val) : bool :=
  match a, b with
  | VUndef, VUndef | VNull, VNull => true
  | VBool x, VBool y => Bool.eqb x y
  | VNum x, VNum y => num_eqb x y
  | VStr x, VStr y => String.eqb x y
  | _, _ => false
  end.

(** [==] with a primitive on at least one side. *)
Definition loose_eq (a b : val) : bool :=
  match a, b with
  | (VUndef | VNull), (VUndef | VNull) => true
  | (VUndef | VNull), _ | _, (VUndef | VNull) => false
  | VStr x, VStr y => String.eqb x y
  | VStr x, (VArr _ | VObj _) => String.eqb x (to_string b)
  | (VArr _ | VObj _), VStr y => String.eqb (to_string a) y
  | _, _ => num_eqb (to_number a) (to_number b)
  end.

Definition str_ltb (a b : string) : bool :=
  match String.compare a b with Lt => true | _ => false end.

(** Both operands convert to strings: compare as text. *)
Definition text_operands (a b : val) : option (string * string) :=
  let prim v := match v with VArr _ | VObj _ => Some (to_string v) | VStr s => Some s | _ => None end in
  match prim a, prim b with
  | Some x, Some y => Some (x, y)
  | _, _ => None
  end.

Definition js_lt (a b : val) : bool :=
  match text_operands a b with
  | Some (x, y) => str_ltb x y
  | None => num_ltb (to_number a) (to_number b)
  end.

Definition js_le (a b : val) : bool :=
  match text_operands a b with
  | Some (x, y) => negb (str_ltb y x)
  | None => num_leb (to_number a) (to_number b)
  end.

Definition js_gt (a b : val) : bool := js_lt b a.
Definition js_ge (a b : val) : bool := js_le b a.

(** [a || b], on values. *)
Definition js_or (a b : val) : val := if truthy a then a else b.

(** ** Objects and arrays *)

Fixpoint obj_get (k : string) (o : list (string * val)) : option val :=
  match o with
  | [] => None
  | (k', v) :: o' => if String.eqb k k' then Some v else obj_get k o'
  end.

(** Canonical array index of a property name. *)
Definition array_index (k : string) : option N :=
  match k with
  | EmptyString => None
  | _ => if str_forall is_digit k && String.eqb (string_of_N (dec_value k)) k
         then Some (dec_value k) else None
  end.

(** Property order: array indices come first, ascending; every other name stays
    in order of creation.  [key_first k k']: a new [k] goes in front of [k']. *)
Definition key_first (k k' : string) : bool :=
  match array_index k, array_index k' with
  | Some n, Some m => (n <? m)%N
  | Some _, None => true
  | None, _ => false
  end.

(** Assignment keeps the place of an existing property, and puts a new one
    where [Object.keys] and [for in] will visit it. *)
Fixpoint obj_set (k : string) (v : val) (o : list (string * val)) : list (string * val) :=
  match o with
  | [] => [(k, v)]
  | (k', v') :: o' =>
      if String.eqb k k' then (k, v) :: o'
      else if key_first k k' then (k, v) :: o
      else (k', v') :: obj_set k v o'
  end.

(** The names of an object in the order of [Object.keys] and [for in]. *)
Definition names (o : list (string * val)) : list string := map fst o.

(** [k] may stand in front of [k'] in an object. *)
Definition key_ok (k k' : string) : bool := negb (String.eqb k k') && negb (key_first k' k).

(** The property list of an object: distinct names, in property order. *)
Fixpoint canonical (ks : list string) : bool :=
  match ks with
  | [] => true
  | k :: ks' => forallb (key_ok k) ks' && canonical ks'
  end.

(** Number of UTF-16 code units of a string given by its UTF-8 bytes. *)
Fixpoint js_length (s : string) : nat :=
  match s with
  | EmptyString => 0
  | String c s' =>
      let n := nat_of_ascii c in
      (if Nat.ltb n 128 then 1
       else if Nat.ltb n 192 then 0
       else if Nat.ltb n 240 then 1 else 2) + js_length s'
  end.

(** [v.k] for a non-numeric [k]. *)
Definition prop (v : val) (k : string) : res val :=
  match v with
  | VUndef | VNull => Err EType
  | VObj o => Ok (default VUndef (obj_get k o))
  | VArr l => if String.eqb k "length" then Ok (VInt (Z.of_nat (length l))) else Ok VUndef
  | VStr s => if String.eqb k "length" then Ok (VInt (Z.of_nat (js_length s))) else Ok VUndef
  | VBool _ | VNum _ => Ok VUndef
  end.

(** [v[i]] for a non-negative integer [i]. *)
Definition index (v : val) (i : nat) : res val :=
  match v with
  | VUndef | VNull => Err EType
  | VArr l => Ok (default VUndef (l !! i))
  | VObj o => Ok (default VUndef (obj_get (string_of_N (N.of_nat i)) o))
  | _ => Ok VUndef
  end.

(** [k in v] for a non-numeric [k]. *)
Definition has (k : string) (v : val) : res bool :=
  match v with
  | VObj o => Ok (match obj_get k o with Some _ => true | None => false end)
  | VArr _ => Ok (String.eqb k "length")
  | _ => Err EType
  end.

(** The elements a [for] loop or [forEach] of an array visits; calling the
    method on another value is a [TypeError]. *)
Definition elements_of (v : val) : res (list val) :=
  match v with
  | VArr l => Ok l
  | _ => Err EType
  end.

(** Sequencing of a computation over a list, stopping at the first throw. *)
Fixpoint res_fold {A B} (f : A -> B -> res A) (a : A) (l : list B) : res A :=
  match l with
  | [] => Ok a
  | x :: l' => let? a' := f a x in res_fold f a' l'
  end.

Definition res_map {A B} (f : A -> res B) (l : list A) : res (list B) :=
  res_fold (fun acc x => let? y := f x in Ok (acc ++ [y])) [] l.

(** ** Equality is decidable *)

#[export] Instance dec_eq_dec : EqDecision dec.
Proof. solve_decision. Defined.

#[export] Instance num_eq_dec : EqDecision num.
Proof. solve_decision. Defined.

(** Induction on values, through arrays and objects. *)
Section val_ind.
Variable P : val -> Prop.
Hypothesis HUndef : P VUndef.
Hypothesis HNull : P VNull.
Hypothesis HBool : forall b, P (VBool b).
Hypothesis HNum : forall n, P (VNum n).
Hypothesis HStr : forall s, P (VStr s).
Hypothesis HArr : forall l, Forall P l -> P (VArr l).
Hypothesis HObj : forall o, Forall (fun kv => P kv.2) o -> P (VObj o).

Fixpoint val_ind' (v : val) : P v :=
  match v with
  | VUndef => HUndef
  | VNull => HNull
  | VBool b => HBool b
  | VNum n => HNum n
  | VStr s => HStr s
  | VArr l =>
      HArr l ((fix go l := match l return Forall P l with
                           | [] => Forall_nil_2 _
                           | x :: l' => Forall_cons_2 _ _ _ (val_ind' x) (go l')
                           end) l)
  | VObj o =>
      HObj o ((fix go o := match o return Forall (fun kv => P kv.2) o with
                           | [] => Forall_nil_2 _
                           | kv :: o' => Forall_cons_2 _ _ _ (val_ind' kv.2) (go o')
                           end) o)
  end.
End val_ind.

(** ** Lemmas *)

Lemma res_bind_ok {A B} (a : A) (f : A -> res B) : res_bind (Ok a) f = f a.
Proof. reflexivity. Qed.

Lemma Ok_inj {A} (a b : A) : Ok a = Ok b -> a = b.
Proof. congruence. Qed.

Lemma res_bind_assoc {A B C} (m : res A) (f : A -> res B) (g : B -> res C) :
  res_bind (res_bind m f) g = res_bind m (fun a => res_bind (f a) g).
Proof. by destruct m. Qed.

Lemma res_bind_Ok_inv {A B} (m : res A) (f : A -> res B) b :
  res_bind m f = Ok b -> exists a, m = Ok a /\ f a = Ok b.
Proof. destruct m; simpl; [eauto|done]. Qed.

(** A loop that appends one field per element. *)
Lemma res_map_fold {A B C} (f : A -> res B) (g : B -> C) hd l :
  res_fold (fun acc x => let? y := f x in Ok (acc ++ [g y])) hd l
  = let? ys := res_map f l in Ok (hd ++ map g ys).
Proof.
  assert (H : forall l acc, res_fold (fun acc x => let? y := f x in Ok (acc ++ [y])) acc l
    = let? r := res_map f l in Ok (acc ++ r)).
  { clear. unfold res_map. induction l as [|x l IH]; intros acc; simpl; [by rewrite app_nil_r|].
    destruct (f x) as [y|e]; simpl; [|done]. rewrite IH, (IH [y]).
    destruct (res_fold _ [] l); simpl; [|done]. by rewrite <-app_assoc. }
  revert hd. induction l as [|x l IH]; intros hd; simpl; [by rewrite app_nil_r|].
  unfold res_map. simpl. destruct (f x) as [y|e]; simpl; [|done].
  rewrite IH, H. destruct (res_map f l); simpl; [|done]. by rewrite <-app_assoc.
Qed.

Lemma res_map_cons {A B} (f : A -> res B) x l :
  res_map f (x :: l) = let? y := f x in let? ys := res_map f l in Ok (y :: ys).
Proof.
  unfold res_map at 1. simpl. destruct (f x) as [y|]; simpl; [|done].
  rewrite (res_map_fold f (fun z => z)). destruct (res_map f l); simpl; [|done].
  by rewrite map_id.
Qed.

Lemma obj_get_set_eq k v o : obj_get k (obj_set k v o) = Some v.
Proof.
  induction o as [|[k' v'] o IH]; simpl; [by rewrite String.eqb_refl|].
  destruct (String.eqb k k') eqn:E; [|destruct (key_first k k')];
    simpl; rewrite ?String.eqb_refl, ?E; done.
Qed.

Lemma obj_get_set_ne k k' v o : k <> k' -> obj_get k (obj_set k' v o) = obj_get k o.
Proof.
  intros Hne. pose proof (proj2 (String.eqb_neq _ _) Hne) as Hb.
  induction o as [|[k2 v2] o IH]; simpl; [by rewrite Hb|].
  destruct (String.eqb k' k2) eqn:E; [|destruct (key_first k' k2)]; simpl.
  - apply String.eqb_eq in E as ->. by rewrite Hb.
  - by rewrite Hb.
  - by rewrite IH.
Qed.

Lemma obj_set_names_in k v o k' :
  k' ∈ names (obj_set k v o) <-> k' = k \/ k' ∈ names o.
Proof.
  unfold names. induction o as [|[k2 v2] o IH]; simpl; [set_solver|].
  destruct (String.eqb k k2) eqn:E; [|destruct (key_first k k2)]; simpl; [|set_solver..].
  apply String.eqb_eq in E as ->. set_solver.
Qed.

Lemma key_ok_spec k k' : key_ok k k' = true <-> k <> k' /\ key_first k' k = false.
Proof.
  unfold key_ok. rewrite andb_true_iff, !negb_true_iff, String.eqb_neq. done.
Qed.

Lemma key_first_trans a b c :
  key_first a b = true -> key_ok b c = true -> key_ok a c = true.
Proof.
  rewrite !key_ok_spec. unfold key_first. intros Hab [Hne Hcb].
  destruct (array_index a) as [n|] eqn:Ea; [|done].
  destruct (array_index b) as [m|] eqn:Eb.
  - apply N.ltb_lt in Hab. destruct (array_index c) as [p|] eqn:Ec.
    + apply N.ltb_ge in Hcb. split; [intros ->; rewrite Ea in Ec; simplify_eq; lia|].
      apply N.ltb_ge. lia.
    + split; [intros ->; congruence|done].
  - destruct (array_index c) as [p|] eqn:Ec; [done|].
    split; [intros ->; congruence|done].
Qed.

Lemma forallb_key_ok k ks : forallb (key_ok k) ks = true <-> forall k', k' ∈ ks -> key_ok k k' = true.
Proof.
  rewrite forallb_forall. setoid_rewrite list_elem_of_In. done.
Qed.

(** Assignment keeps an object well formed. *)
Lemma obj_set_canonical k v o :
  canonical (names o) = true -> canonical (names (obj_set k v o)) = true.
Proof.
  induction o as [|[k2 v2] o IH]; simpl; intros H; [done|].
  apply andb_true_iff in H as [H1 H2].
  destruct (String.eqb k k2) eqn:E; [|destruct (key_first k k2) eqn:F]; simpl.
  - apply String.eqb_eq in E as ->. by rewrite H1, H2.
  - rewrite H1, H2, !andb_true_r. apply andb_true_iff. split.
    + apply key_ok_spec. apply String.eqb_neq in E. split; [done|].
      unfold key_first in *. destruct (array_index k), (array_index k2); try done.
      apply N.ltb_lt in F. apply N.ltb_ge. lia.
    + apply forallb_key_ok. intros k' Hk. rewrite forallb_key_ok in H1.
      eapply key_first_trans; [exact F|by apply H1].
  - rewrite (IH H2), andb_true_r. apply forallb_key_ok. intros k' Hk.
    apply obj_set_names_in in Hk as [->|Hk].
    + apply key_ok_spec. apply String.eqb_neq in E. done.
    + by apply forallb_key_ok with (names o).
Qed.

Lemma obj_set_append k v o :
  (forall k', k' ∈ names o -> key_ok k' k = true) -> obj_set k v o = o ++ [(k, v)].
Proof.
  induction o as [|[k2 v2] o IH]; simpl; intros H; [done|].
  assert (key_ok k2 k = true) as Hk by (apply H; set_solver).
  apply key_ok_spec in Hk as [Hne Hf]. apply not_eq_sym, String.eqb_neq in Hne.
  rewrite Hne, Hf. f_equal. apply IH. intros k' Hk'. apply H. set_solver.
Qed.

Lemma dec_compare_refl a : dec_compare a a = Eq.
Proof. apply Z.compare_refl. Qed.

Lemma dec_compare_int a b : dec_compare (Dec a 0) (Dec b 0) = Z.compare a b.
Proof. unfold dec_compare, dscale_up. simpl. by rewrite !Z.mul_1_r. Qed.

Lemma num_eqb_int a b : num_eqb (Fin (Dec a 0)) (Fin (Dec b 0)) = (a =? b)%Z.
Proof.
  simpl. rewrite dec_compare_int. destruct (Z.compare_spec a b); lia.
Qed.

Lemma num_ltb_int a b : num_ltb (Fin (Dec a 0)) (Fin (Dec b 0)) = (a <? b)%Z.
Proof. simpl. rewrite dec_compare_int. destruct (Z.compare_spec a b); lia. Qed.

Lemma num_leb_int a b : num_leb (Fin (Dec a 0)) (Fin (Dec b 0)) = (a <=? b)%Z.
Proof. simpl. rewrite dec_compare_int. destruct (Z.compare_spec a b); lia. Qed.

Lemma js_lt_int a b : js_lt (VInt a) (VInt b) = (a <? b)%Z.
Proof. apply num_ltb_int. Qed.

Lemma js_le_int a b : js_le (VInt a) (VInt b) = (a <=? b)%Z.
Proof. apply num_leb_int. Qed.

Lemma loose_eq_int a b : loose_eq (VInt a) (VInt b) = (a =? b)%Z.
Proof. apply num_eqb_int. Qed.

Lemma strict_eq_int a b : strict_eq (VInt a) (VInt b) = (a =? b)%Z.
Proof. apply num_eqb_int. Qed.

Lemma strict_eq_str a b : strict_eq (VStr a) (VStr b) = String.eqb a b.
Proof. reflexivity. Qed.

Lemma is_digit_not_space c : is_digit c = true -> is_space c = false.
Proof.
  unfold is_digit, is_space. intros H. apply andb_true_iff in H as [H1 H2].
  apply Nat.leb_le in H1, H2.
  destruct (Nat.eqb_spec (nat_of_ascii c) 32); [lia|].
  destruct (Nat.leb_spec (nat_of_ascii c) 13); [lia|]. by rewrite andb_false_r.
Qed.

Lemma ltrim_digit c s : is_digit c = true -> ltrim (String c s) = String c s.
Proof. intros H. unfold ltrim. simpl. by rewrite (is_digit_not_space _ H). Qed.

Lemma span_all p s : str_forall p s = true -> span p s = (s, estr).
Proof. intros H. rewrite <-(str_app_nil_r s) at 1. by apply span_app. Qed.

(** A digit string does not start with a sign. *)
Lemma take_sign_digit c s : is_digit c = true -> take_sign (String c s) = (false, String c s).
Proof.
  intros H. destruct c as [[] [] [] [] [] [] [] []]; try reflexivity; discriminate H.
Qed.

Lemma is_digit_not_x c : is_digit c = true -> (Ascii.eqb c "x" || Ascii.eqb c "X")%char = false.
Proof.
  intros H. destruct c as [[] [] [] [] [] [] [] []]; try reflexivity; discriminate H.
Qed.

(** [parseInt] of printed digits followed by a non-digit. *)
Lemma parse_int_digits (s t : string) :
  s <> estr -> str_forall is_digit s = true ->
  match t with
  | EmptyString => True
  | String c _ => is_digit c = false /\ (Ascii.eqb c "x" || Ascii.eqb c "X")%char = false
  end ->
  parse_int_str (s +:+ t) = Fin (Dec (Z.of_N (dec_value s)) 0).
Proof.
  intros Hne Hs Ht. destruct s as [|c s]; [done|]. simpl in Hs.
  apply andb_true_iff in Hs as [Hc Hs]. unfold parse_int_str.
  rewrite str_app_cons, ltrim_digit, take_sign_digit by done.
  assert (span is_digit (String c (s +:+ t)) = (String c s, t)) as Hspan.
  { apply (span_app _ (String c s) t); simpl; [by rewrite Hc|]. destruct t; [done|by destruct Ht]. }
  rewrite Hspan. clear Hspan.
  destruct (s +:+ t) as [|d r] eqn:E; [by destruct c as [[] [] [] [] [] [] [] []]|].
  assert ((Ascii.eqb d "x" || Ascii.eqb d "X")%char = false) as Hx.
  { destruct s as [|d' s']; simpl in E; simplify_eq.
    - by destruct Ht.
    - simpl in Hs. apply andb_true_iff in Hs as [? _]. by apply is_digit_not_x. }
  destruct c as [[] [] [] [] [] [] [] []]; rewrite ?Hx; reflexivity.
Qed.

Lemma parse_int_string_of_N n : parse_int_str (string_of_N n) = Fin (Dec (Z.of_N n) 0).
Proof.
  rewrite <-(str_app_nil_r (string_of_N n)), parse_int_digits; [| |apply string_of_N_digits|done].
  - by rewrite dec_value_string_of_N.
  - destruct (string_of_N_cons n) as (c & s & -> & _). done.
Qed.

Lemma parse_int_minus_digits (s : string) :
  s <> estr -> str_forall is_digit s = true ->
  parse_int_str (String "-" s) = Fin (Dec (- Z.of_N (dec_value s)) 0).
Proof.
  intros Hne Hs. destruct s as [|c s]; [done|]. unfold parse_int_str.
  change (ltrim (String "-" (String c s))) with (String "-" (String c s)).
  change (take_sign (String "-" (String c s))) with (true, String c s). cbv beta iota.
  rewrite (span_all _ _ Hs). simpl in Hs. apply andb_true_iff in Hs as [_ Hs].
  destruct s as [|d s]; [by destruct c as [[] [] [] [] [] [] [] []]|].
  simpl in Hs. apply andb_true_iff in Hs as [Hd _]. pose proof (is_digit_not_x _ Hd) as Hx.
  destruct c as [[] [] [] [] [] [] [] []]; rewrite ?Hx; reflexivity.
Qed.

(** [parseInt] of a printed integer gives it back. *)
Lemma parse_int_string_of_Z z : parse_int_str (string_of_Z z) = Fin (Dec z 0).
Proof.
  destruct z as [|p|p]; simpl string_of_Z; [reflexivity|apply parse_int_string_of_N|].
  rewrite parse_int_minus_digits, dec_value_string_of_N by
    (apply string_of_N_digits || by destruct (string_of_N_cons (Npos p)) as (? & ? & -> & _)).
  done.
Qed.

Lemma parseInt_int z : parseInt (VInt z) = Fin (Dec z 0).
Proof. unfold parseInt. simpl. apply parse_int_string_of_Z. Qed.

#[export] Hint Rewrite @res_bind_ok obj_get_set_eq js_lt_int js_le_int loose_eq_int
  strict_eq_int parseInt_int : oess.
