(* ===== verification/JsJson.v ===== *)
(** * JSON and URI components

    [JSON.stringify], [JSON.parse], [encodeURIComponent] and
    [decodeURIComponent], as the session store, the command parameters, the
    provisioning forms and the query strings use them.  The main results are
    the two round trips: what [JSON.parse] reads back from a stringified
    value, and that decoding undoes encoding. *)

From Stdlib Require Import ZArith Lia Ascii String.
From stdpp Require Import base option list sets strings numbers tactics.
From S2P Require Import Prelude JsValue.

(** ** Printing *)

Definition bslash : ascii := ascii_of_nat 92.

(** Escape of one character inside a JSON string. *)
Definition json_escape (c : ascii) : string :=
  let n := nat_of_ascii c in
  if Nat.eqb n 34 then String bslash (String dq_char estr)
  else if Nat.eqb n 92 then String bslash (String bslash estr)
  else if Nat.eqb n 8 then String bslash "b"
  else if Nat.eqb n 9 then String bslash "t"
  else if Nat.eqb n 10 then String bslash "n"
  else if Nat.eqb n 12 then String bslash "f"
  else if Nat.eqb n 13 then String bslash "r"
  else if Nat.ltb n 32 then
    String bslash ("u00" +:+ String (hex_char (N_of_ascii c / 16))
                                    (String (hex_char (N_of_ascii c mod 16)) estr))
  else String c estr.

Fixpoint json_escapes (s : string) : string :=
  match s with
  | EmptyString => estr
  | String c s' => json_escape c +:+ json_escapes s'
  end.

Definition json_quote (s : string) : string := dq +:+ json_escapes s +:+ dq.

#[global] Arguments json_quote : simpl never.

Fixpoint somes {A} (l : list (option A)) : list A :=
  match l with
  | [] => []
  | Some x :: l' => x :: somes l'
  | None :: l' => somes l'
  end.

(** [JSON.stringify]: [None] stands for undefined.  An undefined property is
    left out, an undefined array element and NaN print as null. *)
Fixpoint stringify (v : val) : option string :=
  match v with
  | VUndef => None
  | VNull => Some "null"
  | VBool true => Some "true"
  | VBool false => Some "false"
  | VNum NaN => Some "null"
  | VNum n => Some (num_to_string n)
  | VStr s => Some (json_quote s)
  | VArr l =>
      Some ("[" +:+ str_join "," (map (fun x => default "null" (stringify x)) l) +:+ "]")
  | VObj o =>
      Some ("{" +:+ str_join "," (somes (map (fun kv =>
              option_map (fun t => json_quote (fst kv) +:+ ":" +:+ t) (stringify (snd kv))) o))
            +:+ "}")
  end.

(** ** Parsing *)

Definition json_ws (c : ascii) : bool :=
  let n := nat_of_ascii c in Nat.eqb n 32 || Nat.eqb n 9 || Nat.eqb n 10 || Nat.eqb n 13.

Definition skip_ws (s : string) : string := snd (span json_ws s).

(** UTF-8 bytes of a code point of the basic plane that is not a surrogate. *)
Definition utf8 (n : N) : option string :=
  if (n <? 128)%N then Some (String (ascii_of_N n) estr)
  else if (n <? 2048)%N then
    Some (String (ascii_of_N (192 + n / 64)) (String (ascii_of_N (128 + n mod 64)) estr))
  else if (55296 <=? n)%N && (n <? 57344)%N then None
  else Some (String (ascii_of_N (224 + n / 4096))
              (String (ascii_of_N (128 + (n / 64) mod 64))
                (String (ascii_of_N (128 + n mod 64)) estr))).

(** Value of a one-letter escape. *)
Definition unescape (c : ascii) : option ascii :=
  let n := nat_of_ascii c in
  if Nat.eqb n 34 then Some c
  else if Nat.eqb n 92 then Some c
  else if Nat.eqb n 47 then Some c
  else if Nat.eqb n 98 then Some (ascii_of_nat 8)
  else if Nat.eqb n 116 then Some (ascii_of_nat 9)
  else if Nat.eqb n 110 then Some (ascii_of_nat 10)
  else if Nat.eqb n 102 then Some (ascii_of_nat 12)
  else if Nat.eqb n 114 then Some (ascii_of_nat 13)
  else None.

Definition prepend (p : string) (r : option (string * string)) : option (string * string) :=
  match r with
  | Some (s, rest) => Some (p +:+ s, rest)
  | None => None
  end.

(** Characters of a string literal up to the closing quote, and the rest.
    Surrogate escapes, which [stringify] never writes, are not read. *)
Fixpoint parse_chars (s : string) : option (string * string) :=
  match s with
  | EmptyString => None
  | String c r =>
      let n := nat_of_ascii c in
      if Nat.eqb n 34 then Some (estr, r)
      else if Nat.ltb n 32 then None
      else if Nat.eqb n 92 then
        match r with
        | String e r1 =>
            if Ascii.eqb e "u" then
              match r1 with
              | String a (String b (String d (String f r2))) =>
                  if is_hex a && is_hex b && is_hex d && is_hex f then
                    match utf8 (hex_val a * 4096 + hex_val b * 256 + hex_val d * 16 + hex_val f) with
                    | Some u => prepend u (parse_chars r2)
                    | None => None
                    end
                  else None
              | _ => None
              end
            else match unescape e with
                 | Some x => prepend (String x estr) (parse_chars r1)
                 | None => None
                 end
        | EmptyString => None
        end
      else prepend (String c estr) (parse_chars r)
  end.

(** A JSON number, its digits read by the language's numeric literals. *)
Definition num_char (c : ascii) : bool :=
  is_digit c || Ascii.eqb c "+" || Ascii.eqb c "-" || Ascii.eqb c "." ||
  Ascii.eqb c "e" || Ascii.eqb c "E".

(** The integer part of a JSON number: one zero, or no leading zero. *)
Definition json_int_part (s : string) : bool :=
  match span is_digit s with
  | (EmptyString, _) => false
  | (String "0" EmptyString, _) => true
  | (String "0" _, _) => false
  | _ => true
  end.

(** A point is followed by a digit. *)
Fixpoint json_frac (s : string) : bool :=
  match s with
  | EmptyString => true
  | String "." r => match r with
                    | String c _ => is_digit c
                    | EmptyString => false
                    end
  | String _ r => json_frac r
  end.

Definition parse_number (s : string) : option (val * string) :=
  let '(t, rest) := span num_char s in
  let '(neg, u) := match t with String "-" u => (true, u) | _ => (false, t) end in
  if json_int_part u && json_frac u then
    match unsigned_literal u with
    | NaN => None
    | n => Some (VNum (signed neg n), rest)
    end
  else None.

Fixpoint parse_value (fuel : nat) (s : string) : option (val * string) :=
  match fuel with
  | O => None
  | S f =>
      let t := skip_ws s in
      match t with
      | String "n" (String "u" (String "l" (String "l" r))) => Some (VNull, r)
      | String "t" (String "r" (String "u" (String "e" r))) => Some (VBool true, r)
      | String "f" (String "a" (String "l" (String "s" (String "e" r)))) => Some (VBool false, r)
      | String "[" r =>
          match skip_ws r with
          | String "]" r' => Some (VArr [], r')
          | _ => option_map (fun lr => (VArr (fst lr), snd lr)) (parse_elems f r)
          end
      | String "{" r =>
          match skip_ws r with
          | String "}" r' => Some (VObj [], r')
          | _ => option_map (fun mr => (VObj (fst mr), snd mr)) (parse_members f [] r)
          end
      | String c r =>
          if Nat.eqb (nat_of_ascii c) 34
          then option_map (fun sr => (VStr (fst sr), snd sr)) (parse_chars r)
          else parse_number t
      | EmptyString => None
      end
  end
with parse_elems (fuel : nat) (s : string) : option (list val * string) :=
  match fuel with
  | O => None
  | S f =>
      match parse_value f s with
      | Some (v, r) =>
          match skip_ws r with
          | String "," r' => option_map (fun lr => (v :: fst lr, snd lr)) (parse_elems f r')
          | String "]" r' => Some ([v], r')
          | _ => None
          end
      | None => None
      end
  end
with parse_members (fuel : nat) (acc : list (string * val)) (s : string)
    : option (list (string * val) * string) :=
  match fuel with
  | O => None
  | S f =>
      match skip_ws s with
      | String q r0 =>
          if Nat.eqb (nat_of_ascii q) 34 then
            match parse_chars r0 with
            | Some (k, r1) =>
                match skip_ws r1 with
                | String ":" r2 =>
                    match parse_value f r2 with
                    | Some (v, r3) =>
                        match skip_ws r3 with
                        | String "," r4 => parse_members f (obj_set k v acc) r4
                        | String "}" r4 => Some (obj_set k v acc, r4)
                        | _ => None
                        end
                    | None => None
                    end
                | _ => None
                end
            | None => None
            end
          else None
      | EmptyString => None
      end
  end.

(** [JSON.parse]; [None] is a [SyntaxError].  The fuel, the length of the text,
    bounds the nesting. *)
Definition json_parse (s : string) : option val :=
  match parse_value (S (String.length s)) s with
  | Some (v, r) => match skip_ws r with EmptyString => Some v | _ => None end
  | None => None
  end.

(** ** What survives a round trip *)

(** The value [JSON.parse] gives back for a stringified value: properties that
    are undefined disappear; undefined elements and NaN become null. *)
Fixpoint json_norm (v : val) : val :=
  match v with
  | VNum NaN => VNull
  | VArr l => VArr (map (fun x => match x with VUndef => VNull | _ => json_norm x end) l)
  | VObj o =>
      VObj (somes (map (fun kv => match snd kv with
                                  | VUndef => None
                                  | _ => Some (fst kv, json_norm (snd kv))
                                  end) o))
  | _ => v
  end.

(** Numbers are integers (or NaN) and objects well formed, at every depth. *)
Fixpoint json_ok (v : val) : bool :=
  match v with
  | VNum (Fin d) => Nat.eqb (dscale d) 0
  | VArr l => forallb json_ok l
  | VObj o => canonical (names o) && forallb (fun kv => json_ok (snd kv)) o
  | _ => true
  end.

(** ** URI components *)

(** The characters [encodeURIComponent] leaves as they are. *)
Definition uri_unreserved (c : ascii) : bool :=
  let n := nat_of_ascii c in
  is_digit c || (Nat.leb 65 n && Nat.leb n 90) || (Nat.leb 97 n && Nat.leb n 122) ||
  existsb (Nat.eqb n) [45; 95; 46; 33; 126; 42; 39; 40; 41].

Definition percent_encode (c : ascii) : string :=
  String "%" (String (hex_char_up (N_of_ascii c / 16))
               (String (hex_char_up (N_of_ascii c mod 16)) estr)).

Fixpoint encodeURIComponent (s : string) : string :=
  match s with
  | EmptyString => estr
  | String c s' =>
      (if uri_unreserved c then String c estr else percent_encode c) +:+ encodeURIComponent s'
  end.

(** Replace every escape by its byte; [None] if an escape is malformed. *)
Fixpoint percent_decode (s : string) : option string :=
  match s with
  | EmptyString => Some estr
  | String "%" r =>
      match r with
      | String a (String b r') =>
          if is_hex a && is_hex b
          then option_map (String (ascii_of_N (hex_val a * 16 + hex_val b))) (percent_decode r')
          else None
      | _ => None
      end
  | String c r => option_map (String c) (percent_decode r)
  end.

(** Well-formed UTF-8 (the shortest forms of scalar values only), read from the
    left: [need] continuation bytes are pending, the next one in [lo, hi]. *)
Fixpoint utf8_ok (need : nat) (lo hi : nat) (s : string) : bool :=
  match s with
  | EmptyString => Nat.eqb need 0
  | String c r =>
      let n := nat_of_ascii c in
      match need with
      | S k => Nat.leb lo n && Nat.leb n hi && utf8_ok k 128 191 r
      | O =>
          if Nat.ltb n 128 then utf8_ok 0 128 191 r
          else if Nat.leb 194 n && Nat.leb n 223 then utf8_ok 1 128 191 r
          else if Nat.eqb n 224 then utf8_ok 2 160 191 r
          else if Nat.eqb n 237 then utf8_ok 2 128 159 r
          else if Nat.leb 225 n && Nat.leb n 239 then utf8_ok 2 128 191 r
          else if Nat.eqb n 240 then utf8_ok 3 144 191 r
          else if Nat.leb 241 n && Nat.leb n 243 then utf8_ok 3 128 191 r
          else if Nat.eqb n 244 then utf8_ok 3 128 143 r
          else false
      end
  end.

Definition utf8_valid (s : string) : bool := utf8_ok 0 128 191 s.

(** [decodeURIComponent]; [None] is a [URIError]. *)
Definition decodeURIComponent (s : string) : option string :=
  match percent_decode s with
  | Some t => if utf8_valid t then Some t else None
  | None => None
  end.

(** ** Lemmas: string literals *)

Lemma ascii_forall (P : ascii -> bool) :
  forallb P (map ascii_of_nat (seq 0 256)) = true -> forall c, P c = true.
Proof.
  intros H c. rewrite forallb_forall in H. apply H.
  apply in_map_iff. exists (nat_of_ascii c). split; [apply ascii_nat_embedding|].
  apply in_seq. pose proof (nat_ascii_bounded c). lia.
Qed.

Lemma parse_chars_normal c s :
  Nat.eqb (nat_of_ascii c) 34 = false -> Nat.ltb (nat_of_ascii c) 32 = false ->
  Nat.eqb (nat_of_ascii c) 92 = false ->
  parse_chars (String c s) = prepend (String c estr) (parse_chars s).
Proof. intros H1 H2 H3. simpl. by rewrite H1, H2, H3. Qed.

Lemma parse_chars_escape c s :
  parse_chars (json_escape c +:+ s) = prepend (String c estr) (parse_chars s).
Proof.
  destruct (Nat.eqb (nat_of_ascii c) 34) eqn:E1;
  [|destruct (Nat.ltb (nat_of_ascii c) 32) eqn:E2];
  [| |destruct (Nat.eqb (nat_of_ascii c) 92) eqn:E3].
  1-3: destruct c as [[] [] [] [] [] [] [] []]; try discriminate; reflexivity.
  assert (json_escape c = String c estr) as ->.
  { unfold json_escape. rewrite E1, E2, E3.
    apply Nat.ltb_ge in E2.
    repeat (case_match; [match goal with H : Nat.eqb _ _ = true |- _ => apply Nat.eqb_eq in H; lia end|]).
    done. }
  by apply parse_chars_normal.
Qed.

Lemma parse_chars_quote s rest : parse_chars (json_escapes s +:+ dq +:+ rest) = Some (s, rest).
Proof.
  induction s as [|c s IH]; [reflexivity|]. cbn [json_escapes].
  by rewrite str_app_assoc, parse_chars_escape, IH.
Qed.

(** ** Lemmas: numbers *)

(** The text after a value does not continue a number. *)
Definition num_stop (s : string) : bool :=
  match s with EmptyString => true | String c _ => negb (num_char c) end.

Lemma digit_num_char c : is_digit c = true -> num_char c = true.
Proof. intros H. unfold num_char. by rewrite H. Qed.

Lemma digits_num_chars s : str_forall is_digit s = true -> str_forall num_char s = true.
Proof.
  induction s as [|c s IH]; simpl; [done|]. intros H. apply andb_true_iff in H as [H1 H2].
  by rewrite digit_num_char, IH.
Qed.

Lemma span_num_digits ds rest :
  str_forall is_digit ds = true -> num_stop rest = true -> span num_char (ds +:+ rest) = (ds, rest).
Proof.
  intros Hd Hs. apply span_app; [by apply digits_num_chars|].
  destruct rest; [done|]. simpl in Hs. by apply negb_true_iff.
Qed.

Lemma dec_digits_head_fuel f n acc :
  (0 < n)%N -> (n < 2 ^ N.of_nat f)%N -> exists c s, dec_digits f n acc = String c s /\ c <> "0"%char.
Proof.
  revert n acc; induction f as [|f IH]; intros n acc Hp Hn; [simpl in Hn; lia|].
  simpl. destruct (n <? 10)%N eqn:E.
  - apply N.ltb_lt in E. eexists _, _. split; [done|].
    rewrite N.mod_small by lia. clear Hn IH.
    destruct n as [|p]; [lia|]. do 4 (destruct p as [p|p|]; try done; try lia).
  - apply N.ltb_ge in E. apply IH; [apply N.div_str_pos; lia|].
    apply N.Div0.div_lt_upper_bound. rewrite Nat2N.inj_succ, N.pow_succ_r' in Hn. lia.
Qed.

Lemma json_int_part_print n : json_int_part (string_of_N n) = true.
Proof.
  unfold json_int_part. rewrite (span_all _ _ (string_of_N_digits n)).
  destruct n as [|p]; [reflexivity|].
  destruct (dec_digits_head_fuel (S (N.size_nat (Npos p))) (Npos p) estr) as (c & s & H & Hc).
  { lia. } { pose proof (size_nat_bound (Npos p)). rewrite Nat2N.inj_succ, N.pow_succ_r'. lia. }
  unfold string_of_N. rewrite H.
  destruct c as [[] [] [] [] [] [] [] []]; try reflexivity. by destruct Hc.
Qed.

Lemma json_frac_digits s : str_forall is_digit s = true -> json_frac s = true.
Proof.
  induction s as [|c s IH]; simpl; [done|]. intros H. apply andb_true_iff in H as [Hc Hs].
  destruct c as [[] [] [] [] [] [] [] []]; try discriminate Hc; by apply IH.
Qed.

Lemma unsigned_literal_digits n : unsigned_literal (string_of_N n) = Fin (Dec (Z.of_N n) 0).
Proof.
  unfold unsigned_literal. rewrite (span_all _ _ (string_of_N_digits n)). rewrite str_app_nil_r.
  destruct (string_of_N_cons n) as (c & s & H & _). rewrite H. rewrite <-H.
  rewrite dec_value_string_of_N. reflexivity.
Qed.

Lemma digit_head_not_minus {A} c s (f : string -> A) (g : A) :
  is_digit c = true ->
  match String c s with String "-" u => f u | _ => g end = g.
Proof. intros H. destruct c as [[] [] [] [] [] [] [] []]; try discriminate H; reflexivity. Qed.

Lemma parse_number_N n rest :
  num_stop rest = true -> parse_number (string_of_N n +:+ rest) = Some (VInt (Z.of_N n), rest).
Proof.
  intros Hs. unfold parse_number.
  rewrite (span_num_digits _ _ (string_of_N_digits n) Hs).
  destruct (string_of_N_cons n) as (c & s & H & Hc).
  rewrite H at 1. rewrite digit_head_not_minus by done.
  rewrite json_int_part_print, json_frac_digits, unsigned_literal_digits by apply string_of_N_digits.
  done.
Qed.

Lemma parse_number_Z z rest :
  num_stop rest = true -> parse_number (string_of_Z z +:+ rest) = Some (VInt z, rest).
Proof.
  intros Hs. destruct z as [|p|p]; [by apply (parse_number_N 0)|by apply (parse_number_N (Npos p))|].
  unfold parse_number. simpl string_of_Z. rewrite str_app_cons.
  assert (span num_char (String "-" (string_of_N (N.pos p) +:+ rest))
          = (String "-" (string_of_N (N.pos p)), rest)) as ->.
  { simpl. by rewrite (span_num_digits _ _ (string_of_N_digits _) Hs). }
  rewrite json_int_part_print, json_frac_digits, unsigned_literal_digits by apply string_of_N_digits.
  done.
Qed.

(** ** Lemmas: values *)

Lemma skip_ws_cons c s : json_ws c = false -> skip_ws (String c s) = String c s.
Proof. intros H. unfold skip_ws. simpl. by rewrite H. Qed.

Lemma string_of_Z_head z : exists c s, string_of_Z z = String c s /\ (is_digit c = true \/ c = "-"%char).
Proof.
  destruct z as [|p|p]; simpl; [by exists "0"%char, estr; split; [|left]| |by eauto 6].
  destruct (string_of_N_cons (Npos p)) as (c & s & H & Hc). eauto 6.
Qed.

(** A number is neither white space, nor the start of another kind of value. *)
Lemma parse_value_number f c s :
  is_digit c = true \/ c = "-"%char ->
  parse_value (S f) (String c s) = parse_number (String c s).
Proof.
  intros Hc. simpl parse_value. rewrite skip_ws_cons.
  - destruct Hc as [Hc| ->]; [|reflexivity].
    destruct c as [[] [] [] [] [] [] [] []]; try discriminate Hc; reflexivity.
  - destruct Hc as [Hc| ->]; [|reflexivity].
    destruct c as [[] [] [] [] [] [] [] []]; try discriminate Hc; reflexivity.
Qed.

Lemma parse_value_Z f z rest :
  num_stop rest = true -> parse_value (S f) (string_of_Z z +:+ rest) = Some (VInt z, rest).
Proof.
  intros Hs. destruct (string_of_Z_head z) as (c & s & H & Hc).
  rewrite <-(parse_number_Z z rest Hs), H, str_app_cons. by apply parse_value_number.
Qed.

Lemma parse_value_dq f r :
  parse_value (S f) (String dq_char r)
  = option_map (fun sr => (VStr (fst sr), snd sr)) (parse_chars r).
Proof. reflexivity. Qed.

Lemma parse_value_bracket f r :
  parse_value (S f) (String "[" r)
  = match skip_ws r with
    | String "]" r' => Some (VArr [], r')
    | _ => option_map (fun lr => (VArr (fst lr), snd lr)) (parse_elems f r)
    end.
Proof. reflexivity. Qed.

Lemma parse_value_brace f r :
  parse_value (S f) (String "{" r)
  = match skip_ws r with
    | String "}" r' => Some (VObj [], r')
    | _ => option_map (fun mr => (VObj (fst mr), snd mr)) (parse_members f [] r)
    end.
Proof. reflexivity. Qed.

Lemma parse_elems_S f s :
  parse_elems (S f) s
  = match parse_value f s with
    | Some (v, r) =>
        match skip_ws r with
        | String "," r' => option_map (fun lr => (v :: fst lr, snd lr)) (parse_elems f r')
        | String "]" r' => Some ([v], r')
        | _ => None
        end
    | None => None
    end.
Proof. reflexivity. Qed.

Lemma parse_members_dq f acc r0 :
  parse_members (S f) acc (String dq_char r0)
  = match parse_chars r0 with
    | Some (k, r1) =>
        match skip_ws r1 with
        | String ":" r2 =>
            match parse_value f r2 with
            | Some (v, r3) =>
                match skip_ws r3 with
                | String "," r4 => parse_members f (obj_set k v acc) r4
                | String "}" r4 => Some (obj_set k v acc, r4)
                | _ => None
                end
            | None => None
            end
        | _ => None
        end
    | None => None
    end.
Proof. reflexivity. Qed.

Lemma json_quote_app s t : json_quote s +:+ t = String dq_char (json_escapes s +:+ dq +:+ t).
Proof. unfold json_quote. by rewrite !str_app_assoc. Qed.

Lemma parse_value_quote f s rest :
  parse_value (S f) (json_quote s +:+ rest) = Some (VStr s, rest).
Proof. by rewrite json_quote_app, parse_value_dq, parse_chars_quote. Qed.

(** The printed form of a value that is not undefined. *)
Definition print (v : val) : string := default "null" (stringify v).

(** Reading a printed value, with any continuation that cannot extend it. *)
Definition reads_back (v : val) : Prop :=
  forall f rest, String.length (print v) <= f -> num_stop rest = true ->
  parse_value f (print v +:+ rest)
  = Some (match v with VUndef => VNull | _ => json_norm v end, rest).

(** First character of a printed value. *)
Lemma print_head v : json_ok v = true ->
  exists c s, print v = String c s /\ json_ws c = false /\ c <> "]"%char.
Proof.
  destruct v as [| |[]|[|d]|s|l|o]; simpl; intros H; try by eexists _, _.
  destruct d as [m sc]. simpl in H. apply Nat.eqb_eq in H as ->.
  unfold print. simpl. destruct (string_of_Z_head m) as (c & s & -> & Hc).
  exists c, s. split; [done|]. destruct Hc as [Hc| ->]; [|done].
  destruct c as [[] [] [] [] [] [] [] []]; try discriminate Hc; done.
Qed.

Lemma print_length v : json_ok v = true -> 0 < String.length (print v).
Proof. intros H. destruct (print_head v H) as (c & s & -> & _). simpl. lia. Qed.

Definition elem_norm (x : val) : val := match x with VUndef => VNull | _ => json_norm x end.

Lemma parse_elems_print l f rest :
  l <> [] -> Forall reads_back l ->
  String.length (str_join "," (map print l)) < f ->
  parse_elems f (str_join "," (map print l) +:+ String "]" rest)
  = Some (map elem_norm l, rest).
Proof.
  revert f. induction l as [|x l IH]; intros f Hne HF Hlen; [done|].
  apply list.Forall_cons in HF as [Hx HF].
  destruct f as [|f]; [lia|]. destruct l as [|y l].
  - simpl map in *. rewrite str_join_one in *. rewrite parse_elems_S.
    rewrite (Hx f) by (done || lia). simpl. done.
  - simpl map in *. rewrite str_join_cons in *. rewrite !str_app_assoc, parse_elems_S.
    rewrite !str_length_app in Hlen. simpl String.length in Hlen.
    rewrite (Hx f) by (done || lia). simpl.
    change (print y :: map print l) with (map print (y :: l)).
    rewrite IH; [done|done|done|]. simpl map. lia.
Qed.

Definition member_print (kv : string * val) : option string :=
  option_map (fun t => json_quote (fst kv) +:+ ":" +:+ t) (stringify (snd kv)).

Definition member_norm (kv : string * val) : option (string * val) :=
  match snd kv with VUndef => None | _ => Some (fst kv, json_norm (snd kv)) end.

Lemma member_print_norm kv :
  match member_norm kv with
  | Some (k, v) => member_print kv = Some (json_quote k +:+ ":" +:+ print (snd kv)) /\ k = fst kv
                   /\ v = elem_norm (snd kv)
  | None => member_print kv = None
  end.
Proof.
  destruct kv as [k v]. unfold member_norm, member_print, print.
  destruct v as [| |[]|[|d]|s|l|o]; simpl; auto.
Qed.

(** Read members into [acc], when their names can be appended to it. *)
Lemma parse_members_print o f acc rest :
  somes (map member_norm o) <> [] ->
  Forall (fun kv => reads_back (snd kv)) o ->
  canonical (names acc ++ names (somes (map member_norm o))) = true ->
  String.length (str_join "," (somes (map member_print o))) < f ->
  parse_members f acc (str_join "," (somes (map member_print o)) +:+ String "}" rest)
  = Some (acc ++ somes (map member_norm o), rest).
Proof.
  revert f acc. induction o as [|kv o IH]; intros f acc Hne HF Hc Hlen; [done|].
  apply list.Forall_cons in HF as [Hx HF]. cbn [map] in *.
  pose proof (member_print_norm kv) as Hkv. destruct (member_norm kv) as [[k v]|].
  2:{ rewrite Hkv in *. simpl in *. by apply IH. }
  destruct Hkv as (Hp & -> & ->). rewrite Hp in *. cbn [somes] in *.
  destruct f as [|f]; [lia|].
  assert (obj_set (fst kv) (elem_norm (snd kv)) acc = acc ++ [(fst kv, elem_norm (snd kv))]) as Hset.
  { apply obj_set_append. intros k' Hk'. clear -Hc Hk'.
    induction acc as [|[k2 v2] acc IH]; simpl in *; [set_solver|].
    apply andb_true_iff in Hc as [H1 H2]. apply elem_of_cons in Hk' as [->|Hk']; [|by apply IH].
    rewrite forallb_key_ok in H1. apply H1. set_solver. }
  assert (Hstep : forall r,
     num_stop r = true -> String.length (print (snd kv)) <= f ->
     parse_members (S f) acc ((json_quote (fst kv) +:+ ":" +:+ print (snd kv)) +:+ r)
     = match skip_ws r with
       | String "," r4 => parse_members f (obj_set (fst kv) (elem_norm (snd kv)) acc) r4
       | String "}" r4 => Some (obj_set (fst kv) (elem_norm (snd kv)) acc, r4)
       | _ => None
       end).
  { intros r Hr Hl. rewrite str_app_assoc, json_quote_app, parse_members_dq, parse_chars_quote.
    rewrite str_app_assoc.
    change (skip_ws (":" +:+ print kv.2 +:+ r)) with (String ":" (print kv.2 +:+ r)). cbv iota.
    rewrite (Hx f r Hl Hr). done. }
  destruct (somes (map member_print o)) as [|m ms] eqn:Em.
  - assert (somes (map member_norm o) = []) as Hn.
    { clear -Em. induction o as [|kv o IH]; [done|]. simpl in *.
      pose proof (member_print_norm kv) as H. destruct (member_norm kv) as [[k v]|].
      - destruct H as (H & _). rewrite H in Em. done.
      - rewrite H in Em. by apply IH. }
    rewrite Hn. rewrite str_join_one in *.
    rewrite !str_length_app in Hlen. rewrite Hstep; [|done|lia].
    simpl. by rewrite Hset.
  - rewrite str_join_cons in *. rewrite !str_length_app in Hlen. simpl String.length in Hlen.
    rewrite str_app_assoc. rewrite Hstep; [|done|lia].
    change (skip_ws (("," +:+ str_join "," (m :: ms)) +:+ String "}" rest))
      with (String "," (str_join "," (m :: ms) +:+ String "}" rest)). cbv iota.
    rewrite IH; [| |done| |lia].
    + rewrite Hset, <-app_assoc. done.
    + intros Hn. clear -Em Hn. revert Em Hn. induction o as [|kv o IH]; [done|].
      simpl. pose proof (member_print_norm kv) as H. destruct (member_norm kv) as [[k v]|]; [done|].
      rewrite H. done.
    + rewrite Hset. unfold names in *. rewrite map_app, <-app_assoc. done.
Qed.

Lemma print_arr l rest :
  print (VArr l) +:+ rest = String "[" (str_join "," (map print l) +:+ String "]" rest).
Proof. unfold print at 1. cbn [stringify default from_option id]. by rewrite !str_app_assoc. Qed.

Lemma print_obj o rest :
  print (VObj o) +:+ rest
  = String "{" (str_join "," (somes (map member_print o)) +:+ String "}" rest).
Proof. unfold print. cbn [stringify default from_option id]. by rewrite !str_app_assoc. Qed.

Lemma print_arr_length l :
  String.length (print (VArr l)) = S (S (String.length (str_join "," (map print l)))).
Proof.
  rewrite <-(str_app_nil_r (print (VArr l))), print_arr. cbn [String.length].
  rewrite str_length_app. cbn [String.length]. lia.
Qed.

Lemma print_obj_length o :
  String.length (print (VObj o)) = S (S (String.length (str_join "," (somes (map member_print o))))).
Proof.
  rewrite <-(str_app_nil_r (print (VObj o))), print_obj. cbn [String.length].
  rewrite str_length_app. cbn [String.length]. lia.
Qed.

Lemma skip_ws_nonspace c s : json_ws c = false -> c <> "]"%char ->
  forall A (x : string -> A) (y : A),
  match skip_ws (String c s) with String "]" r => x r | _ => y end = y.
Proof.
  intros H Hc A x y. rewrite skip_ws_cons by done.
  destruct c as [[] [] [] [] [] [] [] []]; try reflexivity. by destruct Hc.
Qed.

Lemma canonical_somes o :
  canonical (names o) = true -> canonical (names (somes (map member_norm o))) = true.
Proof.
  induction o as [|[k v] o IH]; simpl; [done|]. intros H. apply andb_true_iff in H as [H1 H2].
  assert (Hsub : forall k', k' ∈ names (somes (map member_norm o)) -> k' ∈ names o).
  { clear. induction o as [|[k2 v2] o IH]; simpl; [done|]. intros k'.
    unfold member_norm at 1. simpl. destruct v2; simpl; try set_solver. }
  unfold member_norm at 1. simpl.
  destruct v; simpl; rewrite ?IH by done; try done; rewrite andb_true_r;
    apply forallb_key_ok; intros k' Hk'; apply Hsub in Hk';
    rewrite forallb_key_ok in H1; by apply H1.
Qed.

Lemma reads_back_ok v : json_ok v = true -> reads_back v.
Proof.
  induction v as [| |b|n|s|l IH|o IH] using val_ind'; intros Hok f rest Hf Hs;
    (destruct f as [|f]; [pose proof (print_length _ Hok); lia|]).
  - reflexivity.
  - reflexivity.
  - destruct b; reflexivity.
  - destruct n as [|[m sc]]; [reflexivity|]. simpl in Hok. apply Nat.eqb_eq in Hok as ->.
    apply parse_value_Z. done.
  - apply parse_value_quote.
  - rewrite print_arr, parse_value_bracket. rewrite print_arr_length in Hf. simpl in Hok.
    assert (Forall reads_back l) as HF.
    { rewrite list.Forall_forall in *. intros x Hx. apply IH; [done|].
      rewrite forallb_forall in Hok. apply Hok. by apply list_elem_of_In. }
    destruct l as [|x l]; [reflexivity|].
    assert (json_ok x = true) as Hxok.
    { simpl in Hok. by apply andb_true_iff in Hok as []. }
    destruct (print_head x Hxok) as (c & s & Hp & Hw & Hc).
    assert (exists s', str_join "," (map print (x :: l)) +:+ String "]" rest = String c s') as [s' Hs'].
    { destruct l; simpl map; [rewrite str_join_one|rewrite str_join_cons]; rewrite Hp; simpl; eauto. }
    rewrite Hs' at 1. rewrite (skip_ws_nonspace c s' Hw Hc).
    rewrite (parse_elems_print (x :: l)); [reflexivity|done|done|lia].
  - rewrite print_obj, parse_value_brace. rewrite print_obj_length in Hf. simpl in Hok.
    apply andb_true_iff in Hok as [Hcan Hall].
    assert (Forall (fun kv => reads_back (snd kv)) o) as HF.
    { rewrite list.Forall_forall in *. intros x Hx. apply IH; [done|].
      rewrite forallb_forall in Hall. apply (Hall x). by apply list_elem_of_In. }
    change (json_norm (VObj o)) with (VObj (somes (map member_norm o))).
    destruct (somes (map member_norm o)) as [|kv ms] eqn:Em.
    + assert (somes (map member_print o) = []) as ->; [|reflexivity].
      clear -Em. induction o as [|kv o IH]; [done|]. simpl in *.
      pose proof (member_print_norm kv) as H. destruct (member_norm kv) as [[k v]|]; [done|].
      rewrite H. by apply IH.
    + rewrite <-Em.
      assert (exists s', str_join "," (somes (map member_print o)) +:+ String "}" rest
                         = String dq_char s') as [s' Hs'].
      { clear -Em. induction o as [|kv' o IH]; [done|]. simpl in *.
        pose proof (member_print_norm kv') as H. destruct (member_norm kv') as [[k v]|].
        - destruct H as (-> & _). cbn [somes]. destruct (somes (map member_print o));
            [rewrite str_join_one|rewrite str_join_cons]; simpl; eauto.
        - rewrite H. simpl. by apply IH. }
      rewrite Hs' at 1. rewrite skip_ws_cons by reflexivity. cbv iota.
      rewrite (parse_members_print o f [] rest); [reflexivity|by rewrite Em|done| |lia].
      simpl. rewrite Em. simpl app. rewrite <-Em. by apply canonical_somes.
Qed.

(** Reading a stringified value gives its normal form. *)
Lemma json_parse_stringify v s :
  json_ok v = true -> stringify v = Some s -> json_parse s = Some (json_norm v).
Proof.
  intros Hok Hs. unfold json_parse.
  pose proof (reads_back_ok v Hok (S (String.length s)) estr) as H.
  unfold print in H. rewrite Hs in H. cbn [default from_option id] in H. rewrite str_app_nil_r in H.
  rewrite H by (done || lia). destruct v; done.
Qed.

(** What a property holds after a round trip. *)
Definition delivered (v : val) : option val :=
  match v with VUndef => None | _ => Some (json_norm v) end.

Lemma obj_get_not_in k o : k ∉ names o -> obj_get k o = None.
Proof.
  induction o as [|[k' v] o IH]; simpl; [done|]. intros H.
  destruct (String.eqb k k') eqn:E; [apply String.eqb_eq in E as ->; set_solver|].
  apply IH. set_solver.
Qed.

Lemma canonical_head k ks : canonical (k :: ks) = true -> k ∉ ks /\ canonical ks = true.
Proof.
  simpl. intros H. apply andb_true_iff in H as [H1 H2]. split; [|done].
  intros Hin. rewrite forallb_key_ok in H1. apply H1, key_ok_spec in Hin as []. done.
Qed.

Lemma member_norm_names k o : k ∈ names (somes (map member_norm o)) -> k ∈ names o.
Proof.
  induction o as [|[k2 v2] o IH]; simpl; [done|].
  unfold member_norm at 1. simpl. destruct v2; simpl; set_solver.
Qed.

(** A property of the value read back is what the property delivers. *)
Lemma obj_get_norm k o :
  canonical (names o) = true ->
  obj_get k (somes (map member_norm o)) = obj_get k o ≫= delivered.
Proof.
  induction o as [|[k' v] o IH]; intros H; [done|].
  apply canonical_head in H as [Hk H]. simpl.
  unfold member_norm at 1. simpl.
  destruct (String.eqb k k') eqn:E.
  - apply String.eqb_eq in E as ->. destruct v; simpl; rewrite ?String.eqb_refl; try done.
    apply obj_get_not_in. intros Hin. by apply member_norm_names in Hin.
  - destruct v; simpl; rewrite ?E; by apply IH.
Qed.

Lemma json_ok_get k o :
  json_ok (VObj o) = true -> json_ok (default VUndef (obj_get k o)) = true.
Proof.
  simpl. intros H. apply andb_true_iff in H as [_ H].
  induction o as [|[k' v] o IH]; simpl in *; [done|]. apply andb_true_iff in H as [H1 H2].
  destruct (String.eqb k k'); [done|by apply IH].
Qed.

Lemma json_ok_set k v o :
  json_ok (VObj o) = true -> json_ok v = true -> json_ok (VObj (obj_set k v o)) = true.
Proof.
  simpl. intros H Hv. apply andb_true_iff in H as [H1 H2].
  rewrite obj_set_canonical by done. simpl. clear H1.
  induction o as [|[k' v'] o IH]; simpl in *; [by rewrite Hv|].
  apply andb_true_iff in H2 as [H2 H3].
  destruct (String.eqb k k'); [|destruct (key_first k k')]; simpl;
    rewrite ?Hv, ?H2, ?H3, ?IH; done.
Qed.

#[export] Hint Resolve json_ok_get json_ok_set : oess.

(** ** Lemmas: URI components *)

Lemma percent_decode_char c s :
  percent_decode ((if uri_unreserved c then String c estr else percent_encode c) +:+ s)
  = option_map (String c) (percent_decode s).
Proof. destruct c as [[] [] [] [] [] [] [] []]; reflexivity. Qed.

Lemma percent_decode_encode s : percent_decode (encodeURIComponent s) = Some s.
Proof.
  induction s as [|c s IH]; [done|]. simpl encodeURIComponent.
  by rewrite percent_decode_char, IH.
Qed.

Lemma decode_encode s :
  utf8_valid s = true -> decodeURIComponent (encodeURIComponent s) = Some s.
Proof. intros H. unfold decodeURIComponent. by rewrite percent_decode_encode, H. Qed.

(** The characters an encoded component can hold. *)
Definition uri_safe (c : ascii) : bool := uri_unreserved c || Ascii.eqb c "%".

Lemma encode_safe s : str_forall uri_safe (encodeURIComponent s) = true.
Proof.
  induction s as [|c s IH]; [done|]. simpl encodeURIComponent. rewrite str_forall_app, IH, andb_true_r.
  clear IH s. revert c. apply (ascii_forall (fun c =>
    str_forall uri_safe (if uri_unreserved c then String c estr else percent_encode c))).
  vm_compute. reflexivity.
Qed.
