(* ===== verification/Fetch.v ===== *)
(** * Asynchronous code as programs over requests

    An async function of the front end is a program that may send a request
    and continue with its outcome, ask the user to confirm, act on the page
    (alert, navigate, show or hide a dialog), return or throw.  The server and
    the user are the environment: a state with a transition for each request,
    and an answer for each question.  [run] executes a program against an
    environment and records the events in order.

    The server side (the Perl CGI scripts) is a parameter: nothing is assumed
    of it but that a request has some outcome. *)

From Stdlib Require Import ZArith Lia String.
From stdpp Require Import base option list sets strings numbers tactics.
From S2P Require Import Prelude JsValue.

(** A request: method (post or get), URL, and the fields of the form body. *)
Record request := Req {
  rq_post : bool;
  rq_url : string;
  rq_form : list (string * string)
}.

(** [fetch] rejects, [resp.json()] rejects, or a JSON document arrives; or a
    response arrives with an error status, with or without a JSON document. *)
Inductive outcome :=
  | ONetFail
  | OBadJson
  | OJson (v : val)
  | OHttp (statusText : string) (body : option val).

(** The document a call reads when it does not look at the status. *)
Definition outcome_data (o : outcome) : res val :=
  match o with
  | ONetFail => Err ENet
  | OBadJson | OHttp _ None => Err ESyntax
  | OJson v | OHttp _ (Some v) => Ok v
  end.

(** Visible actions on the page.  [ASet] assigns an attribute of an element or
    of a widget (text, label, disabled), [ACall] calls a method of a widget or
    a function that redraws a part of the page. *)
Inductive action :=
  | AAlert (text : string)
  | AGoto (url : string)
  | AReload
  | AModal (id : string) (shown : bool)
  | AStore (key value : string)
  | ASet (target attribute : string) (v : val)
  | ACall (target method : string) (args : list val).

Inductive io (A : Type) :=
  | Ret (a : A)
  | Raise (e : exn)
  | Fetch (r : request) (k : outcome -> io A)
  | Confirm (q : string) (k : bool -> io A)
  | Act (a : action) (k : io A).

#[global] Arguments Ret {A} a.
#[global] Arguments Raise {A} e.
#[global] Arguments Fetch {A} r k.
#[global] Arguments Confirm {A} q k.
#[global] Arguments Act {A} a k.

Fixpoint io_bind {A B} (m : io A) (f : A -> io B) : io B :=
  match m with
  | Ret a => f a
  | Raise e => Raise e
  | Fetch r k => Fetch r (fun o => io_bind (k o) f)
  | Confirm q k => Confirm q (fun b => io_bind (k b) f)
  | Act a k => Act a (io_bind k f)
  end.

(** [try { m } catch (e) { h e }]. *)
Fixpoint io_try {A} (m : io A) (h : exn -> io A) : io A :=
  match m with
  | Ret a => Ret a
  | Raise e => h e
  | Fetch r k => Fetch r (fun o => io_try (k o) h)
  | Confirm q k => Confirm q (fun b => io_try (k b) h)
  | Act a k => Act a (io_try k h)
  end.

Definition io_lift {A} (r : res A) : io A :=
  match r with
  | Ok a => Ret a
  | Err e => Raise e
  end.

Notation "'await' x ':=' m 'in' k" := (io_bind m (fun x => k))
  (at level 10, x binder, m at level 100, k at level 200) : js_scope.
Notation "'pure' x ':=' m 'in' k" := (io_bind (io_lift m) (fun x => k))
  (at level 10, x binder, m at level 100, k at level 200) : js_scope.

(** [const resp = await fetch(...); const data = await resp.json();] *)
Definition fetch_json (r : request) : io val :=
  Fetch r (fun o => io_lift (outcome_data o)).

Definition get_json (url : string) : io val := fetch_json (Req false url []).
Definition post_form (url : string) (form : list (string * string)) : io val :=
  fetch_json (Req true url form).

(** ** Execution *)

Inductive event :=
  | EvFetch (r : request)
  | EvConfirm (q : string) (yes : bool)
  | EvAct (a : action).

(** The environment of a run: a server, and the user's answers. *)
Record env (S : Type) := Env {
  server : S -> request -> S * outcome;
  answer : string -> bool
}.

#[global] Arguments Env {S} server answer.
#[global] Arguments server {S} e.
#[global] Arguments answer {S} e.

Fixpoint run {S A} (w : env S) (m : io A) (s : S) : S * list event * res A :=
  match m with
  | Ret a => (s, [], Ok a)
  | Raise e => (s, [], Err e)
  | Fetch r k =>
      let '(s1, o) := server w s r in
      let '(s2, t, v) := run w (k o) s1 in (s2, EvFetch r :: t, v)
  | Confirm q k =>
      let b := answer w q in
      let '(s2, t, v) := run w (k b) s in (s2, EvConfirm q b :: t, v)
  | Act a k =>
      let '(s2, t, v) := run w k s in (s2, EvAct a :: t, v)
  end.

Definition run_state {S A} (w : env S) (m : io A) (s : S) : S := fst (fst (run w m s)).
Definition run_trace {S A} (w : env S) (m : io A) (s : S) : list event := snd (fst (run w m s)).
Definition run_result {S A} (w : env S) (m : io A) (s : S) : res A := snd (run w m s).

(** The requests among the events. *)
Definition requests (t : list event) : list request :=
  omap (fun e => match e with EvFetch r => Some r | _ => None end) t.

(** A server that answers every request the same way. *)
Definition const_server (o : outcome) : env unit := Env (fun s _ => (s, o)) (fun _ => true).

(** A program that never throws, whatever the environment does. *)
Inductive total {A : Type} : io A -> Prop :=
  | total_ret a : total (Ret a)
  | total_fetch r k : (forall o, total (k o)) -> total (Fetch r k)
  | total_confirm q k : (forall b, total (k b)) -> total (Confirm q k)
  | total_act a k : total k -> total (Act a k).

(** ** Lemmas *)

Lemma run_eta {S A} (w : env S) (m : io A) s :
  run w m s = (run_state w m s, run_trace w m s, run_result w m s).
Proof. unfold run_state, run_trace, run_result. by destruct (run w m s) as [[]]. Qed.

(** Sequencing: the second program runs from the state the first one leaves. *)
Lemma run_bind {S A B} (w : env S) (m : io A) (f : A -> io B) s :
  run w (io_bind m f) s =
  match run w m s with
  | (s1, t1, Ok a) => let '(s2, t2, v) := run w (f a) s1 in (s2, t1 ++ t2, v)
  | (s1, t1, Err e) => (s1, t1, Err e)
  end.
Proof.
  revert s. induction m as [a|e|r k IH|q k IH|a k IH]; intros s; simpl.
  - by destruct (run w (f a) s) as [[]].
  - done.
  - destruct (server w s r) as [s1 o]. rewrite IH.
    destruct (run w (k o) s1) as [[s2 t] [x|e]]; [|done].
    by destruct (run w (f x) s2) as [[]].
  - rewrite IH. destruct (run w (k (answer w q)) s) as [[s2 t] [x|e]]; [|done].
    by destruct (run w (f x) s2) as [[]].
  - rewrite IH. destruct (run w k s) as [[s2 t] [x|e]]; [|done].
    by destruct (run w (f x) s2) as [[]].
Qed.

(** The handler runs from the state where the exception was thrown. *)
Lemma run_try {S A} (w : env S) (m : io A) (h : exn -> io A) s :
  run w (io_try m h) s =
  match run w m s with
  | (s1, t1, Ok a) => (s1, t1, Ok a)
  | (s1, t1, Err e) => let '(s2, t2, v) := run w (h e) s1 in (s2, t1 ++ t2, v)
  end.
Proof.
  revert s. induction m as [a|e|r k IH|q k IH|a k IH]; intros s; simpl.
  - done.
  - by destruct (run w (h e) s) as [[]].
  - destruct (server w s r) as [s1 o]. rewrite IH.
    destruct (run w (k o) s1) as [[s2 t] [x|e]]; [done|].
    by destruct (run w (h e) s2) as [[]].
  - rewrite IH. destruct (run w (k (answer w q)) s) as [[s2 t] [x|e]]; [done|].
    by destruct (run w (h e) s2) as [[]].
  - rewrite IH. destruct (run w k s) as [[s2 t] [x|e]]; [done|].
    by destruct (run w (h e) s2) as [[]].
Qed.

Lemma total_bind {A B} (m : io A) (f : A -> io B) :
  total m -> (forall a, total (f a)) -> total (io_bind m f).
Proof. intros Hm Hf. induction Hm; simpl; auto using @total. Qed.

Lemma total_try {A} (m : io A) h : (forall e, total (h e)) -> total (io_try m h).
Proof. intros Hh. induction m; simpl; auto using @total. Qed.

(** Totality, seen from a run. *)
Lemma total_run {S A} (w : env S) (m : io A) s :
  total m -> exists a, run_result w m s = Ok a.
Proof.
  intros H. revert s. unfold run_result. induction H as [a|r k _ IH|q k _ IH|a k _ IH]; intros s; simpl.
  - eauto.
  - destruct (server w s r) as [s1 o]. specialize (IH o s1).
    destruct (run w (k o) s1) as [[]]. exact IH.
  - specialize (IH (answer w q) s). destruct (run w (k (answer w q)) s) as [[]]. exact IH.
  - specialize (IH s). destruct (run w k s) as [[]]. exact IH.
Qed.

Lemma requests_app t1 t2 : requests (t1 ++ t2) = requests t1 ++ requests t2.
Proof. unfold requests. apply omap_app. Qed.

(** Programs that send exactly the request [r] and nothing else visible. *)
Definition only_fetches {A} (r : request) (m : io A) : Prop :=
  forall S (w : env S) s, run_trace w m s = [EvFetch r].

Lemma only_fetches_get {A} url (f : val -> res A) :
  only_fetches (Req false url []) (io_bind (get_json url) (fun v => io_lift (f v))).
Proof.
  intros S w s. unfold run_trace. rewrite run_bind. simpl.
  destruct (server w s _) as [s1 o]. destruct (outcome_data o) as [v|e]; simpl; [|done].
  by destruct (f v).
Qed.

Lemma only_fetches_try {A} r (m : io A) a :
  only_fetches r m -> only_fetches r (io_try m (fun _ => Ret a)).
Proof.
  intros H S w s. specialize (H S w s). unfold run_trace in *. rewrite run_try.
  destruct (run w m s) as [[s1 t] [x|e]]; simpl in *; [done|]. by rewrite H.
Qed.

#[export] Hint Constructors total : oess.
#[export] Hint Resolve total_bind total_try only_fetches_get only_fetches_try : oess.
