(* ===== verification/Api.v ===== *)
(** * The service client (js_templates/api)

    One definition per function of the client modules of the web front end
    (vlan, interfaces, entity, workgroup, user, command, configuration,
    circuit, vrf and acl), except the two provisioning calls, which have a
    file of their own.  [path] is the deployment prefix the template engine
    substitutes for the path variable of each URL. *)

From Stdlib Require Import ZArith Lia Ascii String.
From stdpp Require Import base option list sets strings numbers tactics.
From S2P Require Import Prelude JsValue JsJson Fetch.

(** [data.results] *)
Definition results (data : val) : res val := prop data "results".

(** [data.results[0]] *)
Definition first_result (data : val) : res val :=
  let? r := results data in index r 0.

(** [if (data.error_text) throw data.error_text;] *)
Definition throw_error_text (data : val) : res unit :=
  let? e := prop data "error_text" in
  if truthy e then Err (EVal e) else Ok tt.

(** [if ('error_text' in data) throw(data.error_text);] *)
Definition throw_if_error_text (data : val) : res unit :=
  let? b := has "error_text" data in
  if b then let? e := prop data "error_text" in Err (EVal e) else Ok tt.

(** [if ('error' in data) throw data.error_text;] *)
Definition throw_if_error (data : val) : res unit :=
  let? b := has "error" data in
  if b then let? e := prop data "error_text" in Err (EVal e) else Ok tt.

(** [if (data.results.length < 1) return null;] then the rest. *)
Definition unless_empty (data : val) (k : val -> res val) : res val :=
  let? r := results data in
  let? n := prop r "length" in
  if js_lt n (VInt 1) then Ok VNull else k r.

(** [try { get url; body } catch { return dflt }] *)
Definition get_or (url : string) (body : val -> res val) (dflt : val) : io val :=
  io_try (await data := get_json url in io_lift (body data)) (fun _ => Ret dflt).

(** [`${v}`] in a template literal. *)
Definition show (v : val) : string := to_string v.

(** A parameter with a default value. *)
Definition default_arg (d v : val) : val := match v with VUndef => d | _ => v end.

Section client.
Variable path : string.

(** ** api/vlan.js *)

Definition getAvailableVLANs (workgroupID interfaceID vrfID circuitID : val) : io val :=
  if strict_eq interfaceID (VInt (-1)) then Ret (VArr []) else
  let url := path +:+ "services/interface.cgi?method=get_available_vlans&interface_id="
             +:+ show interfaceID +:+ "&workgroup_id=" +:+ show workgroupID in
  pure url1 := (if loose_eq (VBool (negb (truthy vrfID))) VUndef then Err ERef else Ok url) in
  pure url2 := (if loose_eq (VBool (negb (truthy circuitID))) VUndef then Err ERef else Ok url1) in
  get_or url2
    (fun data => let? _ := throw_error_text data in
                 let? r := results data in prop r "available_vlans")
    (VArr []).

(** ** api/interfaces.js *)

Definition getInterfaces (workgroupID nodeName trunk : val) : io val :=
  let url := path +:+ "services/data.cgi?method=get_node_interfaces&node="
             +:+ encodeURIComponent (show nodeName) +:+ "&workgroup_id=" +:+ show workgroupID
             +:+ "&show_down=1&show_trunk=" +:+ show (default_arg (VInt 1) trunk) in
  get_or url results (VArr []).

Definition getInterfaceOptions : io val :=
  get_or (path +:+ "services/interface.cgi?method=get_options") results (VArr []).

Definition getInterfacesByWorkgroup (workgroupID : val) : io val :=
  get_or (path +:+ "services/interface.cgi?method=get_workgroup_interfaces&workgroup_id="
          +:+ show workgroupID) results (VArr []).

(** ** api/entity.js *)

Definition getEntities (workgroupID parentEntityID options : val) : io val :=
  let parent := default_arg VNull parentEntityID in
  let url0 := path +:+ "services/entity.cgi?method=get_entity&workgroup_id="
              +:+ show workgroupID +:+ "&entity_id="
              +:+ (if strict_eq parent VNull then "1" else show parent) in
  pure url :=
    match options with
    | VUndef => Ok url0
    | _ =>
        let? vrf := prop options "vrf" in
        let? url1 := (if negb (loose_eq vrf VNull)
                      then let? i := prop vrf "vrf_id" in Ok (url0 +:+ "&vrf_id=" +:+ show i)
                      else Ok url0) in
        let? cid := prop options "circuit_id" in
        if negb (loose_eq cid VNull)
        then let? c := prop options "circuit" in
             let? i := prop c "circuit_id" in Ok (url1 +:+ "&circuit_id=" +:+ show i)
        else Ok url1
    end in
  get_or url results (VArr []).

Definition getEntitiesAll (workgroupID queryString : val) : io val :=
  let q := default_arg VNull queryString in
  let url := path +:+ "services/entity.cgi?method=get_entities&workgroup_id=" +:+ show workgroupID
             +:+ (if negb (loose_eq q VNull) then "&name=" +:+ show q else estr) in
  get_or url results (VArr []).

(** One optional field of an entity form: appended when its input is not empty. *)
Definition entity_field (url key : string) (element : val) : res string :=
  let? v := prop element "value" in
  if truthy v then Ok (url +:+ "&" +:+ key +:+ "=" +:+ show v) else Ok url.

Definition entity_fields (url : string) (entity_name description logo_url entity_url : val)
    : res string :=
  let? u1 := entity_field url "name" entity_name in
  let? u2 := entity_field u1 "description" description in
  let? u3 := entity_field u2 "logo_url" logo_url in
  entity_field u3 "url" entity_url.

Definition edit_entity (entityID entity_name description logo_url entity_url : val) : io val :=
  pure url := entity_fields (path +:+ "services/entity.cgi?method=update_entity&entity_id="
                             +:+ show entityID) entity_name description logo_url entity_url in
  get_or url first_result VNull.

(** ** api/user.js *)

Definition getCurrentUser : io val :=
  get_or (path +:+ "services/user.cgi?method=get_current") first_result VNull.

(** ** api/entity.js, continued *)

(** The parameter is spelt desctiption, so the body reads the page's global
    [description] element, [global_description]. *)
Definition add_entity (global_description : val)
    (entityID entity_name desctiption logo_url entity_url : val) : io val :=
  await user := getCurrentUser in
  pure uid := prop user "user_id" in
  pure url := entity_fields (path +:+ "services/entity.cgi?method=add_child_entity&current_entity_id="
                             +:+ show entityID +:+ "&user_id=" +:+ show uid)
                entity_name global_description logo_url entity_url in
  get_or url (fun data => let? _ := throw_if_error data in first_result data) VNull.

Definition add_user (user_id entityID : val) : io val :=
  get_or (path +:+ "services/entity.cgi?method=add_user&entity_id=" +:+ show entityID
          +:+ "&user_id=" +:+ show user_id)
    (fun data => let? _ := throw_if_error data in first_result data) VNull.

Definition remove_user (user_id entityID : val) : io val :=
  get_or (path +:+ "services/entity.cgi?method=remove_user&entity_id=" +:+ show entityID
          +:+ "&user_id=" +:+ show user_id)
    (fun data => let? _ := throw_if_error data in first_result data) VNull.

(** ** api/workgroup.js *)

Definition getWorkgroups : io val :=
  get_or (path +:+ "services/data.cgi?method=get_workgroups") results VNull.

Definition getAllWorkgroups : io val :=
  get_or (path +:+ "services/workgroup_manage.cgi?method=get_all_workgroups")
    (fun data => let? _ := throw_error_text data in results data) (VArr []).

(** ** api/command.js *)

Definition getCommands : io val :=
  get_or (path +:+ "services/command.cgi?method=get_commands") results VNull.

Definition runCommand (workgroupID commandID : val) (options : list (string * val)) : io val :=
  let url := path +:+ "services/command.cgi?method=run_command&workgroup_id=" +:+ show workgroupID
             +:+ "&command_id=" +:+ show commandID in
  get_or (foldl (fun u kv => u +:+ "&" +:+ fst kv +:+ "=" +:+ show (snd kv)) url options)
    results VNull.

(** ** api/configuration.js *)

Definition getConfiguration (workgroupId vrfEpId make model version : val) : io val :=
  get_or (path +:+ "services/configuration.cgi?method=get&workgroup_id=" +:+ show workgroupId
          +:+ "&vrf_ep_id=" +:+ show vrfEpId +:+ "&make=" +:+ show make
          +:+ "&model=" +:+ show model +:+ "&version=" +:+ show version)
    (fun data => let? _ := throw_if_error_text data in first_result data) (VStr estr).

(** ** api/circuit.js *)

Definition deleteCircuit (workgroupID circuitID : val) : io val :=
  let url := path +:+ "services/circuit.cgi?method=remove" +:+ "&circuit_id=" +:+ show circuitID
             +:+ "&workgroup_id=" +:+ show workgroupID in
  await data := get_json url in
  io_lift (let? _ := throw_if_error_text data in results data).

Definition getCircuit (id workgroupId : val) : io val :=
  get_or (path +:+ "services/circuit.cgi?method=get&circuit_id=" +:+ show id
          +:+ "&workgroup_id=" +:+ show workgroupId)
    (fun data =>
       let? _ := throw_if_error_text data in
       let? r := results data in
       let? n := prop r "length" in
       if loose_eq n (VInt 0) then Err (EVal (VStr "Circuit not found.")) else index r 0)
    VNull.

Definition getCircuits (workgroupID : val) : io val :=
  get_or (path +:+ "services/circuit.cgi?method=get&workgroup_id=" +:+ show workgroupID)
    (fun data => let? _ := throw_if_error_text data in results data) (VArr []).

Definition getCircuitEvents (id : val) : io val :=
  get_or (path +:+ "services/data.cgi?method=get_circuit_scheduled_events&circuit_id=" +:+ show id)
    results VNull.

Definition getCircuitHistory (id : val) : io val :=
  get_or (path +:+ "services/data.cgi?method=get_circuit_history&circuit_id=" +:+ show id)
    results VNull.

Definition getRawCircuit (id : val) : io val :=
  get_or (path +:+ "services/data.cgi?method=generate_clr&circuit_id=" +:+ show id)
    (fun data => let? _ := throw_if_error_text data in
                 let? r := results data in prop r "clr") VNull.

(** ** api/vrf.js, the calls that do not provision *)

Definition getVRF (workgroupID vrfID : val) : io val :=
  get_or (path +:+ "services/vrf.cgi?method=get_vrf_details&vrf_id=" +:+ show vrfID
          +:+ "&workgroup_id=" +:+ show workgroupID) first_result VNull.

Definition getVRFHistory (workgroupID id : val) : io val :=
  get_or (path +:+ "services/vrf.cgi?method=get_vrf_history&vrf_id=" +:+ show id
          +:+ "&workgroup_id=" +:+ show workgroupID) results VUndef.

Definition deleteVRF (workgroupID vrfID : val) : io val :=
  await data := get_json (path +:+ "services/vrf.cgi?method=remove&vrf_id=" +:+ show vrfID
                          +:+ "&workgroup_id=" +:+ show workgroupID) in
  io_lift (let? _ := throw_if_error_text data in results data).

Definition getVRFs (workgroupID : val) : io val :=
  get_or (path +:+ "services/vrf.cgi?method=get_vrfs&workgroup_id=" +:+ show workgroupID) Ok VNull.

(** ** api/acl.js *)

Definition acl_base : string := path +:+ "services/workgroup_manage.cgi?method=".

Definition getACL (aclID : val) : io val :=
  get_or (acl_base +:+ "get_acls&interface_acl_id=" +:+ show aclID)
    (fun data => let? _ := throw_error_text data in unless_empty data (fun r => index r 0)) VNull.

Definition getACLs (interfaceID : val) : io val :=
  get_or (acl_base +:+ "get_acls&interface_id=" +:+ show interfaceID)
    (fun data => let? _ := throw_error_text data in results data) (VArr []).

Definition deleteACL (aclID : val) : io val :=
  get_or (acl_base +:+ "remove_acl&interface_acl_id=" +:+ show aclID)
    (fun data =>
       let? _ := throw_error_text data in
       unless_empty data (fun r =>
         let? x := index r 0 in
         let? s := prop x "success" in Ok (VBool (strict_eq s (VInt 1)))))
    (VBool false).

(** The URL of an ACL update, from the fields of [acl]. *)
Definition modify_acl_url (acl : val) : res string :=
  let? aclID := prop acl "aclID" in
  let? position := prop acl "position" in
  let? allow := prop acl "allow" in
  let? low := prop acl "low" in
  let url := acl_base +:+ "update_acl&interface_acl_id=" +:+ show aclID
             +:+ "&eval_position=" +:+ show position +:+ "&allow_deny=" +:+ show allow
             +:+ "&start=" +:+ show low in
  let? hasIntf := has "interfaceID" acl in
  let? interfaceID := prop acl "interfaceID" in
  let url := if hasIntf then url +:+ "&interface_id=" +:+ show interfaceID else url in
  let? entityID := prop acl "entityID" in
  let? hasEntity := has "entityID" acl in
  let url := if hasEntity && truthy entityID && negb (strict_eq entityID (VInt (-1)))
             then url +:+ "&entity_id=" +:+ show entityID else url in
  let? wg := prop acl "selectedWorkgroupID" in
  let? hasWg := has "selectedWorkgroupID" acl in
  let url := if hasWg && truthy wg then url +:+ "&workgroup_id=" +:+ show wg else url in
  let? high := prop acl "high" in
  let url := url +:+ "&end=" +:+ show high in
  let? hasNotes := has "notes" acl in
  let? notes := prop acl "notes" in
  Ok (if hasNotes then url +:+ "&notes=" +:+ show notes else url).

Definition acl_reply (data : val) : res val :=
  let? _ := throw_error_text data in unless_empty data (fun r => index r 0).

Definition modifyACL (acl : val) : io val :=
  pure url := modify_acl_url acl in get_or url acl_reply (VBool false).

(** The URL of an ACL creation. *)
Definition add_acl_url (acl : val) : res string :=
  let? allow := prop acl "allow" in
  let? low := prop acl "low" in
  let? interfaceID := prop acl "interfaceID" in
  let? entityID := prop acl "entityID" in
  let? wg := prop acl "selectedWorkgroupID" in
  let? high := prop acl "high" in
  let? notes := prop acl "notes" in
  Ok (acl_base +:+ "add_acl" +:+ "&allow_deny=" +:+ show allow
      +:+ "&vlan_start=" +:+ show low +:+ "&interface_id=" +:+ show interfaceID
      +:+ "&entity_id=" +:+ show entityID
      +:+ (if strict_eq wg (VInt (-1)) then estr else "&workgroup_id=" +:+ show wg)
      +:+ "&vlan_end=" +:+ show high +:+ "&notes=" +:+ show notes).

Definition addACL (acl : val) : io val :=
  pure url := add_acl_url acl in get_or url acl_reply (VBool false).

End client.

(** ** Query strings, as the server reads them *)

(** The [k=v] pairs after the question mark, split at ampersands; keys and
    values as sent (percent escapes not decoded). *)
Fixpoint split_on (sep : ascii) (s : string) : list string :=
  match s with
  | EmptyString => [estr]
  | String c s' =>
      if Ascii.eqb c sep then estr :: split_on sep s'
      else match split_on sep s' with
           | x :: l => String c x :: l
           | [] => [String c estr]
           end
  end.

Definition query_pair (s : string) : string * string :=
  match split_on "=" s with
  | k :: v :: l => (k, str_join "=" (v :: l))
  | k :: [] => (k, estr)
  | [] => (estr, estr)
  end.

Definition query_of (url : string) : list (string * string) :=
  match split_on "?" url with
  | _ :: q :: _ => map query_pair (split_on "&" q)
  | _ => []
  end.

(** Text that cannot break out of a query parameter. *)
Definition plain_char (c : ascii) : bool :=
  negb (Ascii.eqb c "&" || Ascii.eqb c "=" || Ascii.eqb c "?" || Ascii.eqb c "#").
Definition plain (s : string) : bool := str_forall plain_char s.

Definition query_string (l : list (string * string)) : string :=
  str_join "&" (map (fun kv => fst kv +:+ "=" +:+ snd kv) l).

(** Parameters that follow others. *)
Fixpoint amp (l : list (string * string)) : string :=
  match l with
  | [] => estr
  | (k, v) :: l' => "&" +:+ k +:+ "=" +:+ v +:+ amp l'
  end.

(** ** Lemmas *)

Lemma split_on_none sep s :
  str_forall (fun c => negb (Ascii.eqb c sep)) s = true -> split_on sep s = [s].
Proof.
  induction s as [|c s IH]; simpl; [done|]. intros H. apply andb_true_iff in H as [H1 H2].
  apply negb_true_iff in H1. by rewrite H1, (IH H2).
Qed.

Lemma split_on_app sep a b :
  str_forall (fun c => negb (Ascii.eqb c sep)) a = true ->
  split_on sep (a +:+ String sep b) = a :: split_on sep b.
Proof.
  induction a as [|c a IH]; simpl; [by rewrite Ascii.eqb_refl|].
  intros H. apply andb_true_iff in H as [H1 H2]. apply negb_true_iff in H1.
  by rewrite H1, (IH H2).
Qed.

Lemma str_forall_weaken p q s :
  (forall c, p c = true -> q c = true) -> str_forall p s = true -> str_forall q s = true.
Proof.
  intros Hpq. induction s as [|c s IH]; simpl; [done|]. intros H.
  apply andb_true_iff in H as [H1 H2]. by rewrite (Hpq _ H1), IH.
Qed.

Lemma plain_not c sep : plain_char c = true -> sep ∈ ["&"; "="; "?"; "#"]%char ->
  negb (Ascii.eqb c sep) = true.
Proof.
  unfold plain_char. rewrite !negb_true_iff, !orb_false_iff.
  intros [[[? ?] ?] ?]. rewrite !elem_of_cons, elem_of_nil.
  intros [->|[->|[->|[->|[]]]]]; done.
Qed.

Lemma plain_split sep s : plain s = true -> sep ∈ ["&"; "="; "?"; "#"]%char ->
  str_forall (fun c => negb (Ascii.eqb c sep)) s = true.
Proof. intros H Hin. eapply str_forall_weaken; [|exact H]. intros c Hc. by apply plain_not. Qed.

Lemma query_pair_plain k v :
  plain k = true -> plain v = true -> query_pair (k +:+ "=" +:+ v) = (k, v).
Proof.
  intros Hk Hv. unfold query_pair. change ("=" +:+ v) with (String "=" v).
  rewrite split_on_app by (apply plain_split; [done|set_solver]).
  by rewrite split_on_none by (apply plain_split; [done|set_solver]).
Qed.

Lemma pair_no_sep sep k v : plain k = true -> plain v = true -> sep ∈ ["&"; "?"; "#"]%char ->
  str_forall (fun c => negb (Ascii.eqb c sep)) (k +:+ "=" +:+ v) = true.
Proof.
  intros Hk Hv Hs. rewrite !str_forall_app.
  rewrite (plain_split sep k), (plain_split sep v) by (done || set_solver). simpl.
  rewrite !elem_of_cons, elem_of_nil in Hs. destruct Hs as [->|[->|[->|[]]]]; reflexivity.
Qed.

Lemma query_string_no sep l :
  Forall (fun kv => plain (fst kv) = true /\ plain (snd kv) = true) l -> sep ∈ ["?"; "#"]%char ->
  str_forall (fun c => negb (Ascii.eqb c sep)) (query_string l) = true.
Proof.
  intros HF Hs. unfold query_string. induction HF as [|[k v] l [Hk Hv] HF IH]; [done|].
  destruct l as [|kv l]; cbn [map fst snd] in *.
  - rewrite str_join_one. apply pair_no_sep; [done..|set_solver].
  - rewrite str_join_cons, str_forall_app, (pair_no_sep sep k v) by (done || set_solver).
    rewrite str_forall_app, IH, andb_true_r. simpl.
    rewrite !elem_of_cons, elem_of_nil in Hs. destruct Hs as [->|[->|[]]]; reflexivity.
Qed.

Lemma split_query_string l :
  l <> [] -> Forall (fun kv => plain (fst kv) = true /\ plain (snd kv) = true) l ->
  map query_pair (split_on "&" (query_string l)) = l.
Proof.
  intros Hne HF. unfold query_string. induction HF as [|[k v] l [Hk Hv] HF IH]; [done|].
  simpl in Hk, Hv. destruct l as [|kv l]; cbn [map fst snd] in *.
  - rewrite str_join_one, split_on_none by (apply pair_no_sep; [done..|set_solver]).
    cbn [map]. by rewrite query_pair_plain.
  - rewrite str_join_cons. change ("&" +:+ ?x) with (String "&" x).
    rewrite split_on_app by (apply pair_no_sep; [done..|set_solver]).
    cbn [map]. rewrite query_pair_plain by done. f_equal. by apply IH.
Qed.

(** The server reads the parameters that were sent, when none of them holds a
    separator. *)
Lemma query_of_string base l :
  str_forall (fun c => negb (Ascii.eqb c "?")) base = true ->
  l <> [] -> Forall (fun kv => plain (fst kv) = true /\ plain (snd kv) = true) l ->
  query_of (base +:+ "?" +:+ query_string l) = l.
Proof.
  intros Hb Hne HF. unfold query_of. change ("?" +:+ ?x) with (String "?" x).
  rewrite split_on_app by done.
  rewrite split_on_none by (apply query_string_no; [done|set_solver]).
  by apply split_query_string.
Qed.

Lemma amp_app l m : amp (l ++ m) = amp l +:+ amp m.
Proof. induction l as [|[k v] l IH]; [done|]. cbn [app amp]. by rewrite IH, !str_app_assoc. Qed.

Lemma query_string_amp k v l : query_string ((k, v) :: l) = k +:+ "=" +:+ v +:+ amp l.
Proof.
  unfold query_string. revert k v. induction l as [|[k' v'] l IH]; intros k v.
  - cbn [map amp fst snd]. by rewrite str_join_one, str_app_nil_r.
  - cbn [map amp fst snd] in *. rewrite str_join_cons, IH, !str_app_assoc. done.
Qed.

Lemma string_of_Z_plain z : plain (string_of_Z z) = true.
Proof.
  assert (D : forall n, plain (string_of_N n) = true).
  { intros n. eapply str_forall_weaken; [|apply string_of_N_digits].
    intros c H. destruct c as [[] [] [] [] [] [] [] []]; first [reflexivity | discriminate H]. }
  destruct z; simpl string_of_Z; [done|apply D|]. unfold plain in *. simpl. apply D.
Qed.

Lemma get_or_total url body d : total (get_or url body d).
Proof. unfold get_or. auto with oess. Qed.

Lemma get_or_only url body d : only_fetches (Req false url []) (get_or url body d).
Proof. unfold get_or. auto with oess. Qed.

(** The result of a guarded call, on each outcome. *)
Lemma get_or_result {S} (w : env S) url body d s :
  run_result w (get_or url body d) s =
  Ok (match (let? v := outcome_data (snd (server w s (Req false url []))) in body v) with
      | Ok x => x
      | Err _ => d
      end).
Proof.
  unfold run_result, get_or. rewrite run_try, run_bind. simpl.
  destruct (server w s _) as [s1 o]. destruct (outcome_data o) as [v|e] eqn:E; simpl; rewrite E; simpl; [|done].
  by destruct (body v).
Qed.

#[export] Hint Resolve get_or_total get_or_only : oess.

(** The parameters of an ACL creation, in the order they are sent. *)
Definition add_acl_params (allow low intf ent wg high notes : val) : list (string * string) :=
  [("method", "add_acl"); ("allow_deny", show allow); ("vlan_start", show low);
   ("interface_id", show intf); ("entity_id", show ent)]
  ++ (if strict_eq wg (VInt (-1)) then [] else [("workgroup_id", show wg)])
  ++ [("vlan_end", show high); ("notes", show notes)].

(** An ACL under edition, as the dialog keeps it. *)
Definition acl_record (allow low intf ent wg high notes : val) : val :=
  VObj [("allow", allow); ("low", low); ("interfaceID", intf); ("entityID", ent);
        ("selectedWorkgroupID", wg); ("high", high); ("notes", notes)].

Definition acl_script (path : string) : string := path +:+ "services/workgroup_manage.cgi".

Lemma add_acl_url_eq path allow low intf ent wg high notes :
  add_acl_url path (acl_record allow low intf ent wg high notes)
  = Ok (acl_script path +:+ "?" +:+ query_string (add_acl_params allow low intf ent wg high notes)).
Proof.
  unfold add_acl_url, acl_record, acl_script, add_acl_params, acl_base, query_string.
  cbn -[String.append]. f_equal. rewrite !str_app_assoc. f_equal.
  destruct (strict_eq wg (VInt (-1))); cbn; by rewrite ?str_app_assoc.
Qed.

Lemma no_question_acl path :
  str_forall (fun c => negb (Ascii.eqb c "?")) path = true ->
  str_forall (fun c => negb (Ascii.eqb c "?")) (acl_script path) = true.
Proof. intros H. unfold acl_script. by rewrite str_forall_app, H. Qed.

(** ** Theorems *)

(** The calls of the service client that the pages use without a handler
    never throw: whatever the server answers (no answer, a malformed document,
    an error document, a document of another shape), they return a value. *)
Theorem readers_total path (w i n t q o id wg f g h k : val) (opts : list (string * val)) :
  total (getAvailableVLANs path w i f g) /\ total (getInterfaces path w n t) /\
  total (getInterfaceOptions path) /\ total (getInterfacesByWorkgroup path w) /\
  total (getEntities path w o VUndef) /\ total (getEntitiesAll path w q) /\
  total (getCurrentUser path) /\ total (add_user path id o) /\ total (remove_user path id o) /\
  total (getWorkgroups path) /\ total (getAllWorkgroups path) /\ total (getCommands path) /\
  total (runCommand path w id opts) /\ total (getConfiguration path w id f g h) /\
  total (getCircuit path id w) /\ total (getCircuits path w) /\ total (getCircuitEvents path id) /\
  total (getCircuitHistory path id) /\ total (getRawCircuit path id) /\ total (getVRF path w id) /\
  total (getVRFHistory path w id) /\ total (getVRFs path w) /\ total (getACL path id) /\
  total (getACLs path id) /\ total (deleteACL path id) /\
  total (modifyACL path (VObj opts)) /\ total (addACL path (VObj opts)).
Proof.
  repeat split; try (apply get_or_total).
  unfold getAvailableVLANs. destruct (strict_eq i (VInt (-1))); [constructor|].
  apply get_or_total.
Qed.

(** The VLAN query never depends on the virtual network or the circuit being
    edited: the two tests meant to add the vrf_id and circuit_id parameters
    compare a negation with undefined and are false for every argument. *)
Theorem available_vlans_ignore_edited path w i v c v' c' :
  getAvailableVLANs path w i v c = getAvailableVLANs path w i v' c'.
Proof. reflexivity. Qed.

(** Creating an ACL sends exactly the fields of the dialog, under their
    names and once each, the workgroup being left out when it is the number
    -1, provided no field holds a query separator. *)
Theorem add_acl_query path allow low intf ent wg high notes :
  str_forall (fun c => negb (Ascii.eqb c "?")) path = true ->
  forallb plain (map show [allow; low; intf; ent; wg; high; notes]) = true ->
  exists url, add_acl_url path (acl_record allow low intf ent wg high notes) = Ok url /\
    query_of url = add_acl_params allow low intf ent wg high notes.
Proof.
  intros Hp H. cbn [map forallb] in H.
  repeat match type of H with _ && _ = true => apply andb_true_iff in H as [? H] end.
  eexists. split; [apply add_acl_url_eq|].
  apply query_of_string; [by apply no_question_acl|done|].
  unfold add_acl_params. destruct (strict_eq wg (VInt (-1))); repeat constructor; done.
Qed.

Lemma add_acl_query_witness :
  exists url,
    add_acl_url "/oess/" (acl_record (VStr "allow") (VInt 2) (VInt 7) (VInt 3) (VInt (-1)) (VInt 4095) (VStr "ok"))
      = Ok url /\
    query_of url = [("method", "add_acl"); ("allow_deny", "allow"); ("vlan_start", "2");
                    ("interface_id", "7"); ("entity_id", "3"); ("vlan_end", "4095"); ("notes", "ok")].
Proof.
  apply (add_acl_query "/oess/" (VStr "allow") (VInt 2) (VInt 7) (VInt 3) (VInt (-1)) (VInt 4095) (VStr "ok"));
    reflexivity.
Defined.

(** The notes of an ACL are sent unescaped: notes holding an ampersand and an
    equals sign add a parameter of the user's choice to the request. *)
Theorem add_acl_notes_inject path allow low intf ent wg high (n k v : string) :
  str_forall (fun c => negb (Ascii.eqb c "?")) path = true ->
  forallb plain (map show [allow; low; intf; ent; wg; high]) = true ->
  forallb plain [n; k; v] = true ->
  exists url,
    add_acl_url path (acl_record allow low intf ent wg high (VStr (n +:+ "&" +:+ k +:+ "=" +:+ v)))
      = Ok url /\
    query_of url = add_acl_params allow low intf ent wg high (VStr n) ++ [(k, v)].
Proof.
  intros Hp H Hn. cbn [map forallb] in H, Hn.
  repeat match type of H with _ && _ = true => apply andb_true_iff in H as [? H] end.
  repeat match type of Hn with _ && _ = true => apply andb_true_iff in Hn as [? Hn] end.
  eexists. split; [apply add_acl_url_eq|].
  assert (query_string (add_acl_params allow low intf ent wg high (VStr (n +:+ "&" +:+ k +:+ "=" +:+ v)))
          = query_string (add_acl_params allow low intf ent wg high (VStr n) ++ [(k, v)])) as ->.
  { unfold add_acl_params, query_string, show. destruct (strict_eq wg (VInt (-1)));
      cbn [app map fst snd]; cbn [to_string]; rewrite !str_join_cons, !str_join_one;
      by rewrite !str_app_assoc. }
  apply query_of_string; [by apply no_question_acl|by destruct (strict_eq wg (VInt (-1)))|].
  unfold add_acl_params. destruct (strict_eq wg (VInt (-1))); repeat constructor; done.
Qed.

Lemma add_acl_notes_inject_witness :
  exists url,
    add_acl_url "/" (acl_record (VStr "deny") (VInt 2) (VInt 7) (VInt 3) (VInt 4) (VInt 9)
                       (VStr ("x" +:+ "&" +:+ "entity_id" +:+ "=" +:+ "1"))) = Ok url /\
    query_of url = [("method", "add_acl"); ("allow_deny", "deny"); ("vlan_start", "2");
                    ("interface_id", "7"); ("entity_id", "3"); ("workgroup_id", "4");
                    ("vlan_end", "9"); ("notes", "x"); ("entity_id", "1")].
Proof.
  apply (add_acl_notes_inject "/" (VStr "deny") (VInt 2) (VInt 7) (VInt 3) (VInt 4) (VInt 9)
           "x" "entity_id" "1"); reflexivity.
Defined.
