(* ===== verification/Provision.v ===== *)
(** * The provisioning calls (js_templates/api/vrf.js, api/circuit.js)

    [provisionVRF] checks the peerings of every endpoint of a layer 3
    connection, builds the form and posts it; [provisionCircuit] builds and
    posts the form of a layer 2 connection.  An endpoint travels as the JSON
    text of a fresh object. *)

From Stdlib Require Import ZArith Lia Ascii String.
From stdpp Require Import base option list sets strings numbers tactics.
From S2P Require Import Prelude JsValue JsJson Fetch Api.

Abbreviation form := (list (string * string)).

(** [form.append(k, v)] *)
Definition append_field (f : form) (k : string) (v : val) : form := f ++ [(k, show v)].

(** [form.append('endpoint', JSON.stringify(e))] *)
Definition append_json (f : form) (k : string) (v : val) : form :=
  f ++ [(k, default "undefined" (stringify v))].

Definition flag (v : val) : val := if truthy v then VInt 1 else VInt 0.

Definition set_field (o : list (string * val)) (k : string) (v : val) : list (string * val) :=
  obj_set k v o.

(** ** provisionVRF *)

Definition azure : string := "azure-express-route".
Definition oracle : string := "oracle-fast-connect".

Definition azure_ipv6_message : string :=
  "IPv6 peerings must be configured via the Azure Portal. Changes made via the Azure Portal may take up to 30 minutes to be reflected within OESS.".
Definition no_peering_message : string := "At least one peering on each endpoint must be specified.".
Definition oracle_message : string :=
  "Oracle FastConnect endpoints must have a single IPv4 peering, and may have up to one IPv6 peering.".
Definition azure_message : string :=
  "Azure ExpressRoute endpoints must have a single IPv4 peering, and may have up to one IPv6 peering.".

Definition throw_text {A} (s : string) : res A := Err (EVal (VStr s)).

(** The peer object that is sent. *)
Definition peer_record (p : val) : res val :=
  let? i := prop p "vrf_ep_peer_id" in
  let? asn := prop p "peer_asn" in
  let? key := prop p "md5_key" in
  let? lip := prop p "local_ip" in
  let? pip := prop p "peer_ip" in
  let? ipv := prop p "ip_version" in
  let? bfd := prop p "bfd" in
  Ok (VObj [("vrf_ep_peer_id", i); ("peer_asn", asn); ("md5_key", key); ("local_ip", lip);
            ("peer_ip", pip); ("ip_version", ipv); ("bfd", flag bfd)]).

(** Counts of IPv4 and other peerings, and the peers collected so far. *)
Record peer_acc := PeerAcc { n4 : nat; n6 : nat; collected : list val }.

(** Body of the loop over the peerings of an endpoint. *)
Definition peer_step (interconnect : val) (a : peer_acc) (p : val) : res peer_acc :=
  let? ipv := prop p "ip_version" in
  let '(c4, c6) := if strict_eq ipv (VStr "ipv4") then (S (n4 a), n6 a) else (n4 a, S (n6 a)) in
  let? pid := prop p "vrf_ep_peer_id" in
  if strict_eq interconnect (VStr azure) && strict_eq ipv (VStr "ipv6") && negb (truthy pid)
  then throw_text azure_ipv6_message
  else let? r := peer_record p in Ok (PeerAcc c4 c6 (collected a ++ [r])).

(** The object sent for an endpoint, without its peers, up to the location. *)
Definition vrf_endpoint_base (endpoint : val) : res (list (string * val)) :=
  let? i := prop endpoint "vrf_endpoint_id" in
  let? bw := prop endpoint "bandwidth" in
  let? tag := prop endpoint "tag" in
  let? jumbo := prop endpoint "jumbo" in
  let? acct := prop endpoint "cloud_account_id" in
  let e := [("vrf_endpoint_id", i); ("bandwidth", bw); ("tag", tag); ("jumbo", flag jumbo);
            ("peers", VArr []); ("cloud_account_id", acct)] in
  let? gw := prop endpoint "cloud_gateway_type" in
  let e := if negb (strict_eq gw VNull) then set_field e "cloud_gateway_type" gw else e in
  let? hasEntity := has "entity_id" endpoint in
  let? name := prop endpoint "name" in
  let? node := prop endpoint "node" in
  let? intf := prop endpoint "interface" in
  let? entity := prop endpoint "entity" in
  Ok (if hasEntity && strict_eq name (VStr "TBD") && strict_eq node (VStr "TBD")
      then set_field e "entity" entity
      else set_field (set_field (set_field e "interface" intf) "node" node) "entity" entity).

(** Body of the loop over the endpoints: the object sent, or the first
    complaint. *)
Definition vrf_endpoint (endpoint : val) : res val :=
  let? e := vrf_endpoint_base endpoint in
  let? peers := prop endpoint "peers" in
  let? n := prop peers "length" in
  if js_lt n (VInt 1) then throw_text no_peering_message else
  let? ps := elements_of peers in
  let? interconnect := prop endpoint "cloud_interconnect_type" in
  let? a := res_fold (peer_step interconnect) (PeerAcc 0 0 []) ps in
  let hasOneIpv4Peering := Nat.eqb (n4 a) 1 in
  let hasAtMostOneIpv6Peering := Nat.leb (n6 a) 1 in
  if strict_eq interconnect (VStr oracle) && negb (hasOneIpv4Peering && hasAtMostOneIpv6Peering)
  then throw_text oracle_message
  else if strict_eq interconnect (VStr azure) && negb (hasOneIpv4Peering && hasAtMostOneIpv6Peering)
  then throw_text azure_message
  else Ok (VObj (set_field e "peers" (VArr (collected a)))).

Definition vrf_header (workgroupID name description provisionTime removeTime vrfID : val) : form :=
  [("method", "provision"); ("name", show name); ("description", show description);
   ("local_asn", "1"); ("workgroup_id", show workgroupID);
   ("provision_time", show provisionTime); ("remove_time", show removeTime);
   ("vrf_id", show vrfID)].

Definition vrf_reply (data : val) : res val :=
  let? _ := throw_if_error_text data in
  let? r := results data in
  let? ok := prop r "success" in
  let? i := prop r "vrf_id" in
  match ok, i with
  | VUndef, _ | _, VUndef => throw_text "Unexpected response format received from server."
  | _, _ => Ok (VNum (parseInt i))
  end.

Definition provisionVRF (path : string)
    (workgroupID name description endpoints provisionTime removeTime vrfID : val) : io val :=
  let header := vrf_header workgroupID name description provisionTime removeTime
                  (default_arg (VInt (-1)) vrfID) in
  pure eps := elements_of endpoints in
  pure body := res_fold (fun f endpoint => let? e := vrf_endpoint endpoint in
                                           Ok (append_json f "endpoint" e)) header eps in
  await data := post_form (path +:+ "services/vrf.cgi") body in
  io_lift (vrf_reply data).

(** ** provisionCircuit *)

(** Body of the loop over the endpoints; [bandwidth] is the running maximum. *)
Definition circuit_endpoint (st : val * form) (endpoint : val) : res (val * form) :=
  let '(bandwidth, f) := st in
  let? bw := prop endpoint "bandwidth" in
  let bandwidth' := if js_gt bw bandwidth then bw else bandwidth in
  let? tag := prop endpoint "tag" in
  let? acct := prop endpoint "cloud_account_id" in
  let? epid := prop endpoint "circuit_ep_id" in
  let? jumbo := prop endpoint "jumbo" in
  let e := [("bandwidth", bw); ("tag", tag); ("cloud_account_id", acct);
            ("circuit_ep_id", epid); ("jumbo", flag jumbo)] in
  let? gw := prop endpoint "cloud_gateway_type" in
  let e := if negb (strict_eq gw VNull) then set_field e "cloud_gateway_type" gw else e in
  let? hasEntity := has "entity_id" endpoint in
  let? name := prop endpoint "name" in
  let? intf := prop endpoint "interface" in
  let? node := prop endpoint "node" in
  let? entity := prop endpoint "entity" in
  let e := if hasEntity && strict_eq name (VStr "TBD") && strict_eq intf (VStr "TBD")
           then set_field e "entity" entity
           else set_field (set_field (set_field e "interface" intf) "node" node) "entity" entity in
  Ok (bandwidth', append_json f "endpoint" (VObj e)).

Definition circuit_header (workgroupID description start fin circuitID : val) : form :=
  [("method", "provision"); ("workgroup_id", show workgroupID);
   ("description", show description); ("static_mac", "0");
   ("provision_time", show (js_or start (VInt (-1))));
   ("remove_time", show (js_or fin (VInt (-1))));
   ("restore_to_primary", "0"); ("circuit_id", show circuitID)].

(** Arguments are positional: missing ones are undefined, extra ones ignored. *)
Definition arg (args : list val) (i : nat) : val := default VUndef (args !! i).

Definition provisionCircuit (path : string) (args : list val) : io val :=
  let workgroupID := arg args 0 in
  let description := arg args 1 in
  let endpoints := arg args 2 in
  let start := default_arg (VInt (-1)) (arg args 3) in
  let fin := default_arg (VInt (-1)) (arg args 4) in
  let circuitID := default_arg (VInt (-1)) (arg args 5) in
  let header := circuit_header workgroupID description start fin circuitID in
  pure eps := elements_of endpoints in
  pure st := res_fold circuit_endpoint (VInt 0, header) eps in
  await data := post_form (path +:+ "services/circuit.cgi") (snd st) in
  pure _ := throw_if_error_text data in
  Ret data.

(** ** Specification of the peering rules *)

Definition ip_version (p : val) : val :=
  match p with VObj o => default VUndef (obj_get "ip_version" o) | _ => VUndef end.
Definition peer_id (p : val) : val :=
  match p with VObj o => default VUndef (obj_get "vrf_ep_peer_id" o) | _ => VUndef end.
Definition is_v4 (p : val) : bool := strict_eq (ip_version p) (VStr "ipv4").
Definition is_v6 (p : val) : bool := strict_eq (ip_version p) (VStr "ipv6").
Definition count {A} (f : A -> bool) (l : list A) : nat := length (List.filter f l).

(** What an endpoint may carry: some peering; on Oracle and Azure exactly one
    IPv4 peering and at most one other; on Azure no new IPv6 peering. *)
Definition peering_rules (interconnect : val) (ps : list val) : bool :=
  negb (Nat.eqb (length ps) 0)
  && (negb (strict_eq interconnect (VStr azure))
      || forallb (fun p => negb (is_v6 p) || truthy (peer_id p)) ps)
  && (negb (strict_eq interconnect (VStr azure) || strict_eq interconnect (VStr oracle))
      || (Nat.eqb (count is_v4 ps) 1 && Nat.leb (count (fun p => negb (is_v4 p)) ps) 1)).

Definition is_obj (v : val) : bool := match v with VObj _ => true | _ => false end.

(** Endpoints of the pages: objects whose peers are an array of objects. *)
Definition endpoint_shape (endpoint : val) : option (val * list val) :=
  match endpoint with
  | VObj o =>
      match obj_get "peers" o with
      | Some (VArr ps) =>
          if forallb is_obj ps
          then Some (default VUndef (obj_get "cloud_interconnect_type" o), ps) else None
      | _ => None
      end
  | _ => None
  end.

(** ** Lemmas *)

Lemma prop_obj o k : prop (VObj o) k = Ok (default VUndef (obj_get k o)).
Proof. reflexivity. Qed.

Lemma has_obj o k : exists b, has k (VObj o) = Ok b.
Proof. simpl. eauto. Qed.

Lemma vrf_endpoint_base_ok o : exists e, vrf_endpoint_base (VObj o) = Ok e.
Proof. unfold vrf_endpoint_base. rewrite !prop_obj. simpl. eauto. Qed.

Lemma peer_record_ok p : is_obj p = true -> exists r, peer_record p = Ok r.
Proof. destruct p; try done. intros _. unfold peer_record. rewrite !prop_obj. simpl. eauto. Qed.

(** A peering that the Azure rule refuses. *)
Definition refused (interconnect p : val) : bool :=
  strict_eq interconnect (VStr azure) && is_v6 p && negb (truthy (peer_id p)).

Lemma peer_step_eq ic a p :
  is_obj p = true ->
  peer_step ic a p =
  if refused ic p then throw_text azure_ipv6_message
  else let? r := peer_record p in
       Ok (PeerAcc (if is_v4 p then S (n4 a) else n4 a)
                   (if is_v4 p then n6 a else S (n6 a)) (collected a ++ [r])).
Proof.
  destruct p as [| | | | | |o]; try done. intros _.
  unfold peer_step, refused, is_v4, is_v6, ip_version, peer_id. rewrite !prop_obj. simpl res_bind.
  destruct (strict_eq _ (VStr "ipv4")); reflexivity.
Qed.

Lemma count_cons {A} f (x : A) l : count f (x :: l) = (if f x then 1 else 0) + count f l.
Proof. unfold count. simpl. by destruct (f x). Qed.

(** The loop over peerings: the first refused peering stops it, otherwise it
    counts them and collects one record each. *)
Lemma peers_fold ic ps a :
  forallb is_obj ps = true ->
  if existsb (refused ic) ps
  then res_fold (peer_step ic) a ps = throw_text azure_ipv6_message
  else exists rs, res_map peer_record ps = Ok rs /\
       res_fold (peer_step ic) a ps
       = Ok (PeerAcc (n4 a + count is_v4 ps) (n6 a + count (fun p => negb (is_v4 p)) ps)
                     (collected a ++ rs)).
Proof.
  revert a. induction ps as [|p ps IH]; intros a Hobj.
  - simpl. exists []. split; [done|]. unfold count. simpl. rewrite !Nat.add_0_r, app_nil_r.
    by destruct a.
  - simpl in Hobj. apply andb_true_iff in Hobj as [Hp Hps]. simpl existsb.
    simpl res_fold. rewrite peer_step_eq by done.
    destruct (refused ic p) eqn:Hr; [done|]. simpl orb.
    destruct (peer_record_ok p Hp) as [r Hrec]. rewrite Hrec. simpl res_bind.
    specialize (IH (PeerAcc (if is_v4 p then S (n4 a) else n4 a)
                   (if is_v4 p then n6 a else S (n6 a)) (collected a ++ [r])) Hps).
    destruct (existsb (refused ic) ps); [done|].
    destruct IH as (rs & Hrs & ->). exists (r :: rs). split.
    + by rewrite res_map_cons, Hrec, Hrs.
    + simpl. rewrite !count_cons, <-app_assoc. simpl.
      destruct (is_v4 p); simpl; do 2 f_equal; lia.
Qed.

Lemma refused_none ic ps :
  existsb (refused ic) ps = false <->
  negb (strict_eq ic (VStr azure)) || forallb (fun p => negb (is_v6 p) || truthy (peer_id p)) ps = true.
Proof.
  unfold refused. destruct (strict_eq ic (VStr azure)); simpl.
  - induction ps as [|p ps IH]; simpl; [done|].
    rewrite orb_false_iff, andb_true_iff, IH.
    destruct (is_v6 p), (truthy (peer_id p)); simpl; naive_solver.
  - split; [done|]. intros _. by induction ps.
Qed.

(** ** Theorems *)

(** C1 The validation loop of [provisionVRF] accepts an endpoint exactly when its
    peerings follow the rules: at least one peering; on Oracle FastConnect and
    Azure ExpressRoute exactly one IPv4 peering and at most one other; on Azure
    no IPv6 peering that the portal has not created. *)
Theorem vrf_endpoint_accepts endpoint ic ps :
  endpoint_shape endpoint = Some (ic, ps) ->
  (exists e, vrf_endpoint endpoint = Ok e) <-> peering_rules ic ps = true.
Proof.
  unfold endpoint_shape. intros H. destruct endpoint as [| | | | | |o]; try done.
  destruct (obj_get "peers" o) as [[| | | | |ps'|]|] eqn:Hp; try done.
  destruct (forallb is_obj ps') eqn:Hobj; simplify_eq.
  unfold vrf_endpoint. destruct (vrf_endpoint_base_ok o) as [e He]. rewrite He.
  rewrite !prop_obj, Hp. simpl res_bind. rewrite js_lt_int.
  unfold peering_rules. destruct ps as [|p ps]; [simpl; split; [by intros []|done]|].
  replace (Z.of_nat (length (p :: ps)) <? 1)%Z with false
    by (symmetry; apply Z.ltb_ge; simpl length; lia).
  set (ic := default VUndef (obj_get "cloud_interconnect_type" o)).
  simpl (negb (Nat.eqb (length (p :: ps)) 0)).
  generalize (p :: ps) Hobj; clear p ps Hp Hobj He; intros ps Hobj.
  simpl elements_of. cbn [res_bind].
  pose proof (peers_fold ic ps (PeerAcc 0 0 []) Hobj) as Hf.
  pose proof (refused_none ic ps) as Hr.
  destruct (existsb (refused ic) ps).
  - rewrite Hf. simpl. split; [by intros []|].
    rewrite !andb_true_iff. intros [Hz _]. by apply Hr in Hz.
  - destruct Hf as (rs & _ & ->). destruct Hr as [Hr _]. rewrite (Hr eq_refl). simpl.
    destruct (strict_eq ic (VStr azure)) eqn:E1, (strict_eq ic (VStr oracle)) eqn:E2; simpl;
      destruct (Nat.eqb (count is_v4 ps) 1), (Nat.leb (count (fun p => negb (is_v4 p)) ps) 1);
      simpl; try (split; [by intros []|done]); split; eauto.
Qed.

Definition sample_peer (v : string) : val := VObj [("ip_version", VStr v); ("peer_asn", VInt 64512)].
Definition sample_endpoint (ic : string) (ps : list val) : val :=
  VObj [("bandwidth", VInt 50); ("tag", VInt 100); ("node", VStr "n1"); ("interface", VStr "e0");
        ("cloud_interconnect_type", VStr ic); ("peers", VArr ps)].

Lemma vrf_endpoint_accepts_witness :
  (exists e, vrf_endpoint (sample_endpoint oracle [sample_peer "ipv4"; sample_peer "ipv6"]) = Ok e)
  /\ ~ exists e, vrf_endpoint (sample_endpoint azure [sample_peer "ipv4"; sample_peer "ipv6"]) = Ok e.
Proof.
  split.
  - apply (vrf_endpoint_accepts _ (VStr oracle) [sample_peer "ipv4"; sample_peer "ipv6"]); reflexivity.
  - intros H. apply (vrf_endpoint_accepts _ (VStr azure) [sample_peer "ipv4"; sample_peer "ipv6"]) in H;
      [discriminate H|reflexivity].
Defined.

(** C2 [provisionVRF] validates before it sends: if an endpoint is refused, the
    first complaint is thrown and no request leaves the page; otherwise exactly
    one POST carries the header fields and then one endpoint field per
    endpoint, in order, and the call ends as the reply says. *)
Theorem provisionVRF_run {S} (w : env S) path wg name descr eps ptime rtime vrf s :
  let url := path +:+ "services/vrf.cgi" in
  run w (provisionVRF path wg name descr (VArr eps) ptime rtime vrf) s =
  match res_map vrf_endpoint eps with
  | Err e => (s, [], Err e)
  | Ok es =>
      let rq := Req true url (vrf_header wg name descr ptime rtime (default_arg (VInt (-1)) vrf)
                 ++ map (fun e => ("endpoint", default "undefined" (stringify e))) es) in
      let '(s', o) := server w s rq in
      (s', [EvFetch rq], let? data := outcome_data o in vrf_reply data)
  end.
Proof.
  intros url. unfold provisionVRF. set (hd := vrf_header _ _ _ _ _ _).
  assert (Hfold : res_fold (fun f endpoint => let? e := vrf_endpoint endpoint in
                              Ok (append_json f "endpoint" e)) hd eps
    = let? es := res_map vrf_endpoint eps in
      Ok (hd ++ map (fun e => ("endpoint", default "undefined" (stringify e))) es)).
  { rewrite (res_map_fold vrf_endpoint (fun e => ("endpoint", default "undefined" (stringify e)))).
    reflexivity. }
  simpl elements_of. cbn [io_lift io_bind]. rewrite Hfold.
  destruct (res_map vrf_endpoint eps) as [es|e]; [|done]. cbn [res_bind io_lift io_bind].
  simpl. destruct (server w s _) as [s1 o]. destruct (outcome_data o) as [data|e]; simpl; [|done].
  by destruct (vrf_reply data).
Qed.

(** What the server finds under [k] for an endpoint property. *)
Definition sent (endpoint : val) (k : string) : option val :=
  match endpoint with VObj o => obj_get k o ≫= delivered | _ => None end.

Lemma vrf_endpoint_Ok o e :
  vrf_endpoint (VObj o) = Ok e ->
  exists b a ps, vrf_endpoint_base (VObj o) = Ok b /\ obj_get "peers" o = Some (VArr ps) /\
    res_fold (peer_step (default VUndef (obj_get "cloud_interconnect_type" o))) (PeerAcc 0 0 []) ps = Ok a /\
    e = VObj (set_field b "peers" (VArr (collected a))).
Proof.
  unfold vrf_endpoint. rewrite !prop_obj. destruct (vrf_endpoint_base_ok o) as [b Hb].
  rewrite Hb. cbn [res_bind]. intros H.
  destruct (prop (default VUndef (obj_get "peers" o)) "length") as [n|]; cbn [res_bind] in H; [|done].
  destruct (js_lt n (VInt 1)); [done|].
  destruct (obj_get "peers" o) as [[| | | | |ps|]|]; cbn [default from_option id elements_of res_bind] in H;
    try done.
  destruct (res_fold _ _ ps) as [a|] eqn:Ha; cbn [res_bind] in H; [|done].
  exists b, a, ps. repeat case_match; try done. by simplify_eq.
Qed.

Lemma peer_record_json p r : json_ok p = true -> peer_record p = Ok r -> json_ok r = true.
Proof.
  intros Hp. destruct p as [| | | | | |o]; try done; unfold peer_record; [cbn; intros; by simplify_eq..|].
  rewrite !prop_obj. cbn [res_bind]. intros H. simplify_eq.
  cbn [json_ok names map fst snd forallb]. rewrite !(json_ok_get _ o Hp).
  unfold flag. case_match; reflexivity.
Qed.

Lemma res_map_Forall {A B} (f : A -> res B) (P : A -> B -> Prop) l ys :
  res_map f l = Ok ys -> (forall x y, x ∈ l -> f x = Ok y -> P x y) -> Forall2 P l ys.
Proof.
  revert ys. induction l as [|x l IH]; intros ys H HP.
  - unfold res_map in H. simpl in H. simplify_eq. constructor.
  - rewrite res_map_cons in H. destruct (f x) as [y|] eqn:Hx; cbn [res_bind] in H; [|done].
    destruct (res_map f l) as [zs|] eqn:Hl; cbn [res_bind] in H; [|done]. simplify_eq.
    constructor; [apply HP; [set_solver|done]|]. apply IH; [done|]. intros; apply HP; [set_solver|done].
Qed.

Lemma vrf_base_json o b :
  json_ok (VObj o) = true -> vrf_endpoint_base (VObj o) = Ok b ->
  json_ok (VObj b) = true /\
  forall k, k ∈ ["vrf_endpoint_id"; "bandwidth"; "tag"; "cloud_account_id"; "entity"] ->
    obj_get k b = Some (default VUndef (obj_get k o)).
Proof.
  intros Hok. unfold vrf_endpoint_base. rewrite !prop_obj. cbn [res_bind has].
  intros H. apply Ok_inj in H as <-.
  set (base := [("vrf_endpoint_id", _); _; _; _; _; _]).
  assert (json_ok (VObj base) = true) as Hb.
  { unfold base. cbn [json_ok names map fst snd forallb]. rewrite !(json_ok_get _ o Hok).
    unfold flag. case_match; reflexivity. }
  split.
  - clearbody base. unfold set_field.
    repeat case_match; repeat apply json_ok_set; try done; by apply json_ok_get.
  - intros k Hk. unfold set_field.
    rewrite !elem_of_cons, elem_of_nil in Hk.
    destruct Hk as [->|[->|[->|[->|[->|[]]]]]]; unfold base; repeat case_match; reflexivity.
Qed.

(** What the server reads back from an endpoint field of a layer 3 request:
    a JSON object that carries the endpoint's identifier, bandwidth, tag, cloud
    account and entity unchanged (absent when undefined), and one peer per
    peering of the endpoint, in order, with its addresses and IP version. *)
Theorem vrf_endpoint_delivered endpoint ic ps e :
  endpoint_shape endpoint = Some (ic, ps) -> json_ok endpoint = true ->
  vrf_endpoint endpoint = Ok e ->
  exists o' ps', json_parse (default "undefined" (stringify e)) = Some (VObj o') /\
    (forall k, k ∈ ["vrf_endpoint_id"; "bandwidth"; "tag"; "cloud_account_id"; "entity"] ->
       obj_get k o' = sent endpoint k) /\
    obj_get "peers" o' = Some (VArr ps') /\
    Forall2 (fun p p' => forall k, k ∈ ["peer_asn"; "md5_key"; "local_ip"; "peer_ip"; "ip_version"] ->
       sent p k = match p' with VObj o2 => obj_get k o2 | _ => None end) ps ps'.
Proof.
  intros Hs Hok He. destruct endpoint as [| | | | | |o]; try done.
  destruct (vrf_endpoint_Ok o e He) as (b & a & ps0 & Hb & Hp & Hf & ->).
  simpl in Hs. rewrite Hp in Hs. destruct (forallb is_obj ps0) eqn:Hobj; simplify_eq.
  pose proof (peers_fold (default VUndef (obj_get "cloud_interconnect_type" o)) ps (PeerAcc 0 0 []) Hobj) as Hpf.
  destruct (existsb _ ps); [by rewrite Hf in Hpf|].
  destruct Hpf as (rs & Hrs & Hf'). rewrite Hf in Hf'. simplify_eq. cbn [collected app].
  assert (forall p, p ∈ ps -> json_ok p = true) as Hps.
  { pose proof (json_ok_get "peers" o Hok) as Hj. rewrite Hp in Hj. simpl in Hj.
    rewrite forallb_forall in Hj. intros p Hin. apply Hj. by apply list_elem_of_In. }
  destruct (vrf_base_json o b Hok Hb) as [Hjb Hget].
  assert (json_ok (VArr rs) = true) as Hjr.
  { simpl. apply forallb_forall. intros r Hr%list_elem_of_In.
    pose proof (res_map_Forall peer_record (fun _ r => json_ok r = true) ps rs Hrs
      (fun x y Hx Hy => peer_record_json x y (Hps x Hx) Hy)) as HF.
    apply list_elem_of_lookup in Hr as [i Hi].
    destruct (Forall2_lookup_r _ _ _ _ _ HF Hi) as (x & _ & ?). done. }
  pose proof (json_ok_set "peers" (VArr rs) b Hjb Hjr) as Hje.
  exists (somes (map member_norm (obj_set "peers" (VArr rs) b))), (map elem_norm rs).
  pose proof Hje as Hcan. simpl in Hcan. apply andb_true_iff in Hcan as [Hcan _].
  split; [|split; [|split]].
  - destruct (stringify (VObj (set_field b "peers" (VArr rs)))) eqn:Hst; [|done].
    cbn [default from_option id]. by rewrite (json_parse_stringify _ _ Hje Hst).
  - intros k Hk. rewrite obj_get_norm, obj_get_set_ne by (done || set_solver).
    rewrite Hget by done. simpl. destruct (obj_get k o); done.
  - by rewrite obj_get_norm, obj_get_set_eq.
  - rewrite <-(map_id ps), Forall2_fmap_l || idtac. apply Forall2_fmap_r.
    eapply res_map_Forall; [exact Hrs|]. intros p r Hin Hr k Hk.
    rewrite forallb_forall in Hobj. apply list_elem_of_In in Hin. specialize (Hobj p Hin).
    destruct p as [| | | | | |po]; try done. unfold peer_record in Hr. rewrite !prop_obj in Hr.
    cbn [res_bind] in Hr. simplify_eq. unfold elem_norm.
    change (json_norm (VObj ?x)) with (VObj (somes (map member_norm x))). cbv iota.
    rewrite obj_get_norm by reflexivity.
    rewrite !elem_of_cons, elem_of_nil in Hk.
    destruct Hk as [->|[->|[->|[->|[->|[]]]]]]; simpl; by destruct (obj_get _ po).
Qed.

Lemma vrf_endpoint_delivered_witness :
  exists e o' ps', vrf_endpoint (sample_endpoint oracle [sample_peer "ipv4"]) = Ok e /\
    json_parse (default "undefined" (stringify e)) = Some (VObj o') /\
    obj_get "tag" o' = Some (VInt 100) /\ obj_get "peers" o' = Some (VArr ps') /\ length ps' = 1.
Proof.
  destruct (vrf_endpoint (sample_endpoint oracle [sample_peer "ipv4"])) as [e|] eqn:He; [|discriminate He].
  destruct (vrf_endpoint_delivered (sample_endpoint oracle [sample_peer "ipv4"]) (VStr oracle)
              [sample_peer "ipv4"] e eq_refl eq_refl He) as (o' & ps' & H1 & H2 & H3 & H4).
  exists e, o', ps'. split; [done|]. split; [exact H1|]. split; [|split; [exact H3|]].
  - rewrite H2 by set_solver. reflexivity.
  - symmetry. exact (Forall2_length H4).
Defined.

Lemma circuit_endpoint_obj bw f o :
  exists t bw', circuit_endpoint (bw, f) (VObj o) = Ok (bw', f ++ [("endpoint", t)]).
Proof. eexists _, _. reflexivity. Qed.

(** A run of [provisionCircuit], for its callers. *)
Lemma provisionCircuit_exec {S} (w : env S) path wg descr eps start fin cid rest s :
  forallb is_obj eps = true ->
  let args := wg :: descr :: VArr eps :: start :: fin :: cid :: rest in
  exists fields, length fields = length eps /\
  let rq := Req true (path +:+ "services/circuit.cgi")
     (circuit_header wg descr (default_arg (VInt (-1)) start) (default_arg (VInt (-1)) fin)
        (default_arg (VInt (-1)) cid) ++ map (fun f => ("endpoint", f)) fields) in
  run w (provisionCircuit path args) s =
  let '(s', o) := server w s rq in
  (s', [EvFetch rq], let? data := outcome_data o in let? _ := throw_if_error_text data in Ok data).
Proof.
  intros Hobj args. unfold provisionCircuit. cbn [arg args lookup list_lookup default from_option id].
  set (hd := circuit_header _ _ _ _ _).
  assert (exists fields bw, length fields = length eps /\
    res_fold circuit_endpoint (VInt 0, hd) eps = Ok (bw, hd ++ map (fun f => ("endpoint", f)) fields))
    as (fields & bw & Hlen & Hf).
  { generalize (VInt 0) as bw0. clearbody hd. revert hd.
    induction eps as [|e eps IH]; intros hd bw0; [exists [], bw0; simpl; by rewrite app_nil_r|].
    simpl in Hobj. apply andb_true_iff in Hobj as [He Heps]. destruct e as [| | | | | |o]; try done.
    cbn [res_fold]. destruct (circuit_endpoint_obj bw0 hd o) as (t & bw1 & ->). cbn [res_bind].
    destruct (IH Heps (hd ++ [("endpoint", t)]) bw1) as (fs & bw & Hl & ->).
    exists (t :: fs), bw. split; [by simpl; rewrite Hl|]. cbn [map]. by rewrite <-app_assoc. }
  exists fields. split; [done|]. cbn [elements_of io_lift io_bind]. rewrite Hf.
  cbn [io_lift io_bind snd]. simpl.
  destruct (server w s _) as [s1 o]. destruct (outcome_data o) as [data|e]; simpl; [|done].
  by destruct (throw_if_error_text data).
Qed.

(** [provisionCircuit] sends exactly one POST for any list of endpoint
    objects: the header, then one endpoint field per endpoint in order; it
    throws the error text of the reply and otherwise returns the document.
    Start and end times that are zero or missing are sent as -1. *)
Theorem provisionCircuit_run {S} (w : env S) path wg descr eps start fin cid rest s :
  forallb is_obj eps = true ->
  let args := wg :: descr :: VArr eps :: start :: fin :: cid :: rest in
  exists fields, length fields = length eps /\
  let rq := Req true (path +:+ "services/circuit.cgi")
     (circuit_header wg descr (default_arg (VInt (-1)) start) (default_arg (VInt (-1)) fin)
        (default_arg (VInt (-1)) cid) ++ map (fun f => ("endpoint", f)) fields) in
  run w (provisionCircuit path args) s =
  let '(s', o) := server w s rq in
  (s', [EvFetch rq], let? data := outcome_data o in let? _ := throw_if_error_text data in Ok data).
Proof. apply provisionCircuit_exec. Qed.

Lemma provisionCircuit_run_witness :
  exists fields, length fields = 2 /\
  run_trace (const_server (OJson (VObj [("success", VInt 1)])))
    (provisionCircuit "/" [VInt 1; VStr "d"; VArr [VObj []; VObj []]; VInt 0; VInt 5; VInt 9]) tt
  = [EvFetch (Req true "/services/circuit.cgi"
       (circuit_header (VInt 1) (VStr "d") (VInt 0) (VInt 5) (VInt 9)
          ++ map (fun f => ("endpoint", f)) fields))].
Proof.
  destruct (provisionCircuit_run (const_server (OJson (VObj [("success", VInt 1)]))) "/" (VInt 1) (VStr "d")
    [VObj []; VObj []] (VInt 0) (VInt 5) (VInt 9) [] tt eq_refl) as (fields & H1 & H2).
  exists fields. split; [exact H1|]. unfold run_trace. rewrite H2. reflexivity.
Defined.
