(* ===== verification/JsRegex.v ===== *)
(** * Regular expressions

    The regular expressions the front end gives to the [pattern] attribute of
    its inputs.  [pattern] always matches the whole value, so an expression is
    written here without the outer [^] and [$], which change nothing there.

    [re_match] decides a match by derivatives; [re_lang] is the language, and
    [re_match_lang] says they agree.  [words] enumerates the language of an
    expression without a star, so that a question about a small language is
    settled by evaluation. *)

From Stdlib Require Import ZArith Lia Ascii String.
From stdpp Require Import base option list sets strings numbers tactics.
From S2P Require Import Prelude.

Inductive re :=
  | RNone
  | REps
  | RClass (p : ascii -> bool)
  | RSeq (a b : re)
  | RAlt (a b : re)
  | RStar (a : re).

(** ** The language of an expression *)

Inductive re_lang : re -> string -> Prop :=
  | L_eps : re_lang REps estr
  | L_class p c : p c = true -> re_lang (RClass p) (String c estr)
  | L_seq a b s t : re_lang a s -> re_lang b t -> re_lang (RSeq a b) (s +:+ t)
  | L_alt_l a b s : re_lang a s -> re_lang (RAlt a b) s
  | L_alt_r a b s : re_lang b s -> re_lang (RAlt a b) s
  | L_star_nil a : re_lang (RStar a) estr
  | L_star_cons a c s t :
      re_lang a (String c s) -> re_lang (RStar a) t -> re_lang (RStar a) (String c s +:+ t).

(** ** Matching *)

Fixpoint nullable (r : re) : bool :=
  match r with
  | RNone | RClass _ => false
  | REps | RStar _ => true
  | RSeq a b => nullable a && nullable b
  | RAlt a b => nullable a || nullable b
  end.

(** Sequence and choice, dropping the branches that cannot match. *)
Definition mk_seq (a b : re) : re :=
  match a, b with
  | RNone, _ | _, RNone => RNone
  | REps, _ => b
  | _, _ => RSeq a b
  end.

Definition mk_alt (a b : re) : re :=
  match a, b with
  | RNone, _ => b
  | _, RNone => a
  | _, _ => RAlt a b
  end.

Fixpoint deriv (c : ascii) (r : re) : re :=
  match r with
  | RNone | REps => RNone
  | RClass p => if p c then REps else RNone
  | RSeq a b =>
      if nullable a then mk_alt (mk_seq (deriv c a) b) (deriv c b)
      else mk_seq (deriv c a) b
  | RAlt a b => mk_alt (deriv c a) (deriv c b)
  | RStar a => mk_seq (deriv c a) (RStar a)
  end.

Fixpoint re_match (r : re) (s : string) : bool :=
  match s with
  | EmptyString => nullable r
  | String c s' => re_match (deriv c r) s'
  end.

(** ** The notations of the sources *)

Definition rchr (c : ascii) : re := RClass (Ascii.eqb c).

(** A character class given by a range, [[a-b]]. *)
Definition in_range (a b c : ascii) : bool :=
  Nat.leb (nat_of_ascii a) (nat_of_ascii c) && Nat.leb (nat_of_ascii c) (nat_of_ascii b).
Definition rrange (a b : ascii) : re := RClass (in_range a b).

Definition rseqs (l : list re) : re := foldr RSeq REps l.

Fixpoint ralts (l : list re) : re :=
  match l with
  | [] => RNone
  | [r] => r
  | r :: l' => RAlt r (ralts l')
  end.

Definition ropt (r : re) : re := RAlt REps r.

(** [r{n}] *)
Fixpoint rrep (n : nat) (r : re) : re :=
  match n with
  | O => REps
  | S n' => RSeq r (rrep n' r)
  end.

Fixpoint rupto (n : nat) (r : re) : re :=
  match n with
  | O => REps
  | S n' => RAlt REps (RSeq r (rupto n' r))
  end.

(** [r{m,n}] *)
Definition rbetween (m n : nat) (r : re) : re := RSeq (rrep m r) (rupto (n - m) r).

(** [r+] *)
Definition rplus (r : re) : re := RSeq r (RStar r).

(** [.]: one character other than a line terminator (line feed, carriage
    return, U+2028, U+2029), by the bytes of its UTF-8 encoding. *)
Definition byte_in (a b : nat) : re :=
  RClass (fun c => Nat.leb a (nat_of_ascii c) && Nat.leb (nat_of_ascii c) b).
Definition rdot : re :=
  ralts
    [ RClass (fun c => let n := nat_of_ascii c in
                       Nat.ltb n 128 && negb (Nat.eqb n 10) && negb (Nat.eqb n 13));
      RSeq (byte_in 194 223) (byte_in 128 191);
      RSeq (ralts [byte_in 224 225; byte_in 227 239]) (RSeq (byte_in 128 191) (byte_in 128 191));
      RSeq (byte_in 226 226) (RSeq (ralts [byte_in 129 191]) (byte_in 128 191));
      RSeq (byte_in 226 226) (RSeq (byte_in 128 128) (ralts [byte_in 128 167; byte_in 170 191]));
      RSeq (byte_in 240 244) (RSeq (byte_in 128 191) (RSeq (byte_in 128 191) (byte_in 128 191))) ].

(** ** Finite languages *)

Definition all_chars : list ascii := map ascii_of_nat (seq 0 256).

Fixpoint words (r : re) : option (list string) :=
  match r with
  | RNone => Some []
  | REps => Some [estr]
  | RClass p => Some (map (fun c => String c estr) (List.filter p all_chars))
  | RSeq a b =>
      match words a, words b with
      | Some x, Some y => Some (List.concat (map (fun s => map (fun t => s +:+ t) y) x))
      | _, _ => None
      end
  | RAlt a b =>
      match words a, words b with
      | Some x, Some y => Some (x ++ y)
      | _, _ => None
      end
  | RStar _ => None
  end.

(** Every word of a starless expression satisfies [p]. *)
Definition words_all (p : string -> bool) (r : re) : bool :=
  match words r with
  | Some l => forallb p l
  | None => false
  end.

(** ** Lemmas: inversion *)

Lemma lang_none s : ~ re_lang RNone s.
Proof. by inversion 1. Qed.

Lemma lang_eps s : re_lang REps s <-> s = estr.
Proof. split; [by inversion 1 | intros ->; constructor]. Qed.

Lemma lang_class p s : re_lang (RClass p) s <-> exists c, s = String c estr /\ p c = true.
Proof. split; [inversion 1; eauto | intros (c & -> & H); by constructor]. Qed.

Lemma lang_seq a b s :
  re_lang (RSeq a b) s <-> exists x y, s = x +:+ y /\ re_lang a x /\ re_lang b y.
Proof.
  split; [inversion 1; subst; eauto | intros (x & y & -> & Hx & Hy); by constructor].
Qed.

Lemma lang_alt a b s : re_lang (RAlt a b) s <-> re_lang a s \/ re_lang b s.
Proof.
  split; [inversion 1; subst; eauto | intros [H|H]; [by apply L_alt_l | by apply L_alt_r]].
Qed.

Lemma lang_chr c s : re_lang (rchr c) s <-> s = String c estr.
Proof.
  unfold rchr. rewrite lang_class. split.
  - intros (d & -> & H%Ascii.eqb_eq). by subst.
  - intros ->. exists c. split; [done | apply Ascii.eqb_refl].
Qed.

Lemma lang_mk_seq a b s : re_lang (mk_seq a b) s <-> re_lang (RSeq a b) s.
Proof.
  rewrite lang_seq. unfold mk_seq.
  assert (N1 : forall b', (exists x y, s = x +:+ y /\ re_lang RNone x /\ re_lang b' y) -> False).
  { intros b' (x & y & _ & H & _). by apply lang_none in H. }
  assert (N2 : forall a', (exists x y, s = x +:+ y /\ re_lang a' x /\ re_lang RNone y) -> False).
  { intros a' (x & y & _ & _ & H). by apply lang_none in H. }
  assert (E : re_lang b s <-> exists x y, s = x +:+ y /\ re_lang REps x /\ re_lang b y).
  { split.
    - intros H. exists estr, s. split_and!; [done | constructor | done].
    - by intros (x & y & -> & ->%lang_eps & H). }
  destruct a, b; try (rewrite <- lang_seq; done);
    try (split; [intros H; by apply lang_none in H | intros H; exfalso; eauto]); exact E.
Qed.

Lemma lang_mk_alt a b s : re_lang (mk_alt a b) s <-> re_lang (RAlt a b) s.
Proof.
  rewrite lang_alt. unfold mk_alt.
  destruct a, b; rewrite ?lang_alt; try done;
    split; intros; repeat match goal with
                          | H : _ \/ _ |- _ => destruct H
                          | H : re_lang RNone _ |- _ => by apply lang_none in H
                          end; auto.
Qed.

Lemma lang_nullable r : nullable r = true <-> re_lang r estr.
Proof.
  induction r as [| |p|a IHa b IHb|a IHa b IHb|a IHa]; simpl.
  - split; [done | by intros H%lang_none].
  - split; [constructor | done].
  - split; [done|]. intros (c & H & _)%lang_class. done.
  - rewrite andb_true_iff, IHa, IHb, lang_seq. split.
    + intros [H1 H2]. by exists estr, estr.
    + intros (x & y & E & H1 & H2). destruct x; [|done]. simpl in E. by subst.
  - by rewrite orb_true_iff, IHa, IHb, lang_alt.
  - split; [constructor | done].
Qed.

Lemma lang_star_cons a c s :
  re_lang (RStar a) (String c s) <->
  exists x y, s = x +:+ y /\ re_lang a (String c x) /\ re_lang (RStar a) y.
Proof.
  split.
  - inversion 1 as [ | | | | | |? d x t Hx Ht]; subst. eauto.
  - intros (x & y & -> & Hx & Hy). by apply (L_star_cons a c x y).
Qed.

Lemma lang_seq_cons a b c s :
  re_lang (RSeq a b) (String c s) <->
  (exists x y, s = x +:+ y /\ re_lang a (String c x) /\ re_lang b y)
  \/ (re_lang a estr /\ re_lang b (String c s)).
Proof.
  rewrite lang_seq. split.
  - intros ([|d x] & y & E & Hx & Hy); simpl in E; simplify_eq; eauto 7.
  - intros [(x & y & -> & Hx & Hy) | [Hx Hy]].
    + by exists (String c x), y.
    + by exists estr, (String c s).
Qed.

Lemma lang_deriv c r s : re_lang (deriv c r) s <-> re_lang r (String c s).
Proof.
  revert s. induction r as [| |p|a IHa b IHb|a IHa b IHb|a IHa]; intros s; simpl.
  - split; by intros H%lang_none.
  - split; [by intros H%lang_none | by rewrite lang_eps].
  - rewrite lang_class. destruct (p c) eqn:E.
    + rewrite lang_eps. split; [intros ->; eauto | by intros (d & [= -> ->] & _)].
    + split; [by intros H%lang_none | intros (d & [= -> ->] & H); congruence].
  - assert (D : re_lang (mk_seq (deriv c a) b) s <->
                exists x y, s = x +:+ y /\ re_lang a (String c x) /\ re_lang b y).
    { rewrite lang_mk_seq, lang_seq. by setoid_rewrite IHa. }
    rewrite lang_seq_cons, <- lang_nullable. destruct (nullable a).
    + rewrite lang_mk_alt, lang_alt, D, IHb. naive_solver.
    + rewrite D. naive_solver.
  - by rewrite lang_mk_alt, !lang_alt, IHa, IHb.
  - rewrite lang_mk_seq, lang_seq, lang_star_cons. by setoid_rewrite IHa.
Qed.

(** Matching decides the language. *)
Lemma re_match_lang r s : re_match r s = true <-> re_lang r s.
Proof.
  revert r. induction s as [|c s IH]; intros r; simpl.
  - apply lang_nullable.
  - by rewrite IH, lang_deriv.
Qed.

(** ** Lemmas: repetition *)

Lemma lang_rep n r s :
  re_lang (rrep n r) s <-> exists l, length l = n /\ Forall (re_lang r) l /\ s = str_concat l.
Proof.
  revert s. induction n as [|n IH]; intros s; simpl.
  - rewrite lang_eps. split.
    + intros ->. by exists [].
    + by intros ([|] & ? & _ & ->).
  - rewrite lang_seq. setoid_rewrite IH. split.
    + intros (x & y & -> & Hx & l & Hl & Hf & ->). exists (x :: l). simpl. auto.
    + intros ([|x l] & Hl & Hf & ->); [done|]. inversion Hf; subst.
      exists x, (str_concat l). split_and!; [done | done |]. exists l. split_and!; [simpl in Hl; lia | done | done].
Qed.

Lemma lang_upto n r s :
  re_lang (rupto n r) s <-> exists l, length l <= n /\ Forall (re_lang r) l /\ s = str_concat l.
Proof.
  revert s. induction n as [|n IH]; intros s; simpl.
  - rewrite lang_eps. split.
    + intros ->. by exists [].
    + intros ([|] & ? & _ & ->); [done | simpl in *; lia].
  - rewrite lang_alt, lang_eps, lang_seq. setoid_rewrite IH. split.
    + intros [-> | (x & y & -> & Hx & l & Hl & Hf & ->)].
      * exists []. split_and!; [simpl; lia | done | done].
      * exists (x :: l). simpl. split_and!; [lia | auto | done].
    + intros ([|x l] & Hl & Hf & ->); [by left|]. right. inversion Hf; subst.
      exists x, (str_concat l). split_and!; [done | done |]. exists l. simpl in Hl.
      split_and!; [lia | done | done].
Qed.

Lemma str_concat_app l k : str_concat (l ++ k) = str_concat l +:+ str_concat k.
Proof. induction l; simpl; [done|]. by rewrite str_app_assoc, IHl. Qed.

Lemma lang_between m n r s :
  m <= n ->
  re_lang (rbetween m n r) s <->
  exists l, m <= length l <= n /\ Forall (re_lang r) l /\ s = str_concat l.
Proof.
  intros Hmn. unfold rbetween. rewrite lang_seq. setoid_rewrite lang_rep. setoid_rewrite lang_upto.
  split.
  - intros (x & y & -> & (l & Hl & Hf & ->) & k & Hk & Hf' & ->).
    exists (l ++ k). rewrite length_app, Forall_app, str_concat_app. auto with lia.
  - intros (l & Hl & Hf & ->). exists (str_concat (take m l)), (str_concat (drop m l)).
    rewrite <- str_concat_app, take_drop. split_and!; [done | |].
    + exists (take m l). rewrite length_take. auto using Forall_take with lia.
    + exists (drop m l). rewrite length_drop. auto using Forall_drop with lia.
Qed.

(** Repetition of an expression whose words are the images of some data. *)
Lemma Forall_lang_fmap {A} r (P : A -> Prop) (f : A -> string) l :
  (forall s, re_lang r s <-> exists a, P a /\ s = f a) ->
  Forall (re_lang r) l <-> exists k, Forall P k /\ l = map f k.
Proof.
  intros Hr. split.
  - induction 1 as [|s l Hs _ (k & Hk & ->)]; [by exists []|].
    apply Hr in Hs as (a & Ha & ->). exists (a :: k). auto.
  - intros (k & Hk & ->). induction Hk as [|a k Ha Hk IH]; simpl; constructor; [|done].
    apply Hr. eauto.
Qed.

(** ** Lemmas: enumeration *)

Lemma all_chars_complete c : List.In c all_chars.
Proof.
  unfold all_chars. apply in_map_iff. exists (nat_of_ascii c). split.
  - apply ascii_nat_embedding.
  - apply in_seq. pose proof (nat_ascii_bounded c). lia.
Qed.

#[local] Opaque all_chars.

Lemma words_complete r l s : words r = Some l -> re_lang r s -> List.In s l.
Proof.
  revert l s. induction r as [| |p|a IHa b IHb|a IHa b IHb|a IHa]; intros l s; cbn [words].
  - intros _ H. by apply lang_none in H.
  - intros [= <-] ->%lang_eps. by left.
  - intros [= <-] (c & -> & Hc)%lang_class. apply in_map_iff. exists c. split; [done|].
    apply filter_In. auto using all_chars_complete.
  - intros H (x & y & -> & Hx & Hy)%lang_seq.
    destruct (words a) as [la|]; [|done]. destruct (words b) as [lb|]; [|done]. simplify_eq.
    apply in_concat. exists (map (fun t => x +:+ t) lb). split; apply in_map_iff; eauto.
  - intros H Hs%lang_alt.
    destruct (words a) as [la|]; [|done]. destruct (words b) as [lb|]; [|done]. simplify_eq.
    apply in_app_iff. naive_solver.
  - done.
Qed.

Lemma words_all_lang p r s : words_all p r = true -> re_lang r s -> p s = true.
Proof.
  unfold words_all. destruct (words r) as [l|] eqn:E; [|done].
  intros H Hs. apply (words_complete _ _ _ E) in Hs.
  rewrite forallb_forall in H. auto.
Qed.
