(* ===== verification/ValidateIP.v ===== *)
(** * Address inputs (api/validateIP.js)

    The six regular expressions of the address fields, written as the source
    writes them, and the functions that turn an input element into an address
    field.  The expressions are proved equal to a reference: four octets for
    IPv4, and the text forms of RFC 4291 (eight groups, one elided run, an
    embedded IPv4 address, a zone) for IPv6. *)

From Stdlib Require Import ZArith Lia Ascii String.
From stdpp Require Import base option list sets strings numbers tactics.
From S2P Require Import Prelude JsRegex.

(** ** The expressions *)

Definition r09 : re := rrange "0" "9".

(** [[0-9]|[1-9][0-9]|1[0-9]{2}|2[0-4][0-9]|25[0-5]] *)
Definition octet : re :=
  ralts
    [ r09;
      RSeq (rrange "1" "9") r09;
      RSeq (rchr "1") (rrep 2 r09);
      RSeq (rchr "2") (RSeq (rrange "0" "4") r09);
      RSeq (rchr "2") (RSeq (rchr "5") (rrange "0" "5")) ].

Definition IPv4 : re := RSeq (rrep 3 (RSeq octet (rchr "."))) octet.

(** [\/([0-9]|[1-2][0-9]|3[0-2])] *)
Definition mask4 : re :=
  ralts [ r09; RSeq (rrange "1" "2") r09; RSeq (rchr "3") (rrange "0" "2") ].

Definition IPv4CIDR : re := RSeq IPv4 (RSeq (rchr "/") mask4).

(** [25[0-5]|2[0-4]\d|1\d\d|[1-9]?\d] *)
Definition octet6 : re :=
  ralts
    [ RSeq (rchr "2") (RSeq (rchr "5") (rrange "0" "5"));
      RSeq (rchr "2") (RSeq (rrange "0" "4") r09);
      RSeq (rchr "1") (RSeq r09 r09);
      RSeq (ropt (rrange "1" "9")) r09 ].

Definition quad : re := RSeq octet6 (rrep 3 (RSeq (rchr ".") octet6)).

(** [[0-9A-Fa-f]] *)
Definition rhex : re :=
  RClass (fun c => in_range "0" "9" c || in_range "A" "F" c || in_range "a" "f" c).

(** [[0-9A-Fa-f]{1,4}] *)
Definition h16 : re := rbetween 1 4 rhex.

Definition hc : re := RSeq h16 (rchr ":").
Definition ch : re := RSeq (rchr ":") h16.
Definition colon : re := rchr ":".

(** The eight branches in the order of the source, then [(%.+)?]. *)
Definition IPv6 : re :=
  RSeq
    (ralts
       [ RSeq (rrep 7 hc) (ralts [h16; colon]);
         RSeq (rrep 6 hc) (ralts [ch; quad; colon]);
         RSeq (rrep 5 hc) (ralts [rbetween 1 2 ch; RSeq colon quad; colon]);
         RSeq (rrep 4 hc) (ralts [rbetween 1 3 ch; RSeq (ropt ch) (RSeq colon quad); colon]);
         RSeq (rrep 3 hc) (ralts [rbetween 1 4 ch; RSeq (rbetween 0 2 ch) (RSeq colon quad); colon]);
         RSeq (rrep 2 hc) (ralts [rbetween 1 5 ch; RSeq (rbetween 0 3 ch) (RSeq colon quad); colon]);
         RSeq (rrep 1 hc) (ralts [rbetween 1 6 ch; RSeq (rbetween 0 4 ch) (RSeq colon quad); colon]);
         RSeq colon (ralts [rbetween 1 7 ch; RSeq (rbetween 0 5 ch) (RSeq colon quad); colon]) ])
    (ropt (RSeq (rchr "%") (rplus rdot))).

(** [[0-9]|[0-9][0-9]|1[0-1][0-9]|12[0-8]] *)
Definition mask6 : re :=
  ralts
    [ r09;
      RSeq r09 r09;
      RSeq (rchr "1") (RSeq (rrange "0" "1") r09);
      RSeq (rchr "1") (RSeq (rchr "2") (rrange "0" "8")) ].

Definition IPv6CIDR : re := RSeq IPv6 (RSeq (rchr "/") mask6).

Definition IPv4orIPv6 : re := RAlt IPv4 IPv6.
Definition IPv4CIDRorIPv6CIDR : re := RAlt IPv4CIDR IPv6CIDR.

(** ** The input element

    What constraint validation keeps of an input: its value, whether it is
    required, its pattern, its placeholder, the custom message, and the
    messages of the [input] listeners in the order they were added. *)

Record field := Field {
  fd_required : bool;
  fd_disabled : bool;
  fd_value : string;
  fd_type : string;
  fd_pattern : option re;
  fd_placeholder : string;
  fd_custom : string;
  fd_listeners : list string
}.

Definition is_empty (s : string) : bool := match s with EmptyString => true | _ => false end.

(** A disabled input never misses a value. *)
Definition valueMissing (f : field) : bool :=
  fd_required f && negb (fd_disabled f) && is_empty (fd_value f).

(** An empty value never mismatches. *)
Definition patternMismatch (f : field) : bool :=
  match fd_pattern f with
  | None => false
  | Some r => negb (is_empty (fd_value f)) && negb (re_match r (fd_value f))
  end.

(** [element.validity.valid]. *)
Definition valid (f : field) : bool :=
  negb (valueMissing f) && negb (patternMismatch f) && is_empty (fd_custom f).

Definition set_custom (m : string) (f : field) : field :=
  Field (fd_required f) (fd_disabled f) (fd_value f) (fd_type f) (fd_pattern f) (fd_placeholder f) m (fd_listeners f).

Definition set_value (v : string) (f : field) : field :=
  Field (fd_required f) (fd_disabled f) v (fd_type f) (fd_pattern f) (fd_placeholder f) (fd_custom f) (fd_listeners f).

(** The body of one [input] listener, with its own mismatch message. *)
Definition on_input (message : string) (f : field) : field :=
  if valueMissing f then set_custom "Please fill out this field." f
  else if patternMismatch f then set_custom message f
  else set_custom estr f.

(** [element.setAttribute('disabled', true)] *)
Definition disable (f : field) : field :=
  Field (fd_required f) true (fd_value f) (fd_type f) (fd_pattern f) (fd_placeholder f) (fd_custom f)
    (fd_listeners f).

Definition set_placeholder (t : string) (f : field) : field :=
  Field (fd_required f) (fd_disabled f) (fd_value f) (fd_type f) (fd_pattern f) t (fd_custom f)
    (fd_listeners f).

(** The element may be left empty. *)
Definition optional (f : field) : bool := negb (fd_required f) || fd_disabled f.

(** An [input] event: the user's value is stored and every listener runs. *)
Definition user_input (v : string) (f : field) : field :=
  foldl (fun g message => on_input message g) (set_value v f) (fd_listeners f).

(** The three attributes and the listener that every [as...] function sets. *)
Definition as_field (r : re) (placeholder message : string) (f : field) : field :=
  Field (fd_required f) (fd_disabled f) (fd_value f) "text" (Some r) placeholder (fd_custom f)
    (fd_listeners f ++ [message]).

Definition asIPv4 : field -> field :=
  as_field IPv4 "192.168.1.1" "Please input a valid IPv4 address.".
Definition asIPv4CIDR : field -> field :=
  as_field IPv4CIDR "192.168.1.1/24" "Please input a valid IPv4 subnet in CIDR notation.".
Definition asIPv6 : field -> field :=
  as_field IPv6 "fe80:0000:0000:0000:0204:61ff:fe9d:f156" "Please input a valid IPv6 address.".
Definition asIPv6CIDR : field -> field :=
  as_field IPv6CIDR "fe80:0000:0000:0000:0204:61ff:fe9d:f156/64"
    "Please input a valid IPv6 subnet in CIDR notation.".
Definition asIPv4orIPv6 : field -> field :=
  as_field IPv4orIPv6 "192.168.1.1 or fe80:0000:0000:0000:0204:61ff:fe9d:f156"
    "Please input a valid IPv4 or IPv6 address.".
Definition asIPv4CIDRorIPv6CIDR : field -> field :=
  as_field IPv4CIDRorIPv6CIDR "192.168.1.1/24 or fe80:0000:0000:0000:0204:61ff:fe9d:f156/64"
    "Please input a valid IPv4 or IPv6 subnet in CIDR notation.".

(** ** Reference: IPv4 *)

(** Dotted decimal text of an address. *)
Definition ipv4_text (a b c d : N) : string :=
  string_of_N a +:+ "." +:+ string_of_N b +:+ "." +:+ string_of_N c +:+ "." +:+ string_of_N d.

Definition is_ipv4 (s : string) : Prop :=
  exists a b c d, (a <= 255 /\ b <= 255 /\ c <= 255 /\ d <= 255)%N /\ s = ipv4_text a b c d.

(** ** Reference: IPv6 (RFC 4291, section 2.2) *)

(** A group: one to four hexadecimal digits. *)
Definition is_group (s : string) : Prop :=
  1 <= String.length s <= 4 /\ str_forall is_hex s = true.

(** An address text: groups, at most one elided run between [left] and
    [right], and perhaps a dotted quad in place of the last two groups. *)
Record ip6 := Ip6 {
  ip_left : list string;
  ip_right : option (list string);
  ip_quad : option string
}.

Definition tail_text (r : list string) (q : option string) : string :=
  str_join ":" (r ++ option_list q).

Definition ip6_text (a : ip6) : string :=
  match ip_right a with
  | None => tail_text (ip_left a) (ip_quad a)
  | Some r => str_join ":" (ip_left a) +:+ "::" +:+ tail_text r (ip_quad a)
  end.

(** Number of 16-bit groups written out. *)
Definition quad_size (q : option string) : nat := match q with Some _ => 2 | None => 0 end.
Definition ip6_size (a : ip6) : nat :=
  length (ip_left a) + length (default [] (ip_right a)) + quad_size (ip_quad a).

(** All eight groups, or an elision of at least one. *)
Definition ip6_ok (a : ip6) : Prop :=
  Forall is_group (ip_left a) /\ Forall is_group (default [] (ip_right a)) /\
  from_option is_ipv4 True (ip_quad a) /\
  (if ip_right a then ip6_size a <= 7 else ip6_size a = 8).

(** Optional zone: a percent sign and some text without line terminators. *)
Definition is_zone (s : string) : Prop :=
  s = estr \/ exists t, s = String "%" t /\ re_lang (rplus rdot) t.

Definition is_ipv6 (s : string) : Prop :=
  exists a z, ip6_ok a /\ is_zone z /\ s = ip6_text a +:+ z.

(** ** Lemmas: numerals *)

(** A starless expression whose words are the numerals up to [hi], by
    evaluation in both directions. *)
Definition is_numeral (hi : nat) (s : string) : bool :=
  (dec_value s <=? N.of_nat hi)%N && String.eqb s (string_of_N (dec_value s)).

Definition numerals_match (hi : nat) (r : re) : bool :=
  forallb (fun n => re_match r (string_of_N (N.of_nat n))) (seq 0 (S hi)).

Lemma numeral_lang hi r s :
  words_all (is_numeral hi) r = true -> numerals_match hi r = true ->
  re_lang r s <-> exists n, (n <= N.of_nat hi)%N /\ s = string_of_N n.
Proof.
  intros Hw Hm. split.
  - intros H. apply (words_all_lang _ _ _ Hw) in H. unfold is_numeral in H.
    apply andb_true_iff in H as [H1%N.leb_le H2%String.eqb_eq]. eauto.
  - intros (n & Hn & ->). unfold numerals_match in Hm. rewrite forallb_forall in Hm.
    specialize (Hm (N.to_nat n)). rewrite N2Nat.id in Hm. apply re_match_lang, Hm, in_seq. lia.
Qed.

Lemma octet_lang s : re_lang octet s <-> exists n, (n <= 255)%N /\ s = string_of_N n.
Proof. by apply (numeral_lang 255); vm_compute. Qed.

Lemma octet6_lang s : re_lang octet6 s <-> exists n, (n <= 255)%N /\ s = string_of_N n.
Proof. by apply (numeral_lang 255); vm_compute. Qed.

Lemma mask4_lang s : re_lang mask4 s <-> exists n, (n <= 32)%N /\ s = string_of_N n.
Proof. by apply (numeral_lang 32); vm_compute. Qed.

(** Masks up to 128; below ten, also with a leading zero. *)
Definition is_mask6 (s : string) : Prop :=
  (exists n, (n <= 128)%N /\ s = string_of_N n) \/
  (exists n, (n <= 9)%N /\ s = String "0" (string_of_N n)).

Definition mask6_form (s : string) : bool :=
  is_numeral 128 s ||
  match s with String "0" t => is_numeral 9 t | _ => false end.

Lemma mask6_lang s : re_lang mask6 s <-> is_mask6 s.
Proof.
  split.
  - intros H. apply (words_all_lang mask6_form) in H; [|by vm_compute].
    unfold mask6_form, is_numeral in H. apply orb_true_iff in H as [H|H].
    + left. apply andb_true_iff in H as [H1%N.leb_le H2%String.eqb_eq]. eauto.
    + right. destruct s as [|[[] [] [] [] [] [] [] []] t]; try done.
      apply andb_true_iff in H as [H1%N.leb_le H2%String.eqb_eq]. rewrite H2. eauto.
  - assert (H1 : numerals_match 128 mask6 = true) by by vm_compute.
    assert (H2 : numerals_match 9 (deriv "0" mask6) = true) by by vm_compute.
    unfold numerals_match in H1, H2. rewrite forallb_forall in H1, H2.
    intros [(n & Hn & ->) | (n & Hn & ->)]; apply re_match_lang.
    + specialize (H1 (N.to_nat n)). rewrite N2Nat.id in H1. apply H1, in_seq. lia.
    + specialize (H2 (N.to_nat n)). rewrite N2Nat.id in H2. apply H2, in_seq. lia.
Qed.

(** ** Lemmas: IPv4 *)

Lemma lang_chr_seq c r s : re_lang (RSeq (rchr c) r) s <-> exists t, s = String c t /\ re_lang r t.
Proof.
  rewrite lang_seq. setoid_rewrite lang_chr. split.
  - intros (x & y & -> & -> & H). by exists y.
  - intros (t & -> & H). by exists (String c estr), t.
Qed.

Lemma lang_seq_chr c r s : re_lang (RSeq r (rchr c)) s <-> exists t, s = t +:+ String c estr /\ re_lang r t.
Proof. rewrite lang_seq. setoid_rewrite lang_chr. naive_solver. Qed.

Lemma lang_IPv4 s : re_lang IPv4 s <-> is_ipv4 s.
Proof.
  assert (O : forall t, re_lang (RSeq octet (rchr ".")) t <->
                        exists n, (n <= 255)%N /\ t = string_of_N n +:+ ".").
  { intros t. rewrite lang_seq_chr. setoid_rewrite octet_lang. naive_solver. }
  unfold IPv4, is_ipv4, ipv4_text. rewrite lang_seq. setoid_rewrite lang_rep.
  setoid_rewrite octet_lang. split.
  - intros (x & y & -> & (l & Hl & Hf & ->) & d & Hd & ->).
    apply (Forall_lang_fmap _ _ _ _ O) in Hf as ([|a [|b [|c [|]]]] & Hk & ->); try done.
    rewrite !list.Forall_cons in Hk. destruct Hk as (Ha & Hb & Hc & _).
    exists a, b, c, d. split; [done|]. simpl. by rewrite !str_app_assoc.
  - intros (a & b & c & d & (Ha & Hb & Hc & Hd) & ->).
    exists (str_concat (map (fun n => string_of_N n +:+ ".") [a; b; c])), (string_of_N d).
    split_and!; [simpl; by rewrite !str_app_assoc | | eauto].
    exists (map (fun n => string_of_N n +:+ ".") [a; b; c]). split_and!; [done | | done].
    apply (Forall_lang_fmap _ _ _ _ O). exists [a; b; c]. auto.
Qed.

Lemma lang_quad s : re_lang quad s <-> is_ipv4 s.
Proof.
  assert (O : forall t, re_lang (RSeq (rchr ".") octet6) t <->
                        exists n, (n <= 255)%N /\ t = "." +:+ string_of_N n).
  { intros t. rewrite lang_chr_seq. setoid_rewrite octet6_lang. naive_solver. }
  unfold quad, is_ipv4, ipv4_text. rewrite lang_seq. setoid_rewrite lang_rep.
  setoid_rewrite octet6_lang. split.
  - intros (x & y & -> & (a & Ha & ->) & l & Hl & Hf & ->).
    apply (Forall_lang_fmap _ _ _ _ O) in Hf as ([|b [|c [|d [|]]]] & Hk & ->); try done.
    rewrite !list.Forall_cons in Hk. destruct Hk as (Hb & Hc & Hd & _).
    exists a, b, c, d. split; [done|]. simpl. by rewrite str_app_nil_r.
  - intros (a & b & c & d & (Ha & Hb & Hc & Hd) & ->).
    exists (string_of_N a), (str_concat (map (fun n => "." +:+ string_of_N n) [b; c; d])).
    split_and!; [simpl; by rewrite str_app_nil_r | eauto |].
    exists (map (fun n => "." +:+ string_of_N n) [b; c; d]). split_and!; [done | | done].
    apply (Forall_lang_fmap _ _ _ _ O). exists [b; c; d]. auto.
Qed.

(** ** Lemmas: IPv6 *)

Lemma rhex_is_hex c : (in_range "0" "9" c || in_range "A" "F" c || in_range "a" "f" c) = is_hex c.
Proof. by destruct c as [[] [] [] [] [] [] [] []]. Qed.

Lemma length_chars s : length (list_ascii_of_string s) = String.length s.
Proof. induction s; simpl; congruence. Qed.

Lemma concat_chars s : str_concat (map (fun c => String c estr) (list_ascii_of_string s)) = s.
Proof. induction s; simpl; congruence. Qed.

Lemma concat_chars_spec k :
  let s := str_concat (map (fun c => String c estr) k) in
  String.length s = length k /\ (Forall (fun c => is_hex c = true) k -> str_forall is_hex s = true).
Proof.
  induction k as [|c k [IH1 IH2]]; simpl; [done|]. split; [congruence|].
  inversion 1; subst. apply andb_true_iff. auto.
Qed.

Lemma h16_lang s : re_lang h16 s <-> is_group s.
Proof.
  assert (O : forall t, re_lang rhex t <-> exists c, is_hex c = true /\ t = String c estr).
  { intros t. unfold rhex. rewrite lang_class. setoid_rewrite rhex_is_hex. naive_solver. }
  unfold h16, is_group. rewrite lang_between by lia. split.
  - intros (l & Hl & Hf & ->). apply (Forall_lang_fmap _ _ _ _ O) in Hf as (k & Hk & ->).
    rewrite length_map in Hl. destruct (concat_chars_spec k) as [-> H]. auto.
  - intros [Hl Hf]. exists (map (fun c => String c estr) (list_ascii_of_string s)).
    rewrite concat_chars, length_map. split_and!; [| | |done].
    1,2: by rewrite length_chars; lia.
    apply (Forall_lang_fmap _ _ _ _ O). eexists. split; [|done].
    clear Hl. induction s as [|c s IH]; simpl in *; [done|].
    apply andb_true_iff in Hf as [H1 H2]. auto.
Qed.

Lemma ch_lang s : re_lang ch s <-> exists g, is_group g /\ s = ":" +:+ g.
Proof. unfold ch. rewrite lang_chr_seq. setoid_rewrite h16_lang. naive_solver. Qed.

Lemma hc_lang s : re_lang hc s <-> exists g, is_group g /\ s = g +:+ ":".
Proof. unfold hc. rewrite lang_seq_chr. setoid_rewrite h16_lang. naive_solver. Qed.

Lemma concat_hc l r :
  r <> [] ->
  str_concat (map (fun g => g +:+ ":") l) +:+ str_join ":" r = str_join ":" (l ++ r).
Proof.
  intros Hr. induction l as [|x l IH]; [done|]. cbn [map str_concat].
  destruct (l ++ r) as [|y k] eqn:E; [by destruct l, r|].
  change ((x :: l) ++ r) with (x :: (l ++ r)). rewrite E, str_join_cons, <- IH, !str_app_assoc. done.
Qed.

Lemma concat_hc_end l :
  l <> [] -> str_concat (map (fun g => g +:+ ":") l) = str_join ":" l +:+ ":".
Proof.
  intros Hl. induction l as [|x l IH]; [done|]. cbn [map str_concat].
  destruct l as [|y l]; [by rewrite str_app_nil_r|].
  rewrite IH, str_join_cons by done. by rewrite !str_app_assoc.
Qed.

Lemma concat_ch l :
  l <> [] -> str_concat (map (fun g => ":" +:+ g) l) = ":" +:+ str_join ":" l.
Proof.
  intros Hl. induction l as [|x l IH]; [done|]. cbn [map str_concat].
  destruct l as [|y l]; [by rewrite str_app_nil_r|].
  rewrite IH, str_join_cons by done. by rewrite !str_app_assoc.
Qed.

(** What may follow the groups in front of an elision: a colon, then groups
    and perhaps a quad, [k] groups in all at most. *)
Definition after (k : nat) (s : string) : Prop :=
  exists r q, Forall is_group r /\ from_option is_ipv4 True q /\
              length r + quad_size q <= k /\ s = ":" +:+ tail_text r q.

Lemma after_colon s : re_lang colon s <-> s = ":" +:+ tail_text [] None.
Proof. apply lang_chr. Qed.

Lemma after_groups k s :
  1 <= k ->
  re_lang (rbetween 1 k ch) s <->
  exists r, Forall is_group r /\ 1 <= length r <= k /\ s = ":" +:+ tail_text r None.
Proof.
  intros Hk. rewrite lang_between by done. unfold tail_text. split.
  - intros (l & Hl & Hf & ->). apply (Forall_lang_fmap _ _ _ _ ch_lang) in Hf as (r & Hr & ->).
    rewrite length_map in Hl. exists r. rewrite app_nil_r, concat_ch; [done|]. by destruct r; simpl in *; [lia|].
  - intros (r & Hr & Hl & ->). exists (map (fun g => ":" +:+ g) r).
    rewrite length_map, app_nil_r, concat_ch by (by destruct r; simpl in *; [lia|]).
    split_and!; [lia | lia | | done]. apply (Forall_lang_fmap _ _ _ _ ch_lang). eauto.
Qed.

Lemma after_quad k s :
  re_lang (RSeq (rbetween 0 k ch) (RSeq colon quad)) s <->
  exists r q, Forall is_group r /\ is_ipv4 q /\ length r <= k /\ s = ":" +:+ tail_text r (Some q).
Proof.
  assert (T : forall r q, str_concat (map (fun g => ":" +:+ g) r) +:+ ":" +:+ q
                          = ":" +:+ tail_text r (Some q)).
  { intros r q. unfold tail_text. rewrite <- concat_ch by by destruct r.
    change (option_list (Some q)) with [q]. rewrite map_app, str_concat_app. cbn [map str_concat].
    by rewrite str_app_nil_r. }
  unfold colon. rewrite lang_seq. setoid_rewrite lang_chr_seq. setoid_rewrite lang_quad.
  setoid_rewrite lang_between; [|lia..]. split.
  - intros (x & y & -> & (l & Hl & Hf & ->) & q & -> & Hq).
    apply (Forall_lang_fmap _ _ _ _ ch_lang) in Hf as (r & Hr & ->). rewrite length_map in Hl.
    exists r, q. split_and!; [done | done | lia |]. apply T.
  - intros (r & q & Hr & Hq & Hl & ->). rewrite <- T.
    eexists _, (":" +:+ q). split_and!; [done | | by exists q].
    exists (map (fun g => ":" +:+ g) r). rewrite length_map. split_and!; [lia | lia | | done].
    apply (Forall_lang_fmap _ _ _ _ ch_lang). eauto.
Qed.

(** The general shape of what follows, for at least two groups. *)
Lemma after_lang k A Q s :
  2 <= k ->
  (forall t, re_lang A t <-> re_lang (rbetween 1 k ch) t) ->
  (forall t, re_lang Q t <-> re_lang (RSeq (rbetween 0 (k - 2) ch) (RSeq colon quad)) t) ->
  re_lang (ralts [A; Q; colon]) s <-> after k s.
Proof.
  intros Hk HA HQ. cbn [ralts]. rewrite !lang_alt, HA, HQ, after_groups, after_quad, after_colon by lia.
  unfold after. split.
  - intros [(r & Hr & Hl & ->) | [(r & q & Hr & Hq & Hl & ->) | ->]].
    + exists r, None. split_and!; [done | done | simpl; lia | done].
    + exists r, (Some q). split_and!; [done | done | simpl; lia | done].
    + exists [], None. split_and!; [done | done | simpl; lia | done].
  - intros (r & [q|] & Hr & Hq & Hl & ->); simpl in Hl.
    + right; left. exists r, q. split_and!; [done | done | lia | done].
    + destruct r as [|g r]; [by right; right|]. left. exists (g :: r). simpl in *.
      split_and!; [done | lia | lia | done].
Qed.

(** An address with [n] groups in front of its elision. *)
Definition elided (n : nat) (s : string) : Prop :=
  exists l t, length l = n /\ Forall is_group l /\ after (7 - n) t /\
              s = str_join ":" l +:+ ":" +:+ t.

Lemma groups_lang n s :
  re_lang (rrep n hc) s <->
  exists l, length l = n /\ Forall is_group l /\ s = str_concat (map (fun g => g +:+ ":") l).
Proof.
  rewrite lang_rep. split.
  - intros (k & Hk & Hf & ->). apply (Forall_lang_fmap _ _ _ _ hc_lang) in Hf as (l & Hl & ->).
    rewrite length_map in Hk. eauto.
  - intros (l & Hl & Hf & ->). exists (map (fun g => g +:+ ":") l). rewrite length_map.
    split_and!; [done | | done]. apply (Forall_lang_fmap _ _ _ _ hc_lang). eauto.
Qed.

Lemma elided_lang n T s :
  n <> 0 -> (forall t, re_lang T t <-> after (7 - n) t) ->
  re_lang (RSeq (rrep n hc) T) s <-> elided n s.
Proof.
  intros Hn HT. unfold elided. rewrite lang_seq. setoid_rewrite groups_lang. setoid_rewrite HT.
  split.
  - intros (x & t & -> & (l & Hl & Hf & ->) & Ht). exists l, t.
    rewrite concat_hc_end by (by intros ->). by rewrite str_app_assoc.
  - intros (l & t & Hl & Hf & Ht & ->). eexists _, t. split_and!; [|by exists l | done].
    rewrite concat_hc_end by (by intros ->). by rewrite str_app_assoc.
Qed.

Lemma elided_zero T s :
  (forall t, re_lang T t <-> after 7 t) -> re_lang (RSeq colon T) s <-> elided 0 s.
Proof.
  intros HT. unfold elided, colon. rewrite lang_chr_seq. setoid_rewrite HT. split.
  - intros (t & -> & Ht). by exists [], t.
  - intros ([|] & t & Hl & _ & Ht & ->); [|done]. by exists t.
Qed.

Lemma elided_ip6 s :
  (exists n, n <= 7 /\ elided n s) <->
  exists l r q, ip6_ok (Ip6 l (Some r) q) /\ s = ip6_text (Ip6 l (Some r) q).
Proof.
  unfold elided, after, ip6_ok, ip6_size, ip6_text; simpl. split.
  - intros (n & Hn & l & t & Hl & Hf & (r & q & Hr & Hq & Hk & ->) & ->).
    exists l, r, q. split_and!; [done | done | done | lia | done].
  - intros (l & r & q & (Hl & Hr & Hq & Hn) & ->). exists (length l). split; [lia|].
    exists l, (":" +:+ tail_text r q). split_and!; [done | done | | done].
    exists r, q. split_and!; [done | done | lia | done].
Qed.

(** The two ways to write all eight groups. *)
Lemma full_groups_lang n T (P : string -> Prop) s :
  (forall t, re_lang T t <-> P t) ->
  re_lang (RSeq (rrep n hc) T) s <->
  exists l t, length l = n /\ Forall is_group l /\ P t /\ s = str_join ":" (l ++ [t]).
Proof.
  intros HT. rewrite lang_seq. setoid_rewrite groups_lang. setoid_rewrite HT. split.
  - intros (x & t & -> & (l & Hl & Hf & ->) & Ht). exists l, t. split_and!; [done..|].
    by rewrite <- (concat_hc l [t]).
  - intros (l & t & Hl & Hf & Ht & ->). eexists _, t. split_and!; [|by exists l | done].
    by rewrite <- (concat_hc l [t]).
Qed.

Lemma full_ip6 s :
  (re_lang (RSeq (rrep 7 hc) h16) s \/ re_lang (RSeq (rrep 6 hc) quad) s) <->
  exists l q, ip6_ok (Ip6 l None q) /\ s = ip6_text (Ip6 l None q).
Proof.
  rewrite (full_groups_lang 7 _ _ _ h16_lang), (full_groups_lang 6 _ _ _ lang_quad).
  unfold ip6_ok, ip6_size, ip6_text, tail_text; simpl. split.
  - intros [(l & t & Hl & Hf & Ht & ->) | (l & t & Hl & Hf & Ht & ->)].
    + exists (l ++ [t]), None. rewrite app_nil_r, length_app. simpl.
      split_and!; [|done | done | lia | done]. apply Forall_app. auto.
    + exists l, (Some t). split_and!; [done | done | done | simpl; lia | done].
  - intros (l & [q|] & (Hl & _ & Hq & Hn) & ->); simpl in *.
    + right. exists l, q. split_and!; [lia | done | done | done].
    + left. destruct (exists_last (l := l)) as (k & t & ->); [by intros ->|].
      rewrite length_app in Hn. simpl in Hn. apply Forall_app in Hl as [Hk Ht].
      exists k, t. rewrite app_nil_r. split_and!; [lia | done | by inversion Ht | done].
Qed.

Lemma lang_seq_alt a b c s :
  re_lang (RSeq a (RAlt b c)) s <-> re_lang (RSeq a b) s \/ re_lang (RSeq a c) s.
Proof. rewrite !lang_seq. setoid_rewrite lang_alt. naive_solver. Qed.

(** ** Lemmas: the branches of the source *)

Lemma between_one r s : re_lang (rbetween 1 1 r) s <-> re_lang r s.
Proof.
  unfold rbetween. cbn [rrep rupto Nat.sub]. rewrite lang_seq. setoid_rewrite lang_seq.
  setoid_rewrite lang_eps. split.
  - intros (x & y & -> & (u & v & -> & Hu & ->) & ->). by rewrite !str_app_nil_r.
  - intros H. exists s, estr. rewrite str_app_nil_r. split_and!; [done | | done].
    exists s, estr. by rewrite str_app_nil_r.
Qed.

Lemma between_zero r s : re_lang (rbetween 0 0 r) s <-> s = estr.
Proof.
  unfold rbetween. cbn [rrep rupto Nat.sub]. rewrite lang_seq. setoid_rewrite lang_eps.
  split; [by intros (x & y & -> & -> & ->) | intros ->; by exists estr, estr].
Qed.

Lemma between_opt r s : re_lang (rbetween 0 1 r) s <-> re_lang (ropt r) s.
Proof.
  rewrite lang_between by lia. unfold ropt. rewrite lang_alt, lang_eps. split.
  - intros ([|x [|]] & Hl & Hf & ->); simpl in *; [by left | | lia].
    right. rewrite str_app_nil_r. by inversion Hf.
  - intros [->|H]; [exists [] | exists [s]]; simpl; rewrite ?str_app_nil_r; auto with lia.
Qed.

Lemma seq_empty_l a b s : (forall t, re_lang a t <-> t = estr) -> re_lang (RSeq a b) s <-> re_lang b s.
Proof.
  intros Ha. rewrite lang_seq. setoid_rewrite Ha.
  split; [by intros (x & y & -> & -> & H) | intros H; by exists estr, s].
Qed.

Lemma seq_proper_l a a' b s :
  (forall t, re_lang a t <-> re_lang a' t) -> re_lang (RSeq a b) s <-> re_lang (RSeq a' b) s.
Proof. intros Ha. rewrite !lang_seq. by setoid_rewrite Ha. Qed.

Lemma after_zero t : re_lang colon t <-> after 0 t.
Proof.
  rewrite after_colon. unfold after. split.
  - intros ->. by exists [], None.
  - intros ([|] & [|] & _ & _ & Hl & ->); simpl in Hl; [lia | done | lia | lia].
Qed.

Lemma after_one t : re_lang (RAlt ch colon) t <-> after 1 t.
Proof.
  rewrite lang_alt, after_colon, <- between_one, after_groups by done. unfold after. split.
  - intros [(r & Hr & Hl & ->) | ->].
    + exists r, None. split_and!; [done | done | simpl; lia | done].
    + exists [], None. split_and!; [done | done | simpl; lia | done].
  - intros (r & [q|] & Hr & _ & Hl & ->); simpl in Hl; [lia|].
    destruct r as [|g r]; [by right|]. left. exists (g :: r). simpl in *.
    split_and!; [done | lia | lia | done].
Qed.

Lemma branch7 s :
  re_lang (RSeq (rrep 7 hc) (ralts [h16; colon])) s <->
  re_lang (RSeq (rrep 7 hc) h16) s \/ elided 7 s.
Proof. cbn [ralts]. by rewrite lang_seq_alt, (elided_lang 7 colon _ ltac:(done) after_zero). Qed.

Lemma branch6 s :
  re_lang (RSeq (rrep 6 hc) (ralts [ch; quad; colon])) s <->
  re_lang (RSeq (rrep 6 hc) quad) s \/ elided 6 s.
Proof.
  cbn [ralts]. rewrite <- (elided_lang 6 _ s ltac:(done) after_one), !lang_seq_alt. tauto.
Qed.

Lemma branch5 s :
  re_lang (RSeq (rrep 5 hc) (ralts [rbetween 1 2 ch; RSeq colon quad; colon])) s <-> elided 5 s.
Proof.
  apply elided_lang; [done|]. intros t. apply after_lang; [done | done |]. intros u.
  symmetry. apply seq_empty_l, between_zero.
Qed.

Lemma branch4 s :
  re_lang (RSeq (rrep 4 hc) (ralts [rbetween 1 3 ch; RSeq (ropt ch) (RSeq colon quad); colon])) s
  <-> elided 4 s.
Proof.
  apply elided_lang; [done|]. intros t. apply after_lang; [lia | done |]. intros u.
  apply seq_proper_l. intros v. symmetry. apply between_opt.
Qed.

(** The branches with [n] leading groups, [1 <= n <= 3], and the one with none. *)
Lemma branch_low n s :
  1 <= n <= 3 ->
  re_lang (RSeq (rrep n hc) (ralts [rbetween 1 (7 - n) ch;
                                    RSeq (rbetween 0 (7 - n - 2) ch) (RSeq colon quad); colon])) s
  <-> elided n s.
Proof. intros Hn. apply elided_lang; [lia|]. intros t. by apply after_lang; [lia|..]. Qed.

Lemma branch0 s :
  re_lang (RSeq colon (ralts [rbetween 1 7 ch; RSeq (rbetween 0 5 ch) (RSeq colon quad); colon])) s
  <-> elided 0 s.
Proof. apply elided_zero. intros t. by apply after_lang; [lia|..]. Qed.

Lemma lang_ralts_cons r r' l s :
  re_lang (ralts (r :: r' :: l)) s <-> re_lang r s \/ re_lang (ralts (r' :: l)) s.
Proof. apply lang_alt. Qed.

Lemma elided_upto7 s :
  (exists n, n <= 7 /\ elided n s) <->
  elided 7 s \/ elided 6 s \/ elided 5 s \/ elided 4 s \/ elided 3 s \/ elided 2 s \/ elided 1 s
  \/ elided 0 s.
Proof.
  split.
  - intros (n & Hn & H). do 8 (destruct n as [|n]; [tauto|]). lia.
  - intros H. repeat destruct H as [H|H]; eexists; (split; [|exact H]); lia.
Qed.

Lemma lang_IPv6 s : re_lang IPv6 s <-> is_ipv6 s.
Proof.
  assert (Z : forall t, re_lang (ropt (RSeq (rchr "%") (rplus rdot))) t <-> is_zone t).
  { intros t. unfold ropt, is_zone. by rewrite lang_alt, lang_eps, lang_chr_seq. }
  assert (B : forall t, re_lang (match IPv6 with RSeq b _ => b | _ => RNone end) t <->
                        exists a, ip6_ok a /\ t = ip6_text a).
  { intros t. unfold IPv6. rewrite !lang_ralts_cons. cbn [ralts].
    rewrite branch7, branch6, branch5, branch4, (branch_low 3), (branch_low 2), (branch_low 1), branch0 by lia.
    transitivity ((re_lang (RSeq (rrep 7 hc) h16) t \/ re_lang (RSeq (rrep 6 hc) quad) t)
                  \/ exists n, n <= 7 /\ elided n t).
    { rewrite elided_upto7. tauto. }
    rewrite full_ip6, elided_ip6. split.
    - intros [(l & q & H) | (l & r & q & H)]; eauto.
    - intros ([l [r|] q] & H); eauto. }
  unfold is_ipv6. unfold IPv6 at 1. rewrite lang_seq. setoid_rewrite Z.
  setoid_rewrite B. naive_solver.
Qed.

Lemma lang_cidr a m s :
  re_lang (RSeq a (RSeq (rchr "/") m)) s <->
  exists x y, re_lang a x /\ re_lang m y /\ s = x +:+ "/" +:+ y.
Proof. rewrite lang_seq. setoid_rewrite lang_chr_seq. naive_solver. Qed.

(** ** Lemmas: the element *)

Lemma on_input_custom m x f : on_input m (set_custom x f) = on_input m f.
Proof. done. Qed.

Lemma on_input_twice m x f : on_input m (on_input x f) = on_input m f.
Proof. unfold on_input at 2. repeat case_match; apply on_input_custom. Qed.

(** The last listener decides, whatever listeners were there before. *)
Lemma user_input_as r ph m f v :
  user_input v (as_field r ph m f) = on_input m (set_value v (as_field r ph m f)).
Proof.
  unfold user_input. cbn [as_field fd_listeners]. rewrite foldl_app. cbn [foldl].
  generalize (set_value v (as_field r ph m f)) as g. induction (fd_listeners f) as [|x l IH]; intros g; [done|].
  cbn [foldl]. rewrite IH. apply on_input_twice.
Qed.

Lemma valid_as r ph m f v :
  m <> estr ->
  valid (user_input v (as_field r ph m f)) = true <->
  if is_empty v then optional f = true else re_match r v = true.
Proof.
  intros Hm. rewrite user_input_as. unfold on_input.
  destruct (valueMissing _) eqn:A; [|destruct (patternMismatch _) eqn:B];
    unfold valid, valueMissing, patternMismatch, optional in *; simpl in *.
  - rewrite andb_false_r. by destruct (fd_required f), (fd_disabled f), (is_empty v).
  - destruct m; [done|]. rewrite andb_false_r. by destruct (is_empty v), (re_match r v).
  - rewrite A, B. by destruct (fd_required f), (fd_disabled f), (is_empty v), (re_match r v).
Qed.

(** ** Properties *)

(** C5 The IPv4 expressions accept exactly the addresses: [IPv4] matches a text
    exactly when it is four decimal octets from 0 to 255, without leading
    zeros, separated by dots, and [IPv4CIDR] exactly when it is such an
    address followed by a slash and a decimal mask from 0 to 32. *)
Theorem IPv4_expressions s :
  (re_match IPv4 s = true <-> is_ipv4 s) /\
  (re_match IPv4CIDR s = true <->
   exists a m, is_ipv4 a /\ (m <= 32)%N /\ s = a +:+ "/" +:+ string_of_N m).
Proof.
  rewrite !re_match_lang, lang_IPv4. unfold IPv4CIDR. rewrite lang_cidr.
  setoid_rewrite lang_IPv4. setoid_rewrite mask4_lang. split; [done|]. naive_solver.
Qed.

(** C6 The IPv6 expressions accept exactly the text forms of RFC 4291: eight
    groups of one to four hexadecimal digits, of which one run may be elided by
    a double colon and the last two may be written as an IPv4 address, then an
    optional zone; with a mask, a slash and a number from 0 to 128, below ten
    also written with a leading zero. *)
Theorem IPv6_expressions s :
  (re_match IPv6 s = true <-> is_ipv6 s) /\
  (re_match IPv6CIDR s = true <->
   exists a m, is_ipv6 a /\ is_mask6 m /\ s = a +:+ "/" +:+ m).
Proof.
  rewrite !re_match_lang, lang_IPv6. unfold IPv6CIDR. rewrite lang_cidr.
  setoid_rewrite lang_IPv6. setoid_rewrite mask6_lang. done.
Qed.

(** Whatever an element was before (including turned into another kind of
    address field, with that field's listener still attached), once
    [asIPv4CIDR] or [asIPv6CIDR] was called and the user typed a value, the
    browser takes the element as valid exactly when the value is empty and
    optional or a subnet of that family. *)
Theorem address_field_validity f v :
  (valid (user_input v (asIPv4CIDR f)) = true <->
   (v = estr /\ optional f = true) \/
   exists a m, is_ipv4 a /\ (m <= 32)%N /\ v = a +:+ "/" +:+ string_of_N m) /\
  (valid (user_input v (asIPv6CIDR f)) = true <->
   (v = estr /\ optional f = true) \/
   exists a m, is_ipv6 a /\ is_mask6 m /\ v = a +:+ "/" +:+ m).
Proof.
  assert (E : forall a m : string, estr <> a +:+ "/" +:+ m) by by intros [].
  unfold asIPv4CIDR, asIPv6CIDR. rewrite !valid_as by done.
  destruct v as [|c v]; cbn [is_empty]; [naive_solver|]. rewrite !re_match_lang.
  unfold IPv4CIDR, IPv6CIDR. rewrite !lang_cidr. setoid_rewrite lang_IPv4.
  setoid_rewrite mask4_lang. setoid_rewrite lang_IPv6. setoid_rewrite mask6_lang. naive_solver.
Qed.

(** Evaluation on sample values. *)
Example address_samples :
  map (re_match IPv4CIDR) ["10.0.0.1/24"; "10.0.0.256/24"; "10.0.0.1/33"; "010.0.0.1/8"]
    = [true; false; false; false] /\
  map (re_match IPv6CIDR) ["fe80::1/64"; "::ffff:10.0.0.1/128"; "1::2::3/64"; "fe80::1%eth0/64"; "::/05"]
    = [true; true; false; true; true].
Proof. by vm_compute. Qed.
