(* ===== verification/Pages.v ===== *)
(** * The endpoint lists of the connection pages

    provision_cloud.js, modify_cloud.js, provision_l2vpn.js and
    modify_l2vpn.js each keep a [GlobalState] with the array of endpoints of
    the connection.  Endpoints are objects shared between the array, the
    dialogs and the event handlers, so they live in a heap and the array holds
    their locations; a hole of the array is [None].

    The four pages differ in what [update] writes on each endpoint before it
    renders it.  [EndpointPage] is that interface with the laws the list
    operations rely on; the pages are its instances.  Three of the pages write
    before [update] first waits; modify_l2vpn.js waits for its render methods,
    which wait for nothing themselves, so its writes are done too before
    another event is handled. *)

From Stdlib Require Import ZArith Lia Ascii String.
From stdpp Require Import base option list gmap sets strings numbers tactics.
From S2P Require Import Prelude JsValue.

Abbreviation loc := nat.
Abbreviation obj := (list (string * val)).

Record page := Page {
  pg_heap : gmap loc obj;
  pg_endpoints : list (option loc);
  pg_next : loc
}.

Definition empty_page : page := Page ∅ [] 0.

(** ** The heap *)

(** [o.k = v] *)
Definition write (h : gmap loc obj) (l : loc) (k : string) (v : val) : gmap loc obj :=
  alter (obj_set k v) l h.

(** Several assignments, in order. *)
Definition write_all (h : gmap loc obj) (l : loc) (fs : obj) : gmap loc obj :=
  foldl (fun h kv => write h l kv.1 kv.2) h fs.

Definition obj_set_all (o fs : obj) : obj := foldl (fun o kv => obj_set kv.1 kv.2 o) o fs.

Definition read (h : gmap loc obj) (l : loc) (k : string) : val :=
  default VUndef (h !! l ≫= obj_get k).

Definition alloc (p : page) (o : obj) : loc * page :=
  (pg_next p, Page (<[pg_next p := o]> (pg_heap p)) (pg_endpoints p) (S (pg_next p))).

(** ** Arrays *)

(** [a[k] = x]: in range it replaces, past the end it extends with holes; a key
    that is not an index adds a property that no loop visits. *)
Definition assign (a : list (option loc)) (k : val) (x : loc) : list (option loc) :=
  match array_index (to_string k) with
  | None => a
  | Some n =>
      let n := N.to_nat n in
      if Nat.ltb n (length a) then <[n := Some x]> a
      else a ++ replicate (n - length a) None ++ [Some x]
  end.

(** [a.splice(i, 1)]: a negative start counts from the end. *)
Definition splice {A} (a : list A) (i : Z) : list A :=
  if (i <? 0)%Z then splice1 (Z.to_nat (Z.max (Z.of_nat (length a) + i) 0)) a
  else splice1 (Z.to_nat i) a.

(** ** What a page writes on an endpoint *)

(** The fields [update] may write. *)
Definition page_fields : list string := ["index"; "peers"; "editable"; "isPeeringAutoGenerated"].

Definition is_object_literal (v : val) : bool := match v with VObj _ => true | _ => false end.

(** An endpoint whose peerings, if any, are an array of objects. *)
Definition usable (e : obj) : bool :=
  match obj_get "peers" e with
  | None => true
  | Some (VArr ps) => forallb is_object_literal ps
  | Some _ => false
  end.

(** [decorate i e]: the writes of [update] on the endpoint at position [i], and
    whether they all went through.  [prepare]: the writes of [updateEndpoint]
    before it stores the endpoint. *)
Class EndpointPage := {
  prepare : obj -> obj;
  decorate : nat -> obj -> obj * bool;
  prepare_index o : obj_get "index" (prepare o) = obj_get "index" o;
  prepare_peers o : obj_get "peers" (prepare o) = obj_get "peers" o;
  decorate_ok i o : usable o = true -> snd (decorate i o) = true;
  decorate_index i o : obj_get "index" (fst (decorate i o)) = Some (VInt (Z.of_nat i));
  decorate_usable i o : usable o = true -> usable (fst (decorate i o)) = true;
  decorate_frame i o k : k ∉ page_fields -> obj_get k (fst (decorate i o)) = obj_get k o
}.

(** ** The operations of GlobalState *)

Section operations.
Context `{EndpointPage}.

(** The loop of [update] from position [i]; holes are skipped, and an exception
    ends it (the promise of [update] is rejected, its caller goes on). *)
Fixpoint update_from (i : nat) (a : list (option loc)) (h : gmap loc obj) : gmap loc obj :=
  match a with
  | [] => h
  | None :: a' => update_from (S i) a' h
  | Some l :: a' =>
      match h !! l with
      | None => h
      | Some o =>
          let '(o', ok) := decorate i o in
          let h' := <[l := o']> h in
          if ok then update_from (S i) a' h' else h'
      end
  end.

Definition update (p : page) : page :=
  Page (update_from 0 (pg_endpoints p) (pg_heap p)) (pg_endpoints p) (pg_next p).

Definition store (l : loc) (p : page) : page :=
  let idx := read (pg_heap p) l "index" in
  Page (pg_heap p)
    (if js_lt idx (VInt 0) then pg_endpoints p ++ [Some l] else assign (pg_endpoints p) idx l)
    (pg_next p).

Definition prepared (l : loc) (p : page) : page :=
  Page (alter prepare l (pg_heap p)) (pg_endpoints p) (pg_next p).

Definition updateEndpoint (l : loc) (p : page) : page := update (store l (prepared l p)).

Definition deleteEndpoint (i : Z) (p : page) : page :=
  update (Page (pg_heap p) (splice (pg_endpoints p) i) (pg_next p)).

End operations.

(** ** What the pages write *)

(** [connActive && userMayEdit] of the two pages for existing connections. *)
Definition editable_of (isAdmin workgroup_id isReadOnly owner state : val) : val :=
  let userMayEdit := if truthy isAdmin then isAdmin
                     else VBool (loose_eq workgroup_id owner && negb (truthy isReadOnly)) in
  let connActive := negb (strict_eq state (VStr "decom")) in
  if connActive then userMayEdit else VBool false.

(** *** provision_l2vpn.js and modify_l2vpn.js *)

Definition l2_decorate (editable : val) (i : nat) (e : obj) : obj * bool :=
  (obj_set "editable" editable (obj_set "index" (VInt (Z.of_nat i)) e), true).

(** [e['interface'] = e.name; e['interface_description'] = 'NA'] *)
Definition l2_modify_prepare (e : obj) : obj :=
  obj_set "interface_description" (VStr "NA")
    (obj_set "interface" (default VUndef (obj_get "name" e)) e).

(** *** provision_cloud.js and modify_cloud.js *)

(** Whether the provider of the endpoint generates its peerings. *)
Definition auto_generated (e : obj) : val :=
  let t := default VUndef (obj_get "cloud_interconnect_type" e) in
  VBool (negb (strict_eq t VNull) && negb (strict_eq t (VStr "aws-hosted-connection"))
         && negb (strict_eq t (VStr "oracle-fast-connect"))).

(** The writes on the [j]-th peering of the endpoint at position [i]. *)
Definition decorate_peer (editable : val) (auto : val) (i j : nat) (p : val) : option val :=
  match p with
  | VUndef | VNull => None
  | VObj o =>
      Some (VObj (obj_set "isPeeringAutoGenerated" auto
             (obj_set "editable" editable
               (obj_set "endpointIndex" (VInt (Z.of_nat i))
                 (obj_set "index" (VInt (Z.of_nat j)) o)))))
  | _ => Some p
  end.

(** The loop over the peerings, stopped by the first value without properties. *)
Fixpoint decorate_peers (editable : val) (auto : val) (i j : nat) (ps : list val)
    : list val * bool :=
  match ps with
  | [] => ([], true)
  | p :: ps' =>
      match decorate_peer editable auto i j p with
      | None => (p :: ps', false)
      | Some q => let '(qs, ok) := decorate_peers editable auto i (S j) ps' in (q :: qs, ok)
      end
  end.

Definition l3_decorate (editable : val) (i : nat) (e : obj) : obj * bool :=
  let e := obj_set "index" (VInt (Z.of_nat i)) e in
  let e := obj_set "peers" (default (VArr []) (obj_get "peers" e)) e in
  let e := obj_set "editable" editable e in
  let e := obj_set "isPeeringAutoGenerated" (auto_generated e) e in
  match obj_get "peers" e with
  | Some (VArr ps) =>
      let '(qs, ok) := decorate_peers editable (auto_generated e) i 0 ps in
      (obj_set "peers" (VArr qs) e, ok)
  | _ => (e, false)
  end.

(** [this.connection.endpoints[endpointIndex].peers.splice(peeringIndex, 1)] *)
Definition deletePeering (endpointIndex peeringIndex : nat) (p : page) : res page :=
  match pg_endpoints p !! endpointIndex with
  | Some (Some l) =>
      match read (pg_heap p) l "peers" with
      | VArr ps =>
          Ok (Page (write (pg_heap p) l "peers" (VArr (splice ps (Z.of_nat peeringIndex))))
                (pg_endpoints p) (pg_next p))
      | _ => Err EType
      end
  | _ => Err EType
  end.

(** The submit callback of the peering dialog ([l3/endpoint.js]): the negation
    binds tighter than [in], so the guard on a missing array never fires. *)
Definition addPeering `{EndpointPage} (l : loc) (peering : val) (p : page) : res page :=
  match read (pg_heap p) l "peers" with
  | VArr ps =>
      let p1 := Page (write (pg_heap p) l "peers" (VArr (ps ++ [peering])))
                  (pg_endpoints p) (pg_next p) in
      Ok (update (updateEndpoint l p1))
  | _ => Err EType
  end.

(** The delete button of a rendered endpoint: its [index] field at that time. *)
Definition delete_clicked `{EndpointPage} (l : loc) (p : page) : page :=
  match read (pg_heap p) l "index" with
  | VNum (Fin (Dec z 0)) => update (deleteEndpoint z p)
  | _ => p
  end.

(** The delete button of the [j]-th peering of the [i]-th endpoint. *)
Definition delete_peering_clicked `{EndpointPage} (i j : nat) (p : page) : res page :=
  let? p1 := deletePeering i j p in Ok (update p1).

(** ** The user's actions on a page

    A dialog hands [updateEndpoint] either a new object with index -1, or the
    edited endpoint itself, or an object that stands for another entity and
    carries the index of the edited endpoint. *)

Section actions.
Context `{EndpointPage}.

Definition submit_object (o : obj) (p : page) : page :=
  let '(l, p1) := alloc p o in updateEndpoint l p1.

Definition submit_edit (l : loc) (fs : obj) (p : page) : page :=
  updateEndpoint l (Page (write_all (pg_heap p) l fs) (pg_endpoints p) (pg_next p)).

(** A connection loaded from the server: one object per endpoint, then [update]. *)
Definition load (os : list obj) : page :=
  update (foldl (fun p o => let '(l, p1) := alloc p o in
                            Page (pg_heap p1) (pg_endpoints p1 ++ [Some l]) (pg_next p1))
            empty_page os).

(** What the user can do to the list; [k] is the position of a rendered
    endpoint, and the edited fields leave the list's own fields alone.  A submission
    that throws may have written some of them ([step_fields]). *)
Inductive step : page -> page -> Prop :=
  | step_new o p :
      obj_get "index" o = Some (VInt (-1)) -> usable o = true -> step p (submit_object o p)
  | step_edit k l fs p :
      pg_endpoints p !! k = Some (Some l) -> (forall f, f ∈ page_fields -> f ∉ names fs) ->
      step p (submit_edit l fs p)
  | step_other k o p :
      obj_get "index" o = Some (VInt (Z.of_nat k)) -> k < length (pg_endpoints p) ->
      usable o = true -> step p (submit_object o p)
  | step_delete k l p : pg_endpoints p !! k = Some (Some l) -> step p (delete_clicked l p)
  | step_add_peering k l q p p' :
      pg_endpoints p !! k = Some (Some l) -> is_object_literal q = true ->
      addPeering l q p = Ok p' -> step p p'
  | step_delete_peering i j p p' : delete_peering_clicked i j p = Ok p' -> step p p'
  | step_fields k l fs p :
      pg_endpoints p !! k = Some (Some l) -> (forall f, f ∈ page_fields -> f ∉ names fs) ->
      step p (Page (write_all (pg_heap p) l fs) (pg_endpoints p) (pg_next p)).

Inductive reachable (os : list obj) : page -> Prop :=
  | reach_load : reachable os (load os)
  | reach_step p p' : reachable os p -> step p p' -> reachable os p'.

(** *** The dialog over time

    [display] of the endpoint dialog keeps the endpoint it is called for ([ed_shown]) and
    fills both forms.  [populateEntityForm] keeps the index of the endpoint
    ([fm_index]), asks for the entity, and installs the links of the list and the handler of
    its button when the entity arrives: until then they are those of the form
    that arrived last.  A link, or a result of a search, calls it again for another
    entity, with the index of the form it belongs to.  The button of the interface
    form has its index from the interfaces that arrived last, and works on the endpoint kept by
    [display].  While the dialog is open the page behind it cannot be used. *)
Inductive target := TNull | TEndpoint (l : loc) | TEntity.
Record form := Form { fm_target : target; fm_index : Z }.

(** The forms asked for, in order; the one whose entity arrived last, by its place in that
    list; the form of the endpoint on display; the index of the interface form. *)
Record endpoint_dialog := EndpointDialog {
  ed_open : bool;
  ed_asked : list form;
  ed_entity : option nat;
  ed_shown : form;
  ed_interface : option Z
}.

Definition closed_dialog : endpoint_dialog := EndpointDialog false [] None (Form TNull (-1)) None.
Definition ask_form (f : form) (d : endpoint_dialog) : endpoint_dialog :=
  EndpointDialog (ed_open d) (ed_asked d ++ [f]) (ed_entity d) (ed_shown d) (ed_interface d).
Definition display (f : form) (d : endpoint_dialog) : endpoint_dialog :=
  ask_form f (EndpointDialog true (ed_asked d) (ed_entity d) f (ed_interface d)).
Definition entity_arrived (n : nat) (d : endpoint_dialog) : endpoint_dialog :=
  EndpointDialog (ed_open d) (ed_asked d) (Some n) (ed_shown d) (ed_interface d).
Definition interfaces_arrived (i : Z) (d : endpoint_dialog) : endpoint_dialog :=
  EndpointDialog (ed_open d) (ed_asked d) (ed_entity d) (ed_shown d) (Some i).
Definition close_dialog (d : endpoint_dialog) : endpoint_dialog :=
  EndpointDialog false (ed_asked d) (ed_entity d) (ed_shown d) (ed_interface d).

(** The form asked for last. *)
Definition newest (d : endpoint_dialog) (n : nat) : Prop := S n = length (ed_asked d).

(** What the page offers behind the dialog. *)
Inductive list_step : page -> page -> Prop :=
  | list_delete k l p : pg_endpoints p !! k = Some (Some l) -> list_step p (delete_clicked l p)
  | list_add_peering k l q p p' :
      pg_endpoints p !! k = Some (Some l) -> is_object_literal q = true ->
      addPeering l q p = Ok p' -> list_step p p'
  | list_delete_peering i j p p' : delete_peering_clicked i j p = Ok p' -> list_step p p'.

(** A submission that throws after it has written some fields of an endpoint. *)
Definition half_written (l : loc) (fs : obj) (p : page) : page :=
  Page (write_all (pg_heap p) l fs) (pg_endpoints p) (pg_next p).

(** The user and the answers.  With [waits] the user uses the links and the button of the
    entity form only when the form asked for last has arrived, picks only results
    of a search made in that form, and adds an interface only when the interfaces of
    the form have arrived.  An entity that is picked is a new object that carries the
    index of the form; the button of the entity form throws when there is neither an
    endpoint nor a picked entity. *)
Inductive ui_step (waits : bool) : endpoint_dialog * page -> endpoint_dialog * page -> Prop :=
  | ui_open_new d p : ed_open d = false -> ui_step waits (d, p) (display (Form TNull (-1)) d, p)
  | ui_open_edit k l i d p :
      ed_open d = false -> pg_endpoints p !! k = Some (Some l) -> read (pg_heap p) l "index" = VInt i ->
      ui_step waits (d, p) (display (Form (TEndpoint l) i) d, p)
  | ui_pick n f d p :
      ed_open d = true -> ed_entity d = Some n -> ed_asked d !! n = Some f -> (waits = true -> newest d n) ->
      ui_step waits (d, p) (ask_form (Form TEntity (fm_index f)) d, p)
  | ui_search n f d p :
      ed_open d = true -> ed_asked d !! n = Some f -> (waits = true -> newest d n) ->
      ui_step waits (d, p) (ask_form (Form TEntity (fm_index f)) d, p)
  | ui_entity_arrives n d p : n < length (ed_asked d) -> ui_step waits (d, p) (entity_arrived n d, p)
  | ui_interfaces_arrive f d p :
      f ∈ ed_asked d -> fm_target f <> TEntity -> ui_step waits (d, p) (interfaces_arrived (fm_index f) d, p)
  | ui_entity_edit n f l fs d p :
      ed_open d = true -> ed_entity d = Some n -> ed_asked d !! n = Some f -> (waits = true -> newest d n) ->
      fm_target f = TEndpoint l -> (forall k, k ∈ page_fields -> k ∉ names fs) ->
      ui_step waits (d, p) (close_dialog d, submit_edit l fs p)
  | ui_entity_fails n f l fs d p :
      ed_open d = true -> ed_entity d = Some n -> ed_asked d !! n = Some f -> (waits = true -> newest d n) ->
      fm_target f = TEndpoint l -> (forall k, k ∈ page_fields -> k ∉ names fs) ->
      ui_step waits (d, p) (d, half_written l fs p)
  | ui_entity_object n f o d p :
      ed_open d = true -> ed_entity d = Some n -> ed_asked d !! n = Some f -> (waits = true -> newest d n) ->
      fm_target f = TEntity -> obj_get "index" o = Some (VInt (fm_index f)) -> usable o = true ->
      ui_step waits (d, p) (close_dialog d, submit_object o p)
  | ui_interface_edit l i fs d p :
      ed_open d = true -> ed_interface d = Some i -> fm_target (ed_shown d) = TEndpoint l ->
      (forall k, k ∈ page_fields -> k ∉ names fs) ->
      ui_step waits (d, p) (close_dialog d, submit_edit l fs p)
  | ui_interface_fails l i fs d p :
      ed_open d = true -> ed_interface d = Some i -> fm_target (ed_shown d) = TEndpoint l ->
      (forall k, k ∈ page_fields -> k ∉ names fs) ->
      ui_step waits (d, p) (d, half_written l fs p)
  | ui_interface_new i o d p :
      ed_open d = true -> ed_interface d = Some i -> fm_target (ed_shown d) = TNull ->
      (waits = true -> i = fm_index (ed_shown d)) -> obj_get "index" o = Some (VInt i) -> usable o = true ->
      ui_step waits (d, p) (close_dialog d, submit_object o p)
  | ui_cancel d p : ui_step waits (d, p) (close_dialog d, p)
  | ui_list d p p' : ed_open d = false -> list_step p p' -> ui_step waits (d, p) (d, p').

Inductive ui_reachable (waits : bool) (os : list obj) : endpoint_dialog * page -> Prop :=
  | ui_load : ui_reachable waits os (closed_dialog, load os)
  | ui_next s s' : ui_reachable waits os s -> ui_step waits s s' -> ui_reachable waits os s'.

(** The invariant: no holes, no endpoint twice, and every endpoint carries its
    own position. *)
Record wf (p : page) (ls : list loc) : Prop := {
  wf_list : pg_endpoints p = map Some ls;
  wf_nodup : NoDup ls;
  wf_fresh : forall l, pg_next p <= l -> pg_heap p !! l = None;
  wf_obj : forall i l, ls !! i = Some l ->
      exists o, pg_heap p !! l = Some o /\ obj_get "index" o = Some (VInt (Z.of_nat i))
                /\ usable o = true
}.

(** Before [update] has run: the same without the positions. *)
Record pre_wf (p : page) (ls : list loc) : Prop := {
  pre_list : pg_endpoints p = map Some ls;
  pre_nodup : NoDup ls;
  pre_fresh : forall l, pg_next p <= l -> pg_heap p !! l = None;
  pre_obj : forall l, l ∈ ls -> exists o, pg_heap p !! l = Some o /\ usable o = true
}.

End actions.

(** ** Lemmas: objects and arrays *)

Lemma array_index_N n : array_index (string_of_N n) = Some n.
Proof.
  unfold array_index. destruct (string_of_N_cons n) as (c & s & E & _).
  rewrite E, <- E, string_of_N_digits, dec_value_string_of_N, String.eqb_refl. done.
Qed.

Lemma to_string_nat n : to_string (VInt (Z.of_nat n)) = string_of_N (N.of_nat n).
Proof. by destruct n. Qed.

Lemma assign_in_range ls k l :
  k < length ls -> assign (map Some ls) (VInt (Z.of_nat k)) l = map Some (<[k := l]> ls).
Proof.
  intros Hk. unfold assign. rewrite to_string_nat, array_index_N, Nat2N.id, length_map.
  rewrite (proj2 (Nat.ltb_lt _ _) Hk). symmetry. apply (list_fmap_insert Some).
Qed.

Lemma splice_nat {A} (a : list A) k : splice a (Z.of_nat k) = splice1 k a.
Proof. unfold splice. rewrite (proj2 (Z.ltb_ge _ _)) by lia. by rewrite Nat2Z.id. Qed.

Lemma splice1_map {A B} (f : A -> B) k l : splice1 k (map f l) = map f (splice1 k l).
Proof. unfold splice1. by rewrite firstn_map, skipn_map, <- map_app. Qed.

Lemma obj_get_set_all_frame k fs o : k ∉ names fs -> obj_get k (obj_set_all o fs) = obj_get k o.
Proof.
  unfold obj_set_all. revert o. induction fs as [|[k' v] fs IH]; intros o Hk; simpl; [done|].
  rewrite IH by set_solver. apply obj_get_set_ne. set_solver.
Qed.

Lemma write_all_alter h l fs : write_all h l fs = alter (fun o => obj_set_all o fs) l h.
Proof.
  unfold write_all, obj_set_all. revert h. induction fs as [|[k v] fs IH]; intros h; simpl.
  - apply map_eq. intros i. destruct (decide (i = l)) as [->|]; [|by rewrite lookup_alter_ne].
    rewrite lookup_alter_eq. by destruct (h !! l).
  - rewrite IH. unfold write. apply map_eq. intros i.
    destruct (decide (i = l)) as [->|]; [|by rewrite !lookup_alter_ne].
    rewrite !lookup_alter_eq. by destruct (h !! l).
Qed.

Lemma usable_peers o o' : obj_get "peers" o = obj_get "peers" o' -> usable o = usable o'.
Proof. unfold usable. by intros ->. Qed.

(** ** Lemmas: the loop of update *)

Section laws.
Context `{EndpointPage}.

Lemma update_from_other ls i h l :
  l ∉ ls -> update_from i (map Some ls) h !! l = h !! l.
Proof.
  revert i h. induction ls as [|x ls IH]; intros i h Hl; simpl; [done|].
  destruct (h !! x) as [o|]; [|done].
  destruct (decorate i o) as [o' []]; rewrite ?IH by set_solver; rewrite lookup_insert_ne; set_solver.
Qed.

Lemma update_from_at ls i h j l :
  NoDup ls -> (forall x, x ∈ ls -> exists o, h !! x = Some o /\ usable o = true) ->
  ls !! j = Some l ->
  update_from i (map Some ls) h !! l = (fun o => fst (decorate (i + j) o)) <$> h !! l.
Proof.
  revert i h j. induction ls as [|x ls IH]; intros i h j Hnd Hu Hj; [done|].
  apply list.NoDup_cons in Hnd as [Hx Hnd]. simpl.
  destruct (Hu x) as (o & Ho & Hus); [set_solver|]. rewrite Ho.
  pose proof (decorate_ok i o Hus) as Hok. destruct (decorate i o) as [o' b] eqn:E. simpl in Hok. subst b.
  destruct j as [|j]; simpl in Hj; simplify_eq.
  - rewrite update_from_other by done. rewrite lookup_insert_eq, Ho, Nat.add_0_r. simpl. by rewrite E.
  - assert (l <> x) by (intros ->; apply Hx; by eapply list_elem_of_lookup_2).
    rewrite (IH (S i) _ j); [|done| |done].
    + rewrite lookup_insert_ne by done. by rewrite Nat.add_succ_r.
    + intros y Hy. destruct (decide (y = x)) as [->|]; [done|].
      rewrite lookup_insert_ne by done. apply Hu. set_solver.
Qed.

(** [update] establishes the invariant. *)
Lemma update_wf p ls : pre_wf p ls -> wf (update p) ls.
Proof.
  intros [Hl Hnd Hf Ho]. unfold update. rewrite Hl. split; simpl; [done | done | |].
  - intros l Hle. destruct (decide (l ∈ ls)) as [Hin|Hin].
    + destruct (Ho l Hin) as (o & E & _). rewrite Hf in E by done. done.
    + rewrite update_from_other by done. by apply Hf.
  - intros i l Hi. rewrite (update_from_at ls 0 _ i l) by done. simpl.
    destruct (Ho l) as (o & -> & Hu); [by eapply list_elem_of_lookup_2|]. simpl.
    eexists. split; [done|]. split; [apply decorate_index | by apply decorate_usable].
Qed.

(** [update] leaves every field but its own. *)
Lemma update_frame p ls l k :
  pre_wf p ls -> k ∉ page_fields -> read (pg_heap (update p)) l k = read (pg_heap p) l k.
Proof.
  intros [Hl Hnd Hf Ho] Hk. unfold update, read. rewrite Hl. simpl.
  destruct (decide (l ∈ ls)) as [Hin|Hin]; [|by rewrite update_from_other].
  apply list_elem_of_lookup_1 in Hin as [i Hi]. rewrite (update_from_at ls 0 _ i l) by done.
  destruct (pg_heap p !! l); simpl; [|done]. by rewrite decorate_frame.
Qed.

Lemma wf_pre p ls : wf p ls -> pre_wf p ls.
Proof.
  intros [Hl Hnd Hf Ho]. split; [done..|]. intros l [i Hi]%list_elem_of_lookup_1.
  destruct (Ho i l Hi) as (o & ? & _ & ?). eauto.
Qed.

Lemma wf_read_index p ls i l :
  wf p ls -> ls !! i = Some l -> read (pg_heap p) l "index" = VInt (Z.of_nat i).
Proof.
  intros Hw Hi. destruct (wf_obj _ _ Hw i l Hi) as (o & E & Hx & _).
  unfold read. rewrite E. simpl. by rewrite Hx.
Qed.

(** A change of the heap that keeps every listed object usable. *)
Lemma pre_wf_heap p ls h :
  pre_wf p ls -> (forall l, pg_heap p !! l = None -> h !! l = None) ->
  (forall l o, pg_heap p !! l = Some o -> usable o = true -> exists o', h !! l = Some o' /\ usable o' = true) ->
  pre_wf (Page h (pg_endpoints p) (pg_next p)) ls.
Proof.
  intros [Hl Hnd Hf Ho] Hn Hs. split; simpl; [done | done | auto |].
  intros l Hin. destruct (Ho l Hin) as (o & E & Hu). eauto.
Qed.

Lemma alter_usable (h : gmap loc obj) l f x o :
  (forall o, usable o = true -> usable (f o) = true) ->
  h !! x = Some o -> usable o = true -> exists o', alter f l h !! x = Some o' /\ usable o' = true.
Proof.
  intros Hf E Hu. destruct (decide (x = l)) as [->|].
  - rewrite lookup_alter_eq, E. simpl. eauto.
  - rewrite lookup_alter_ne by done. eauto.
Qed.

Lemma pre_wf_alter p ls l f :
  (forall o, usable o = true -> usable (f o) = true) -> pre_wf p ls ->
  pre_wf (Page (alter f l (pg_heap p)) (pg_endpoints p) (pg_next p)) ls.
Proof.
  intros Hf Hp. apply pre_wf_heap; [done | | intros; by eapply alter_usable].
  intros x E. destruct (decide (x = l)) as [->|]; [rewrite lookup_alter_eq | rewrite lookup_alter_ne by done];
    by rewrite E.
Qed.

Lemma read_alter_index (h : gmap loc obj) l f x :
  (forall o, obj_get "index" (f o) = obj_get "index" o) ->
  read (alter f l h) x "index" = read h x "index".
Proof.
  intros Hf. unfold read. destruct (decide (x = l)) as [->|].
  - rewrite lookup_alter_eq. destruct (h !! l); simpl; [|done]. by rewrite Hf.
  - by rewrite lookup_alter_ne.
Qed.

(** Storing an endpoint whose index is -1 appends it, one whose index is [k]
    takes the place of the [k]-th. *)
Lemma store_new p ls l :
  pre_wf p ls -> l ∉ ls -> read (pg_heap p) l "index" = VInt (-1) ->
  (exists o, pg_heap p !! l = Some o /\ usable o = true) -> pre_wf (store l p) (ls ++ [l]).
Proof.
  intros [Hl Hnd Hf Ho] Hin Hx He. unfold store. rewrite Hx, js_lt_int. simpl. split; simpl.
  - by rewrite Hl, map_app.
  - apply list.NoDup_app. split; [done|]. split; [set_solver | apply NoDup_singleton].
  - done.
  - intros x [Hx'| ->%list_elem_of_singleton]%list.elem_of_app; auto.
Qed.

Lemma store_at p ls l k :
  pre_wf p ls -> k < length ls -> l ∉ ls \/ ls !! k = Some l ->
  read (pg_heap p) l "index" = VInt (Z.of_nat k) ->
  (exists o, pg_heap p !! l = Some o /\ usable o = true) -> pre_wf (store l p) (<[k := l]> ls).
Proof.
  intros [Hl Hnd Hf Ho] Hk Hin Hx He. unfold store. rewrite Hx, js_lt_int.
  rewrite (proj2 (Z.ltb_ge _ _)) by lia. rewrite Hl, assign_in_range by done.
  split; simpl; [done | | done |].
  - destruct Hin as [Hin|Hin]; [|by rewrite list_insert_id].
    rewrite insert_take_drop by done. rewrite <- (take_drop k ls) in Hnd, Hin.
    rewrite (drop_S _ (default l (ls !! k)) k) in Hnd, Hin
      by (by destruct (lookup_lt_is_Some_2 ls k Hk) as [y ->]).
    rewrite list.NoDup_app in *. destruct Hnd as (H1 & H2 & H3). apply list.NoDup_cons in H3 as [H3 H4].
    split; [done|]. split; [set_solver|]. apply list.NoDup_cons. set_solver.
  - intros x [j Hj]%list_elem_of_lookup_1. rewrite list_lookup_insert_Some in Hj.
    destruct Hj as [(-> & <- & _) | [_ Hj]]; [done|]. apply Ho. by eapply list_elem_of_lookup_2.
Qed.

Lemma alloc_pre p ls o :
  pre_wf p ls -> usable o = true ->
  pre_wf (snd (alloc p o)) ls /\ pg_next p ∉ ls /\ pg_heap (snd (alloc p o)) !! pg_next p = Some o.
Proof.
  intros [Hl Hnd Hf Ho] Hu.
  assert (pg_next p ∉ ls) as Hin.
  { intros Hin. destruct (Ho _ Hin) as (o' & E & _). by rewrite Hf in E by lia. }
  split; [|split; [done | apply lookup_insert_eq]]. split; simpl; [done | done | |].
  - intros l Hle. rewrite lookup_insert_ne by lia. apply Hf. lia.
  - intros l Hl'. rewrite lookup_insert_ne by (intros <-; done). auto.
Qed.

Lemma usable_set k v o : k <> "peers" -> usable (obj_set k v o) = usable o.
Proof. intros Hk. apply usable_peers. by apply obj_get_set_ne. Qed.

Lemma usable_prepare o : usable (prepare o) = usable o.
Proof. apply usable_peers, prepare_peers. Qed.

Lemma stored_new p ls l o :
  pre_wf p ls -> l ∉ ls -> pg_heap p !! l = Some o -> usable o = true ->
  obj_get "index" o = Some (VInt (-1)) -> pre_wf (store l (prepared l p)) (ls ++ [l]).
Proof.
  intros Hp Hl Ho Hu Hx. apply store_new; simpl.
  - apply pre_wf_alter; [|done]. intros o'. by rewrite usable_prepare.
  - done.
  - rewrite read_alter_index by apply prepare_index. unfold read. rewrite Ho. simpl. by rewrite Hx.
  - eapply alter_usable; [|done..]. intros o'. by rewrite usable_prepare.
Qed.

Lemma stored_at p ls l k o :
  pre_wf p ls -> k < length ls -> l ∉ ls \/ ls !! k = Some l ->
  pg_heap p !! l = Some o -> usable o = true ->
  obj_get "index" o = Some (VInt (Z.of_nat k)) -> pre_wf (store l (prepared l p)) (<[k := l]> ls).
Proof.
  intros Hp Hk Hl Ho Hu Hx. apply store_at; simpl.
  - apply pre_wf_alter; [|done]. intros o'. by rewrite usable_prepare.
  - done.
  - done.
  - rewrite read_alter_index by apply prepare_index. unfold read. rewrite Ho. simpl. by rewrite Hx.
  - eapply alter_usable; [|done..]. intros o'. by rewrite usable_prepare.
Qed.

Lemma submit_new_stored p ls o :
  wf p ls -> obj_get "index" o = Some (VInt (-1)) -> usable o = true ->
  pre_wf (store (pg_next p) (prepared (pg_next p) (snd (alloc p o)))) (ls ++ [pg_next p]).
Proof.
  intros Hw Hx Hu. destruct (alloc_pre p ls _ (wf_pre _ _ Hw) Hu) as (Hp & Hin & Ho).
  by eapply stored_new.
Qed.

Lemma submit_new_wf p ls o :
  wf p ls -> obj_get "index" o = Some (VInt (-1)) -> usable o = true ->
  wf (submit_object o p) (ls ++ [pg_next p]).
Proof. intros Hw Hx Hu. by apply update_wf, submit_new_stored. Qed.

Lemma submit_other_wf p ls o k :
  wf p ls -> obj_get "index" o = Some (VInt (Z.of_nat k)) -> usable o = true -> k < length ls ->
  wf (submit_object o p) (<[k := pg_next p]> ls).
Proof.
  intros Hw Hx Hu Hk. destruct (alloc_pre p ls _ (wf_pre _ _ Hw) Hu) as (Hp & Hin & Ho).
  unfold submit_object. simpl. eapply update_wf, stored_at; [exact Hp | done | by left | exact Ho | done..].
Qed.

(** An endpoint of the list whose data change, not its index. *)
Lemma edited_stored p ls k l f :
  wf p ls -> ls !! k = Some l ->
  (forall o, obj_get "index" (f o) = obj_get "index" o) ->
  (forall o, usable o = true -> usable (f o) = true) ->
  pre_wf (store l (prepared l (Page (alter f l (pg_heap p)) (pg_endpoints p) (pg_next p)))) ls.
Proof.
  intros Hw Hk Hi Hf. destruct (wf_obj _ _ Hw k l Hk) as (o & Ho & Hx & Hu).
  rewrite <- (list_insert_id ls k l Hk).
  eapply (stored_at _ ls l k (f o)).
  - apply pre_wf_alter; [done | by apply wf_pre].
  - by eapply lookup_lt_Some.
  - by right.
  - simpl. by rewrite lookup_alter_eq, Ho.
  - auto.
  - by rewrite Hi.
Qed.

Lemma edited_wf p ls k l f :
  wf p ls -> ls !! k = Some l ->
  (forall o, obj_get "index" (f o) = obj_get "index" o) ->
  (forall o, usable o = true -> usable (f o) = true) ->
  wf (updateEndpoint l (Page (alter f l (pg_heap p)) (pg_endpoints p) (pg_next p))) ls.
Proof. intros. by eapply update_wf, edited_stored. Qed.

Lemma submit_edit_stored p ls k l fs :
  wf p ls -> ls !! k = Some l -> (forall f, f ∈ page_fields -> f ∉ names fs) ->
  pre_wf (store l (prepared l (Page (write_all (pg_heap p) l fs) (pg_endpoints p) (pg_next p)))) ls.
Proof.
  intros Hw Hk Hfs. rewrite write_all_alter. eapply edited_stored; [done | done | |].
  - intros o. apply obj_get_set_all_frame, Hfs. set_solver.
  - intros o Hu. rewrite <- Hu. apply usable_peers, obj_get_set_all_frame, Hfs. set_solver.
Qed.

Lemma submit_edit_wf p ls k l fs :
  wf p ls -> ls !! k = Some l -> (forall f, f ∈ page_fields -> f ∉ names fs) ->
  wf (submit_edit l fs p) ls.
Proof. intros. by eapply update_wf, submit_edit_stored. Qed.

Lemma deleteEndpoint_wf p ls k : pre_wf p ls -> wf (deleteEndpoint (Z.of_nat k) p) (splice1 k ls).
Proof.
  intros [Hl Hnd Hf Ho]. unfold deleteEndpoint. rewrite splice_nat, Hl, splice1_map.
  apply update_wf. split; simpl; [done | by apply splice1_NoDup | done |].
  intros x Hx. apply Ho. eapply elem_of_sublist; [exact Hx|].
  apply splice1_sublist.
Qed.

Lemma delete_clicked_wf p ls k l :
  wf p ls -> ls !! k = Some l -> wf (delete_clicked l p) (splice1 k ls).
Proof.
  intros Hw Hk. unfold delete_clicked. rewrite (wf_read_index p ls k l) by done.
  apply update_wf, wf_pre, deleteEndpoint_wf. by apply wf_pre.
Qed.

Lemma forallb_splice1 {A} (f : A -> bool) k l : forallb f l = true -> forallb f (splice1 k l) = true.
Proof.
  rewrite !forallb_forall. intros Hf x Hx. apply Hf. apply list_elem_of_In in Hx. apply list_elem_of_In.
  eapply elem_of_sublist; [exact Hx | apply splice1_sublist].
Qed.

Lemma wf_peers p ls k l ps :
  wf p ls -> ls !! k = Some l -> read (pg_heap p) l "peers" = VArr ps ->
  forallb is_object_literal ps = true.
Proof.
  intros Hw Hk E. destruct (wf_obj _ _ Hw k l Hk) as (o & Ho & _ & Hu).
  unfold read in E. rewrite Ho in E. simpl in E. unfold usable in Hu.
  destruct (obj_get "peers" o) as [[]|]; simpl in *; by simplify_eq.
Qed.

Lemma usable_set_peers ps o :
  forallb is_object_literal ps = true -> usable (obj_set "peers" (VArr ps) o) = true.
Proof. intros Hp. unfold usable. by rewrite obj_get_set_eq. Qed.

Lemma addPeering_wf p ls k l q p' :
  wf p ls -> ls !! k = Some l -> is_object_literal q = true -> addPeering l q p = Ok p' -> wf p' ls.
Proof.
  intros Hw Hk Hq. unfold addPeering.
  destruct (read (pg_heap p) l "peers") as [| | | | |ps|] eqn:E; try done. intros [= <-].
  apply update_wf, wf_pre. eapply edited_wf; [done | done | |].
  - intros o. by apply obj_get_set_ne.
  - intros o _. apply usable_set_peers. rewrite forallb_app, (wf_peers _ _ _ _ _ Hw Hk E). simpl. by rewrite Hq.
Qed.

Lemma wf_lookup p ls k l : wf p ls -> pg_endpoints p !! k = Some (Some l) -> ls !! k = Some l.
Proof.
  intros Hw. rewrite (wf_list _ _ Hw). intros H1. apply (list_lookup_fmap_Some_1 Some) in H1 as (x & E & Hx).
  by simplify_eq.
Qed.

Lemma delete_peering_wf p ls i j p' : wf p ls -> delete_peering_clicked i j p = Ok p' -> wf p' ls.
Proof.
  intros Hw. unfold delete_peering_clicked, deletePeering.
  destruct (pg_endpoints p !! i) as [[l|]|] eqn:Hi; try done.
  apply (wf_lookup _ _ _ _ Hw) in Hi.
  destruct (read (pg_heap p) l "peers") as [| | | | |ps|] eqn:E; try done. intros [= <-].
  apply update_wf, pre_wf_alter; [|by apply wf_pre]. intros o _. apply usable_set_peers.
  rewrite splice_nat. apply forallb_splice1. by eapply wf_peers.
Qed.

(** Fields of an endpoint that the list does not manage. *)
Lemma fields_wf p ls k l fs :
  wf p ls -> ls !! k = Some l -> (forall f, f ∈ page_fields -> f ∉ names fs) ->
  wf (Page (write_all (pg_heap p) l fs) (pg_endpoints p) (pg_next p)) ls.
Proof.
  intros [Hl Hnd Hf Ho] Hk Hfs. rewrite write_all_alter. split; cbn [pg_endpoints pg_heap pg_next]; [done|done| |].
  - intros x Hx. destruct (decide (x = l)) as [->|Hne]; [by rewrite lookup_alter_eq, Hf|by rewrite lookup_alter_ne, Hf].
  - intros i x Hx. destruct (Ho i x Hx) as (o & Hox & Hi & Hu). destruct (decide (x = l)) as [->|Hne].
    + exists (obj_set_all o fs). rewrite lookup_alter_eq, Hox. split; [done|].
      rewrite obj_get_set_all_frame by (apply Hfs; set_solver). split; [done|].
      rewrite <-Hu. apply usable_peers. rewrite obj_get_set_all_frame; [done|]. apply Hfs. set_solver.
    + exists o. by rewrite lookup_alter_ne.
Qed.

Lemma step_wf p ls p' : wf p ls -> step p p' -> exists ls', wf p' ls'.
Proof.
  intros Hw Hs. destruct Hs.
  - eexists. by apply submit_new_wf.
  - eexists. eapply submit_edit_wf; [done | by eapply wf_lookup | done].
  - eexists. eapply submit_other_wf; [done | done | done |]. rewrite (wf_list _ _ Hw) in *. by rewrite length_map in *.
  - eexists. eapply delete_clicked_wf; [done | by eapply wf_lookup].
  - eexists. eapply addPeering_wf; [done | by eapply wf_lookup | done | done].
  - eexists. by eapply delete_peering_wf.
  - eexists. eapply fields_wf; [done | by eapply wf_lookup | done].
Qed.

Lemma load_pre os p ls :
  pre_wf p ls -> Forall (fun o => usable o = true) os ->
  exists ls', pre_wf (foldl (fun p o => let '(l, p1) := alloc p o in
                            Page (pg_heap p1) (pg_endpoints p1 ++ [Some l]) (pg_next p1)) p os) ls'.
Proof.
  intros Hp Hos. revert p ls Hp. induction Hos as [|o os Hu _ IH]; intros p ls Hp; simpl; [eauto|].
  apply (IH _ (ls ++ [pg_next p])).
  destruct (alloc_pre p ls o Hp Hu) as ([Hl Hnd Hf Ho] & Hin & E). split; simpl in *.
  - by rewrite Hl, map_app.
  - apply list.NoDup_app. split; [done|]. split; [set_solver | apply NoDup_singleton].
  - done.
  - intros x [Hx| ->%list_elem_of_singleton]%list.elem_of_app; eauto.
Qed.

Lemma reachable_wf os p :
  Forall (fun o => usable o = true) os -> reachable os p -> exists ls, wf p ls.
Proof.
  intros Hos. induction 1 as [|p p' _ (ls & Hw) Hs].
  - destruct (load_pre os empty_page []) as (ls & Hp); [|done|].
    { split; simpl; [done | constructor | done | set_solver]. }
    exists ls. unfold load. by apply update_wf.
  - by eapply step_wf.
Qed.










End laws.

(** ** The four pages *)

Lemma decorate_peers_ok editable auto i j ps :
  forallb is_object_literal ps = true ->
  snd (decorate_peers editable auto i j ps) = true /\
  forallb is_object_literal (fst (decorate_peers editable auto i j ps)) = true.
Proof.
  revert j. induction ps as [|p ps IH]; intros j Hps; [done|].
  cbn [forallb] in Hps. apply andb_true_iff in Hps as [Hp Hps]. destruct p; try done.
  cbn [decorate_peers decorate_peer]. destruct (IH (S j) Hps) as [H1 H2].
  by destruct (decorate_peers editable auto i (S j) ps).
Qed.

(** The endpoint of a layer 3 page before its peerings are visited. *)
Definition l3_base (editable : val) (i : nat) (e : obj) : obj :=
  let e := obj_set "index" (VInt (Z.of_nat i)) e in
  let e := obj_set "peers" (default (VArr []) (obj_get "peers" e)) e in
  let e := obj_set "editable" editable e in
  obj_set "isPeeringAutoGenerated" (auto_generated e) e.

Lemma l3_base_peers editable i e :
  obj_get "peers" (l3_base editable i e) = Some (default (VArr []) (obj_get "peers" e)).
Proof.
  unfold l3_base. rewrite !(obj_get_set_ne "peers" "isPeeringAutoGenerated"), !(obj_get_set_ne "peers" "editable"),
    obj_get_set_eq, (obj_get_set_ne "peers" "index") by done. done.
Qed.

Lemma l3_base_index editable i e : obj_get "index" (l3_base editable i e) = Some (VInt (Z.of_nat i)).
Proof. unfold l3_base. by rewrite 3!obj_get_set_ne, obj_get_set_eq by done. Qed.

Lemma l3_decorate_base editable i e :
  l3_decorate editable i e =
  match default (VArr []) (obj_get "peers" e) with
  | VArr ps => let '(qs, ok) := decorate_peers editable (auto_generated (l3_base editable i e)) i 0 ps in
               (obj_set "peers" (VArr qs) (l3_base editable i e), ok)
  | _ => (l3_base editable i e, false)
  end.
Proof.
  unfold l3_decorate. change (obj_set "isPeeringAutoGenerated" _ _) with (l3_base editable i e).
  rewrite l3_base_peers. by destruct (default _ _).
Qed.

Lemma l3_decorate_usable editable i e :
  usable e = true ->
  snd (l3_decorate editable i e) = true /\ usable (fst (l3_decorate editable i e)) = true.
Proof.
  intros Hu. rewrite l3_decorate_base. unfold usable in Hu.
  assert (exists ps, default (VArr []) (obj_get "peers" e) = VArr ps /\ forallb is_object_literal ps = true)
    as (ps & -> & Hps).
  { destruct (obj_get "peers" e) as [[]|]; try done; simpl; eauto. }
  destruct (decorate_peers_ok editable (auto_generated (l3_base editable i e)) i 0 ps Hps) as [H1 H2].
  destruct (decorate_peers _ _ _ _ _) as [qs ok]. simpl in *. split; [done | by apply usable_set_peers].
Qed.

Lemma l3_decorate_index editable i e :
  obj_get "index" (fst (l3_decorate editable i e)) = Some (VInt (Z.of_nat i)).
Proof.
  rewrite l3_decorate_base. pose proof (l3_base_index editable i e).
  destruct (default _ _); try done. destruct (decorate_peers _ _ _ _ _). simpl.
  by rewrite obj_get_set_ne.
Qed.

Lemma l3_decorate_frame editable i e k :
  k ∉ page_fields -> obj_get k (fst (l3_decorate editable i e)) = obj_get k e.
Proof.
  intros Hk. rewrite l3_decorate_base. unfold page_fields in Hk.
  assert (obj_get k (l3_base editable i e) = obj_get k e).
  { unfold l3_base. rewrite 4!obj_get_set_ne by set_solver. done. }
  destruct (default _ _); try done. destruct (decorate_peers _ _ _ _ _). simpl.
  rewrite obj_get_set_ne by set_solver. done.
Qed.

Lemma l2_decorate_usable editable i e :
  usable e = true -> usable (fst (l2_decorate editable i e)) = true.
Proof. intros H. simpl. by rewrite !usable_set. Qed.

Lemma l2_decorate_index editable i e :
  obj_get "index" (fst (l2_decorate editable i e)) = Some (VInt (Z.of_nat i)).
Proof. simpl. by rewrite obj_get_set_ne, obj_get_set_eq. Qed.

Lemma l2_decorate_frame editable i e k :
  k ∉ page_fields -> obj_get k (fst (l2_decorate editable i e)) = obj_get k e.
Proof. unfold page_fields. intros Hk. simpl. rewrite !obj_get_set_ne by set_solver. done. Qed.

Lemma l2_modify_prepare_frame k e :
  k <> "interface" -> k <> "interface_description" -> obj_get k (l2_modify_prepare e) = obj_get k e.
Proof. intros H1 H2. unfold l2_modify_prepare. by rewrite !obj_get_set_ne. Qed.

Definition provision_l2vpn : EndpointPage := {|
  prepare e := e;
  decorate := l2_decorate (VBool true);
  prepare_index _ := eq_refl;
  prepare_peers _ := eq_refl;
  decorate_ok _ _ _ := eq_refl;
  decorate_index := l2_decorate_index _;
  decorate_usable := l2_decorate_usable _;
  decorate_frame := l2_decorate_frame _
|}.

Definition modify_l2vpn (editable : val) : EndpointPage := {|
  prepare := l2_modify_prepare;
  decorate := l2_decorate editable;
  prepare_index e := l2_modify_prepare_frame "index" e ltac:(done) ltac:(done);
  prepare_peers e := l2_modify_prepare_frame "peers" e ltac:(done) ltac:(done);
  decorate_ok _ _ _ := eq_refl;
  decorate_index := l2_decorate_index _;
  decorate_usable := l2_decorate_usable _;
  decorate_frame := l2_decorate_frame _
|}.

Definition l3_page (editable : val) : EndpointPage := {|
  prepare e := e;
  decorate := l3_decorate editable;
  prepare_index _ := eq_refl;
  prepare_peers _ := eq_refl;
  decorate_ok i e H := proj1 (l3_decorate_usable editable i e H);
  decorate_index := l3_decorate_index _;
  decorate_usable i e H := proj2 (l3_decorate_usable editable i e H);
  decorate_frame := l3_decorate_frame _
|}.

Definition provision_cloud : EndpointPage := l3_page (VBool true).
Definition modify_cloud (editable : val) : EndpointPage := l3_page editable.

(** ** Properties *)


Definition sample_page_endpoint (n : string) (ps : list val) : obj :=
  [("node", VStr n); ("tag", VInt 100); ("cloud_interconnect_type", VNull); ("peers", VArr ps)].

Definition sample_load : list obj :=
  [sample_page_endpoint "a" []; sample_page_endpoint "b" [VObj [("ip_version", VStr "ipv4")]];
   sample_page_endpoint "c" []].

(** Picking another entity for the last endpoint, and submitting it when it arrived. *)
Definition picked_entity (i : Z) : obj := [("index", VInt i); ("name", VStr "e")].


(** A user who does not wait can leave a hole: a form for the last of three endpoints
    arrives, an entity is picked and arrives, the dialog is cancelled and two endpoints
    are deleted; then the dialog is opened for the one left, and its button, which is
    still that of the entity, is pressed before the new form arrives. *)
Lemma stale_form_leaves_hole :
  exists d p, @ui_reachable provision_cloud false sample_load (d, p) /\ pg_endpoints p = [Some 0; None; Some 3].
Proof.
  eexists _, _. split.
  - eapply ui_next; [eapply ui_next; [eapply ui_next; [eapply ui_next; [eapply ui_next; [eapply ui_next; [eapply ui_next;
      [eapply ui_next; [eapply ui_next; [apply ui_load|]|]|]|]|]|]|]|]|].
    + by apply (@ui_open_edit provision_cloud false 2 2 2).
    + apply (@ui_entity_arrives provision_cloud false 0). by constructor.
    + by apply (@ui_pick provision_cloud false 0 (Form (TEndpoint 2) 2)).
    + apply (@ui_entity_arrives provision_cloud false 1). by constructor.
    + apply ui_cancel.
    + apply ui_list; [done|]. by apply (@list_delete provision_cloud 2 2).
    + apply ui_list; [done|]. by apply (@list_delete provision_cloud 1 1).
    + by apply (@ui_open_edit provision_cloud false 0 0 0).
    + by apply (@ui_entity_object provision_cloud false 1 (Form TEntity 2) (picked_entity 2)).
  - vm_compute. reflexivity.
Qed.

(** C10 The delete button of the endpoint at position [k] removes exactly that
    endpoint: the others stay in order, and keep every field that the list
    does not manage. *)
Theorem delete_exact `{EndpointPage} os p k l :
  Forall (fun o => usable o = true) os -> reachable os p -> pg_endpoints p !! k = Some (Some l) ->
  pg_endpoints (delete_clicked l p) = splice1 k (pg_endpoints p) /\
  forall x f, f ∉ page_fields ->
    read (pg_heap (delete_clicked l p)) x f = read (pg_heap p) x f.
Proof.
  intros Hos Hr Hk. destruct (reachable_wf os p Hos Hr) as (ls & Hw).
  pose proof (wf_lookup _ _ _ _ Hw Hk) as Hl.
  pose proof (deleteEndpoint_wf p ls k (wf_pre _ _ Hw)) as Hd.
  split.
  - rewrite (wf_list _ _ (delete_clicked_wf _ _ _ _ Hw Hl)), (wf_list _ _ Hw). symmetry. apply splice1_map.
  - intros x f Hf. unfold delete_clicked. rewrite (wf_read_index p ls k l) by done.
    rewrite (update_frame _ _ _ _ (wf_pre _ _ Hd) Hf). unfold deleteEndpoint.
    rewrite (update_frame _ (splice1 k ls) _ _); [done| |done].
    rewrite splice_nat, (wf_list _ _ Hw), splice1_map.
    destruct (wf_pre _ _ Hw) as [_ Hnd Hfr Ho].
    split; simpl; [done | by apply splice1_NoDup | done |].
    intros y Hy. apply Ho. eapply elem_of_sublist; [exact Hy | apply splice1_sublist].
Qed.

Lemma delete_exact_witness :
  pg_endpoints (@delete_clicked provision_cloud 1 (@load provision_cloud sample_load)) = [Some 0; Some 2] /\
  read (pg_heap (@delete_clicked provision_cloud 1 (@load provision_cloud sample_load))) 2 "node" = VStr "c".
Proof.
  destruct (@delete_exact provision_cloud sample_load (@load provision_cloud sample_load) 1 1) as [H1 H2].
  - repeat constructor.
  - apply reach_load.
  - reflexivity.
  - split; [exact H1|]. rewrite H2 by by apply (bool_decide_unpack _). reflexivity.
Defined.

Lemma read_alter_other h l g x f : x <> l -> read (alter g l h) x f = read h x f.
Proof. intros Hx. unfold read. by rewrite lookup_alter_ne. Qed.

(** C9 Submitting a dialog changes what it should and nothing else.  A new
    endpoint goes to the end of the list with the submitted fields; an edited
    one stays where it is and gets the submitted fields; in both cases every
    other endpoint keeps every field that the list does not manage. *)
Theorem submit_exact `{EndpointPage} os p :
  Forall (fun o => usable o = true) os -> reachable os p ->
  (forall o, obj_get "index" o = Some (VInt (-1)) -> usable o = true ->
     pg_endpoints (submit_object o p) = pg_endpoints p ++ [Some (pg_next p)] /\
     (forall f, f ∉ page_fields -> read (pg_heap (submit_object o p)) (pg_next p) f
        = default VUndef (obj_get f (prepare o))) /\
     forall x f, x <> pg_next p -> f ∉ page_fields ->
       read (pg_heap (submit_object o p)) x f = read (pg_heap p) x f) /\
  (forall k l o fs, pg_endpoints p !! k = Some (Some l) -> pg_heap p !! l = Some o ->
     (forall f, f ∈ page_fields -> f ∉ names fs) ->
     pg_endpoints (submit_edit l fs p) = pg_endpoints p /\
     (forall f, f ∉ page_fields -> read (pg_heap (submit_edit l fs p)) l f
        = default VUndef (obj_get f (prepare (obj_set_all o fs)))) /\
     forall x f, x <> l -> f ∉ page_fields ->
       read (pg_heap (submit_edit l fs p)) x f = read (pg_heap p) x f).
Proof.
  intros Hos Hr. destruct (reachable_wf os p Hos Hr) as (ls & Hw). split.
  - intros o Hi Hu. pose proof (submit_new_stored p ls o Hw Hi Hu) as Hp. split_and!.
    + by rewrite (wf_list _ _ (submit_new_wf p ls o Hw Hi Hu)), map_app, (wf_list _ _ Hw).
    + intros f Hf. unfold submit_object, updateEndpoint. cbn [alloc].
      rewrite (update_frame _ _ _ _ Hp Hf). unfold read. simpl.
      by rewrite lookup_alter_eq, lookup_insert_eq.
    + intros x f Hx Hf. unfold submit_object, updateEndpoint. cbn [alloc].
      rewrite (update_frame _ _ _ _ Hp Hf). simpl. rewrite read_alter_other by done.
      unfold read. by rewrite lookup_insert_ne.
  - intros k l o fs Hk Ho Hfs. apply (wf_lookup _ _ _ _ Hw) in Hk.
    pose proof (submit_edit_stored p ls k l fs Hw Hk Hfs) as Hp. split_and!.
    + by rewrite (wf_list _ _ (submit_edit_wf p ls k l fs Hw Hk Hfs)), (wf_list _ _ Hw).
    + intros f Hf. unfold submit_edit, updateEndpoint. rewrite (update_frame _ _ _ _ Hp Hf). simpl.
      rewrite write_all_alter. unfold read. by rewrite !lookup_alter_eq, Ho.
    + intros x f Hx Hf. unfold submit_edit, updateEndpoint. rewrite (update_frame _ _ _ _ Hp Hf). simpl.
      by rewrite write_all_alter, !read_alter_other.
Qed.

Lemma submit_exact_witness :
  read (pg_heap (@submit_edit (modify_l2vpn (VBool true)) 1 [("tag", VStr "7")]
                   (@load (modify_l2vpn (VBool true)) sample_load))) 1 "tag" = VStr "7" /\
  pg_endpoints (@submit_object (modify_l2vpn (VBool true)) [("index", VInt (-1))] (@load (modify_l2vpn (VBool true)) sample_load))
  = [Some 0; Some 1; Some 2; Some 3].
Proof.
  destruct (@submit_exact (modify_l2vpn (VBool true)) sample_load
              (@load (modify_l2vpn (VBool true)) sample_load)) as [H1 H2].
  - repeat constructor.
  - apply reach_load.
  - split.
    + edestruct (H2 1 1) as (_ & H3 & _); [reflexivity | reflexivity | |].
      2: { rewrite H3 by by apply (bool_decide_unpack _). reflexivity. }
      intros f Hf Ht. apply list_elem_of_singleton in Ht as ->. by apply (bool_decide_pack _) in Hf.
    + destruct (H1 [("index", VInt (-1))]) as (H3 & _); [reflexivity | reflexivity | exact H3].
Defined.
