(* ===== verification/Views.v ===== *)
(** * What the connection pages show

    The rendering of the endpoints and peerings of a connection (l2/endpoint.js,
    l3/endpoint.js, l3/peering.js and the loops of provision_cloud.js and
    modify_cloud.js), and what modify_cloud.js and l2/circuit.js show of a loaded
    connection: the statistics frames and the history.

    The list of the page is a list of cards, one for each [Endpoint2], each with the
    rows of its peerings; elements are found again by their position among the
    elements of a class, as [querySelectorAll] does.  A row's button holds the
    handlers that were added to it.  The loop of [update] here renders while it
    writes on the endpoints; the writes are those of [Pages]. *)

From Stdlib Require Import ZArith Lia Ascii String.
From stdpp Require Import base option list gmap sets strings numbers tactics.
From S2P Require Import Prelude JsValue JsJson Api Pages.

(** ** Cards and rows *)

Definition get (k : string) (e : obj) : val := default VUndef (obj_get k e).

(** [element.innerHTML = v] *)
Definition html (v : val) : string := match v with VNull => estr | _ => to_string v end.

Record peer_row := PeerRow {
  pr_state : string;
  pr_ip_version : string;
  pr_peer_asn : string;
  pr_peer_ip : string;
  pr_key : string;
  pr_oess_ip : string;
  pr_bfd : string;
  pr_delete : bool;
  pr_handlers : list (nat * nat)
}.

(** The constructor of [Peering2]. *)
Definition Peering2 (peering : obj) : peer_row :=
  let state := get "operational_state" peering in
  let key := if truthy (get "isPeeringAutoGenerated" peering) then VStr "*****" else get "md5_key" peering in
  PeerRow
    (if strict_eq state (VStr "up") then "glyphicon-circle-arrow-up"
     else if strict_eq state (VStr "down") then "glyphicon-circle-arrow-down" else "glyphicon-question-sign")
    (if loose_eq (get "ip_version" peering) (VStr "ipv4") then "IPv4" else "IPv6")
    (html (get "peer_asn" peering)) (html (get "peer_ip" peering))
    (html (if strict_eq key VNull || strict_eq key (VStr estr) then VStr "(unauthenticated)" else key))
    (html (get "local_ip" peering))
    (if truthy (get "bfd" peering) then "enabled" else "disabled")
    (truthy (get "editable" peering)) [].

Record card := Card {
  cd_endpoint : loc;
  cd_in_review : bool;
  cd_entity : string;
  cd_node : string;
  cd_interface : string;
  cd_description : string;
  cd_tag : string;
  cd_inner_tag : string;
  cd_bandwidth : string;
  cd_mtu : string;
  cd_qnq : bool;
  cd_buttons : bool;
  cd_rows : list peer_row
}.

(** The constructor of [Endpoint2]; the handlers of its buttons refer to the
    endpoint at [l]. *)
Definition Endpoint2 (l : loc) (e : obj) : card :=
  Card l (loose_eq (get "state" e) (VStr "in-review"))
    (html (js_or (get "entity" e) (VStr "NA"))) (html (get "node" e)) (html (get "interface" e))
    (html (get "description" e)) (html (get "tag" e)) (html (js_or (get "inner_tag" e) VNull))
    (if loose_eq (get "bandwidth" e) VNull || loose_eq (get "bandwidth" e) (VInt 0) then "Unlimited"
     else to_string (get "bandwidth" e) +:+ " Mb/s")
    (match obj_get "mtu" e with
     | Some v => html v
     | None => if truthy (get "jumbo" e) then "Jumbo" else "Standard"
     end)
    (negb (strict_eq (get "inner_tag" e) VUndef || strict_eq (get "inner_tag" e) VNull
           || strict_eq (get "inner_tag" e) (VStr estr)))
    (truthy (get "editable" e)) [].

(** [NewEndpoint] of l2/endpoint.js: the same card, and the address of a graph. *)
Definition NewEndpoint (g_l2_port : string) (l : loc) (e : obj) : card * string :=
  (Endpoint2 l e,
   g_l2_port +:+ "&from=now-1h&to=now&var-node=" +:+ to_string (get "node" e) +:+ "&var-interface="
     +:+ to_string (get "interface" e) +:+ "." +:+ to_string (get "tag" e) +:+ "&refresh=30s").

Definition with_rows (rows : list peer_row) (c : card) : card :=
  Card (cd_endpoint c) (cd_in_review c) (cd_entity c) (cd_node c) (cd_interface c) (cd_description c) (cd_tag c)
    (cd_inner_tag c) (cd_bandwidth c) (cd_mtu c) (cd_qnq c) (cd_buttons c) rows.

Definition add_handler (h : nat * nat) (r : peer_row) : peer_row :=
  PeerRow (pr_state r) (pr_ip_version r) (pr_peer_asn r) (pr_peer_ip r) (pr_key r) (pr_oess_ip r) (pr_bfd r)
    (pr_delete r) (pr_handlers r ++ [h]).

(** ** The loops of update *)

(** [new Peering2(endpoint.peerings(), p)] and [onDelete]: the card and the button are
    looked up by the positions the endpoint and the peering carry; looking one up
    that is not there throws. *)
Definition show_peer (i j : nat) (p : val) (cards : list card) : list card * bool :=
  match cards !! i with
  | None => (cards, false)
  | Some c =>
      let rows := cd_rows c ++ [Peering2 (match p with VObj o => o | _ => [] end)] in
      match (match p with VObj _ => rows !! j | _ => None end) with
      | None => (<[i := with_rows rows c]> cards, false)
      | Some r => (<[i := with_rows (<[j := add_handler (i, j) r]> rows) c]> cards, true)
      end
  end.

Fixpoint view_peers (editable auto : val) (i j : nat) (ps : list val) (cards : list card)
    : list val * list card * bool :=
  match ps with
  | [] => ([], cards, true)
  | p :: ps' =>
      match decorate_peer editable auto i j p with
      | None => (p :: ps', cards, false)
      | Some q =>
          let '(cards1, ok) := show_peer i j q cards in
          if ok then
            let '(qs, cards2, ok) := view_peers editable auto i (S j) ps' cards1 in (q :: qs, cards2, ok)
          else (q :: ps', cards1, false)
      end
  end.

(** The body of the loop over the endpoints, for the endpoint [e] at [l]. *)
Definition view_endpoint (editable : val) (i : nat) (l : loc) (e : obj) (cards : list card)
    : obj * list card * bool :=
  let e := l3_base editable i e in
  let cards := cards ++ [Endpoint2 l e] in
  match get "peers" e with
  | VArr ps =>
      let '(qs, cards, ok) := view_peers editable (auto_generated e) i 0 ps cards in
      (obj_set "peers" (VArr qs) e, cards, ok)
  | _ => (e, cards, false)
  end.

Fixpoint view_from (editable : val) (i : nat) (a : list (option loc)) (h : gmap loc obj) (cards : list card)
    : gmap loc obj * list card * bool :=
  match a with
  | [] => (h, cards, true)
  | None :: a' => view_from editable (S i) a' h cards
  | Some l :: a' =>
      match h !! l with
      | None => (h, cards, false)
      | Some e =>
          let '(e', cards', ok) := view_endpoint editable i l e cards in
          if ok then view_from editable (S i) a' (<[l := e']> h) cards' else (<[l := e']> h, cards', false)
      end
  end.

(** [update()] of the layer 3 pages: [list.innerHTML = ''] and the loop. *)
Definition update_view (editable : val) (p : page) : gmap loc obj * list card * bool :=
  view_from editable 0 (pg_endpoints p) (pg_heap p) [].

(** ** What is rendered *)
















(** A key the provider generated is not shown. *)
Lemma generated_key_hidden editable i j o q :
  decorate_peer editable (VBool true) i j (VObj o) = Some (VObj q) -> pr_key (Peering2 q) = "*****".
Proof. intros [= <-]. unfold Peering2, get. cbn [pr_key]. by rewrite obj_get_set_eq. Qed.


(** The hole that a stale form leaves ([stale_form_leaves_hole]) breaks the rendering:
    the card of the endpoint after it is looked up by position and is not there. *)
Lemma hole_breaks_rendering :
  snd (update_view (VBool true)
         (Page (<[0 := sample_page_endpoint "a" []]> {[ 3 := sample_page_endpoint "e" [VObj [("ip_version", VStr "ipv4")]] ]})
            [Some 0; None; Some 3] 4)) = false.
Proof. vm_compute. reflexivity. Qed.

(** ** The statistics of a layer 3 connection (modify_cloud.js) *)

(** A frame of one endpoint with its data attributes and the addresses of its two
    graphs. *)
Record frame := Frame {
  fr_shown : bool;
  fr_node : string;
  fr_interface : string;
  fr_unit : string;
  fr_controller : string;
  fr_vrf : string;
  fr_port : option string;
  fr_peer : option string
}.

(** The list of the peers of one endpoint: its first option is selected until the
    user chooses. *)
Record peers_list := PeersList { pl_shown : bool; pl_options : list string; pl_value : string }.

(** The frames and lists of the endpoints, in order; the list of endpoints, by its
    value; and the value of the list of time ranges. *)
Record stats := Stats {
  st_frames : list frame;
  st_peers : list peers_list;
  st_options : list string;
  st_value : string;
  st_range : string
}.


Section statistics.
Context (g_port g_peer : string).


(** The element with the identifier [prefix + value], among those numbered from 0. *)
Definition position_of (value : string) (n : nat) : option nat :=
  match array_index value with
  | Some k => if Nat.ltb (N.to_nat k) n then Some (N.to_nat k) else None
  | None => None
  end.

Definition with_addresses (peer range : string) (f : frame) : frame :=
  let nso := String.eqb (fr_controller f) "nso" in
  Frame (fr_shown f) (fr_node f) (fr_interface f) (fr_unit f) (fr_controller f) (fr_vrf f)
    (Some (g_port +:+ "&var-node=" +:+ fr_node f +:+ "&var-interface=" +:+ fr_interface f +:+ "." +:+ fr_unit f +:+ range))
    (Some (g_peer +:+ "&var-node=" +:+ fr_node f +:+
           (if nso then "&var-vrf=OESS-VRF-" else "&var-vrf=OESS-L3VPN-") +:+ fr_vrf f +:+ "&var-peer=" +:+
           (if nso then default estr (head (split_on "/" peer)) else peer) +:+ range)).

Definition updateStatisticsIFrame (s : stats) : res stats :=
  match position_of (st_value s) (length (st_frames s)) with
  | None => Err EType
  | Some k =>
      match st_peers s !! k with
      | None => Err EType
      | Some pl => Ok (Stats (alter (with_addresses (pl_value pl) (st_range s)) k (st_frames s)) (st_peers s)
                         (st_options s) (st_value s) (st_range s))
      end
  end.

Definition show_frame (b : bool) (f : frame) : frame :=
  Frame b (fr_node f) (fr_interface f) (fr_unit f) (fr_controller f) (fr_vrf f) (fr_port f) (fr_peer f).
Definition show_peers (b : bool) (p : peers_list) : peers_list := PeersList b (pl_options p) (pl_value p).

(** All frames and lists are hidden, then those of the selected endpoint are shown;
    looking up an element that is not there throws. *)
Definition displayStatisticsIFrame (s : stats) : res stats :=
  let frames := map (show_frame false) (st_frames s) in
  let peers := map (show_peers false) (st_peers s) in
  match position_of (st_value s) (length frames) with
  | None => Err EType
  | Some k =>
      if Nat.ltb k (length peers)
      then updateStatisticsIFrame (Stats (alter (show_frame true) k frames) (alter (show_peers true) k peers)
                                     (st_options s) (st_value s) (st_range s))
      else Err EType
  end.

(** The body of the loop of [selectConnection]; writing on the lists with [innerHTML]
    selects their first option again.  The frames and options are written as markup: the
    data attributes and values read back are the texts written when these are texts that
    markup keeps ([attribute_text], [bare_text]). *)
Definition add_statistics (vrf_id : val) (s : stats) (endpoint : val) : res stats :=
  let? node := prop endpoint "node" in
  let? interface := prop endpoint "interface" in
  let? tag := prop endpoint "tag" in
  let? unit_ := prop endpoint "unit" in
  let? controller := prop endpoint "controller" in
  let? peers := prop endpoint "peers" in
  let? peers := elements_of peers in
  let? ips := res_map (fun p => let? ip := prop p "peer_ip" in Ok (to_string ip)) peers in
  let f := Frame false (to_string node) (to_string interface) (to_string unit_) (to_string controller)
             (to_string vrf_id) None None in
  let s := Stats (st_frames s ++ [f]) (st_peers s ++ [PeersList true ips (default estr (head ips))])
             (st_options s ++ [to_string node +:+ " - " +:+ to_string interface +:+ " - " +:+ to_string tag])
             "0" (st_range s) in
  displayStatisticsIFrame s.

(** The endpoints of the connection, each with its gateway type filled in for a
    partner interconnect. *)
Definition with_gateway (endpoint : val) : val :=
  match endpoint with
  | VObj e =>
      if loose_eq (get "cloud_interconnect_type" e) (VStr "gcp-partner-interconnect")
      then VObj (obj_set "cloud_gateway_type" (VStr (if loose_eq (get "mtu" e) (VInt 1500) then "1500" else "1440")) e)
      else endpoint
  | _ => endpoint
  end.

(** The part of [selectConnection] after the two requests: the address of the route
    table, the endpoints, and the statistics. *)
Definition route_table (url : string) (vrf_id : val) (endpoints : list val) : res string :=
  let? nso := (match endpoints with
               | [] => Ok true
               | e :: _ => let? c := prop e "controller" in Ok (strict_eq c (VStr "nso"))
               end) in
  Ok (url +:+ (if nso : bool then "&var-table=OESS-VRF-" +:+ to_string vrf_id
               else "&var-table=OESS-L3VPN-" +:+ to_string vrf_id +:+ ".inet.0") +:+ "&from=now-1h&to=now").

Definition selectConnection (range : string) (vrf_id : val) (endpoints : list val) : res stats :=
  let? s := res_fold (add_statistics vrf_id) (Stats [] [] [] estr range) (map with_gateway endpoints) in
  match st_frames s with
  | [] => Err EType
  | f :: fs => Ok (Stats (show_frame true f :: fs) (st_peers s) (st_options s) (st_value s) (st_range s))
  end.



(** *** One endpoint at a time *)






Lemma addresses_again a b c d f : with_addresses a b (with_addresses c d f) = with_addresses a b f.
Proof. done. Qed.






(** *** What the frames and lists say of the endpoints *)





















End statistics.




(** A connection without endpoints: the first frame is looked up and is not there,
    so that [update] is not called and the page stays empty. *)
Lemma no_endpoints_throw range vrf : selectConnection "P" "Q" range vrf [] = Err EType.
Proof. done. Qed.

(** ** Tables of a connection (l2/circuit.js) *)

(** A table: its headings and the cells of its rows. *)
Record table := Table { tb_heads : list string; tb_rows : list (list string) }.

Definition cells (fields : list string) (v : val) : res (list string) :=
  res_map (fun k => let? x := prop v k in Ok (to_string x)) fields.

Definition CircuitEvents (events : val) : res table :=
  let? events := elements_of events in
  let? rows := res_map (cells ["fullname"; "reason"; "activated"]) events in
  Ok (Table ["User"; "Event"; "Start Date / Time"; "End Date / Time"] rows).

Definition CircuitHistory (history : val) : res table :=
  let? history := elements_of (if loose_eq history VNull then VArr [] else history) in
  let? rows := res_map (cells ["fullname"; "reason"; "activated"]) history in
  Ok (Table ["User"; "Event"; "Date / Time"] rows).

(** The labelled values of [CircuitDetails]. *)
Definition CircuitDetails (circuit : val) : res (list (string * string)) :=
  let text k := (let? v := prop circuit k in Ok (to_string v)) in
  let email k := (let? v := prop circuit k in let? v := prop v "email" in Ok (to_string v)) in
  let? state := text "state" in
  let? created_on := text "created_on" in
  let? created_by := email "created_by" in
  let? modified_on := text "last_modified_on" in
  let? modified_by := email "last_modified_by" in
  Ok [("Status", state); ("Created on", created_on); ("Created by", created_by); ("Modified on", modified_on);
      ("Modified by", modified_by)].

(** [CircuitHeader]: the description, the identifier, the name, and whether the save
    and delete buttons are shown. *)
Definition CircuitHeader (editable description connectionId name : val) : string * string * string * bool :=
  (to_string description, to_string connectionId, to_string name, truthy editable).

(** [JSON.parse(JSON.stringify(v))] *)
Definition json_copy (v : val) : res val :=
  match stringify v with
  | Some s => match json_parse s with Some w => Ok w | None => Err ESyntax end
  | None => Err ESyntax
  end.

(** [JSON.parse(v)] *)
Definition JSON_parse (v : val) : res val :=
  match json_parse (to_string v) with Some w => Ok w | None => Err ESyntax end.

(** [href[h.type](data)]: only connections of layer 3 have an address. *)
Definition history_href (type data : val) : res string :=
  if String.eqb (to_string type) "l3connection"
  then let? id := prop data "vrf_id" in Ok ("index.cgi?action=modify_cloud&vrf_id=" +:+ to_string id)
  else Err EType.

Section history.
Context (date_text : val -> string).

(** One row: the user, the address and text of the link, the event, the type, and
    when. *)
Definition history_row (h : val) : res (list string) :=
  let? object := prop h "object" in
  let? object := json_copy object in
  let? date := prop h "date" in
  let? full_name := prop h "full_name" in
  let? type := prop h "type" in
  let? data := JSON_parse object in
  let? href := history_href type data in
  let? resource_id := prop h "resource_id" in
  let? event := prop h "event" in
  Ok [to_string full_name; href; to_string resource_id; to_string event; "l3connection"; date_text date].

Definition ResourceHistoryTable (history : val) : res table :=
  let? history := elements_of (if loose_eq history VNull then VArr [] else history) in
  let? rows := res_map history_row history in
  Ok (Table ["User"; "Resource ID"; "Event"; "Type"; "Date / Time"] rows).

(** An entry of the history as the service gives it: the object is a JSON text. *)
Record history_entry := Entry { he_name : string; he_vrf : list (string * val); he_id : Z; he_event : string; he_date : Z }.

Definition entry_val (text : string) (e : history_entry) : val :=
  VObj [("full_name", VStr (he_name e)); ("type", VStr "l3connection"); ("object", VStr text);
        ("resource_id", VInt (he_id e)); ("event", VStr (he_event e)); ("date", VInt (he_date e))].

Lemma res_map_pure {A B} (f : A -> res B) (g : A -> B) l : (forall a, a ∈ l -> f a = Ok (g a)) -> res_map f l = Ok (map g l).
Proof.
  intros Hf. unfold res_map. set (h := fun acc x => _).
  cut (forall acc, res_fold h acc l = Ok (acc ++ map g l)); [intros E; apply (E [])|].
  revert Hf. induction l as [|a l IH]; intros Hf acc; cbn [res_fold map]; [by rewrite app_nil_r|].
  unfold h at 1. rewrite Hf by set_solver. cbn [res_bind]. rewrite IH by set_solver. by rewrite <-app_assoc.
Qed.

Lemma text_copy s : utf8_valid s = true -> json_copy (VStr s) = Ok (VStr s).
Proof.
  intros Hs. unfold json_copy. destruct (stringify (VStr s)) as [t|] eqn:E; [|done].
  rewrite (json_parse_stringify (VStr s) t); [done| |done]. done.
Qed.

(** The history of a connection of layer 3 is shown entry by entry, each with the
    address of the connection the service recorded in its object. *)
Lemma history_shown (es : list (history_entry * string)) :
  (forall e t, (e, t) ∈ es -> utf8_valid t = true /\ json_parse t = Some (VObj (he_vrf e))) ->
  ResourceHistoryTable (VArr (map (fun et => entry_val (snd et) (fst et)) es)) =
  Ok (Table ["User"; "Resource ID"; "Event"; "Type"; "Date / Time"]
        (map (fun et => let e := fst et in
                [he_name e; "index.cgi?action=modify_cloud&vrf_id=" +:+ to_string (get "vrf_id" (he_vrf e));
                 string_of_Z (he_id e); he_event e; "l3connection"; date_text (VInt (he_date e))]) es)).
Proof.
  intros He. unfold ResourceHistoryTable. cbn [loose_eq elements_of res_bind].
  rewrite (res_map_pure history_row (fun v => match history_row v with Ok r => r | Err _ => [] end)).
  - cbn [res_bind]. do 2 f_equal. rewrite map_map. apply map_ext_in. intros [e t] Hin. apply list_elem_of_In, He in Hin as [Hu Hp].
    unfold history_row, entry_val. cbn [prop obj_get String.eqb Ascii.eqb Bool.eqb default from_option id res_bind fst snd].
    rewrite text_copy by done. cbn [res_bind]. unfold JSON_parse. cbn [to_string]. by rewrite Hp.
  - intros v ([e t] & -> & Hin)%list_elem_of_fmap. apply He in Hin as [Hu Hp].
    unfold history_row, entry_val. cbn [prop obj_get String.eqb Ascii.eqb Bool.eqb default from_option id res_bind fst snd].
    rewrite text_copy by done. cbn [res_bind]. unfold JSON_parse. cbn [to_string]. by rewrite Hp.
Qed.

(** One entry of another type, and nothing of the history is shown. *)
Lemma history_other_type h o t :
  prop h "object" = Ok o -> prop h "type" = Ok t -> to_string t <> "l3connection" ->
  exists e, ResourceHistoryTable (VArr [h]) = Err e.
Proof.
  intros Ho Ht Hne. unfold ResourceHistoryTable. cbn [loose_eq elements_of res_bind]. unfold res_map. cbn [res_fold].
  unfold history_row. rewrite Ho. cbn [res_bind]. destruct (json_copy o) as [c|]; [|by eexists]. cbn [res_bind].
  destruct (prop h "date"); [|by eexists]. cbn [res_bind]. destruct (prop h "full_name"); [|by eexists]. cbn [res_bind].
  rewrite Ht. cbn [res_bind]. destruct (JSON_parse c); [|by eexists]. cbn [res_bind]. unfold history_href.
  destruct (String.eqb_spec (to_string t) "l3connection"); [done|]. by eexists.
Qed.

End history.

(** The table of events has four headings over rows of three cells. *)
Lemma events_columns vs t row : CircuitEvents (VArr vs) = Ok t -> row ∈ tb_rows t -> length (tb_heads t) = 4 /\ length row = 3.
Proof.
  unfold CircuitEvents. cbn [elements_of res_bind]. destruct (res_map _ vs) as [rows|] eqn:E; [|done]. cbn. intros [= <-]. cbn. intros Hrow. split; [done|].
  assert (Forall (fun r => length r = 3) rows) as HF; [|rewrite list.Forall_forall in HF; by apply HF].
  revert E. unfold res_map. assert (Forall (fun r : list string => length r = 3) []) as H0 by constructor. revert H0. generalize (@nil (list string)) at 1 3.
  induction vs as [|v vs IH]; intros acc Hacc; cbn [res_fold]; [by intros [= <-]|].
  destruct (cells _ v) as [r|] eqn:Er; [|done]. cbn [res_bind]. apply IH. apply list.Forall_app. split; [done|]. constructor; [|done].
  revert Er. unfold cells, res_map. cbn [res_fold]. by destruct (prop v "fullname"), (prop v "reason"), (prop v "activated"); cbn; try done; intros [= <-].
Qed.
