(* ===== verification/Widgets.v ===== *)
(** * The shared widgets (js_templates/utility.js)

    The help panels with their delay, the calendar, and the radio buttons of the
    older pages.

    A help panel is driven by the mouse and by timers: the state is where the mouse
    was last seen, the timers that are running and where the panel is shown.  The
    calendar splits a time into the fields of [Date]; these are computed as the
    language defines them, in integers, and the theorem is that what the calendar
    shows is the time it was given, up to the minute. *)

From Stdlib Require Import ZArith Lia Ascii String.
From stdpp Require Import base option list sets strings numbers tactics.
From S2P Require Import Prelude JsValue.

Local Open Scope Z_scope.

(** ** Help panels *)

(** The region of an element, as far as the panel looks at it. *)
Record region := Region { left : Z; right : Z; top : Z }.

(** A timer holds the position of the mouse and the region of the element at the time
    it was started. *)
Record timer := Timer { tm_x : Z; tm_y : Z; tm_region : region }.

Record help := Help {
  hp_mouse : option (Z * Z);
  hp_timers : list timer;
  hp_shown : option (Z * Z)
}.

Inductive help_event :=
  | MouseOver (x y : Z) (r : region)
  | MouseOut (x y : Z)
  | Elapsed (k : nat).

(** Where the panel goes: to the right of the element, or to its left when it does not
    fit. *)
Definition panel_position (client_width x : Z) (r : region) : Z * Z :=
  let moveX := right r + 5 in
  (if x + moveX >? client_width then left r - 300 - 5 else moveX, top r).

(** The handlers of [makeHelpPanel]; the identifier of a timer is never kept, so that
    [clearTimeout] stops none. *)
Definition makeHelpPanel (client_width : Z) (h : help) (e : help_event) : help :=
  match e with
  | MouseOver x y r => Help (Some (x, y)) (hp_timers h ++ [Timer x y r]) (hp_shown h)
  | MouseOut x y => Help (Some (x, y)) (hp_timers h) None
  | Elapsed k =>
      match hp_timers h !! k with
      | None => h
      | Some t =>
          Help (hp_mouse h) (delete k (hp_timers h))
            (match hp_mouse h with
             | Some (x, y) =>
                 if (x =? tm_x t) && (y =? tm_y t) then Some (panel_position client_width x (tm_region t)) else hp_shown h
             | None => hp_shown h
             end)
      end
  end.

Definition help_run (client_width : Z) (h : help) (l : list help_event) : help := foldl (makeHelpPanel client_width) h l.

Definition new_help : help := Help None [] None.

(** Every timer was started by the mouse over an element, and whatever is shown is
    beside an element the mouse was over. *)
Definition help_ok (client_width : Z) (seen : list (Z * Z * region)) (h : help) : Prop :=
  (forall t, t ∈ hp_timers h -> (tm_x t, tm_y t, tm_region t) ∈ seen) /\
  (forall p, hp_shown h = Some p -> exists x y r, (x, y, r) ∈ seen /\ p = panel_position client_width x r).

Definition seen_by (l : list help_event) : list (Z * Z * region) :=
  omap (fun e => match e with MouseOver x y r => Some (x, y, r) | _ => None end) l.

Lemma help_step_ok w seen h e : help_ok w seen h -> help_ok w (seen ++ seen_by [e]) (makeHelpPanel w h e).
Proof.
  intros [Ht Hs]. destruct e as [x y r|x y|k]; cbn [makeHelpPanel seen_by omap list_omap]; rewrite ?app_nil_r.
  - split; cbn; [set_solver|]. intros p Hp. destruct (Hs p Hp) as (x' & y' & r' & ? & ->). exists x', y', r'. set_solver.
  - by split.
  - destruct (hp_timers h !! k) as [t|] eqn:Ek; [|by split]. split; cbn.
    + intros t' Hin. apply Ht. eapply elem_of_sublist; [exact Hin|apply sublist_delete].
    + intros p. destruct (hp_mouse h) as [[x y]|]; [|apply Hs]. destruct (_ && _) eqn:E; [|apply Hs].
      intros [= <-]. apply andb_true_iff in E as [->%Z.eqb_eq ->%Z.eqb_eq].
      exists (tm_x t), (tm_y t), (tm_region t). split; [|done]. apply Ht. by eapply list_elem_of_lookup_2.
Qed.

(** Whatever the mouse does, a help panel is only ever shown beside an element the
    mouse was over. *)
Lemma help_beside w l : help_ok w (seen_by l) (help_run w new_help l).
Proof.
  assert (H : forall l h seen, help_ok w seen h -> help_ok w (seen ++ seen_by l) (help_run w h l)).
  { clear l. induction l as [|e l IH]; intros h seen Hh; [by rewrite app_nil_r|].
    change (seen_by (e :: l)) with (seen_by ([e] ++ l)). unfold seen_by. rewrite omap_app, app_assoc.
    apply IH, help_step_ok, Hh. }
  apply (H l new_help []). split; [set_solver|done].
Qed.

(** A mouse that stays on the element brings the panel up when the delay is over. *)
Lemma help_shown w x y r :
  hp_shown (help_run w new_help [MouseOver x y r; Elapsed 0]) = Some (panel_position w x r).
Proof. cbn. by rewrite !Z.eqb_refl. Qed.

(** The timer is not stopped when the mouse leaves: if it leaves at the position it
    came to, the panel is shown after it has gone. *)
Lemma help_after_leaving w x y r :
  hp_shown (help_run w new_help [MouseOver x y r; MouseOut x y; Elapsed 0]) = Some (panel_position w x r).
Proof. cbn. by rewrite !Z.eqb_refl. Qed.

(** A panel of 300 pixels that would fit on the right is moved to the left, because
    the position of the mouse is added to the place of the panel, and not its width. *)
Lemma help_moved_away : panel_position 1100 550 (Region 500 600 40) = (195, 40) /\ 600 + 5 + 300 <= 1100.
Proof. done. Qed.

(** ** The fields of a date *)

(** The number of the first day of a year, from 1970. *)
Definition DayFromYear (y : Z) : Z :=
  365 * (y - 1970) + (y - 1969) / 4 - (y - 1901) / 100 + (y - 1601) / 400.

Definition leap (y : Z) : bool :=
  (y mod 4 =? 0) && (negb (y mod 100 =? 0) || (y mod 400 =? 0)).

(** The year of a day: the last one that starts no later. *)
Definition YearFromDay (d : Z) : Z :=
  let y := 1970 + d * 400 / 146097 in
  if DayFromYear (y + 1) <=? d then y + 1 else if DayFromYear y <=? d then y else y - 1.

Definition month_days (y : Z) : list Z :=
  [31; if leap y then 29 else 28; 31; 30; 31; 30; 31; 31; 30; 31; 30; 31].

(** The month, from 0, and the day of the month, from 1. *)
Fixpoint month_date (lengths : list Z) (month day : Z) : Z * Z :=
  match lengths with
  | [] => (month, day + 1)
  | n :: lengths' => if day <? n then (month, day + 1) else month_date lengths' (month + 1) (day - n)
  end.

Record fields := Fields { year : Z; month : Z; date : Z; hours : Z; minutes : Z }.

(** [getUTCFullYear], [getUTCMonth], [getUTCDate], [getUTCHours], [getUTCMinutes]. *)
Definition utc_fields (t : Z) : fields :=
  let d := t / 86400000 in
  let y := YearFromDay d in
  let '(m, md) := month_date (month_days y) 0 (d - DayFromYear y) in
  Fields y m md ((t / 3600000) mod 24) ((t / 60000) mod 60).

(** [Date.UTC(year, month, date, hours, minutes)] *)
Definition utc_time (f : fields) : Z :=
  (DayFromYear (year f) + foldr Z.add 0 (take (Z.to_nat (month f)) (month_days (year f))) + date f - 1) * 86400000
  + hours f * 3600000 + minutes f * 60000.

Ltac euclid := Z.to_euclidean_division_equations; lia.

Lemma year_of_day d : DayFromYear (YearFromDay d) <= d < DayFromYear (YearFromDay d + 1).
Proof.
  unfold YearFromDay. set (y := 1970 + d * 400 / 146097).
  assert (H1 : DayFromYear (y - 1) <= d) by (unfold y, DayFromYear; euclid).
  assert (H2 : d < DayFromYear (y + 2)) by (unfold y, DayFromYear; euclid).
  destruct (Z.leb_spec (DayFromYear (y + 1)) d); [replace (y + 1 + 1) with (y + 2) by lia; lia|].
  destruct (Z.leb_spec (DayFromYear y) d); [lia|]. replace (y - 1 + 1) with y by lia. lia.
Qed.

Lemma year_length y : DayFromYear (y + 1) - DayFromYear y = foldr Z.add 0 (month_days y).
Proof.
  unfold DayFromYear, month_days, leap. cbn [foldr].
  destruct (Z.eqb_spec (y mod 4) 0), (Z.eqb_spec (y mod 100) 0), (Z.eqb_spec (y mod 400) 0); cbn [andb orb negb]; euclid.
Qed.

Lemma month_date_spec lengths : forall m d,
  0 <= d < foldr Z.add 0 lengths -> 0 <= m ->
  let '(m', md) := month_date lengths m d in
  exists k, (k < length lengths)%nat /\ m' = m + Z.of_nat k /\ 1 <= md /\
    foldr Z.add 0 (take k lengths) + md - 1 = d /\ lengths !! k = Some (default 0 (lengths !! k)) /\ md <= default 0 (lengths !! k).
Proof.
  induction lengths as [|n lengths IH]; intros m d Hd Hm; cbn [month_date foldr] in *; [lia|].
  destruct (Z.ltb_spec d n).
  - exists 0%nat. cbn. repeat split; lia.
  - specialize (IH (m + 1) (d - n)). destruct (month_date lengths (m + 1) (d - n)) as [m' md].
    destruct IH as (k & Hk & -> & Hmd & Hsum & Hl & Hle); [lia..|]. exists (S k). cbn [length take foldr lookup list_lookup].
    repeat split; try lia; done.
Qed.

Lemma utc_fields_spec t :
  let f := utc_fields t in
  utc_time f = t - t mod 60000 /\ 0 <= month f < 12 /\ 1 <= date f <= 31 /\ 0 <= hours f < 24 /\ 0 <= minutes f < 60.
Proof.
  unfold utc_fields. set (d := t / 86400000). pose proof (year_of_day d) as Hy. set (y := YearFromDay d) in *.
  pose proof (year_length y) as Hlen. pose proof (month_date_spec (month_days y) 0 (d - DayFromYear y)) as Hm.
  destruct (month_date (month_days y) 0 (d - DayFromYear y)) as [m md]. destruct Hm as (k & Hk & -> & Hmd & Hsum & Hl & Hle); [lia..|].
  assert (Hdays : Forall (fun n => n <= 31) (month_days y)) by (unfold month_days; repeat constructor; destruct (leap y); lia).
  pose proof (proj1 (list.Forall_lookup _ _) Hdays k _ Hl) as H31. cbn in H31.
  cbn zeta. unfold utc_time. cbn [year month date hours minutes]. rewrite Z.add_0_l, Nat2Z.id.
  change (length (month_days y)) with 12%nat in Hk. repeat split; try lia; [|euclid..].
  replace (DayFromYear y + foldr Z.add 0 (take k (month_days y)) + md - 1) with d by lia. unfold d. euclid.
Qed.

(** ** The calendar *)

(** An option of the two lists: a number below 10 gets a zero in front, and is text. *)
Definition clock_option (i : nat) : val :=
  if Nat.ltb i 10 then VStr ("0" +:+ string_of_Z (Z.of_nat i)) else VInt (Z.of_nat i).

(** The index selected by the loop over the first [n] options. *)
Definition clock_index (n : nat) (selected : val) : nat :=
  foldl (fun current i => if loose_eq (clock_option i) selected then i else current) 0%nat (seq 0 n).

(** A time is valid within a hundred million days of 1970, and its fields are NaN
    otherwise.  What the popup shows: the page of the calendar, the selected day as text, and the
    indices of the lists of hours and minutes. *)
Record popup := Popup {
  pp_month : option val;
  pp_year : option val;
  pp_selected : option string;
  pp_hour : nat;
  pp_minute : nat
}.

Definition makeCalendarPopup (selected_time : val) : popup :=
  match parseInt selected_time with
  | Fin (Dec t 0) =>
      if (t =? 0) || (t =? -1) then Popup None None None (clock_index 24 VUndef) (clock_index 60 VUndef) else
      if 8640000000000000 <? Z.abs t
      then Popup (Some (VNum NaN)) (Some (VNum NaN)) (Some "NaN/NaN/NaN") (clock_index 24 (VNum NaN)) (clock_index 60 (VNum NaN)) else
      let f := utc_fields t in
      Popup (Some (VInt (month f))) (Some (VInt (year f)))
        (Some (string_of_Z (month f + 1) +:+ "/" +:+ string_of_Z (date f) +:+ "/" +:+ string_of_Z (year f)))
        (clock_index 24 (VInt (hours f))) (clock_index 60 (VInt (minutes f)))
  | _ => Popup None None None (clock_index 24 VUndef) (clock_index 60 VUndef)
  end.

Lemma clock_index_exact n k : (n <= 60)%nat -> (k < n)%nat -> clock_index n (VInt (Z.of_nat k)) = k.
Proof.
  intros Hn Hk.
  assert (H : forallb (fun n => forallb (fun k => Nat.eqb (clock_index n (VInt (Z.of_nat k))) k) (seq 0 n)) (seq 0 61) = true)
    by (vm_compute; reflexivity).
  rewrite forallb_forall in H. specialize (H n). rewrite forallb_forall in H. apply Nat.eqb_eq, H; apply in_seq; lia.
Qed.

(** A calendar opened for a time shows that time, up to the minute: the page and
    the day it selects, with the hour and the minute selected in its two lists, are
    the fields of the time, and make up the time again when they are put together. *)
Theorem calendar_shows t :
  t <> 0 -> t <> -1 -> Z.abs t <= 8640000000000000 ->
  exists f,
    makeCalendarPopup (VInt t) =
      Popup (Some (VInt (month f))) (Some (VInt (year f)))
        (Some (string_of_Z (month f + 1) +:+ "/" +:+ string_of_Z (date f) +:+ "/" +:+ string_of_Z (year f)))
        (Z.to_nat (hours f)) (Z.to_nat (minutes f)) /\
    0 <= month f < 12 /\ 1 <= date f <= 31 /\ 0 <= hours f < 24 /\ 0 <= minutes f < 60 /\
    utc_time f = t - t mod 60000.
Proof.
  intros H0 H1 Hr. exists (utc_fields t). destruct (utc_fields_spec t) as (Ht & Hm & Hd & Hh & Hmin).
  split; [|by auto]. unfold makeCalendarPopup. assert (parseInt (VInt t) = Fin (Dec t 0)) as -> by apply parseInt_int.
  destruct (Z.eqb_spec t 0); [done|]. destruct (Z.eqb_spec t (-1)); [done|]. cbn [orb].
  destruct (Z.ltb_spec 8640000000000000 (Z.abs t)); [lia|]. f_equal.
  - rewrite <-(Z2Nat.id (hours (utc_fields t))) at 1 by lia. apply clock_index_exact; lia.
  - rewrite <-(Z2Nat.id (minutes (utc_fields t))) at 1 by lia. apply clock_index_exact; lia.
Qed.

Lemma calendar_shows_witness :
  exists f,
    makeCalendarPopup (VInt 1709210096789) =
      Popup (Some (VInt (month f))) (Some (VInt (year f)))
        (Some (string_of_Z (month f + 1) +:+ "/" +:+ string_of_Z (date f) +:+ "/" +:+ string_of_Z (year f)))
        (Z.to_nat (hours f)) (Z.to_nat (minutes f)) /\
    0 <= month f < 12 /\ 1 <= date f <= 31 /\ 0 <= hours f < 24 /\ 0 <= minutes f < 60 /\
    utc_time f = 1709210096789 - 1709210096789 mod 60000.
Proof. apply calendar_shows; [discriminate..|vm_compute; discriminate]. Defined.

(** The 29th of February 2024 in UTC. *)
Lemma calendar_leap_day :
  makeCalendarPopup (VStr "1709210096789") = Popup (Some (VInt 1)) (Some (VInt 2024)) (Some "2/29/2024") 12 34.
Proof. vm_compute. reflexivity. Qed.

(** ** Radio buttons *)

(** The buttons of a group are exclusive: checking one unchecks the others. *)
Definition check_button (k : nat) (checked : list bool) : list bool := imap (fun i _ => Nat.eqb i k) checked.

(** [hookupRadioButtons]: the loop that checks the button with the value. *)
Definition hookupRadioButtons (value : val) (values : list string) (checked : list bool) : list bool :=
  foldl (fun checked i => if loose_eq (VStr (default estr (values !! i))) value then check_button i checked else checked)
    checked (seq 0 (length values)).

Lemma check_button_lookup k checked i : (i < length checked)%nat -> check_button k checked !! i = Some (Nat.eqb i k).
Proof. intros Hi. unfold check_button. rewrite list_lookup_imap. by destruct (lookup_lt_is_Some_2 checked i Hi) as [b ->]. Qed.

(** With different values, exactly the button of the value is checked. *)
Lemma radio_exact value values checked k :
  NoDup values -> length checked = length values -> values !! k = Some value ->
  hookupRadioButtons (VStr value) values checked = imap (fun i _ => Nat.eqb i k) values.
Proof.
  intros Hnd Hlen Hk. unfold hookupRadioButtons.
  assert (H : forall n, (n <= length values)%nat ->
    foldl (fun checked i => if loose_eq (VStr (default estr (values !! i))) (VStr value) then check_button i checked else checked) checked (seq 0 n)
    = if Nat.ltb k n then check_button k checked else checked).
  { induction n as [|n IH]; intros Hn; [done|]. rewrite seq_S, foldl_app, IH by lia. cbn [foldl Nat.add].
    destruct (lookup_lt_is_Some_2 values n) as [v Hv]; [lia|]. rewrite Hv. cbn [default from_option id loose_eq].
    destruct (String.eqb_spec v value) as [->|Hne].
    - pose proof (NoDup_lookup _ _ _ _ Hnd Hv Hk) as ->. rewrite Nat.ltb_irrefl. by rewrite (proj2 (Nat.ltb_lt k (S k))) by lia.
    - assert (n <> k) by congruence. destruct (Nat.ltb_spec k n), (Nat.ltb_spec k (S n)); done || lia. }
  rewrite H by lia. apply lookup_lt_Some in Hk. rewrite (proj2 (Nat.ltb_lt _ _) Hk).
  apply list_eq. intros i. rewrite list_lookup_imap. destruct (decide (i < length values)%nat) as [Hi|Hi].
  - rewrite check_button_lookup by lia. by destruct (lookup_lt_is_Some_2 values i Hi) as [v ->].
  - rewrite (lookup_ge_None_2 values i) by lia. cbn. apply lookup_ge_None_2. unfold check_button. rewrite length_imap. lia.
Qed.
