(* ===== verification/EndpointModal.v ===== *)
(** * The endpoint dialog (l2/endpoint_selection_modal.js)

    The dialog has two forms.  The interface form offers the interfaces of the
    workgroup, and for the chosen one its VLANs, bandwidths and jumbo frames;
    the entity form offers the entity tree, the interfaces of an entity, their
    VLANs and bandwidths and the fields of a cloud connection.  Submitting a
    form writes its fields on an endpoint object and hands that object to the
    page.

    A select element is its options with the index of the chosen one; [None] is
    the index -1.  The endpoint a form is filled from is read as it was when the
    dialog was opened. *)

From Stdlib Require Import ZArith Lia Ascii String Sorted.
From stdpp Require Import base option list gmap sets strings numbers tactics.
From S2P Require Import Prelude JsValue JsJson Fetch Api Pages.

(** ** Select elements *)

Record opt := Opt {
  o_value : string;
  o_text : string;
  o_data : list (string * string);
  o_selected : bool
}.

Record select := Select {
  sl_options : list opt;
  sl_index : option nat;
  sl_disabled : bool
}.

(** Index of the last option with the selected attribute. *)
Fixpoint last_selected (l : list opt) : option nat :=
  match l with
  | [] => None
  | o :: l' =>
      match last_selected l' with
      | Some i => Some (S i)
      | None => if o_selected o then Some 0 else None
      end
  end.

(** A drop-down list shows its last selected option, or else its first. *)
Definition initial_index (l : list opt) : option nat :=
  match last_selected l with
  | Some i => Some i
  | None => match l with [] => None | _ => Some 0 end
  end.

Definition mk_select (l : list opt) (disabled : bool) : select := Select l (initial_index l) disabled.

(** [s.options[s.selectedIndex]], with a property read on it. *)
Definition chosen (s : select) : res opt :=
  match sl_index s with
  | Some i => match sl_options s !! i with Some o => Ok o | None => Err EType end
  | None => Err EType
  end.

(** [s.value] *)
Definition sl_value (s : select) : string :=
  match chosen s with Ok o => o_value o | Err _ => estr end.

(** [s.value = v]: the first option with that value, or none. *)
Definition set_value (s : select) (v : string) : select :=
  Select (sl_options s) (fst <$> list_find (fun o => o_value o = v) (sl_options s)) (sl_disabled s).

Fixpoint str_get (k : string) (l : list (string * string)) : option string :=
  match l with
  | [] => None
  | (k', v) :: l' => if String.eqb k k' then Some v else str_get k l'
  end.

(** [o.dataset.k] *)
Definition dataset (o : opt) (k : string) : val :=
  match str_get k (o_data o) with Some s => VStr s | None => VUndef end.

(** ** Shared helpers *)

(** [e !== undefined && e !== null] *)
Definition present (e : val) : bool := match e with VUndef | VNull => false | _ => true end.

(** The elements visited by [for (i = 0; i < v.length; i++)]: a value without a
    length has none. *)
Definition for_elements (v : val) : res (list val) :=
  match v with
  | VUndef | VNull => Err EType
  | VArr l => Ok l
  | _ => Ok []
  end.

(** [l.includes(v)] *)
Definition includes (l : list val) (v : val) : bool :=
  existsb (fun x => match x, v with VNum NaN, VNum NaN => true | _, _ => strict_eq x v end) l.

(** Assignments to one object, in order, up to the first that throws: the
    writes done, and the exception. *)
Fixpoint run_writes (ws : list (res (string * val))) : obj * option exn :=
  match ws with
  | [] => ([], None)
  | Ok kv :: ws' => let '(fs, e) := run_writes ws' in (kv :: fs, e)
  | Err e :: _ => ([], Some e)
  end.

(** Jumbo frames checkbox for an interconnect type: checked, disabled. *)
Definition jumbo_default (cloud_interconnect_type : val) : bool * bool :=
  if strict_eq cloud_interconnect_type (VStr "aws-hosted-connection") then (true, false)
  else if strict_eq cloud_interconnect_type (VStr "aws-hosted-vinterface") then (true, false)
  else if strict_eq cloud_interconnect_type (VStr "gcp-partner-interconnect") then (false, true)
  else if strict_eq cloud_interconnect_type (VStr "azure-express-route") then (false, true)
  else (true, false).

(** The checkbox when the form is filled from an endpoint that has the field. *)
Definition jumbo_checked (endpoint : val) (dflt : bool) : res bool :=
  if present endpoint then
    let? b := has "jumbo" endpoint in
    if b then
      let? j := prop endpoint "jumbo" in
      Ok (loose_eq j (VInt 1) || loose_eq j (VBool true))
    else Ok dflt
  else Ok dflt.

(** ** The interface form *)

Record iform := IForm {
  if_interfaces : select;
  if_vlans : select;
  if_bandwidth : select;
  if_jumbo : bool;
  if_jumbo_disabled : bool
}.

Definition interface_option (interface_id i : val) : res opt :=
  let? node := prop i "node" in
  let? name := prop i "name" in
  let? id := prop i "interface_id" in
  let? description := prop i "description" in
  let? ctype := prop i "cloud_interconnect_type" in
  Ok (Opt (show id) (show node +:+ " " +:+ show name)
        [("name", show name); ("node", show node); ("description", show description);
         ("cloud_interconnect_type", show ctype)]
        (loose_eq id interface_id)).

(** The VLAN to preselect and the VLANs to offer. *)
Definition vlan_choices (endpoint vlans : val) : res (val * list val) :=
  let? n := prop vlans "length" in
  let? first := (if strict_eq n (VInt 0) then Ok (VInt (-1)) else index vlans 0) in
  let? l := elements_of vlans in
  if present endpoint then
    let? tag := prop endpoint "tag" in
    Ok (tag, if includes l tag then l else tag :: l)
  else Ok (first, l).

Definition vlan_option (vlan v : val) : opt := Opt (show v) (show v) [] (loose_eq v vlan).

Definition vlan_select (vlan : val) (l : list val) (disabled : bool) : select :=
  mk_select (map (vlan_option vlan) l) disabled.

Definition interface_bandwidths (cloud_interconnect_type : val) : list (Z * string) :=
  if strict_eq cloud_interconnect_type (VStr "aws-hosted-connection") then
    [(50, "50 Mb/s"); (100, "100 Mb/s"); (200, "200 Mb/s"); (300, "300 Mb/s"); (400, "400 Mb/s");
     (500, "500 Mb/s"); (1000, "1 Gb/s"); (2000, "2 Gb/s"); (5000, "5 Gb/s")]%Z
  else if strict_eq cloud_interconnect_type (VStr "gcp-partner-interconnect") then
    [(50, "50 Mb/s"); (100, "100 Mb/s"); (200, "200 Mb/s"); (300, "300 Mb/s"); (400, "400 Mb/s");
     (500, "500 Mb/s"); (1000, "1 Gb/s"); (2000, "2 Gb/s"); (5000, "5 Gb/s"); (10000, "10 Gb/s")]%Z
  else [(0%Z, "Unlimited")].

Definition bandwidth_option (selectedBandwidth : val) (i : nat) (b : Z * string) : opt :=
  Opt (show (VInt b.1)) b.2 []
    ((strict_eq selectedBandwidth VNull && Nat.eqb i 0) || loose_eq (VInt b.1) selectedBandwidth).

Definition interface_bandwidth_select (ctype selectedBandwidth vlan : val) : select :=
  let l := interface_bandwidths ctype in
  mk_select (imap (bandwidth_option selectedBandwidth) l)
    (strict_eq vlan (VInt (-1)) || Nat.eqb (length l) 1).

(** ** The entity form *)

(** Interfaces that the provisioning procedure selects by itself. *)
Definition auto_selected (i : val) : res bool :=
  let? t := prop i "cloud_interconnect_type" in
  Ok (loose_eq t (VStr "azure-express-route") || loose_eq t (VStr "gcp-cloud-interconnect")).

Definition has_available_bandwidth (i : val) : res bool :=
  let? t := prop i "cloud_interconnect_type" in
  let? used := prop i "utilized_bandwidth" in
  let? total := prop i "provisionable_bandwidth" in
  Ok (negb (truthy t && js_ge used (VNum (parseInt total)))).

(** One radio button of the interface list. *)
Record radio := Radio { r_node : val; r_name : val; r_checked : bool; r_disabled : bool }.

Definition interface_radio (i : val) : res radio :=
  let? auto := auto_selected i in
  let? free := has_available_bandwidth i in
  let? node := prop i "node" in
  let? name := prop i "name" in
  let off := auto || negb free in
  Ok (Radio node name (negb off) off).

(** The list of radio buttons, and the interface (name, node) that is selected
    once the list is built: the last one the user could pick. *)
Definition radio_step (st : list radio * (val * val)) (i : val) : res (list radio * (val * val)) :=
  let '(rs, sel) := st in
  let? r := interface_radio i in
  Ok (rs ++ [r], if r_disabled r then sel else (r_name r, r_node r)).

(** Of the radio buttons of a group, the browser keeps the last checked one. *)
Definition shown_radio (rs : list radio) : option radio :=
  list.last (List.filter r_checked rs).

(** The entity list: the parent to go back to, and the children. *)
Definition entity_tree (entity : val) : res (option val * list val) :=
  let related k :=
    let? b := has k entity in
    if b then let? v := prop entity k in
              let? n := prop v "length" in
              if js_gt n (VInt 0) then elements_of v else Ok []
    else Ok [] in
  let? parents := related "parents" in
  let? children := related "children" in
  Ok (head parents, children).

(** A click on a parent or child: that entity stands for the endpoint, at the
    endpoint's index. *)
Definition entity_clicked (idx : val) (entity : obj) : obj := obj_set "index" idx entity.

(** The interface is the selected one, or selects itself. *)
Definition is_candidate (sel : val * val) (i : val) : res bool :=
  let? auto := auto_selected i in
  let? node := prop i "node" in
  let? name := prop i "name" in
  Ok (auto || (loose_eq node sel.2 && loose_eq name sel.1)).

(** A loop that stops at the first element satisfying the test. *)
Fixpoint res_find (f : val -> res bool) (l : list val) : res (option val) :=
  match l with
  | [] => Ok None
  | x :: l' => let? b := f x in if b then Ok (Some x) else res_find f l'
  end.

(** A loop that keeps the last element satisfying the test. *)
Definition res_find_last (f : val -> res bool) (l : list val) : res (option val) :=
  res_fold (fun acc x => let? b := f x in Ok (if b then Some x else acc)) None l.

(** The bandwidth options of [interfaceOptions] that apply to an interface. *)
Definition option_applies (intf o : val) : res bool :=
  let? t := prop o "cloud_interconnect_type" in
  let? t' := prop intf "cloud_interconnect_type" in
  let? bw := prop intf "bandwidth" in
  let? lo := prop o "min_bandwidth" in
  let? hi := prop o "max_bandwidth" in
  Ok (loose_eq t t' && num_leb (parseInt lo) (parseInt bw) && num_leb (parseInt bw) (parseInt hi)).

(** Whether one speed of the options settles the warning, and how. *)
Definition approval_step (bandwidth : string) (acc : bool) (speed : val) : res bool :=
  let? rate := prop speed "rate" in
  if negb (loose_eq rate (VStr bandwidth)) then Ok acc
  else let? a := prop speed "requires_approval" in
       Ok (truthy a && loose_eq a (VInt 1)).

(** [populateApprovalWarning]: is the warning shown, given that it was or not. *)
Definition populateApprovalWarning (interfaces interfaceOptions : list val) (sel : val * val)
    (bandwidth : string) (was : bool) : res bool :=
  let? intf := res_find (is_candidate sel) interfaces in
  match intf with
  | None => Ok false
  | Some i =>
      let? o := res_find_last (option_applies i) interfaceOptions in
      match o with
      | None => Ok false
      | Some o =>
          let? speeds := prop o "speed" in
          let? l := for_elements speeds in
          res_fold (approval_step bandwidth) was l
      end
  end.

(** The label of a rate: in Gb/s from 1000 Mb/s on. *)
Definition speed_option (v : val) : res (string * string) :=
  let? rate := prop v "rate" in
  let g := num_shift 3 (parseInt rate) in
  Ok (show rate, if num_leb (Fin (Dec 1 0)) g then num_to_string g +:+ " Gb/s"
                 else show rate +:+ " Mb/s").

(** [populateBandwidths]: the options of the bandwidth list. *)
Definition populateBandwidths (interfaces interfaceOptions : list val) (sel : val * val)
    : res (list opt) :=
  let? intf := res_find (is_candidate sel) interfaces in
  match intf with
  | None => Ok []
  | Some i =>
      let? o := res_find (option_applies i) interfaceOptions in
      let? l := (match o with
                 | None => Ok [("0", "Unlimited")]
                 | Some o => let? speeds := prop o "speed" in
                             let? l := elements_of speeds in res_map speed_option l
                 end) in
      Ok (imap (fun n b => Opt b.1 b.2 [] (Nat.eqb n 0)) l)
  end.

(** [vlanH[v] = 1] for every VLAN of every candidate interface. *)
Definition vlan_table_step (sel : val * val) (h : obj) (i : val) : res obj :=
  let? c := is_candidate sel i in
  if c then
    let? vlans := prop i "available_vlans" in
    let? l := for_elements vlans in
    Ok (foldl (fun h v => obj_set (to_string v) (VInt 1) h) h l)
  else Ok h.

Definition vlan_table (sel : val * val) (interfaces : list val) : res obj :=
  res_fold (vlan_table_step sel) [] interfaces.

(** [populateVLANs]: the VLAN preselected and the VLANs offered. *)
Definition populateVLANs (endpoint : val) (interfaces : list val) (sel : val * val)
    : res (val * list val) :=
  let? h := vlan_table sel interfaces in
  let vlans := map VStr (names h) in
  let vlan0 := default (VInt (-1)) (head vlans) in
  let? vlan := (if present endpoint then
                  let? b := has "tag" endpoint in
                  if b then prop endpoint "tag" else Ok vlan0
                else Ok vlan0) in
  Ok (vlan, if negb (strict_eq vlan (VInt (-1))) && negb (includes vlans vlan)
            then vlan :: vlans else vlans).

(** The interconnect type of the entity: of its last interface with an
    interconnect id. *)
Definition entity_type_step (t i : val) : res val :=
  let? id := prop i "cloud_interconnect_id" in
  match id with
  | VUndef => Ok t
  | _ => prop i "cloud_interconnect_type"
  end.

Definition plain_option (v t : string) : opt := Opt v t [] false.

(** [configureCloudGatewayTypeFormGroup]: shown, and the list. *)
Definition gateway_select (endpoint ctype : val) : res (bool * select) :=
  if strict_eq ctype (VStr "gcp-partner-interconnect") then
    let? mtu := prop endpoint "mtu" in
    Ok (true, Select [plain_option "1440" "1440"; plain_option "1500" "1500"]
                (Some (if loose_eq mtu (VInt 1500) then 1 else 0)) false)
  else if strict_eq ctype (VStr "aws-hosted-connection") then
    Ok (true, Select [plain_option "transit" "Transit"; plain_option "private" "Virtual Private"]
                (Some 1) false)
  else Ok (false, Select [] None false).

(** The label and the placeholder of the cloud account field. *)
Definition account_labels (ctype : val) : string * string :=
  if strict_eq ctype (VStr "gcp-partner-interconnect") then
    ("GCP Pairing Key", "00000000-0000-0000-0000-000000000000/us-east1/1")
  else if strict_eq ctype (VStr "azure-express-route") then
    ("ExpressRoute Service Key", "00000000-0000-0000-0000-000000000000")
  else if strict_eq ctype (VStr "aws-hosted-connection") then ("AWS Account Owner", "012301230123")
  else if strict_eq ctype (VStr "oracle-fast-connect") then ("Oracle OCID", "ocid1.virtualcircuit...")
  else ("AWS Account Owner", "012301230123").

(** Jumbo frames and the gateway list of an endpoint that has the jumbo field. *)
Definition restore_jumbo (endpoint : val) (dflt : bool) (gateway : select) : res (bool * select) :=
  if present endpoint then
    let? b := has "jumbo" endpoint in
    if b then
      let? j := prop endpoint "jumbo" in
      if loose_eq j (VInt 1) || loose_eq j (VBool true) then
        let? mtu := prop endpoint "mtu" in
        Ok (true, set_value gateway (if js_gt mtu (VInt 8500) then "private" else "transit"))
      else Ok (false, gateway)
    else Ok (dflt, gateway)
  else Ok (dflt, gateway).

Record eform := EForm {
  ef_entity : val;
  ef_type : val;
  ef_radios : list radio;
  ef_selected : val * val;
  ef_vlans : select;
  ef_bandwidth : select;
  ef_approval : bool;
  ef_account : string;
  ef_account_shown : bool;
  ef_account_labels : string * string;
  ef_gateway : select;
  ef_gateway_shown : bool;
  ef_jumbo : bool;
  ef_jumbo_disabled : bool;
  ef_add_disabled : bool;
  ef_request_shown : bool
}.

(** The values a form takes from the endpoint: the entity to show, the
    selection (interface, node) and the cloud account. *)
Definition entity_start (endpoint : val) : res (val * (val * val) * val) :=
  if present endpoint then
    let? id := prop endpoint "entity_id" in
    let? intf := prop endpoint "interface" in
    let? node := prop endpoint "node" in
    let? acct := prop endpoint "cloud_account_id" in
    Ok (id, (js_or intf (VStr "TBD"), js_or node (VStr "TBD")), js_or acct VNull)
  else Ok (VInt 1, (VStr "TBD", VStr "TBD"), VNull).

(** The form of an entity that has arrived; [was] tells whether the approval
    warning was shown before. *)
Definition entity_form (endpoint entity : val) (start : val * val) (account : val)
    (interfaceOptions : list val) (was : bool) : res eform :=
  let? interfaces := prop entity "interfaces" in
  let? intfs := for_elements interfaces in
  let? st := res_fold radio_step ([], start) intfs in
  let '(radios, sel) := st in
  let? bws := populateBandwidths intfs interfaceOptions sel in
  let bandwidth0 := mk_select bws false in
  let? approval := populateApprovalWarning intfs interfaceOptions sel (sl_value bandwidth0) was in
  let? c := populateVLANs endpoint intfs sel in
  let '(vlan, vlans) := c in
  let? ctype := res_fold entity_type_step VNull intfs in
  let? g := gateway_select endpoint ctype in
  let '(gshown, gateway0) := g in
  let '(dflt, jdisabled) := jumbo_default ctype in
  let? j := restore_jumbo endpoint dflt gateway0 in
  let '(jumbo, gateway) := j in
  let? eid := prop entity "entity_id" in
  let none := Nat.eqb (length vlans) 0 in
  Ok (EForm entity ctype radios sel
        (vlan_select vlan vlans (strict_eq vlan (VInt (-1))))
        (Select (sl_options bandwidth0) (sl_index bandwidth0)
           (none || strict_eq (default VUndef (head vlans)) (VInt (-1)) || Nat.leb (length bws) 1))
        approval
        (match account with VNull => estr | _ => show account end)
        (negb (strict_eq ctype VNull)) (account_labels ctype)
        gateway gshown jumbo jdisabled
        none (none && negb (loose_eq eid (VInt 1)))).

Section forms.
Context `{EndpointPage}.
Variable path : string.
Variable workgroup_id : val.

(** [loadVlanSelector], for the interface with the given id. *)
Definition loadVlanSelector (endpoint selectedBandwidth interface_id : val) (interfaces : select)
    : io iform :=
  await vlans := getAvailableVLANs path workgroup_id interface_id VUndef VUndef in
  pure c := vlan_choices endpoint vlans in
  let '(vlan, l) := c in
  pure o := chosen interfaces in
  let ctype := dataset o "cloud_interconnect_type" in
  let '(dflt, jdisabled) := jumbo_default ctype in
  pure jumbo := jumbo_checked endpoint dflt in
  Ret (IForm interfaces (vlan_select vlan l false)
         (interface_bandwidth_select ctype selectedBandwidth vlan) jumbo jdisabled).

(** The form is filled for the interface that is preselected; the result also
    carries the index that a new endpoint will get. *)
Definition populateInterfaceForm (endpoint : val) : io (iform * val) :=
  await interfaces := getInterfacesByWorkgroup path workgroup_id in
  pure n := prop interfaces "length" in
  pure first := (if strict_eq n (VInt 0) then Ok (VInt (-1))
                 else let? i := index interfaces 0 in prop i "interface_id") in
  pure c := (if present endpoint then
               let? id := prop endpoint "interface_id" in
               let? idx := prop endpoint "index" in
               let? bw := prop endpoint "bandwidth" in
               Ok (id, idx, js_or bw VNull)
             else Ok (first, VInt (-1), VNull)) in
  let '(interface_id, idx, selectedBandwidth) := c in
  pure l := elements_of interfaces in
  pure os := res_map (interface_option interface_id) l in
  await f := loadVlanSelector endpoint selectedBandwidth interface_id (mk_select os false) in
  Ret (f, idx).

(** The assignments of the submit handler, once an interface is chosen. *)
Definition interface_writes (f : iform) (o : opt) : list (res (string * val)) :=
  let t := dataset o "cloud_interconnect_type" in
  let interconnectType := if strict_eq t (VStr "null") then VNull else t in
  [ Ok ("bandwidth", VStr (sl_value (if_bandwidth f)));
    Ok ("name", dataset o "name");
    Ok ("interface", dataset o "name");
    Ok ("interface_id", VStr (o_value o));
    Ok ("description", dataset o "description");
    Ok ("node", dataset o "node");
    Ok ("entity", VNull);
    Ok ("entity_id", VNull);
    Ok ("peerings", VArr []);
    Ok ("cloud_account_id", VStr estr);
    (let? v := chosen (if_vlans f) in Ok ("tag", VStr (o_value v)));
    Ok ("jumbo", VBool (if_jumbo f));
    Ok ("cloud_interconnect_type", interconnectType) ].

Definition with_heap (h : gmap loc obj) (p : page) : page := Page h (pg_endpoints p) (pg_next p).

(** The submit handler of the interface form; [this_endpoint] is the endpoint
    the dialog holds.  The result has the endpoint it then holds, the page and
    what was thrown. *)
Definition interface_submit (f : iform) (idx : val) (this_endpoint : option loc) (p : page)
    : option loc * page * res unit :=
  match chosen (if_interfaces f) with
  | Err e => (this_endpoint, p, Err e)
  | Ok o =>
      let '(l, p1) := match this_endpoint with
                      | Some l => (l, p)
                      | None => alloc p [("index", idx)]
                      end in
      let '(fs, e) := run_writes (interface_writes f o) in
      let p2 := with_heap (write_all (pg_heap p1) l fs) p1 in
      match e with
      | Some e => (Some l, p2, Err e)
      | None => (Some l, updateEndpoint l p2, Ok tt)
      end
  end.

(** [populateEntityForm]; nothing is shown when there is no such entity. *)
Definition populateEntityForm (interfaceOptions : list val) (was : bool) (endpoint : val)
    : io (option eform) :=
  pure s := entity_start endpoint in
  let '(entity_id, start, account) := s in
  await entity := getEntities path workgroup_id entity_id (VObj []) in
  if strict_eq entity VNull then Ret None else
  pure f := entity_form endpoint entity start account interfaceOptions was in
  Ret (Some f).

(** A click on an interface of the list: it is selected, and its VLANs and
    bandwidths are offered. *)
Definition interface_clicked (interfaceOptions : list val) (endpoint i : val) (f : eform) : res eform :=
  let? node := prop i "node" in
  let? name := prop i "name" in
  let sel := (name, node) in
  let? interfaces := prop (ef_entity f) "interfaces" in
  let? intfs := for_elements interfaces in
  let? c := populateVLANs endpoint intfs sel in
  let '(vlan, vlans) := c in
  let? bws := populateBandwidths intfs interfaceOptions sel in
  let bandwidth := mk_select bws (sl_disabled (ef_bandwidth f)) in
  let? approval := populateApprovalWarning intfs interfaceOptions sel (sl_value bandwidth) (ef_approval f) in
  let? eid := prop (ef_entity f) "entity_id" in
  let none := Nat.eqb (length vlans) 0 in
  Ok (EForm (ef_entity f) (ef_type f) (ef_radios f) sel
        (vlan_select vlan vlans (strict_eq vlan (VInt (-1)))) bandwidth approval
        (ef_account f) (ef_account_shown f) (ef_account_labels f)
        (ef_gateway f) (ef_gateway_shown f) (ef_jumbo f) (ef_jumbo_disabled f)
        none (none && negb (loose_eq eid (VInt 1)))).

(** The gateway type that is submitted. *)
Definition gateway_type (f : eform) : res val :=
  if strict_eq (ef_type f) (VStr "aws-hosted-connection")
     || strict_eq (ef_type f) (VStr "gcp-partner-interconnect")
  then let? g := chosen (ef_gateway f) in Ok (VStr (o_value g))
  else Ok VNull.

(** The assignments of the submit handler of the entity form. *)
Definition entity_writes (f : eform) : list (res (string * val)) :=
  let mtu :=
    if strict_eq (ef_type f) (VStr "aws-hosted-connection") then
      [ let? g := gateway_type f in
        Ok ("mtu", if ef_jumbo f then (if strict_eq g (VStr "transit") then VInt 8500 else VInt 9001)
                   else VInt 1500) ]
    else if strict_eq (ef_type f) (VStr "gcp-partner-interconnect") then
      [ let? g := gateway_type f in Ok ("mtu", VNum (parseInt g)) ]
    else [] in
  mtu ++
  [ (let? b := chosen (ef_bandwidth f) in Ok ("bandwidth", VStr (o_value b)));
    (let? v := chosen (ef_vlans f) in Ok ("tag", VStr (o_value v)));
    Ok ("cloud_account_id", VStr (js_trim (ef_account f)));
    (let? n := prop (ef_entity f) "name" in Ok ("entity", n));
    Ok ("name", (ef_selected f).1);
    Ok ("node", (ef_selected f).2);
    Ok ("interface", (ef_selected f).1);
    Ok ("jumbo", VBool (ef_jumbo f));
    Ok ("cloud_interconnect_type", ef_type f);
    (let? g := gateway_type f in Ok ("cloud_gateway_type", g)) ].

(** The submit handler: without an endpoint every assignment throws. *)
Definition entity_submit (f : eform) (endpoint : option loc) (p : page) : page * res unit :=
  match endpoint with
  | None => (p, Err EType)
  | Some l =>
      let '(fs, e) := run_writes (entity_writes f) in
      let p1 := with_heap (write_all (pg_heap p) l fs) p in
      match e with
      | Some e => (p1, Err e)
      | None => (updateEndpoint l p1, Ok tt)
      end
  end.

End forms.

(** ** Lemmas: select elements *)

Lemma last_selected_spec l i :
  last_selected l = Some i -> exists o, l !! i = Some o /\ o_selected o = true.
Proof.
  revert i. induction l as [|o l IH]; intros i; simpl; [done|].
  destruct (last_selected l) as [j|].
  - intros [= <-]. destruct (IH j eq_refl) as (o' & H1 & H2). eauto.
  - destruct (o_selected o) eqn:E; [|done]. intros [= <-]. eauto.
Qed.

Lemma last_selected_none l o : last_selected l = None -> o ∈ l -> o_selected o = false.
Proof.
  induction l as [|x l IH]; simpl; [set_solver|].
  destruct (last_selected l); [done|]. destruct (o_selected x) eqn:E; [done|].
  intros _ [->|Hin]%elem_of_cons; auto.
Qed.

(** A non-empty list always has a chosen option. *)
Lemma chosen_mk_select l d : l <> [] -> exists o, chosen (mk_select l d) = Ok o /\ o ∈ l.
Proof.
  intros Hl. unfold chosen, mk_select, initial_index; simpl.
  destruct (last_selected l) as [i|] eqn:E.
  - destruct (last_selected_spec l i E) as (o & Ho & _). rewrite Ho.
    exists o. split; [done | by eapply list_elem_of_lookup_2].
  - destruct l as [|o l]; [done|]. exists o. split; [done | set_solver].
Qed.

(** When some option is selected, the chosen one is selected. *)
Lemma chosen_selected l d o :
  o ∈ l -> o_selected o = true ->
  exists o', chosen (mk_select l d) = Ok o' /\ o' ∈ l /\ o_selected o' = true.
Proof.
  intros Hin Hs. unfold chosen, mk_select, initial_index; simpl.
  destruct (last_selected l) as [i|] eqn:E.
  - destruct (last_selected_spec l i E) as (o' & Ho & Hs'). rewrite Ho.
    exists o'. split_and!; [done | by eapply list_elem_of_lookup_2 | done].
  - apply (last_selected_none l o E) in Hin. congruence.
Qed.

(** ** Lemmas: submitting the interface form *)

Section submit.
Context `{EndpointPage}.

Lemma interface_writes_run f o v :
  chosen (if_vlans f) = Ok v ->
  exists fs, run_writes (interface_writes f o) = (fs, None) /\
             names fs = ["bandwidth"; "name"; "interface"; "interface_id"; "description"; "node";
                         "entity"; "entity_id"; "peerings"; "cloud_account_id"; "tag"; "jumbo";
                         "cloud_interconnect_type"] /\
             obj_get "tag" fs = Some (VStr (o_value v)).
Proof. intros Hv. unfold interface_writes. rewrite Hv. simpl. eexists. split_and!; reflexivity. Qed.

Lemma write_all_insert h l o fs : write_all (<[l := o]> h) l fs = <[l := obj_set_all o fs]> h.
Proof. by rewrite write_all_alter, alter_insert_eq. Qed.

Lemma interface_submit_new f idx o v fs p :
  chosen (if_interfaces f) = Ok o -> chosen (if_vlans f) = Ok v ->
  run_writes (interface_writes f o) = (fs, None) ->
  interface_submit f idx None p
  = (Some (pg_next p), submit_object (obj_set_all [("index", idx)] fs) p, Ok tt).
Proof.
  intros Ho Hv Hf. unfold interface_submit. rewrite Ho. cbn [alloc]. rewrite Hf.
  unfold submit_object, with_heap. cbn [alloc pg_heap pg_endpoints pg_next].
  by rewrite write_all_insert.
Qed.

Lemma interface_submit_edit f idx o v fs l p :
  chosen (if_interfaces f) = Ok o -> chosen (if_vlans f) = Ok v ->
  run_writes (interface_writes f o) = (fs, None) ->
  interface_submit f idx (Some l) p = (Some l, submit_edit l fs p, Ok tt).
Proof. intros Ho Hv Hf. unfold interface_submit. by rewrite Ho, Hf. Qed.

Lemma names_avoid_fields fs :
  forallb (fun f => negb (existsb (String.eqb f) (names fs))) page_fields = true ->
  forall f, f ∈ page_fields -> f ∉ names fs.
Proof.
  rewrite forallb_forall. intros Hf f Hin Hn. apply list_elem_of_In in Hin.
  apply Hf, negb_true_iff in Hin. apply list_elem_of_In in Hn.
  assert (existsb (String.eqb f) (names fs) = true) as E; [|congruence].
  apply existsb_exists. exists f. split; [done | apply String.eqb_refl].
Qed.

End submit.

(** ** Properties *)

(** Pressing the submit button of the interface form twice, as a double click
    does, adds one endpoint: the second press finds the object the first one
    created, with the index the page has given it, and stores it in its own
    place with the same fields. *)
Theorem interface_double_submit `{EndpointPage} os p f o v :
  Forall (fun o => usable o = true) os -> reachable os p ->
  chosen (if_interfaces f) = Ok o -> chosen (if_vlans f) = Ok v ->
  forall m1 p1 r1 m2 p2 r2,
  interface_submit f (VInt (-1)) None p = (m1, p1, r1) ->
  interface_submit f (VInt (-1)) m1 p1 = (m2, p2, r2) ->
  r1 = Ok tt /\ r2 = Ok tt /\
  pg_endpoints p1 = pg_endpoints p ++ [Some (pg_next p)] /\
  pg_endpoints p2 = pg_endpoints p1.
Proof.
  intros Hos Hr Ho Hv m1 p1 r1 m2 p2 r2 H1 H2.
  destruct (interface_writes_run f o v Hv) as (fs & Hf & Hn & _).
  rewrite (interface_submit_new f _ o v fs p Ho Hv Hf) in H1. simplify_eq.
  rewrite (interface_submit_edit f _ o v fs _ _ Ho Hv Hf) in H2. simplify_eq.
  set (o1 := obj_set_all [("index", VInt (-1))] fs).
  assert (Ho1 : obj_get "index" o1 = Some (VInt (-1))).
  { unfold o1. rewrite obj_get_set_all_frame; [done|]. rewrite Hn. by apply (bool_decide_unpack _). }
  assert (Hu : usable o1 = true).
  { unfold usable, o1. rewrite obj_get_set_all_frame; [done|]. rewrite Hn. by apply (bool_decide_unpack _). }
  destruct (reachable_wf os p Hos Hr) as (ls & Hw).
  pose proof (submit_new_wf p ls o1 Hw Ho1 Hu) as Hw1.
  assert (Hl : (ls ++ [pg_next p]) !! length ls = Some (pg_next p)) by by apply list_lookup_middle.
  split_and!; [done | done | |].
  - by rewrite (wf_list _ _ Hw1), map_app, (wf_list _ _ Hw).
  - rewrite (wf_list _ _ Hw1). apply wf_list. eapply submit_edit_wf; [done | exact Hl |].
    apply names_avoid_fields. by rewrite Hn.
Qed.

Definition sample_iform : iform :=
  IForm (mk_select [Opt "11" "sw1 e0" [("name", "e0"); ("node", "sw1"); ("description", "up");
                                        ("cloud_interconnect_type", "null")] true] false)
    (mk_select [Opt "100" "100" [] true] false)
    (mk_select [Opt "0" "Unlimited" [] true] true) true false.

Lemma interface_double_submit_witness :
  exists p1 p2,
  interface_submit (H := provision_cloud) sample_iform (VInt (-1)) None (@load provision_cloud sample_load)
  = (Some 3, p1, Ok tt) /\
  interface_submit (H := provision_cloud) sample_iform (VInt (-1)) (Some 3) p1 = (Some 3, p2, Ok tt) /\
  pg_endpoints p2 = [Some 0; Some 1; Some 2; Some 3].
Proof.
  eexists _, _. split; [reflexivity|]. split; [reflexivity|].
  destruct (@interface_double_submit provision_cloud sample_load (@load provision_cloud sample_load) sample_iform
              _ _ ltac:(repeat constructor) (@reach_load provision_cloud sample_load) eq_refl eq_refl
              _ _ _ _ _ _ eq_refl eq_refl) as (_ & _ & H1 & H2).
  exact (eq_trans H2 H1).
Defined.

(** ** Lemmas: VLAN values *)

Lemma rtrim_digits s : str_forall is_digit s = true -> rtrim s = s.
Proof.
  induction s as [|c s IH]; [done|]. cbn [str_forall]. intros [Hc Hs]%andb_true_iff.
  cbn [rtrim]. rewrite IH by done. destruct s; [|done]. by rewrite is_digit_not_space.
Qed.

Lemma string_to_num_N n : string_to_num (string_of_N n) = Fin (Dec (Z.of_N n) 0).
Proof.
  rewrite <- (unsigned_literal_digits n). unfold string_to_num, js_trim.
  pose proof (string_of_N_digits n) as D. destruct (string_of_N_cons n) as (c & s & E & Hc).
  rewrite E in *. rewrite ltrim_digit, rtrim_digits by done.
  cbn [str_forall] in D. apply andb_true_iff in D as [_ D].
  pose proof (take_sign_digit c s Hc) as T.
  destruct s as [|d s].
  - destruct c as [[] [] [] [] [] [] [] []]; try discriminate Hc; reflexivity.
  - cbn [str_forall] in D. apply andb_true_iff in D as [Hd _]. pose proof (is_digit_not_x d Hd) as Hx.
    destruct c as [[] [] [] [] [] [] [] []]; try discriminate Hc; rewrite ?Hx, ?T; reflexivity.
Qed.

(** A VLAN as the services send it (a number) or as a form leaves it (text). *)
Definition is_vlan (n : N) (v : val) : Prop := v = VInt (Z.of_N n) \/ v = VStr (string_of_N n).

Lemma is_vlan_show n v : is_vlan n v -> show v = string_of_N n.
Proof. intros [-> | ->]; [|done]. by destruct n. Qed.

Lemma is_vlan_number n v : is_vlan n v -> to_number v = Fin (Dec (Z.of_N n) 0).
Proof. intros [-> | ->]; [done | apply string_to_num_N]. Qed.

Lemma is_vlan_eq n m v w : is_vlan n v -> is_vlan m w -> loose_eq v w = true <-> n = m.
Proof.
  intros Hv Hw. assert (num_eqb (to_number v) (to_number w) = true <-> n = m) as G.
  { rewrite (is_vlan_number n), (is_vlan_number m), num_eqb_int by done. lia. }
  destruct Hv as [-> | ->], Hw as [-> | ->]; try exact G.
  simpl. rewrite String.eqb_eq. split; [apply string_of_N_inj | by intros ->].
Qed.

(** A list of VLANs in which the preselected one occurs shows that one. *)
Lemma vlan_select_value tag n l d :
  is_vlan n tag -> tag ∈ l -> Forall (fun v => exists m, is_vlan m v) l ->
  sl_value (vlan_select tag l d) = string_of_N n.
Proof.
  intros Ht Hin Hl. unfold sl_value, vlan_select.
  destruct (chosen_selected (map (vlan_option tag) l) d (vlan_option tag tag)) as (o & -> & Ho & Hs).
  - by apply (list_elem_of_fmap_2 (vlan_option tag)).
  - simpl. by apply (is_vlan_eq n n).
  - apply (list_elem_of_fmap_1 (vlan_option tag)) in Ho as (v & -> & Hv). simpl in *.
    rewrite list.Forall_forall in Hl. destruct (Hl v Hv) as (m & Hm).
    apply (is_vlan_eq m n v tag Hm Ht) in Hs as ->. by apply is_vlan_show.
Qed.

Lemma includes_in l v : includes l v = true -> exists w, w ∈ l /\ (v = VNum NaN \/ strict_eq w v = true).
Proof.
  unfold includes. rewrite existsb_exists. intros (w & Hw%list_elem_of_In & E). exists w.
  split; [done|]. destruct w as [| | |[]| | |], v as [| | |[]| | |]; auto.
Qed.

(** [includes] among VLANs finds the same value. *)
Lemma includes_vlan l n v :
  is_vlan n v -> Forall (fun v => exists m, is_vlan m v) l -> includes l v = true -> v ∈ l.
Proof.
  intros Hv Hl (w & Hw & [->|E])%includes_in; [by destruct Hv|].
  rewrite list.Forall_forall in Hl. destruct (Hl w Hw) as (m & Hm).
  destruct Hv as [-> | ->], Hm as [-> | ->]; try discriminate E.
  - rewrite strict_eq_int in E. apply Z.eqb_eq in E. by rewrite <- E.
  - rewrite strict_eq_str in E. apply String.eqb_eq in E. by rewrite <- E.
Qed.

Lemma offer_in l n v :
  is_vlan n v -> Forall (fun v => exists m, is_vlan m v) l ->
  v ∈ (if includes l v then l else v :: l) /\
  Forall (fun v => exists m, is_vlan m v) (if includes l v then l else v :: l).
Proof.
  intros Hv Hl. destruct (includes l v) eqn:E.
  - split; [by eapply includes_vlan | done].
  - split; [set_solver | constructor; eauto].
Qed.

(** Opening the dialog on an existing endpoint offers the endpoint's own VLAN
    and shows it as chosen, in both forms: whether its tag is the number the
    service sent or the text an earlier submit stored, and whether or not the
    VLAN is still listed as available. *)
Theorem own_vlan_preselected e n tag :
  obj_get "tag" e = Some tag -> is_vlan n tag ->
  (forall l, Forall (fun v => exists m, is_vlan m v) l ->
     exists vlans, vlan_choices (VObj e) (VArr l) = Ok (tag, vlans) /\
                   forall d, sl_value (vlan_select tag vlans d) = string_of_N n) /\
  (forall intfs sel h, vlan_table sel intfs = Ok h -> Forall (fun k => exists m, k = string_of_N m) (names h) ->
     exists vlans, populateVLANs (VObj e) intfs sel = Ok (tag, vlans) /\
                   forall d, sl_value (vlan_select tag vlans d) = string_of_N n).
Proof.
  intros Htag Hn. split.
  - intros l Hl. unfold vlan_choices.
    change (prop (VArr l) "length") with (Ok (VInt (Z.of_nat (length l)))). cbn [res_bind].
    change (prop (VObj e) "tag") with (Ok (default VUndef (obj_get "tag" e))). rewrite Htag.
    destruct (offer_in l n tag Hn Hl) as [H1 H2].
    exists (if includes l tag then l else tag :: l). split.
    + by destruct (strict_eq (VInt (Z.of_nat (length l))) (VInt 0)).
    + intros d. by apply vlan_select_value.
  - intros intfs sel h Hh Hk. unfold populateVLANs. rewrite Hh. cbn [res_bind present has prop].
    rewrite Htag. cbn [res_bind from_option id].
    assert (Forall (fun v => exists m, is_vlan m v) (map VStr (names h))) as Hl.
    { apply list.Forall_forall. intros v (k & -> & Hin)%(list_elem_of_fmap_1 VStr).
      rewrite list.Forall_forall in Hk. destruct (Hk k Hin) as (m & ->). exists m. by right. }
    destruct (offer_in _ n tag Hn Hl) as [H1 H2].
    assert (strict_eq tag (VInt (-1)) = false) as ->.
    { destruct Hn as [-> | ->]; [|done]. rewrite strict_eq_int. apply Z.eqb_neq. lia. }
    eexists. split; [reflexivity|]. intros d. cbn [negb andb].
    destruct (includes _ tag); cbn [negb]; by apply vlan_select_value.
Qed.

Lemma own_vlan_preselected_witness :
  exists vlans, vlan_choices (VObj [("tag", VStr "7")]) (VArr [VInt 5; VInt 7]) = Ok (VStr "7", vlans) /\
                forall d, sl_value (vlan_select (VStr "7") vlans d) = "7".
Proof.
  apply (own_vlan_preselected [("tag", VStr "7")] 7 (VStr "7")).
  - reflexivity.
  - by right.
  - repeat constructor; [by exists 5%N; left | by exists 7%N; left].
Defined.

(** ** Lemmas: the VLAN table *)

(** An interface whose available VLANs are the numbers [ns]. *)
Definition offers (i : val) (ns : list N) : Prop :=
  prop i "available_vlans" = Ok (VArr (map (fun n => VInt (Z.of_N n)) ns)).

Definition candidate (sel : val * val) (i : val) : bool :=
  match is_candidate sel i with Ok b => b | Err _ => false end.

Lemma table_fold_names ns h k :
  k ∈ names (foldl (fun h v => obj_set (to_string v) (VInt 1) h) h (map (fun n => VInt (Z.of_N n)) ns))
  <-> k ∈ names h \/ exists n, n ∈ ns /\ k = string_of_N n.
Proof.
  revert h. induction ns as [|n ns IH]; intros h; cbn [map foldl]; [set_solver|].
  rewrite IH, obj_set_names_in. change (to_string (VInt (Z.of_N n))) with (show (VInt (Z.of_N n))).
  rewrite (is_vlan_show n) by by left. set_solver.
Qed.

Lemma table_fold_canonical l h :
  canonical (names h) = true ->
  canonical (names (foldl (fun h v => obj_set (to_string v) (VInt 1) h) h l)) = true.
Proof.
  revert h. induction l as [|v l IH]; intros h Hh; simpl; [done|]. by apply IH, obj_set_canonical.
Qed.

Lemma vlan_table_spec sel intfs nss h0 h :
  Forall2 offers intfs nss -> canonical (names h0) = true ->
  res_fold (vlan_table_step sel) h0 intfs = Ok h ->
  canonical (names h) = true /\
  forall k, k ∈ names h <->
    k ∈ names h0 \/ exists j i ns n, intfs !! j = Some i /\ nss !! j = Some ns /\
                     candidate sel i = true /\ n ∈ ns /\ k = string_of_N n.
Proof.
  intros Hf. revert h0. induction Hf as [|i ns intfs nss Hi Hf IH]; intros h0 Hc; cbn [res_fold].
  { intros [= <-]. split; [done|]. intros k. split; [auto|]. by intros [?|(j & ? & ? & ? & ? & _)]. }
  unfold vlan_table_step at 1. intros Hh.
  destruct (is_candidate sel i) as [c|e] eqn:Ec; [|done]. cbn [res_bind] in Hh.
  rewrite Hi in Hh. cbn [res_bind for_elements] in Hh.
  assert (Cc : candidate sel i = c) by (unfold candidate; by rewrite Ec).
  destruct c; cbn [res_bind] in Hh; apply IH in Hh as [H1 H2]; auto using table_fold_canonical;
    (split; [done|]); intros k; rewrite H2, ?table_fold_names.
  - split.
    + intros [[Hk|(n & Hn & ->)] | (j & R)]; [by left | right; by exists 0, i, ns, n | right; by exists (S j)].
    + intros [Hk|([|j] & i' & ns' & n & E1 & E2 & R)]; [by left; left | |].
      * cbn in E1, E2. simplify_eq. left; right. exists n. tauto.
      * right. exists j, i', ns', n. tauto.
  - split.
    + intros [Hk|(j & R)]; [by left | right; by exists (S j)].
    + intros [Hk|([|j] & i' & ns' & n & E1 & E2 & E3 & R)]; [by left | |].
      * cbn in E1, E2. simplify_eq. congruence.
      * right. exists j, i', ns', n. tauto.
Qed.

(** Property order on numerals is numeric order. *)
Lemma canonical_sorted ns : canonical (map string_of_N ns) = true -> StronglySorted N.lt ns.
Proof.
  induction ns as [|n ns IH]; cbn [map canonical]; [constructor|].
  intros [H1 H2]%andb_true_iff. constructor; [auto|]. apply list.Forall_forall. intros m Hm.
  rewrite forallb_key_ok in H1.
  assert (key_ok (string_of_N n) (string_of_N m) = true) as K.
  { apply H1. by apply (list_elem_of_fmap_2 string_of_N). }
  apply key_ok_spec in K as [K1 K2]. unfold key_first in K2. rewrite !array_index_N in K2.
  apply N.ltb_ge in K2. assert (n <> m) by congruence. lia.
Qed.

Lemma numerals_of ks : Forall (fun k => exists n, k = string_of_N n) ks -> exists ns, ks = map string_of_N ns.
Proof.
  induction 1 as [|k ks (n & ->) _ (ns & ->)]; [by exists [] | by exists (n :: ns)].
Qed.

(** The VLANs the entity form offers for a new endpoint are, in strictly
    increasing order and without repetition, exactly those available on an
    interface that is selected or that selects itself; the first of them is
    the one shown. *)
Theorem offered_vlans sel intfs nss vlan vlans :
  Forall2 offers intfs nss -> populateVLANs VNull intfs sel = Ok (vlan, vlans) ->
  exists ns, vlans = map (fun n => VStr (string_of_N n)) ns /\ StronglySorted N.lt ns /\
    (forall n, n ∈ ns <-> exists j i l, intfs !! j = Some i /\ nss !! j = Some l /\
                                      candidate sel i = true /\ n ∈ l) /\
    forall n ns', ns = n :: ns' -> vlan = VStr (string_of_N n).
Proof.
  intros Hf Hp. unfold populateVLANs in Hp. destruct (vlan_table sel intfs) as [h|e] eqn:Hh; [|done].
  cbn [res_bind present] in Hp.
  destruct (vlan_table_spec sel intfs nss [] h Hf eq_refl Hh) as [Hc Hk].
  destruct (numerals_of (names h)) as (ns & Hns).
  { apply list.Forall_forall. intros k Hin. apply Hk in Hin as [Hin|(j & i & l & n & _ & _ & _ & _ & ->)]; [set_solver | eauto]. }
  rewrite Hns in *. exists ns.
  assert (forall n, n ∈ ns <-> string_of_N n ∈ map string_of_N ns) as Hin.
  { intros n. split; [by apply (list_elem_of_fmap_2 string_of_N)|].
    intros (m & E & Hm)%(list_elem_of_fmap_1 string_of_N). by apply string_of_N_inj in E as ->. }
  assert (vlan = default (VInt (-1)) (head (map VStr (map string_of_N ns))) /\ vlans = map VStr (map string_of_N ns)) as [-> ->].
  { apply Ok_inj in Hp. destruct ns as [|n ns']; [cbn in Hp; by simplify_eq|].
    unfold includes in Hp. cbn [existsb map head from_option id] in Hp.
    rewrite strict_eq_str, String.eqb_refl in Hp. cbn [orb negb] in Hp.
    rewrite andb_false_r in Hp. by simplify_eq. }
  split_and!.
  - by rewrite map_map.
  - by apply canonical_sorted.
  - intros n. rewrite Hin, Hk. split.
    + intros [E|(j & i & l & m & H1 & H2 & H3 & H4 & ->%string_of_N_inj)]; [set_solver | eauto 8].
    + intros (j & i & l & H1 & H2 & H3 & H4). right. by exists j, i, l, n.
  - by intros n ns' ->.
Qed.

Definition sample_interface (node name : string) (vlans : list val) : val :=
  VObj [("node", VStr node); ("name", VStr name); ("cloud_interconnect_type", VNull);
        ("available_vlans", VArr vlans)].

Lemma offered_vlans_witness :
  exists ns, [VStr "9"; VStr "10"; VStr "100"] = map (fun n => VStr (string_of_N n)) ns /\ StronglySorted N.lt ns.
Proof.
  destruct (offered_vlans (VStr "e1", VStr "sw1")
              [sample_interface "sw1" "e0" [VInt 5]; sample_interface "sw1" "e1" [VInt 100; VInt 9; VInt 10]]
              [[5%N]; [100%N; 9%N; 10%N]] (VStr "9") [VStr "9"; VStr "10"; VStr "100"])
    as (ns & H1 & H2 & _).
  - repeat constructor.
  - reflexivity.
  - exists ns. split; [exact H1 | exact H2].
Defined.

(** ** Lemmas: the interface list of an entity *)

Lemma radio_step_inv rs sel i rs' sel' :
  radio_step (rs, sel) i = Ok (rs', sel') ->
  exists r, rs' = rs ++ [r] /\ r_checked r = negb (r_disabled r) /\
            sel' = if r_disabled r then sel else (r_name r, r_node r).
Proof.
  unfold radio_step, interface_radio. intros H.
  apply res_bind_Ok_inv in H as (r & Hr & H). simplify_eq.
  apply res_bind_Ok_inv in Hr as (a & _ & Hr). apply res_bind_Ok_inv in Hr as (b & _ & Hr).
  apply res_bind_Ok_inv in Hr as (c & _ & Hr). apply res_bind_Ok_inv in Hr as (d & _ & Hr).
  simplify_eq. eauto.
Qed.

Lemma shown_radio_app rs r : shown_radio (rs ++ [r]) = if r_checked r then Some r else shown_radio rs.
Proof.
  unfold shown_radio. rewrite List.filter_app. simpl. destruct (r_checked r).
  - apply last_snoc.
  - by rewrite app_nil_r.
Qed.

Lemma radios_inv start intfs rs0 sel0 rs sel :
  sel0 = from_option (fun r => (r_name r, r_node r)) start (shown_radio rs0) ->
  res_fold radio_step (rs0, sel0) intfs = Ok (rs, sel) ->
  sel = from_option (fun r => (r_name r, r_node r)) start (shown_radio rs).
Proof.
  revert rs0 sel0. induction intfs as [|i intfs IH]; intros rs0 sel0 H0; cbn [res_fold].
  - intros [= <- <-]. done.
  - intros H. apply res_bind_Ok_inv in H as ([rs1 sel1] & H1 & H2). eapply IH; [|exact H2].
    apply radio_step_inv in H1 as (r & -> & Hc & ->). rewrite shown_radio_app, Hc.
    by destruct (r_disabled r).
Qed.

(** The parts of a filled entity form. *)
Lemma entity_form_inv endpoint entity start account iopts was f :
  entity_form endpoint entity start account iopts was = Ok f ->
  (exists intfs, res_fold radio_step ([], start) intfs = Ok (ef_radios f, ef_selected f)) /\
  (exists shown g0, gateway_select endpoint (ef_type f) = Ok (shown, g0) /\
     restore_jumbo endpoint (fst (jumbo_default (ef_type f))) g0 = Ok (ef_jumbo f, ef_gateway f)) /\
  (exists vlan vlans d, ef_vlans f = vlan_select vlan vlans d /\
     ef_add_disabled f = Nat.eqb (length vlans) 0) /\
  sl_index (ef_bandwidth f) = initial_index (sl_options (ef_bandwidth f)) /\
  ef_entity f = entity /\ (exists v, prop entity "interfaces" = Ok v).
Proof.
  unfold entity_form. intros H.
  apply res_bind_Ok_inv in H as (v & Hv & H). apply res_bind_Ok_inv in H as (intfs & _ & H).
  apply res_bind_Ok_inv in H as ([rs sel] & Hr & H). apply res_bind_Ok_inv in H as (bws & _ & H).
  apply res_bind_Ok_inv in H as (approval & _ & H). apply res_bind_Ok_inv in H as ([vlan vlans] & _ & H).
  apply res_bind_Ok_inv in H as (ctype & _ & H). apply res_bind_Ok_inv in H as ([gshown g0] & Hg & H).
  destruct (jumbo_default ctype) as [dflt jd] eqn:Hj.
  apply res_bind_Ok_inv in H as ([jumbo g] & Hrj & H). apply res_bind_Ok_inv in H as (eid & _ & H).
  apply Ok_inj in H as <-.
  cbn [ef_radios ef_selected ef_type ef_jumbo ef_gateway ef_vlans ef_add_disabled ef_bandwidth ef_entity
       sl_index sl_options].
  rewrite Hj. split; [by exists intfs|]. split; [by exists gshown, g0|].
  split; [by eexists vlan, vlans, _|]. split; [done|]. split; [done | by exists v].
Qed.

(** The interface the entity form will submit is the one its list shows as
    checked: the last interface the user may pick; when every interface is
    disabled it is the endpoint's own, or TBD. *)
Theorem shown_interface_submitted endpoint entity start account iopts was f :
  entity_form endpoint entity start account iopts was = Ok f ->
  ef_selected f = from_option (fun r => (r_name r, r_node r)) start (shown_radio (ef_radios f)).
Proof.
  intros H. apply entity_form_inv in H as ((intfs & Hr) & _).
  by apply (radios_inv start) in Hr.
Qed.

Definition sample_entity : val :=
  VObj [("entity_id", VInt 4); ("name", VStr "Campus");
        ("interfaces", VArr [sample_interface "sw1" "e0" [VInt 5]; sample_interface "sw2" "e1" [VInt 100; VInt 9]])].

Lemma shown_interface_submitted_witness :
  exists f, entity_form VNull sample_entity (VStr "TBD", VStr "TBD") VNull [] false = Ok f /\
            ef_selected f = (VStr "e1", VStr "sw2").
Proof.
  eexists. split; [reflexivity|].
  apply (shown_interface_submitted VNull sample_entity (VStr "TBD", VStr "TBD") VNull [] false).
  reflexivity.
Defined.

(** ** Lemmas: the entity form that arrives *)

(** What submitting relies on. *)
Definition aws_type : val := VStr "aws-hosted-connection".
Definition gcp_type : val := VStr "gcp-partner-interconnect".
Definition aws_gateways : list opt := [plain_option "transit" "Transit"; plain_option "private" "Virtual Private"].
Definition gcp_gateways : list opt := [plain_option "1440" "1440"; plain_option "1500" "1500"].

Lemma gateway_restored endpoint ctype shown g0 dflt jumbo g :
  jumbo_default ctype = dflt ->
  gateway_select endpoint ctype = Ok (shown, g0) ->
  restore_jumbo endpoint (fst dflt) g0 = Ok (jumbo, g) ->
  (strict_eq ctype aws_type = true -> exists o, chosen g = Ok o) /\
  (strict_eq ctype gcp_type = true -> (exists o, chosen g = Ok o) <-> jumbo = false).
Proof.
  intros Hd Hg Hr. split; intros Ht.
  - destruct ctype as [| | | |s| |]; try done. apply String.eqb_eq in Ht. subst s.
    unfold gateway_select in Hg. simpl in Hg. simplify_eq.
    assert (E : exists o, chosen (Select aws_gateways (Some 1) false) = Ok o) by (eexists; reflexivity).
    unfold restore_jumbo in Hr. revert Hr.
    destruct (present endpoint); [|intros; by simplify_eq].
    destruct (has "jumbo" endpoint) as [[]|]; simpl; [| intros; by simplify_eq | done].
    destruct (prop endpoint "jumbo") as [j|]; simpl; [|done].
    destruct (loose_eq j (VInt 1) || loose_eq j (VBool true)); simpl; [|intros; by simplify_eq].
    destruct (prop endpoint "mtu") as [m|]; simpl; [|done]. intros. simplify_eq.
    destruct (js_gt m (VInt 8500)); eexists; reflexivity.
  - destruct ctype as [| | | |s| |]; try done. apply String.eqb_eq in Ht. subst s.
    unfold gateway_select in Hg. simpl in Hg. destruct (prop endpoint "mtu") as [m|] eqn:Em; simpl in Hg; simplify_eq.
    assert (E : exists o, chosen (Select gcp_gateways (Some (if loose_eq m (VInt 1500) then 1 else 0)) false) = Ok o).
    { destruct (loose_eq m (VInt 1500)); eexists; reflexivity. }
    unfold restore_jumbo in Hr. rewrite Em in Hr. revert Hr. simpl.
    destruct (present endpoint); [|intros; simplify_eq; naive_solver].
    destruct (has "jumbo" endpoint) as [[]|]; simpl; [| intros; simplify_eq; naive_solver | done].
    destruct (prop endpoint "jumbo") as [j|]; simpl; [|done].
    destruct (loose_eq j (VInt 1) || loose_eq j (VBool true)); simpl; intros; simplify_eq; [|naive_solver].
    split; [|done]. intros (o & Ho). by destruct (js_gt m (VInt 8500)).
Qed.

Lemma run_writes_ok ws : (exists fs, run_writes ws = (fs, None)) <-> Forall (fun w => exists kv, w = Ok kv) ws.
Proof.
  induction ws as [|[kv|e] ws IH]; simpl.
  - split; eauto.
  - rewrite list.Forall_cons, <- IH. destruct (run_writes ws) as [fs e]. split.
    + intros (fs' & E). simplify_eq. eauto.
    + intros (_ & fs' & E). simplify_eq. eauto.
  - rewrite list.Forall_cons. split; [by intros (? & ?) | by intros ((? & ?) & _)].
Qed.

Lemma entity_submit_ok `{EndpointPage} f l p :
  snd (entity_submit f (Some l) p) = Ok tt <-> Forall (fun w => exists kv, w = Ok kv) (entity_writes f).
Proof.
  rewrite <- run_writes_ok. unfold entity_submit. destruct (run_writes (entity_writes f)) as [fs [e|]]; simpl.
  - split; [done | by intros (? & ?)].
  - split; eauto.
Qed.

Lemma lift_ok {A B} (m : res A) (g : A -> B) : (exists b, (let? a := m in Ok (g a)) = Ok b) <-> exists a, m = Ok a.
Proof. destruct m; simpl; split; intros (? & ?); eauto; done. Qed.

Lemma prop_ok_any v k k' x : prop v k = Ok x -> exists y, prop v k' = Ok y.
Proof. destruct v; simpl; try done; intros _; repeat case_match; eauto. Qed.

Lemma gateway_type_ok f :
  (exists g, gateway_type f = Ok g) <->
  (strict_eq (ef_type f) aws_type || strict_eq (ef_type f) gcp_type = true -> exists o, chosen (ef_gateway f) = Ok o).
Proof.
  unfold gateway_type. fold aws_type gcp_type. destruct (_ || _).
  - rewrite lift_ok. naive_solver.
  - split; [done | eauto].
Qed.

Lemma entity_writes_ok f :
  Forall (fun w => exists kv, w = Ok kv) (entity_writes f) <->
  (exists b, chosen (ef_bandwidth f) = Ok b) /\ (exists v, chosen (ef_vlans f) = Ok v) /\
  (exists n, prop (ef_entity f) "name" = Ok n) /\ exists g, gateway_type f = Ok g.
Proof.
  unfold entity_writes. rewrite Forall_app, !list.Forall_cons, !lift_ok.
  assert (M : (exists g, gateway_type f = Ok g) ->
              Forall (fun w : res (string * val) => exists kv, w = Ok kv)
              (if strict_eq (ef_type f) aws_type then
                 [ let? g := gateway_type f in
                   Ok ("mtu", if ef_jumbo f then (if strict_eq g (VStr "transit") then VInt 8500 else VInt 9001)
                              else VInt 1500) ]
               else if strict_eq (ef_type f) gcp_type then
                 [ let? g := gateway_type f in Ok ("mtu", VNum (parseInt g)) ]
               else [])).
  { intros (g & ->). repeat case_match; repeat constructor; eauto. }
  fold aws_type gcp_type. split.
  - intros (_ & H1 & H2 & _ & H4 & _ & _ & _ & _ & _ & H5 & _). auto.
  - intros (H1 & H2 & H3 & H4). split; [auto|]. repeat (split; [eauto; fail|]). constructor.
Qed.

(** The endpoint a form was opened for: null, or the object the handler will write
    to. *)
Definition opened_for (p : page) (e : option loc) (endpoint : val) : Prop :=
  match e with
  | Some l => exists o, pg_heap p !! l = Some o /\ endpoint = VObj o
  | None => endpoint = VNull \/ endpoint = VUndef
  end.

(** C7 When the entity form enables its add button, submitting it as it opened
    throws nothing exactly when the form was opened for an endpoint (and not for a
    new one), the bandwidth list is not empty and the form is not that of a GCP
    partner interconnect opened on an endpoint with jumbo frames: without an
    endpoint there is no object to write to, and with jumbo frames the gateway list
    is set to a value it does not hold, no option is chosen, and the handler fails
    on it. *)
Theorem entity_submit_succeeds `{EndpointPage} endpoint entity start account iopts was f e p :
  opened_for p e endpoint ->
  entity_form endpoint entity start account iopts was = Ok f -> ef_add_disabled f = false ->
  snd (entity_submit f e p) = Ok tt <->
  e <> None /\ sl_options (ef_bandwidth f) <> [] /\
  ~ (strict_eq (ef_type f) gcp_type = true /\ ef_jumbo f = true).
Proof.
  intros Hopen Hf Ha. destruct e as [l|]; [|split; [done|by intros [? _]]]. clear Hopen.
  apply entity_form_inv in Hf as (_ & (shown & g0 & Hg & Hr) & (vlan & vlans & d & Hv & Hd) & Hb & He & (v & Hp)).
  rewrite entity_submit_ok, entity_writes_ok, gateway_type_ok.
  destruct (gateway_restored _ _ _ _ _ _ _ eq_refl Hg Hr) as [G1 G2].
  assert (V : exists v, chosen (ef_vlans f) = Ok v).
  { rewrite Hd in Ha. rewrite Hv. destruct (chosen_mk_select (map (vlan_option vlan) vlans) d) as (o & Ho & _); [|eauto].
    intros E%map_eq_nil. by rewrite E in Ha. }
  assert (B : (exists b, chosen (ef_bandwidth f) = Ok b) <-> sl_options (ef_bandwidth f) <> []).
  { destruct (ef_bandwidth f) as [bs i dd]; simpl in *. subst i. split.
    - by intros (b & E) ->.
    - intros Hn. destruct (chosen_mk_select bs dd Hn) as (o & Ho & _). eauto. }
  assert (N : exists n, prop (ef_entity f) "name" = Ok n) by (rewrite He; by eapply prop_ok_any).
  rewrite B. destruct (strict_eq (ef_type f) aws_type), (strict_eq (ef_type f) gcp_type), (ef_jumbo f);
    simpl; naive_solver.
Qed.

Definition gcp_interface : val :=
  VObj [("node", VStr "sw1"); ("name", VStr "e0"); ("cloud_interconnect_type", gcp_type);
        ("cloud_interconnect_id", VStr "gcp-1"); ("utilized_bandwidth", VInt 0);
        ("provisionable_bandwidth", VInt 1000); ("available_vlans", VArr [VInt 5])].
Definition gcp_entity : val :=
  VObj [("entity_id", VInt 4); ("name", VStr "GCP"); ("interfaces", VArr [gcp_interface])].

(** A page whose first endpoint is one of GCP with jumbo frames. *)
Definition gcp_endpoint : obj := [("index", VInt 0); ("entity_id", VInt 4); ("jumbo", VInt 1); ("mtu", VInt 1500)].
Definition gcp_page : page := Page {[ 0 := gcp_endpoint ]} [Some 0] 1.

Lemma entity_submit_succeeds_witness :
  exists f, entity_form (VObj gcp_endpoint) gcp_entity (VStr "TBD", VStr "TBD") VNull [] false = Ok f /\
  snd (entity_submit (H := provision_cloud) f (Some 0) gcp_page) <> Ok tt.
Proof.
  eexists. split; [reflexivity|]. intros Hs.
  apply (@entity_submit_succeeds provision_cloud (VObj gcp_endpoint) gcp_entity
           (VStr "TBD", VStr "TBD") VNull [] false _ (Some 0) gcp_page) in Hs; [|by exists gcp_endpoint|reflexivity|reflexivity].
  destruct Hs as (_ & _ & Hs). apply Hs. split; reflexivity.
Defined.

(** ** Lemmas: reading back what was submitted *)

Lemma read_back fs e0 k v :
  obj_get k fs = Some v -> NoDup (names fs) -> obj_get k (obj_set_all e0 fs) = Some v.
Proof.
  unfold obj_set_all. revert e0. induction fs as [|[k' v'] fs IH]; intros e0 Hk Hn; [done|].
  cbn [names map fst] in Hn. apply list.NoDup_cons in Hn as [Hin Hn]. cbn [obj_get] in Hk. cbn [foldl fst snd].
  destruct (String.eqb_spec k k') as [->|Hne].
  - simplify_eq. change (foldl _ ?o fs) with (obj_set_all o fs). rewrite obj_get_set_all_frame by done.
    apply obj_get_set_eq.
  - by apply IH.
Qed.

Lemma aws_writes f fs :
  ef_type f = aws_type -> run_writes (entity_writes f) = (fs, None) ->
  exists g, chosen (ef_gateway f) = Ok g /\ NoDup (names fs) /\
    obj_get "jumbo" fs = Some (VBool (ef_jumbo f)) /\
    obj_get "mtu" fs = Some (if ef_jumbo f then (if String.eqb (o_value g) "transit" then VInt 8500 else VInt 9001)
                             else VInt 1500).
Proof.
  intros Ht Hf. assert (exists fs, run_writes (entity_writes f) = (fs, None)) as Hok by eauto.
  rewrite run_writes_ok, entity_writes_ok in Hok.
  destruct Hok as ((b & Hb) & (v & Hv) & (n & Hn) & (g & Hg)).
  unfold gateway_type in Hg. rewrite Ht in Hg. simpl in Hg.
  destruct (chosen (ef_gateway f)) as [o|] eqn:Ho; [|done]. exists o. simpl in Hg. simplify_eq.
  revert Hf. unfold entity_writes, gateway_type. rewrite Ht, Hb, Hv, Hn, Ho. simpl. intros Hf. simplify_eq.
  split_and!; try reflexivity. by apply (bool_decide_unpack _).
Qed.

Lemma gcp_writes f fs :
  ef_type f = gcp_type -> run_writes (entity_writes f) = (fs, None) ->
  exists g, chosen (ef_gateway f) = Ok g /\ NoDup (names fs) /\
    obj_get "jumbo" fs = Some (VBool (ef_jumbo f)) /\
    obj_get "mtu" fs = Some (VNum (parseInt (VStr (o_value g)))).
Proof.
  intros Ht Hf. assert (exists fs, run_writes (entity_writes f) = (fs, None)) as Hok by eauto.
  rewrite run_writes_ok, entity_writes_ok in Hok.
  destruct Hok as ((b & Hb) & (v & Hv) & (n & Hn) & (g & Hg)).
  unfold gateway_type in Hg. rewrite Ht in Hg. simpl in Hg.
  destruct (chosen (ef_gateway f)) as [o|] eqn:Ho; [|done]. exists o. simpl in Hg. simplify_eq.
  revert Hf. unfold entity_writes, gateway_type. rewrite Ht, Hb, Hv, Hn, Ho. simpl. intros Hf. simplify_eq.
  split_and!; try reflexivity. by apply (bool_decide_unpack _).
Qed.

(** The two options of a gateway list. *)
Lemma chosen_two a b s o :
  sl_options s = [a; b] -> chosen s = Ok o ->
  (sl_index s = Some 0 /\ o = a) \/ (sl_index s = Some 1 /\ o = b).
Proof.
  intros Hs. unfold chosen. rewrite Hs. destruct (sl_index s) as [[|[|i]]|]; simpl; intros; simplify_eq; auto.
Qed.

(** Opening the entity form again on an endpoint it has submitted shows the
    gateway that was chosen: for an AWS hosted connection with jumbo frames
    the transit or private gateway, which is recovered from the MTU, and for a
    GCP partner interconnect the MTU itself. *)
Theorem gateway_roundtrip f fs e0 :
  run_writes (entity_writes f) = (fs, None) ->
  let e := VObj (obj_set_all e0 fs) in
  (ef_type f = aws_type -> sl_options (ef_gateway f) = aws_gateways -> ef_jumbo f = true ->
   exists g0 g, gateway_select e aws_type = Ok (true, g0) /\
     restore_jumbo e (fst (jumbo_default aws_type)) g0 = Ok (true, g) /\
     sl_value g = sl_value (ef_gateway f)) /\
  (ef_type f = gcp_type -> sl_options (ef_gateway f) = gcp_gateways -> ef_jumbo f = false ->
   exists g0 g, gateway_select e gcp_type = Ok (true, g0) /\
     restore_jumbo e (fst (jumbo_default gcp_type)) g0 = Ok (false, g) /\
     sl_value g = sl_value (ef_gateway f)).
Proof.
  intros Hf. cbv zeta. split; intros Ht Hs Hj.
  - destruct (aws_writes f fs Ht Hf) as (g & Hg & Hn & H1 & H2). rewrite Hj in *.
    pose proof (read_back fs e0 _ _ H1 Hn) as R1. pose proof (read_back fs e0 _ _ H2 Hn) as R2.
    generalize dependent (obj_set_all e0 fs). intros e' R1 R2.
    unfold restore_jumbo. cbn [present has prop]. rewrite R1, R2. unfold sl_value at 2. rewrite Hg.
    destruct (chosen_two _ _ _ _ Hs Hg) as [[_ ->] | [_ ->]];
      (eexists _, _; split; [reflexivity|]; split; reflexivity).
  - destruct (gcp_writes f fs Ht Hf) as (g & Hg & Hn & H1 & H2). rewrite Hj in *.
    pose proof (read_back fs e0 _ _ H1 Hn) as R1. pose proof (read_back fs e0 _ _ H2 Hn) as R2.
    generalize dependent (obj_set_all e0 fs). intros e' R1 R2.
    unfold gateway_select, restore_jumbo. cbn [present has prop]. rewrite R1, R2.
    unfold sl_value at 2. rewrite Hg.
    destruct (chosen_two _ _ _ _ Hs Hg) as [[_ ->] | [_ ->]];
      (eexists _, _; split; [reflexivity|]; split; reflexivity).
Qed.

Definition sample_eform (t : val) (gateway : select) (jumbo : bool) : eform :=
  EForm gcp_entity t [] (VStr "e0", VStr "sw1") (mk_select [plain_option "5" "5"] false)
    (mk_select [plain_option "50" "50 Mb/s"] false) false estr true (account_labels t)
    gateway true jumbo false false false.

Lemma gateway_roundtrip_witness :
  exists fs g0 g,
    run_writes (entity_writes (sample_eform aws_type (Select aws_gateways (Some 0) false) true)) = (fs, None) /\
    gateway_select (VObj (obj_set_all [] fs)) aws_type = Ok (true, g0) /\
    restore_jumbo (VObj (obj_set_all [] fs)) true g0 = Ok (true, g) /\ sl_value g = "transit".
Proof.
  destruct (gateway_roundtrip (sample_eform aws_type (Select aws_gateways (Some 0) false) true) _ []
              eq_refl) as [H1 _].
  destruct (H1 eq_refl eq_refl eq_refl) as (g0 & g & E1 & E2 & E3).
  eexists _, g0, g. split; [reflexivity|]. split; [exact E1|]. split; [exact E2 | exact E3].
Defined.
