(* ===== verification/Peering.v ===== *)
(** * The peering dialog (l3/peering_modal.js)

    The dialog that adds a BGP peering to an endpoint: its fields with their
    constraint validation, the address family switch, and the submit handler.
    The inputs of the page template (which fields are required, the limits of
    the ASN) are parameters. *)

From Stdlib Require Import ZArith Lia Ascii String.
From stdpp Require Import base option list sets strings numbers tactics.
From S2P Require Import Prelude JsValue JsRegex ValidateIP.

(** The dialog: the chosen address family, the inputs and the BFD checkbox. *)
Record dialog := Dialog {
  dg_version : string;
  dg_asn : field;
  dg_key : field;
  dg_your : field;
  dg_oess : field;
  dg_bfd : bool;
  dg_info : bool
}.

(** [input.value = null; input.placeholder = t] *)
Definition cleared (t : string) (f : field) : field := set_placeholder t (set_value estr f).

(** The ASN of Oracle, which cannot be edited. *)
Definition oracle_asn (f : field) : field := disable (set_placeholder "31898" (set_value "31898" f)).

(** The constructor, from a copy of the template. *)
Definition new_dialog (template : dialog) (isPeeringAutoGenerated cloud_interconnect_type : val) : dialog :=
  let d := if truthy isPeeringAutoGenerated then
             Dialog (dg_version template) (disable (cleared "0" (dg_asn template)))
               (disable (cleared estr (dg_key template)))
               (disable (cleared "192.168.1.2/31" (dg_your template)))
               (disable (cleared "192.168.1.3/31" (dg_oess template))) (dg_bfd template) true
           else template in
  if strict_eq cloud_interconnect_type (VStr "oracle-fast-connect")
  then Dialog (dg_version d) (oracle_asn (dg_asn d)) (dg_key d) (dg_your d) (dg_oess d) (dg_bfd d) (dg_info d)
  else d.

(** [handleIpVersionChange] *)
Definition handleIpVersionChange (d : dialog) : dialog :=
  let as_ip := if String.eqb (dg_version d) "ipv6" then asIPv6CIDR else asIPv4CIDR in
  Dialog (dg_version d) (dg_asn d) (dg_key d) (as_ip (dg_your d)) (as_ip (dg_oess d)) (dg_bfd d) (dg_info d).

(** [display(null, type)]; [first] is the first family the template offers. *)
Definition display (first : string) (cloud_interconnect_type : val) (d : dialog) : dialog :=
  handleIpVersionChange
    (Dialog first
       (if strict_eq cloud_interconnect_type (VStr "oracle-fast-connect") then oracle_asn (dg_asn d)
        else cleared "0" (dg_asn d))
       (cleared estr (dg_key d)) (cleared "192.168.1.2/31" (dg_your d))
       (cleared "192.168.1.3/31" (dg_oess d)) false (dg_info d)).

(** [(v === '') ? null : v] *)
Definition or_null (v : string) : val := match v with EmptyString => VNull | _ => VStr v end.

Section dialog.
(** Whether the template's constraints accept the ASN input. *)
Variable asn_valid : field -> bool.

(** The submit handler: the peering handed to the callback, or nothing when a
    field is invalid. *)
Definition submit_peering (d : dialog) : option val :=
  if negb (asn_valid (dg_asn d)) then None
  else if negb (valid (dg_your d)) then None
  else if negb (valid (dg_key d)) then None
  else if negb (valid (dg_oess d)) then None
  else Some (VObj [("ip_version", VStr (dg_version d)); ("peer_asn", VStr (fd_value (dg_asn d)));
                   ("md5_key", or_null (fd_value (dg_key d)));
                   ("local_ip", or_null (fd_value (dg_oess d)));
                   ("peer_ip", or_null (fd_value (dg_your d)));
                   ("operational_state", VStr "unknown"); ("bfd", VBool (dg_bfd d))]).

End dialog.

(** ** What the user can do while the dialog is open *)

Inductive edit : dialog -> dialog -> Prop :=
  | edit_version v d :
      edit d (handleIpVersionChange
                (Dialog v (dg_asn d) (dg_key d) (dg_your d) (dg_oess d) (dg_bfd d) (dg_info d)))
  | edit_your v d :
      edit d (Dialog (dg_version d) (dg_asn d) (dg_key d) (user_input v (dg_your d)) (dg_oess d) (dg_bfd d) (dg_info d))
  | edit_oess v d :
      edit d (Dialog (dg_version d) (dg_asn d) (dg_key d) (dg_your d) (user_input v (dg_oess d)) (dg_bfd d) (dg_info d))
  | edit_asn v d :
      edit d (Dialog (dg_version d) (user_input v (dg_asn d)) (dg_key d) (dg_your d) (dg_oess d) (dg_bfd d) (dg_info d))
  | edit_key v d :
      edit d (Dialog (dg_version d) (dg_asn d) (user_input v (dg_key d)) (dg_your d) (dg_oess d) (dg_bfd d) (dg_info d))
  | edit_bfd b d :
      edit d (Dialog (dg_version d) (dg_asn d) (dg_key d) (dg_your d) (dg_oess d) b (dg_info d)).

Inductive opened (template : dialog) (first : string) (auto ctype : val) : dialog -> Prop :=
  | open_display : opened template first auto ctype (display first ctype (new_dialog template auto ctype))
  | open_edit d d' : opened template first auto ctype d -> edit d d' -> opened template first auto ctype d'.

(** A subnet of the family the dialog's version names. *)
Definition subnet_of (version : string) (s : string) : Prop :=
  if String.eqb version "ipv6"
  then exists a m, is_ipv6 a /\ is_mask6 m /\ s = a +:+ "/" +:+ m
  else exists a m, is_ipv4 a /\ (m <= 32)%N /\ s = a +:+ "/" +:+ string_of_N m.

(** ** Lemmas *)

Definition family (version : string) : re := if String.eqb version "ipv6" then IPv6CIDR else IPv4CIDR.

Lemma family_subnet version s : re_match (family version) s = true <-> subnet_of version s.
Proof.
  unfold family, subnet_of. destruct (String.eqb version "ipv6"); rewrite re_match_lang;
    unfold IPv6CIDR, IPv4CIDR; rewrite lang_cidr.
  - setoid_rewrite lang_IPv6. by setoid_rewrite mask6_lang.
  - setoid_rewrite lang_IPv4. setoid_rewrite mask4_lang. naive_solver.
Qed.

Lemma on_input_pattern m f : fd_pattern (on_input m f) = fd_pattern f.
Proof. unfold on_input. by repeat case_match. Qed.

Lemma user_input_pattern v f : fd_pattern (user_input v f) = fd_pattern f.
Proof.
  unfold user_input. change (fd_pattern f) with (fd_pattern (set_value v f)).
  generalize (set_value v f). induction (fd_listeners f) as [|m l IH]; intros g; simpl; [done|].
  by rewrite IH, on_input_pattern.
Qed.

(** Both address inputs check for the family that is chosen. *)
Definition checks_family (d : dialog) : Prop :=
  fd_pattern (dg_your d) = Some (family (dg_version d)) /\
  fd_pattern (dg_oess d) = Some (family (dg_version d)).

Lemma version_change_checks d : checks_family (handleIpVersionChange d).
Proof.
  unfold checks_family, handleIpVersionChange, family. simpl.
  by destruct (String.eqb (dg_version d) "ipv6").
Qed.

Lemma opened_checks template first auto ctype d :
  opened template first auto ctype d -> checks_family d.
Proof.
  induction 1 as [|d d' _ IH He]; [apply version_change_checks|].
  destruct He; try exact IH; try apply version_change_checks;
    unfold checks_family in *; simpl; by rewrite user_input_pattern.
Qed.

Lemma valid_match f r : fd_pattern f = Some r -> valid f = true -> fd_value f = estr \/ re_match r (fd_value f) = true.
Proof.
  intros Hp. unfold valid, patternMismatch. rewrite Hp. destruct (fd_value f) as [|c s]; [by left|].
  simpl is_empty. intros H. right. destruct (re_match r (String c s)); [done|].
  rewrite !andb_true_iff in H. by destruct H as [[_ H] _].
Qed.

(** ** Properties *)

(** However the user switches the address family and types into the fields,
    a peering leaves the dialog only with addresses that are empty or subnets
    of the family it is declared with. *)
Theorem peering_family asn_valid template first auto ctype d p :
  opened template first auto ctype d -> submit_peering asn_valid d = Some p ->
  exists peer local,
    prop p "ip_version" = Ok (VStr (dg_version d)) /\
    prop p "peer_ip" = Ok (or_null peer) /\ prop p "local_ip" = Ok (or_null local) /\
    (peer = estr \/ subnet_of (dg_version d) peer) /\
    (local = estr \/ subnet_of (dg_version d) local).
Proof.
  intros Ho Hs. destruct (opened_checks _ _ _ _ _ Ho) as [Hy Hoe].
  unfold submit_peering in Hs. destruct (asn_valid (dg_asn d)), (valid (dg_your d)) eqn:Vy,
    (valid (dg_key d)), (valid (dg_oess d)) eqn:Vo; simpl in Hs; simplify_eq.
  exists (fd_value (dg_your d)), (fd_value (dg_oess d)).
  split_and!; [done | done | done | |]; rewrite <- family_subnet; by apply valid_match.
Qed.

Definition plain_field (required : bool) : field := Field required false estr "text" None estr estr [].
Definition sample_template : dialog :=
  Dialog "ipv4" (plain_field true) (plain_field false) (plain_field true) (plain_field true) false false.
Definition sample_shown : dialog := display "ipv4" VNull (new_dialog sample_template (VBool false) VNull).
Definition sample_typed : dialog :=
  let d := sample_shown in
  Dialog (dg_version d) (dg_asn d) (dg_key d) (user_input "10.0.0.2/31" (dg_your d)) (dg_oess d) (dg_bfd d) (dg_info d).
Definition sample_dialog : dialog :=
  let d := sample_typed in
  Dialog (dg_version d) (dg_asn d) (dg_key d) (dg_your d) (user_input "10.0.0.3/31" (dg_oess d)) (dg_bfd d) (dg_info d).

Lemma peering_family_witness :
  exists p, submit_peering (fun _ => true) sample_dialog = Some p /\
    exists peer local,
    prop p "ip_version" = Ok (VStr "ipv4") /\
    prop p "peer_ip" = Ok (or_null peer) /\ prop p "local_ip" = Ok (or_null local) /\
    (peer = estr \/ subnet_of "ipv4" peer) /\ (local = estr \/ subnet_of "ipv4" local).
Proof.
  eexists. split; [vm_compute; reflexivity|].
  apply (peering_family (fun _ => true) sample_template "ipv4" (VBool false) VNull sample_dialog).
  - apply (open_edit _ _ _ _ sample_typed); [|apply (edit_oess "10.0.0.3/31" sample_typed)].
    apply (open_edit _ _ _ _ sample_shown); [apply open_display | apply (edit_your "10.0.0.2/31" sample_shown)].
  - vm_compute. reflexivity.
Defined.

(** A message that was set for the other family stays until the next input: the
    field holds a correct IPv6 subnet and is still refused. *)
Example stale_message_blocks :
  let d := display "ipv4" VNull (new_dialog sample_template (VBool false) VNull) in
  let d := Dialog (dg_version d) (dg_asn d) (dg_key d) (user_input "fe80::1/64" (dg_your d)) (dg_oess d)
             (dg_bfd d) (dg_info d) in
  let d := handleIpVersionChange
             (Dialog "ipv6" (dg_asn d) (dg_key d) (dg_your d) (dg_oess d) (dg_bfd d) (dg_info d)) in
  (valid (dg_your d), valid (user_input "fe80::1/64" (dg_your d))) = (false, true).
Proof. by vm_compute. Qed.
