(* ===== verification/Handlers.v ===== *)
(** * Saving, deleting and loading connections

    The handlers of the four connection pages (provision_cloud.js,
    modify_cloud.js, provision_l2vpn.js, modify_l2vpn.js) that talk to the
    server, and the schedule picker (l2/schedule.js) whose times they send.
    A handler shows a dialog that covers the page while it waits; navigation
    leaves the page, and the dialog with it.

    The text of an exception of the JavaScript engine is a parameter. *)

From Stdlib Require Import ZArith Lia Ascii String.
From stdpp Require Import base option list sets strings numbers tactics.
From S2P Require Import Prelude JsValue JsJson Fetch Api Provision.

(** ** The schedule picker *)

(** The picker: the two radio buttons for now and never, and the dates of the
    two inputs in milliseconds, NaN when they do not parse. *)
Record schedule := Schedule {
  sc_create_now : bool;
  sc_create_date : num;
  sc_remove_never : bool;
  sc_remove_date : num
}.

Definition createTime (s : schedule) : val :=
  if negb (sc_create_now s) then VNum (num_shift 3 (sc_create_date s)) else VInt (-1).

Definition removeTime (s : schedule) : val :=
  if negb (sc_remove_never s) then VNum (num_shift 3 (sc_remove_date s)) else VInt (-1).

(** ** The handlers *)

Section handlers.
Variable engine_text : exn -> string.
Variable path : string.
Variable workgroup_id : val.

(** The text of what was thrown, in a message. *)
Definition error_text (e : exn) : string :=
  match e with EVal v => to_string v | _ => engine_text e end.

(** *** provision_cloud.js *)

Definition cloud_network (dialog : string) (vrfID : val) : io unit :=
  if strict_eq vrfID VNull then Act (AModal dialog false) (Ret tt)
  else Act (AGoto ("index.cgi?action=modify_cloud&vrf_id=" +:+ show vrfID)) (Ret tt).

Definition cloud_failed (dialog : string) (e : exn) : io unit :=
  Act (AModal dialog false) (Act (AAlert ("Failed to provision L3VPN: " +:+ error_text e)) (Ret tt)).

(** [save()]; [description_valid] is the validity of the description input. *)
Definition provision_cloud_save (description_valid : bool) (description : string)
    (endpoints : val) (sched : schedule) : io unit :=
  if negb description_valid then Ret tt else
  Act (AModal "#add-network-loading" true)
    (io_try
       (await vrfID := provisionVRF path workgroup_id (VStr description) (VStr description) endpoints
                         (createTime sched) (removeTime sched) (VInt (-1)) in
        cloud_network "#add-network-loading" vrfID)
       (cloud_failed "#add-network-loading")).

(** [cancel()] of the two layer 3 pages. *)
Definition cancel : io unit :=
  Confirm "Are you sure you wish to cancel? All your changes will be lost." (fun ok =>
    if ok then Act (AGoto "index.cgi") (Ret tt) else Ret tt).

(** *** modify_cloud.js *)

Definition modify_cloud_save (name : val) (header_description : string) (endpoints vrf_id : val) : io unit :=
  Act (AModal "#add-connection-loading" true)
    (io_try
       (await vrfID := provisionVRF path workgroup_id name (VStr header_description) endpoints
                         (VInt (-1)) (VInt (-1)) vrf_id in
        cloud_network "#add-connection-loading" vrfID)
       (cloud_failed "#add-connection-loading")).

Definition modify_cloud_delete (description vrf_id : val) : io unit :=
  let vrfID := VNum (parseInt vrf_id) in
  Confirm ("Are you sure you want to delete " +:+ dq +:+ show description +:+ dq +:+ "?") (fun ok =>
    if ok then
      Act (AModal "#delete-connection-loading" true)
        (io_try
           (await result := deleteVRF path workgroup_id vrfID in
            if loose_eq result VNull then Raise (EVal (VStr "Unknown"))
            else Act (AGoto "?action=welcome") (Ret tt))
           (fun e => Act (AModal "#delete-connection-loading" false)
              (Act (AAlert ("Failed to delete connection: " +:+ error_text e)) (Ret tt))))
    else Ret tt).

(** *** provision_l2vpn.js and modify_l2vpn.js *)

(** The continuation of [provisionCircuit] in the two pages. *)
Definition circuit_saved (dialog : string) (result : val) : io unit :=
  pure ok := (if strict_eq result VNull then Ok false
              else let? s := prop result "success" in Ok (loose_eq s (VInt 1))) in
  if ok then
    pure id := prop result "circuit_id" in
    Act (AGoto ("index.cgi?action=modify_l2vpn&circuit_id=" +:+ show id)) (Ret tt)
  else Act (AModal dialog false)
         (Act (AAlert "There was an unexpected error provisioning the connection.") (Ret tt)).

Definition circuit_failed (dialog : string) (e : exn) : io unit :=
  Act (AModal dialog false)
    (Act (AAlert ("There was an error provisioning the connection: " +:+ error_text e)) (Ret tt)).

(** The circuit of the provisioning page. *)
Record circuit := Circuit {
  ci_description : val;
  ci_endpoints : val;
  ci_static_mac : val;
  ci_provision_time : val;
  ci_remove_time : val;
  ci_circuit_id : val
}.

(** [saveCircuit()] of provision_l2vpn.js: seven arguments are passed. *)
Definition provision_l2vpn_saveCircuit (c : circuit) : io unit :=
  Act (AModal "#add-l2vpn-loading" true)
    (io_try
       (await result := provisionCircuit path
                          [workgroup_id; ci_description c; ci_endpoints c; ci_static_mac c;
                           ci_provision_time c; ci_remove_time c; ci_circuit_id c] in
        circuit_saved "#add-l2vpn-loading" result)
       (circuit_failed "#add-l2vpn-loading")).

(** The save button of provision_l2vpn.js. *)
Definition provision_l2vpn_save (description : string) (sched : schedule) (c : circuit) : io unit :=
  provision_l2vpn_saveCircuit
    (Circuit (VStr description) (ci_endpoints c) (ci_static_mac c) (createTime sched) (removeTime sched)
       (ci_circuit_id c)).

(** The circuit of a new page. *)
Definition new_circuit : circuit := Circuit VUndef (VArr []) (VInt 0) VUndef VUndef (VInt (-1)).

(** [deleteCircuit()] of provision_l2vpn.js. *)
Definition provision_l2vpn_delete : io val :=
  Confirm "Are you sure you wish to cancel? All your changes will be lost." (fun ok =>
    if ok then Act (AGoto "index.cgi") (Ret (VInt 1)) else Ret VNull).

(** [saveCircuit()] of modify_l2vpn.js: six arguments. *)
Definition modify_l2vpn_save (header_description : string) (c : circuit) : io unit :=
  Act (AModal "#modify-loading" true)
    (io_try
       (await result := provisionCircuit path
                          [workgroup_id; VStr header_description; ci_endpoints c;
                           ci_provision_time c; ci_remove_time c; ci_circuit_id c] in
        circuit_saved "#modify-loading" result)
       (circuit_failed "#modify-loading")).

(** [deleteCircuit()] of modify_l2vpn.js, up to the end of the request; its
    promise has no rejection handler. *)
Definition modify_l2vpn_delete (c : circuit) : io unit :=
  Confirm ("Are you sure you want to delete " +:+ dq +:+ show (ci_description c) +:+ dq +:+ "?") (fun ok =>
    if ok then
      Act (AModal "#modify-loading" true)
        (await result := deleteCircuit path workgroup_id (ci_circuit_id c) in
         if negb (strict_eq result VNull) then Act (AGoto "index.cgi") (Ret tt)
         else Act (AModal "#modify-loading" false)
                (Act (AAlert "There was an error deleting the connection.") (Ret tt)))
    else Ret tt).

(** [selectCircuit(id)] of modify_l2vpn.js: the four requests are issued in this
    order, and all their results are waited for. *)
Definition modify_l2vpn_select (id : val) : io (val * val * val * val) :=
  await circuit := getCircuit path id workgroup_id in
  await history := getCircuitHistory path id in
  await events := getCircuitEvents path id in
  await raw := getRawCircuit path id in
  Ret (circuit, history, events, raw).

End handlers.

(** ** Dialogs *)

(** Whether the dialog covers the page after an action. *)
Definition after_action (id : string) (open : bool) (a : action) : bool :=
  match a with
  | AModal i shown => if String.eqb i id then shown else open
  | AGoto _ => false
  | _ => open
  end.

Definition after_event (id : string) (open : bool) (e : event) : bool :=
  match e with EvAct a => after_action id open a | _ => open end.

Definition open_after (id : string) (t : list event) : bool := foldl (after_event id) false t.

(** Every run from a page where the dialog is open or not ends without a throw
    and without the dialog. *)
Fixpoint closes {A} (id : string) (open : bool) (m : io A) : Prop :=
  match m with
  | Ret _ => open = false
  | Raise _ => False
  | Fetch _ k => forall o, closes id open (k o)
  | Confirm _ k => forall b, closes id open (k b)
  | Act a k => closes id (after_action id open a) k
  end.

(** A program that only sends requests. *)
Fixpoint quiet {A} (m : io A) : Prop :=
  match m with
  | Ret _ | Raise _ => True
  | Fetch _ k => forall o, quiet (k o)
  | Confirm _ _ | Act _ _ => False
  end.

(** ** Lemmas *)

Lemma closes_run {S A} id open (m : io A) (w : env S) s :
  closes id open m ->
  foldl (after_event id) open (run_trace w m s) = false /\ exists a, run_result w m s = Ok a.
Proof.
  revert open s. unfold run_trace, run_result.
  induction m as [a|e|r k IH|q k IH|a k IH]; intros open s; simpl; intros Hc.
  - eauto.
  - done.
  - destruct (server w s r) as [s1 o]. specialize (IH o open s1 (Hc o)).
    destruct (run w (k o) s1) as [[]]. exact IH.
  - specialize (IH _ open s (Hc (answer w q))). destruct (run w (k (answer w q)) s) as [[]]. exact IH.
  - specialize (IH _ s Hc). destruct (run w k s) as [[]]. exact IH.
Qed.

Lemma quiet_bind {A B} (m : io A) (f : A -> io B) :
  quiet m -> (forall a, quiet (f a)) -> quiet (io_bind m f).
Proof. intros Hm Hf. induction m; simpl in *; auto. Qed.

Lemma quiet_lift {A} (r : res A) : quiet (io_lift r).
Proof. by destruct r. Qed.

Lemma quiet_fetch r : quiet (fetch_json r).
Proof. simpl. intros o. apply quiet_lift. Qed.

#[export] Hint Resolve quiet_bind quiet_lift quiet_fetch : oess.

Lemma closes_try {A B} id open (m : io A) (f : A -> io B) h :
  quiet m -> (forall a, closes id open (io_try (f a) h)) -> (forall e, closes id open (h e)) ->
  closes id open (io_try (io_bind m f) h).
Proof. intros Hq Hf Hh. induction m; simpl in *; auto; done. Qed.

Lemma quiet_provisionVRF path a b c d e f g : quiet (provisionVRF path a b c d e f g).
Proof. unfold provisionVRF, post_form. auto 10 with oess. Qed.

Lemma quiet_provisionCircuit path args : quiet (provisionCircuit path args).
Proof.
  unfold provisionCircuit, post_form. repeat (apply quiet_bind; [auto with oess|intros ?]).
  simpl. done.
Qed.

Lemma quiet_deleteVRF path a b : quiet (deleteVRF path a b).
Proof. unfold deleteVRF, get_json. auto 10 with oess. Qed.

Lemma cloud_closes engine_text id :
  (forall v, closes id true (io_try (cloud_network id v) (cloud_failed engine_text id))) /\
  (forall e, closes id true (cloud_failed engine_text id e)).
Proof.
  split.
  - intros v. unfold cloud_network. destruct (strict_eq v VNull); simpl; [by rewrite String.eqb_refl | done].
  - intros e. simpl. by rewrite String.eqb_refl.
Qed.

Lemma circuit_closes engine_text id :
  (forall v, closes id true (io_try (circuit_saved id v) (circuit_failed engine_text id))) /\
  (forall e, closes id true (circuit_failed engine_text id e)).
Proof.
  assert (F : forall e, closes id true (circuit_failed engine_text id e)).
  { intros e. simpl. by rewrite String.eqb_refl. }
  split; [|exact F]. intros v. unfold circuit_saved.
  destruct (if strict_eq v VNull then _ else _) as [[]|e] eqn:E; cbn [io_lift io_bind io_try]; [| |apply F].
  - destruct (prop v "circuit_id") as [x|e]; cbn [io_lift io_bind io_try]; [done | apply F].
  - simpl. by rewrite String.eqb_refl.
Qed.

(** ** Properties *)

(** C39 Saving never strands the user behind the loading dialog: whatever the
    server answers (nothing, something that is not JSON, an error, any
    document), the save handlers of the four pages and the delete handler of
    the layer 3 page end without an unhandled exception, with the dialog
    hidden again or the page left. *)
Theorem dialogs_close engine_text path wg {S} (w : env S) s :
  (forall b d eps sched,
     open_after "#add-network-loading" (run_trace w (provision_cloud_save engine_text path wg b d eps sched) s) = false
     /\ exists u, run_result w (provision_cloud_save engine_text path wg b d eps sched) s = Ok u) /\
  (forall n d eps id,
     open_after "#add-connection-loading" (run_trace w (modify_cloud_save engine_text path wg n d eps id) s) = false
     /\ exists u, run_result w (modify_cloud_save engine_text path wg n d eps id) s = Ok u) /\
  (forall c,
     open_after "#add-l2vpn-loading" (run_trace w (provision_l2vpn_saveCircuit engine_text path wg c) s) = false
     /\ exists u, run_result w (provision_l2vpn_saveCircuit engine_text path wg c) s = Ok u) /\
  (forall d c,
     open_after "#modify-loading" (run_trace w (modify_l2vpn_save engine_text path wg d c) s) = false
     /\ exists u, run_result w (modify_l2vpn_save engine_text path wg d c) s = Ok u) /\
  (forall d id,
     open_after "#delete-connection-loading" (run_trace w (modify_cloud_delete engine_text path wg d id) s) = false
     /\ exists u, run_result w (modify_cloud_delete engine_text path wg d id) s = Ok u).
Proof.
  unfold open_after. split_and!; intros; apply closes_run.
  - unfold provision_cloud_save. destruct b; [|done]. cbn [negb closes after_action]. rewrite String.eqb_refl.
    apply closes_try; [apply quiet_provisionVRF | apply cloud_closes | apply cloud_closes].
  - cbn [modify_cloud_save closes after_action]. rewrite String.eqb_refl.
    apply closes_try; [apply quiet_provisionVRF | apply cloud_closes | apply cloud_closes].
  - cbn [provision_l2vpn_saveCircuit closes after_action]. rewrite String.eqb_refl.
    apply closes_try; [apply quiet_provisionCircuit | apply circuit_closes | apply circuit_closes].
  - cbn [modify_l2vpn_save closes after_action]. rewrite String.eqb_refl.
    apply closes_try; [apply quiet_provisionCircuit | apply circuit_closes | apply circuit_closes].
  - cbn [modify_cloud_delete closes]. intros []; [|done]. cbn [closes after_action]. rewrite String.eqb_refl.
    apply closes_try; [apply quiet_deleteVRF | |]; intros; simpl; [|done].
    by destruct (loose_eq a VNull).
Qed.

(** Deleting a layer 2 connection does strand the user: when the request
    fails, or the service answers with an error text, the rejection has no
    handler and the dialog stays over the page. *)
Theorem l2_delete_strands path wg c o :
  o = ONetFail \/ (exists t, o = OJson (VObj [("error_text", t)])) ->
  open_after "#modify-loading" (run_trace (const_server o) (modify_l2vpn_delete path wg c) tt) = true /\
  exists e, run_result (const_server o) (modify_l2vpn_delete path wg c) tt = Err e.
Proof. intros [-> | (t & ->)]; (split; [reflexivity | eexists; reflexivity]). Qed.

Lemma l2_delete_strands_witness :
  open_after "#modify-loading"
    (run_trace (const_server ONetFail) (modify_l2vpn_delete "/" (VInt 1) new_circuit) tt) = true.
Proof. apply (l2_delete_strands "/" (VInt 1) new_circuit ONetFail). by left. Defined.

Lemma requests_saved id v {S} (w : env S) s :
  requests (run_trace w (circuit_saved id v) s) = [].
Proof.
  unfold circuit_saved, run_trace.
  destruct (if strict_eq v VNull then _ else _) as [[]|]; cbn [io_lift io_bind]; [| done | done].
  by destruct (prop v "circuit_id").
Qed.

Lemma run_trace_act {S A} (w : env S) a (m : io A) s : run_trace w (Act a m) s = EvAct a :: run_trace w m s.
Proof. unfold run_trace. simpl. by destruct (run w m s) as [[]]. Qed.

(** The requests of a save: those of the provisioning call. *)
Lemma requests_save {S} (w : env S) engine_text id (m : io val) s :
  requests (run_trace w (io_try (io_bind m (circuit_saved id)) (circuit_failed engine_text id)) s)
  = requests (run_trace w m s).
Proof.
  unfold run_trace. rewrite run_try, run_bind. destruct (run w m s) as [[s1 t1] [v|e]]; simpl.
  - pose proof (requests_saved id v w s1) as R. unfold run_trace in R.
    destruct (run w (circuit_saved id v) s1) as [[s2 t2] [u|e]]; simpl in *;
      rewrite ?requests_app, R; simpl; by rewrite ?app_nil_r.
  - rewrite requests_app. simpl. by rewrite app_nil_r.
Qed.

(** The new layer 2 page passes one argument too many to [provisionCircuit]:
    the form it posts asks for creation now, whatever start the user chose, has
    the chosen start as its removal time, and the chosen removal time where the
    circuit id belongs. *)
Theorem l2_schedule_shifted engine_text path wg description sched eps {S} (w : env S) s :
  forallb is_obj eps = true ->
  exists fields, length fields = length eps /\
  requests (run_trace w (provision_l2vpn_save engine_text path wg description sched
      (Circuit VUndef (VArr eps) (VInt 0) VUndef VUndef (VInt (-1)))) s)
  = [Req true (path +:+ "services/circuit.cgi")
       ([("method", "provision"); ("workgroup_id", show wg); ("description", description);
         ("static_mac", "0"); ("provision_time", "-1");
         ("remove_time", show (js_or (createTime sched) (VInt (-1))));
         ("restore_to_primary", "0"); ("circuit_id", show (removeTime sched))]
        ++ map (fun f => ("endpoint", f)) fields)].
Proof.
  intros Hobj. unfold provision_l2vpn_save, provision_l2vpn_saveCircuit.
  cbn [ci_description ci_endpoints ci_static_mac ci_provision_time ci_remove_time ci_circuit_id].
  rewrite run_trace_act. change (requests (EvAct ?a :: ?t)) with (requests t). rewrite requests_save.
  destruct (provisionCircuit_exec w path wg (VStr description) eps (VInt 0) (createTime sched)
              (removeTime sched) [VInt (-1)] s Hobj) as (fields & Hlen & Hrun).
  exists fields. split; [done|]. unfold run_trace. rewrite Hrun. destruct (server w s _) as [s1 o]. simpl.
  unfold createTime, removeTime, circuit_header. by destruct (sc_create_now sched), (sc_remove_never sched).
Qed.

Lemma l2_schedule_shifted_witness :
  exists fields, length fields = 1 /\
  requests (run_trace (const_server ONetFail) (provision_l2vpn_save (fun _ => "error") "/" (VInt 1) "d"
      (Schedule false (Fin (Dec 1700000000000 0)) false (Fin (Dec 1800000000000 0)))
      (Circuit VUndef (VArr [VObj []]) (VInt 0) VUndef VUndef (VInt (-1)))) tt)
  = [Req true "/services/circuit.cgi"
       ([("method", "provision"); ("workgroup_id", "1"); ("description", "d"); ("static_mac", "0");
         ("provision_time", "-1"); ("remove_time", "1700000000"); ("restore_to_primary", "0");
         ("circuit_id", "1800000000")] ++ map (fun f => ("endpoint", f)) fields)].
Proof.
  apply (l2_schedule_shifted (fun _ => "error") "/" (VInt 1) "d"
           (Schedule false (Fin (Dec 1700000000000 0)) false (Fin (Dec 1800000000000 0))) [VObj []]
           (const_server ONetFail) tt).
  reflexivity.
Defined.
