(* ===== verification/Session.v ===== *)
(** * The session (cookie.js, user_menu.js)

    The data a page keeps between visits, in [sessionStorage] or else in a
    cookie, and the user menu that fills it.  The browser is a parameter of the
    operations: whether it has [sessionStorage], what it holds, and its other
    cookies. *)

From Stdlib Require Import ZArith Lia Ascii String.
From stdpp Require Import base option list sets strings numbers tactics.
From S2P Require Import Prelude JsValue JsJson Fetch Api.

(** ** The browser *)

Record browser := Browser {
  br_storage : bool;
  br_session : option string;
  br_cookies : list (string * string)
}.

(** [document.cookie] as it is read. *)
Definition document_cookie (jar : list (string * string)) : string :=
  str_join "; " (map (fun kv => kv.1 +:+ "=" +:+ kv.2) jar).

(** Setting a cookie replaces the one of the same name. *)
Fixpoint set_cookie (k v : string) (jar : list (string * string)) : list (string * string) :=
  match jar with
  | [] => [(k, v)]
  | (k', v') :: jar' => if String.eqb k k' then (k, v) :: jar' else (k', v') :: set_cookie k v jar'
  end.

(** [s.split('; ')] *)
Fixpoint split_semi (s : string) : list string :=
  match s with
  | EmptyString => [estr]
  | String c s' =>
      let rest := match split_semi s' with
                  | x :: l => String c x :: l
                  | [] => [String c estr]
                  end in
      match s' with
      | String d s'' => if Ascii.eqb c ";" && Ascii.eqb d " " then estr :: split_semi s'' else rest
      | EmptyString => rest
      end
  end.

(** ** cookie.js *)

Definition parse_data (text : string) : res val :=
  match decodeURIComponent text with
  | None => Err EURI
  | Some t => match json_parse t with Some v => Ok v | None => Err ESyntax end
  end.

(** One cookie of the loop in [load]. *)
Definition cookie_step (data : val) (candidate : string) : res val :=
  match split_on "=" candidate with
  | k :: l => if String.eqb k "data" then parse_data (default "undefined" (head l)) else Ok data
  | [] => Ok data
  end.

(** The data [load] reads; [data] is what was there before. *)
Definition load_data (b : browser) (data : val) : res val :=
  if br_storage b then parse_data (default "undefined" (br_session b))
  else res_fold cookie_step data (split_semi (document_cookie (br_cookies b))).

(** [v.k = x] *)
Definition assign_prop (v : val) (k : string) (x : val) : res val :=
  match v with
  | VUndef | VNull => Err EType
  | VObj o => Ok (VObj (obj_set k x o))
  | _ => Ok v
  end.

(** [needle] occurs in the text. *)
Fixpoint contains (needle s : string) : bool :=
  String.prefix needle s || match s with EmptyString => false | String _ s' => contains needle s' end.

(** [location.href.match(/.../ && id)]: the conjunction is the id, so the page's
    address is searched for the id itself (ids are digits); a missing id is the
    text null. *)
Definition href_match (href : string) (id : val) : bool := contains (to_string id) href.

(** [load]: the data, whether the workgroups are requested (once per matching
    block), and where the user is sent. *)
Definition load (b : browser) (href : string) (workgroup_id circuit_id data0 : val)
    : res (val * nat * option string) :=
  let? data := load_data b data0 in
  let? s1 := (if href_match href workgroup_id
              then let? d := assign_prop data "workgroup_id" workgroup_id in Ok (d, 1)
              else Ok (data, 0)) in
  let '(d1, n1) := s1 in
  let? s2 := (if href_match href circuit_id then
                let? d := assign_prop d1 "circuit_id" circuit_id in
                if truthy workgroup_id
                then let? d' := assign_prop d "workgroup_id" workgroup_id in
                     if Nat.eqb n1 0 then Err EType else Ok (d', S n1)
                else Ok (d, n1)
              else Ok (d1, n1)) in
  let '(d2, n2) := s2 in
  Ok (d2, n2, if truthy d2 then None
              else if negb (contains "action=workgroups" href) && negb (contains "admin" href)
              then Some "?action=workgroups" else None).

(** The first answer to the request: the workgroup of the page. *)
Fixpoint workgroup_found (workgroup_id data : val) (results : list val) : res val :=
  match results with
  | [] => Ok data
  | r :: rs =>
      let? id := prop r "workgroup_id" in
      if loose_eq id workgroup_id then
        let? name := prop r "name" in
        let? username := prop r "username" in
        let? d1 := assign_prop data "workgroup_name" name in
        let? d2 := assign_prop d1 "username" username in
        assign_prop d2 "workgroup_role" username
      else workgroup_found workgroup_id data rs
  end.

(** [save]; the expiry date of the cookie is not kept. *)
Definition save (b : browser) (data : val) : browser :=
  let text := encodeURIComponent (default "undefined" (stringify data)) in
  if br_storage b then Browser true (Some text) (br_cookies b)
  else Browser false (br_session b) (set_cookie "data" text (br_cookies b)).

Definition kept_fields : list string :=
  ["workgroup_id"; "workgroup_name"; "workgroup_type"; "workgroup_role"; "username"].

(** [clear]: the new data and the browser after it is saved. *)
Definition clear (b : browser) (data : val) (workgroup_too : bool) : res (val * browser) :=
  let? kept := res_map (fun k => let? v := prop data k in Ok (k, v)) kept_fields in
  let d := VObj (if workgroup_too then [] else foldl (fun o kv => obj_set kv.1 kv.2 o) [] kept) in
  Ok (d, save b d).

(** ** user_menu.js *)

(** One workgroup of the menu, for the session. *)
Definition menu_step (data group : val) : res val :=
  let? wg := prop data "workgroup_id" in
  let? id := prop group "workgroup_id" in
  let? d1 := (match wg with VUndef => assign_prop data "workgroup_id" id | _ => Ok data end) in
  let? t := prop group "type" in
  if strict_eq t (VStr "admin") then assign_prop d1 "isAdmin" (VBool true) else Ok d1.

(** The session data after the menu was filled for a user. *)
Definition menu_session (user data : val) : res val :=
  let? names := prop user "usernames" in
  let? username := index names 0 in
  let? d1 := assign_prop data "isAdmin" (VBool false) in
  let? t := prop user "type" in
  let? d2 := assign_prop d1 "isReadOnly" (VBool (strict_eq t (VStr "read-only"))) in
  let? d3 := assign_prop d2 "username" username in
  let? groups := prop user "workgroups" in
  let? l := elements_of groups in
  res_fold menu_step d3 l.

(** [loadUserMenu]: the session data and the browser it is saved in. *)
Definition loadUserMenu (path : string) (b : browser) (data : val) : io (val * browser) :=
  await user := getCurrentUser path in
  pure d := menu_session user data in
  Ret (d, save b d).

(** [selectWorkgroup] *)
Definition selectWorkgroup (b : browser) (data workgroupID : val) : io (val * browser) :=
  pure d := assign_prop data "workgroup_id" workgroupID in
  Act AReload (Ret (d, save b d)).

(** ** Lemmas: splitting *)







(** ** Lemmas: cookies *)








(** ** Properties *)







(** ** Lemmas: the menu *)

Definition group_admin (g : val) : bool :=
  match prop g "type" with Ok t => strict_eq t (VStr "admin") | Err _ => false end.

(** The workgroup in use: the session's, or else the user's first. *)
Definition first_group (wg : option val) (groups : list val) : option val :=
  match wg, groups with
  | (None | Some VUndef), g :: _ => match prop g "workgroup_id" with Ok i => Some i | Err _ => None end
  | _, _ => wg
  end.

Lemma menu_step_obj o g :
  (exists og, g = VObj og) ->
  menu_step (VObj o) g =
  Ok (VObj (let o1 := match obj_get "workgroup_id" o with
                      | None | Some VUndef =>
                          obj_set "workgroup_id" (default VUndef (first_group None [g])) o
                      | _ => o
                      end in
            if group_admin g then obj_set "isAdmin" (VBool true) o1 else o1)).
Proof.
  intros (og & ->). unfold menu_step, group_admin, first_group. cbn [prop res_bind].
  destruct (obj_get "workgroup_id" o) as [[]|]; cbn [from_option id res_bind assign_prop];
    by destruct (strict_eq _ (VStr "admin")).
Qed.

(** Fields of the session the menu does not touch. *)
Definition menu_fields : list string := ["workgroup_id"; "isAdmin"; "isReadOnly"; "username"].

Lemma menu_fold o groups :
  Forall (fun g => exists og i, g = VObj og /\ obj_get "workgroup_id" og = Some i /\ i <> VUndef) groups ->
  exists o', res_fold menu_step (VObj o) groups = Ok (VObj o') /\
    obj_get "isAdmin" o' = (if existsb group_admin groups then Some (VBool true) else obj_get "isAdmin" o) /\
    obj_get "workgroup_id" o' = first_group (obj_get "workgroup_id" o) groups /\
    forall k, k <> "isAdmin" -> k <> "workgroup_id" -> obj_get k o' = obj_get k o.
Proof.
  intros Hg. revert o. induction Hg as [|g gs (og & i & -> & Hi & Hne) Hg IH]; intros o.
  { exists o. split_and!; [done | done | | done]. by destruct (obj_get "workgroup_id" o) as [[]|]. }
  cbn [res_fold]. rewrite menu_step_obj by eauto. cbn [res_bind].
  set (o1 := match obj_get "workgroup_id" o with None | Some VUndef => _ | _ => o end).
  set (o2 := if group_admin (VObj og) then _ else o1).
  assert (W : obj_get "workgroup_id" o2 = first_group (obj_get "workgroup_id" o) (VObj og :: gs)).
  { assert (obj_get "workgroup_id" o2 = obj_get "workgroup_id" o1) as ->.
    { unfold o2. destruct (group_admin (VObj og)); [by apply obj_get_set_ne | done]. }
    unfold o1, first_group. cbn [prop]. rewrite Hi.
    destruct (obj_get "workgroup_id" o) as [[]|] eqn:E; rewrite ?obj_get_set_eq; done. }
  assert (A : obj_get "isAdmin" o2 = if group_admin (VObj og) then Some (VBool true) else obj_get "isAdmin" o).
  { unfold o2. destruct (group_admin (VObj og)); [apply obj_get_set_eq|]. unfold o1.
    destruct (obj_get "workgroup_id" o) as [[]|]; by rewrite ?obj_get_set_ne. }
  assert (F : forall k, k <> "isAdmin" -> k <> "workgroup_id" -> obj_get k o2 = obj_get k o).
  { intros k K1 K2. unfold o2, o1. destruct (group_admin (VObj og)), (obj_get "workgroup_id" o) as [[]|];
      by rewrite ?obj_get_set_ne. }
  destruct (IH o2) as (o' & H1 & H2 & H3 & H4). exists o'. split; [done|]. split_and!.
  - rewrite H2, A. cbn [existsb]. by destruct (group_admin (VObj og)), (existsb group_admin gs).
  - rewrite H3, W. unfold first_group. cbn [prop]. rewrite Hi. cbn [from_option id].
    destruct (obj_get "workgroup_id" o) as [[]|]; cbn; try done; by destruct i, gs.
  - intros k K1 K2. rewrite H4 by done. auto.
Qed.

(** Filling the user menu sets the session up for the user: administrator
    exactly when one of the user's workgroups is an admin workgroup (a right
    left over in the session is withdrawn), read-only by the user's type, the
    workgroup already in use or else the user's first one, and no other field
    changes. *)
Theorem user_menu_session uo o u us groups :
  obj_get "usernames" uo = Some (VArr (u :: us)) -> obj_get "workgroups" uo = Some (VArr groups) ->
  Forall (fun g => exists og i, g = VObj og /\ obj_get "workgroup_id" og = Some i /\ i <> VUndef) groups ->
  exists o', menu_session (VObj uo) (VObj o) = Ok (VObj o') /\
    obj_get "isAdmin" o' = Some (VBool (existsb group_admin groups)) /\
    obj_get "isReadOnly" o'
      = Some (VBool (strict_eq (default VUndef (obj_get "type" uo)) (VStr "read-only"))) /\
    obj_get "username" o' = Some u /\
    obj_get "workgroup_id" o' = first_group (obj_get "workgroup_id" o) groups /\
    forall k, k ∉ menu_fields -> obj_get k o' = obj_get k o.
Proof.
  intros Hu Hw Hg. unfold menu_session. cbn [prop]. rewrite Hu, Hw.
  cbn [from_option id res_bind index assign_prop elements_of lookup list_lookup].
  set (o1 := obj_set "username" u _).
  destruct (menu_fold o1 groups Hg) as (o' & H1 & H2 & H3 & H4). exists o'.
  split; [exact H1|]. unfold o1 in *. split_and!.
  - rewrite H2. destruct (existsb group_admin groups); [done|].
    by rewrite 2!obj_get_set_ne, obj_get_set_eq by done.
  - rewrite H4 by done. by rewrite obj_get_set_ne, obj_get_set_eq.
  - rewrite H4 by done. by rewrite obj_get_set_eq.
  - rewrite H3. by rewrite !obj_get_set_ne.
  - intros k Hk. unfold menu_fields in Hk. rewrite H4 by set_solver. rewrite !obj_get_set_ne by set_solver. done.
Qed.

Lemma user_menu_session_witness :
  exists o', menu_session
      (VObj [("usernames", VArr [VStr "ann"]); ("type", VStr "normal");
             ("workgroups", VArr [VObj [("workgroup_id", VInt 3); ("type", VStr "normal")]])])
      (VObj [("isAdmin", VBool true)]) = Ok (VObj o') /\
    obj_get "isAdmin" o' = Some (VBool false) /\ obj_get "workgroup_id" o' = Some (VInt 3).
Proof.
  destruct (user_menu_session
      [("usernames", VArr [VStr "ann"]); ("type", VStr "normal");
       ("workgroups", VArr [VObj [("workgroup_id", VInt 3); ("type", VStr "normal")]])]
      [("isAdmin", VBool true)] (VStr "ann") [] [VObj [("workgroup_id", VInt 3); ("type", VStr "normal")]])
    as (o' & H1 & H2 & _ & _ & H3 & _).
  - reflexivity.
  - reflexivity.
  - repeat constructor. by eexists _, _.
  - exists o'. split; [exact H1|]. split; [exact H2 | exact H3].
Defined.

(** The first visit with [sessionStorage] finds nothing there: parsing the text
    undefined throws, and the redirection to the workgroups is not reached. *)
Example first_visit_throws : load (Browser true None []) "index.cgi" VNull VNull (VObj []) = Err ESyntax.
Proof. by vm_compute. Qed.

(** The workgroup role is filled with the user name. *)
Example role_is_username :
  workgroup_found (VStr "7") (VObj [])
    [VObj [("workgroup_id", VInt 7); ("name", VStr "net"); ("username", VStr "ann"); ("role", VStr "admin")]]
  = Ok (VObj [("workgroup_name", VStr "net"); ("username", VStr "ann"); ("workgroup_role", VStr "ann")]).
Proof. by vm_compute. Qed.
