(* ===== verification/Command.v ===== *)
(** * Running commands on the endpoints of a connection (command/selector.js)

    The page keeps the nodes, interfaces, units and peers of a connection as
    nested objects, and offers them in four lists that depend on each other.  A
    list is its values with the position of the chosen one.  Membership of a
    name in an object is membership among its own properties. *)

From Stdlib Require Import ZArith Lia Ascii String.
From stdpp Require Import base option list sets strings numbers tactics.
From S2P Require Import Prelude JsValue JsJson Fetch Api.

Abbreviation obj := (list (string * val)).

(** ** The parameters of a connection *)

Definition sub_obj (k : string) (o : obj) : obj :=
  match obj_get k o with Some (VObj x) => x | _ => [] end.

Definition is_key (k : string) (o : obj) : bool :=
  match obj_get k o with Some _ => true | None => false end.

(** One peer of an endpoint. *)
Definition peer_entry (u : obj) (p : val) : res obj :=
  let? ip := prop p "peer_ip" in
  Ok (if is_key (to_string ip) u then u else obj_set (to_string ip) (VInt 1) u).

(** One endpoint: the unit is created when the tag is not known yet. *)
Definition command_endpoint (info : obj) (e : val) : res obj :=
  let? node := prop e "node" in
  let? intf := prop e "interface" in
  let? tag := prop e "tag" in
  let? unit := prop e "unit" in
  let '(n, i, u) := (to_string node, to_string intf, to_string unit) in
  let on := sub_obj n info in
  let oi := sub_obj i on in
  let oi1 := if is_key (to_string tag) oi then oi else obj_set u (VObj []) oi in
  let? peers := prop e "peers" in
  let? ps := elements_of peers in
  let? oi2 := (match ps, obj_get u oi1 with
               | [], _ => Ok oi1
               | _, Some (VObj ou) => let? ou' := res_fold peer_entry ou ps in Ok (obj_set u (VObj ou') oi1)
               | _, _ => Err EType
               end) in
  Ok (obj_set n (VObj (obj_set i (VObj oi2) on)) info).

(** [loadCommandParams], up to the storage of its result. *)
Definition loadCommandParams (endpoints : list val) : res obj := res_fold command_endpoint [] endpoints.

(** ** The lists *)

Record pick := Pick { pk_options : list string; pk_index : nat }.

Definition picked (p : pick) : option string := pk_options p !! pk_index p.

(** The lists of the form, the type of the chosen command, and which lists
    below the node are shown. *)
Record cform := CForm {
  cf_node : pick;
  cf_intf : pick;
  cf_unit : pick;
  cf_peer : pick;
  cf_shown : bool * bool * bool
}.

(** [Object.keys(v)] as the options of a list. *)
Definition keys_pick (o : obj) : pick := Pick (names o) 0.

Definition child (k : string) (o : obj) : option obj :=
  match obj_get k o with Some (VObj x) => Some x | _ => None end.

(** The object at the end of a path of names. *)
Fixpoint walk (ks : list string) (o : obj) : option obj :=
  match ks with
  | [] => Some o
  | k :: ks' => match child k o with Some x => walk ks' x | None => None end
  end.

(** Each loader fills its list and those below it; the flag tells whether it
    came to its end. *)
Definition loadPeerSelect (info : obj) (f : cform) : cform * bool :=
  match picked (cf_node f), picked (cf_intf f), picked (cf_unit f) with
  | Some n, Some i, Some u =>
      match walk [n; i; u] info with
      | Some o => (CForm (cf_node f) (cf_intf f) (cf_unit f) (keys_pick o) (cf_shown f), true)
      | None => (f, false)
      end
  | _, _, _ => (f, false)
  end.

Definition loadUnitSelect (info : obj) (f : cform) : cform * bool :=
  match picked (cf_node f), picked (cf_intf f) with
  | Some n, Some i =>
      match walk [n; i] info with
      | Some o => loadPeerSelect info (CForm (cf_node f) (cf_intf f) (keys_pick o) (cf_peer f) (cf_shown f))
      | None => (f, false)
      end
  | _, _ => (f, false)
  end.

Definition loadIntfSelect (info : obj) (f : cform) : cform * bool :=
  match picked (cf_node f) with
  | Some n =>
      match walk [n] info with
      | Some o => loadUnitSelect info (CForm (cf_node f) (keys_pick o) (cf_unit f) (cf_peer f) (cf_shown f))
      | None => (f, false)
      end
  | None => (f, false)
  end.

Definition loadNodeSelect (info : obj) (f : cform) : cform * bool :=
  loadIntfSelect info (CForm (keys_pick info) (cf_intf f) (cf_unit f) (cf_peer f) (cf_shown f)).

(** Loaders called one after the other; an exception ends the handler. *)
Fixpoint run_loaders (ls : list (cform -> cform * bool)) (f : cform) : cform * bool :=
  match ls with
  | [] => (f, true)
  | l :: ls' => let '(f', ok) := l f in if ok then run_loaders ls' f' else (f', false)
  end.

Definition show_lists (b : bool * bool * bool) (f : cform) : cform * bool :=
  (CForm (cf_node f) (cf_intf f) (cf_unit f) (cf_peer f) b, true).

(** [commandSelectChangeHandler] for a command of the given type. *)
Definition commandSelectChangeHandler (info : obj) (cmdType : string) (f : cform) : cform :=
  let node := loadNodeSelect info in
  let intf := loadIntfSelect info in
  let unit := loadUnitSelect info in
  let peer := loadPeerSelect info in
  fst (if String.eqb cmdType "node" then run_loaders [node; show_lists (false, false, false)] f
       else if String.eqb cmdType "intf" then run_loaders [node; intf; show_lists (true, false, false)] f
       else if String.eqb cmdType "unit" then run_loaders [node; intf; unit; show_lists (true, true, false)] f
       else if String.eqb cmdType "peer"
       then run_loaders [node; intf; unit; peer; show_lists (true, true, true)] f
       else (f, false)).

(** The handlers of a change in one of the lists, after the browser has moved
    the choice. *)
Definition nodeSelectChangeHandler (info : obj) (cmdType : string) (f : cform) : cform :=
  if String.eqb cmdType "node" then f else fst (loadIntfSelect info f).

Definition intfSelectChangeHandler (info : obj) (cmdType : string) (f : cform) : cform :=
  if String.eqb cmdType "node" then f
  else if String.eqb cmdType "intf" then f
  else fst (loadUnitSelect info f).

Definition unitSelectChangeHandler (info : obj) (cmdType : string) (f : cform) : cform :=
  if String.eqb cmdType "node" then f
  else if String.eqb cmdType "intf" then f
  else if String.eqb cmdType "unit" then f
  else fst (loadPeerSelect info f).

(** The options [loadCommandResult] builds: [None] for an unknown type. *)
Definition command_options (cmdType : string) (f : cform) : option (res obj) :=
  let get k p := match picked p with Some s => Ok (k, VStr s) | None => Err EType end in
  let node := get "node" (cf_node f) in
  let intf := get "interface" (cf_intf f) in
  let unit := get "unit" (cf_unit f) in
  let peer := get "peer" (cf_peer f) in
  if String.eqb cmdType "node" then Some (res_map (fun x => x) [node])
  else if String.eqb cmdType "intf" then Some (res_map (fun x => x) [node; intf])
  else if String.eqb cmdType "unit" then Some (res_map (fun x => x) [node; intf; unit])
  else if String.eqb cmdType "peer" then Some (res_map (fun x => x) [node; intf; unit; peer])
  else None.

(** [loadCommandResult]: the text shown, or nothing for an unknown type. *)
Definition loadCommandResult (path : string) (workgroup_id cmdID : val) (cmdType : string) (f : cform)
    : io (option val) :=
  match command_options cmdType f with
  | None => Ret None
  | Some r =>
      pure options := r in
      await results := runCommand path workgroup_id cmdID options in
      if truthy results then pure x := index results 0 in Ret (Some x)
      else Ret (Some (VStr "Something went wrong. Please try again later."))
  end.

(** [toggleCommandResult]: the label and whether the result is shown. *)
Definition toggleCommandResult (label : string) : string * bool :=
  if String.eqb label "Expand" then ("Collapse", true) else ("Expand", false).

(** ** The user's actions *)

Definition choose (i : nat) (p : pick) : pick := Pick (pk_options p) i.

(** The form together with the type of the chosen command. *)
Inductive act (info : obj) : string * cform -> string * cform -> Prop :=
  | act_command t t' f : act info (t, f) (t', commandSelectChangeHandler info t' f)
  | act_node t i f :
      i < length (pk_options (cf_node f)) ->
      act info (t, f) (t, nodeSelectChangeHandler info t
        (CForm (choose i (cf_node f)) (cf_intf f) (cf_unit f) (cf_peer f) (cf_shown f)))
  | act_intf t i f :
      i < length (pk_options (cf_intf f)) ->
      act info (t, f) (t, intfSelectChangeHandler info t
        (CForm (cf_node f) (choose i (cf_intf f)) (cf_unit f) (cf_peer f) (cf_shown f)))
  | act_unit t i f :
      i < length (pk_options (cf_unit f)) ->
      act info (t, f) (t, unitSelectChangeHandler info t
        (CForm (cf_node f) (cf_intf f) (choose i (cf_unit f)) (cf_peer f) (cf_shown f)))
  | act_peer t i f :
      i < length (pk_options (cf_peer f)) ->
      act info (t, f) (t, CForm (cf_node f) (cf_intf f) (cf_unit f) (choose i (cf_peer f)) (cf_shown f)).

Definition no_pick : pick := Pick [] 0.
Definition empty_form : cform := CForm no_pick no_pick no_pick no_pick (false, false, false).

Inductive form_reachable (info : obj) : string * cform -> Prop :=
  | form_start t : form_reachable info (t, commandSelectChangeHandler info t empty_form)
  | form_act s s' : form_reachable info s -> act info s s' -> form_reachable info s'.

(** ** Lemmas: the lists follow each other *)

(** The first [d] lists offer the names below the choices above them. *)
Definition follows (info : obj) (d : nat) (f : cform) : Prop :=
  (1 <= d -> pk_options (cf_node f) = names info) /\
  (2 <= d -> forall n o, picked (cf_node f) = Some n -> walk [n] info = Some o ->
             pk_options (cf_intf f) = names o) /\
  (3 <= d -> forall n i o, picked (cf_node f) = Some n -> picked (cf_intf f) = Some i ->
             walk [n; i] info = Some o -> pk_options (cf_unit f) = names o) /\
  (4 <= d -> forall n i u o, picked (cf_node f) = Some n -> picked (cf_intf f) = Some i ->
             picked (cf_unit f) = Some u -> walk [n; i; u] info = Some o ->
             pk_options (cf_peer f) = names o).

Lemma walk_app ks k o :
  walk (ks ++ [k]) o = match walk ks o with Some x => child k x | None => None end.
Proof.
  revert o. induction ks as [|a ks IH]; intros o; simpl; [by destruct (child k o)|].
  by destruct (child a o).
Qed.

(** Close the goals of [follows]: drop the bounds, identify the choices. *)
Ltac cascade :=
  unfold follows; cbn [fst cf_node cf_intf cf_unit cf_peer keys_pick pk_options];
  split_and!; intros; try lia;
  repeat match goal with
         | F : _ <= _ -> _ |- _ => specialize (F ltac:(lia))
         | E : picked ?x = _, H : picked ?x = _ |- _ => rewrite E in H
         end; simplify_eq; eauto; try congruence.

Lemma peer_follows info f : follows info 3 f -> follows info 4 (fst (loadPeerSelect info f)).
Proof.
  intros (F1 & F2 & F3 & _). unfold loadPeerSelect.
  destruct (picked (cf_node f)) as [n|] eqn:En; [|cascade].
  destruct (picked (cf_intf f)) as [i|] eqn:Ei; [|cascade].
  destruct (picked (cf_unit f)) as [u|] eqn:Eu; [|cascade].
  destruct (walk [n; i; u] info) as [o|] eqn:Ew; cbn [fst]; cascade.
Qed.

Lemma unit_follows info f : follows info 2 f -> follows info 4 (fst (loadUnitSelect info f)).
Proof.
  intros (F1 & F2 & _). unfold loadUnitSelect.
  assert (M : forall n i, walk [n; i] info = None -> forall u, walk [n; i; u] info = None).
  { intros n i H u. change [n; i; u] with ([n; i] ++ [u]). by rewrite walk_app, H. }
  destruct (picked (cf_node f)) as [n|] eqn:En; [|cascade].
  destruct (picked (cf_intf f)) as [i|] eqn:Ei; [|cascade].
  destruct (walk [n; i] info) as [o|] eqn:Ew; cbn [fst].
  - apply peer_follows. cascade.
  - pose proof (M n i Ew). cascade.
Qed.

Lemma intf_follows info f : follows info 1 f -> follows info 4 (fst (loadIntfSelect info f)).
Proof.
  intros (F1 & _). unfold loadIntfSelect.
  assert (M : forall n ks, walk [n] info = None -> walk (n :: ks) info = None).
  { intros n ks H. cbn [walk] in *. by destruct (child n info). }
  destruct (picked (cf_node f)) as [n|] eqn:En; [|cascade].
  destruct (walk [n] info) as [o|] eqn:Ew; cbn [fst].
  - apply unit_follows. cascade.
  - pose proof (fun ks => M n ks Ew). cascade.
Qed.

Lemma node_follows info f : follows info 4 (fst (loadNodeSelect info f)).
Proof. apply intf_follows. split; [done|]. split_and!; lia. Qed.

Lemma follows_le info d d' f : d <= d' -> follows info d' f -> follows info d f.
Proof. intros Hd (F1 & F2 & F3 & F4). split_and!; intros; eauto with lia. Qed.

(** The number of lists a command of this type uses. *)
Definition depth (t : string) : nat :=
  if String.eqb t "node" then 1 else if String.eqb t "intf" then 2
  else if String.eqb t "unit" then 3 else if String.eqb t "peer" then 4 else 0.

Lemma loaders_follow info f ls :
  follows info 4 f ->
  Forall (fun l => forall g, follows info 4 g -> follows info 4 (fst (l g))) ls ->
  follows info 4 (fst (run_loaders ls f)).
Proof.
  intros Hf Hl. revert f Hf. induction Hl as [|l ls H1 _ IH]; intros f Hf; cbn [run_loaders]; [done|].
  specialize (H1 f Hf). destruct (l f) as [g []]; cbn [fst] in *; auto.
Qed.

Lemma run_loaders_first info f ls :
  Forall (fun l => forall g, follows info 4 g -> follows info 4 (fst (l g))) ls ->
  follows info 4 (fst (run_loaders (loadNodeSelect info :: ls) f)).
Proof.
  intros Hl. pose proof (node_follows info f) as Hn. cbn [run_loaders].
  destruct (loadNodeSelect info f) as [g []]; cbn [fst] in *; [by apply loaders_follow | done].
Qed.

Lemma command_follows info t f : follows info (depth t) (commandSelectChangeHandler info t f).
Proof.
  assert (L1 : forall g, follows info 4 g -> follows info 4 (fst (loadIntfSelect info g))).
  { intros g Hg. apply intf_follows. eapply follows_le; [|exact Hg]; lia. }
  assert (L2 : forall g, follows info 4 g -> follows info 4 (fst (loadUnitSelect info g))).
  { intros g Hg. apply unit_follows. eapply follows_le; [|exact Hg]; lia. }
  assert (L3 : forall g, follows info 4 g -> follows info 4 (fst (loadPeerSelect info g))).
  { intros g Hg. apply peer_follows. eapply follows_le; [|exact Hg]; lia. }
  assert (L4 : forall b g, follows info 4 g -> follows info 4 (fst (show_lists b g))) by done.
  assert (Ls : forall b, follows info 4 (fst (run_loaders [loadNodeSelect info; show_lists b] f)) /\
    follows info 4 (fst (run_loaders [loadNodeSelect info; loadIntfSelect info; show_lists b] f)) /\
    follows info 4 (fst (run_loaders [loadNodeSelect info; loadIntfSelect info; loadUnitSelect info; show_lists b] f)) /\
    follows info 4 (fst (run_loaders [loadNodeSelect info; loadIntfSelect info; loadUnitSelect info;
                                      loadPeerSelect info; show_lists b] f))).
  { intros b. split_and!; apply run_loaders_first; repeat (apply list.Forall_cons; split; [auto|]);
      apply list.Forall_nil; done. }
  unfold depth, commandSelectChangeHandler.
  destruct (String.eqb t "node"); [|destruct (String.eqb t "intf"); [|destruct (String.eqb t "unit");
    [|destruct (String.eqb t "peer")]]]; try (eapply follows_le; [|apply Ls]; lia).
  split_and!; lia.
Qed.

Lemma follows_choose_node info i f :
  follows info 1 f ->
  follows info 1 (CForm (choose i (cf_node f)) (cf_intf f) (cf_unit f) (cf_peer f) (cf_shown f)).
Proof. intros (F1 & _). split_and!; [done | lia | lia | lia]. Qed.

Lemma follows_choose_intf info i f :
  follows info 2 f ->
  follows info 2 (CForm (cf_node f) (choose i (cf_intf f)) (cf_unit f) (cf_peer f) (cf_shown f)).
Proof. intros (F1 & F2 & _). split_and!; [done | done | lia | lia]. Qed.

Lemma follows_choose_unit info i f :
  follows info 3 f ->
  follows info 3 (CForm (cf_node f) (cf_intf f) (choose i (cf_unit f)) (cf_peer f) (cf_shown f)).
Proof. intros (F1 & F2 & F3 & _). split_and!; [done | done | done | lia]. Qed.

(** Four known types; any other uses no list. *)
Lemma depth_cases t :
  (t = "node" \/ t = "intf" \/ t = "unit" \/ t = "peer") \/
  (depth t = 0 /\ String.eqb t "node" = false /\ String.eqb t "intf" = false /\
   String.eqb t "unit" = false /\ String.eqb t "peer" = false).
Proof.
  unfold depth. destruct (String.eqb_spec t "node"); [tauto|]. destruct (String.eqb_spec t "intf"); [tauto|].
  destruct (String.eqb_spec t "unit"); [tauto|]. destruct (String.eqb_spec t "peer"); tauto.
Qed.

Lemma act_follows info t f t' f' :
  follows info (depth t) f -> act info (t, f) (t', f') -> follows info (depth t') f'.
Proof.
  intros Hf Ha. inversion Ha; subst; [apply command_follows | | | |].
  all: destruct (depth_cases t') as [[-> | [-> | [-> | ->]]] | (E & _)];
    [ | | | | rewrite E; split_and!; lia].
  all: change (depth "node") with 1 in *; change (depth "intf") with 2 in *;
    change (depth "unit") with 3 in *; change (depth "peer") with 4 in *.
  all: unfold nodeSelectChangeHandler, intfSelectChangeHandler, unitSelectChangeHandler; simpl String.eqb; cbv iota.
  - by apply follows_choose_node.
  - eapply follows_le, intf_follows, follows_choose_node, follows_le; [| |exact Hf]; lia.
  - eapply follows_le, intf_follows, follows_choose_node, follows_le; [| |exact Hf]; lia.
  - eapply follows_le, intf_follows, follows_choose_node, follows_le; [| |exact Hf]; lia.
  - destruct Hf as (F1 & _). split_and!; [done | lia | lia | lia].
  - by apply follows_choose_intf.
  - eapply follows_le, unit_follows, follows_choose_intf, follows_le; [| |exact Hf]; lia.
  - eapply follows_le, unit_follows, follows_choose_intf, follows_le; [| |exact Hf]; lia.
  - destruct Hf as (F1 & _). split_and!; [done | lia | lia | lia].
  - destruct Hf as (F1 & F2 & _). split_and!; [done | done | lia | lia].
  - by apply follows_choose_unit.
  - eapply follows_le, peer_follows, follows_choose_unit, follows_le; [| |exact Hf]; lia.
  - destruct Hf as (F1 & _). split_and!; [done | lia | lia | lia].
  - destruct Hf as (F1 & F2 & _). split_and!; [done | done | lia | lia].
  - destruct Hf as (F1 & F2 & F3 & _). split_and!; [done | done | done | lia].
  - exact Hf.
Qed.

Lemma reachable_follows info t f : form_reachable info (t, f) -> follows info (depth t) f.
Proof.
  intros H. remember (t, f) as s eqn:E. revert t f E.
  induction H as [t0|[t1 f1] s' _ IH Ha]; intros t f E; simplify_eq.
  - apply command_follows.
  - eapply act_follows; [by apply IH | exact Ha].
Qed.

(** ** Lemmas: the parameters come from the endpoints *)

Definition text_of (e : val) (k s : string) : Prop := exists v, prop e k = Ok v /\ to_string v = s.

(** An endpoint that stands for a path of one to four names. *)
Definition stands_for (e : val) (ks : list string) : Prop :=
  Forall2 (text_of e) (take (length ks) ["node"; "interface"; "unit"]) (take 3 ks) /\
  match drop 3 ks with
  | [] => True
  | p :: _ => exists ps q, prop e "peers" = Ok (VArr ps) /\ q ∈ ps /\ text_of q "peer_ip" p
  end.

(** Every name of the object, below the path [ks], stands for an endpoint; [d]
    levels of objects are left. *)
Fixpoint sound (eps : list val) (d : nat) (ks : list string) (o : obj) : Prop :=
  forall k v, obj_get k o = Some v ->
    (exists e, e ∈ eps /\ stands_for e (ks ++ [k])) /\
    match d with
    | O => True
    | S d' => exists x, v = VObj x /\ sound eps d' (ks ++ [k]) x
    end.

Lemma sound_set eps d ks o k v :
  sound eps d ks o -> (exists e, e ∈ eps /\ stands_for e (ks ++ [k])) ->
  match d with O => True | S d' => exists x, v = VObj x /\ sound eps d' (ks ++ [k]) x end ->
  sound eps d ks (obj_set k v o).
Proof.
  intros Ho He Hv. destruct d as [|d]; cbn [sound] in *; intros k' v' Hk;
    (destruct (decide (k' = k)) as [->|Hne];
     [rewrite obj_get_set_eq in Hk; simplify_eq; split; [exact He | exact Hv]
     |rewrite obj_get_set_ne in Hk by done; exact (Ho k' v' Hk)]).
Qed.

Lemma sound_sub eps d ks o k :
  sound eps (S d) ks o -> sound eps d (ks ++ [k]) (sub_obj k o).
Proof.
  intros Ho. unfold sub_obj. destruct (obj_get k o) as [v|] eqn:E.
  - destruct (Ho k v E) as (_ & x & -> & Hx). exact Hx.
  - destruct d; by cbn [sound].
Qed.

Lemma sound_nil eps d ks : sound eps d ks [].
Proof. destruct d; by cbn [sound]. Qed.

Lemma peers_sound eps e n i u ps l ou ou' :
  e ∈ eps -> text_of e "node" n -> text_of e "interface" i -> text_of e "unit" u ->
  prop e "peers" = Ok (VArr ps) -> (forall q, q ∈ l -> q ∈ ps) ->
  sound eps 0 [n; i; u] ou -> res_fold peer_entry ou l = Ok ou' -> sound eps 0 [n; i; u] ou'.
Proof.
  intros He Hn Hi Hu Hp. revert ou. induction l as [|q l IH]; intros ou Hl Ho; cbn [res_fold].
  { by intros [= <-]. }
  intros H. apply res_bind_Ok_inv in H as (ou1 & H1 & H2). eapply IH; [set_solver | | exact H2].
  unfold peer_entry in H1. apply res_bind_Ok_inv in H1 as (ip & Hip & H1). simplify_eq.
  destruct (is_key (to_string ip) ou); [done|]. apply sound_set; [done | | done].
  exists e. split; [done|]. split.
  - repeat constructor; done.
  - simpl. exists ps, q. split; [done|]. split; [set_solver | by exists ip].
Qed.

Lemma endpoint_sound eps e info info' :
  e ∈ eps -> sound eps 3 [] info -> command_endpoint info e = Ok info' -> sound eps 3 [] info'.
Proof.
  intros He Hs H. unfold command_endpoint in H.
  apply res_bind_Ok_inv in H as (node & Hn & H). apply res_bind_Ok_inv in H as (intf & Hi & H).
  apply res_bind_Ok_inv in H as (tag & Ht & H). apply res_bind_Ok_inv in H as (unit & Hu & H).
  apply res_bind_Ok_inv in H as (peers & Hp & H). apply res_bind_Ok_inv in H as (ps & Hps & H).
  apply res_bind_Ok_inv in H as (oi2 & Ho & H). apply Ok_inj in H as <-.
  destruct peers as [| | | | |l|]; try done. simpl in Hps. simplify_eq.
  set (n := to_string node) in *. set (i := to_string intf) in *. set (u := to_string unit) in *.
  assert (Tn : text_of e "node" n) by by exists node.
  assert (Ti : text_of e "interface" i) by by exists intf.
  assert (Tu : text_of e "unit" u) by by exists unit.
  pose proof (sound_sub eps 2 [] info n Hs) as S2. pose proof (sound_sub eps 1 _ _ i S2) as S3.
  cbn [app] in S2, S3. set (on := sub_obj n info) in *. set (oi := sub_obj i on) in *.
  assert (Eu : exists e, e ∈ eps /\ stands_for e [n; i; u]).
  { exists e. split; [done|]. split; [repeat constructor; done | done]. }
  set (oi1 := if is_key (to_string tag) oi then oi else obj_set u (VObj []) oi) in *.
  assert (S3' : sound eps 1 [n; i] oi1).
  { unfold oi1. destruct (is_key (to_string tag) oi); [done|].
    apply sound_set; [done | done |]. exists []. split; [done | apply sound_nil]. }
  assert (S4 : sound eps 1 [n; i] oi2).
  { destruct ps as [|p ps]; [by simplify_eq|].
    destruct (obj_get u oi1) as [v|] eqn:Eo; [|done].
    destruct (S3' u v Eo) as (_ & ou & -> & S5).
    apply res_bind_Ok_inv in Ho as (ou' & Hf & Ho). simplify_eq.
    apply sound_set; [done | done |]. exists ou'. split; [done|].
    by eapply (peers_sound eps e n i u (p :: ps) (p :: ps)). }
  apply sound_set; [done | |].
  - exists e. split; [done|]. split; [repeat constructor; done | done].
  - eexists. split; [done|]. apply sound_set; [done | |].
    + exists e. split; [done|]. split; [repeat constructor; done | done].
    + eauto.
Qed.

Lemma params_sound eps info : loadCommandParams eps = Ok info -> sound eps 3 [] info.
Proof.
  unfold loadCommandParams.
  assert (G : forall l o, (forall e, e ∈ l -> e ∈ eps) -> sound eps 3 [] o ->
              res_fold command_endpoint o l = Ok info -> sound eps 3 [] info).
  { intros l. induction l as [|e l IH]; intros o Hl Ho; cbn [res_fold]; [by intros [= <-]|].
    intros H. apply res_bind_Ok_inv in H as (o1 & H1 & H2). eapply (IH o1); [set_solver | | done].
    by eapply endpoint_sound; [|exact Ho|exact H1]; set_solver. }
  apply G; [done | apply sound_nil].
Qed.

Lemma names_get k o : k ∈ names o -> exists v, obj_get k o = Some v.
Proof.
  unfold names. induction o as [|[k' v] o IH]; cbn [map fst obj_get]; [set_solver|].
  intros [->|Hin]%elem_of_cons; [rewrite String.eqb_refl; eauto|]. destruct (String.eqb k k'); eauto.
Qed.

(** A choice in a list that offers the names of a sound object. *)
Lemma pick_sound eps d ks o p k :
  sound eps d ks o -> pk_options p = names o -> picked p = Some k ->
  (exists e, e ∈ eps /\ stands_for e (ks ++ [k])) /\
  match d with
  | O => True
  | S d' => exists x, child k o = Some x /\ sound eps d' (ks ++ [k]) x
  end.
Proof.
  intros Hs Ho Hp. unfold picked in Hp. rewrite Ho in Hp. apply list_elem_of_lookup_2, names_get in Hp as (v & Hv).
  destruct d as [|d]; cbn [sound] in Hs; destruct (Hs k v Hv) as [H1 H2]; [done|].
  split; [done|]. destruct H2 as (x & -> & Hx). exists x. split; [|done]. unfold child. by rewrite Hv.
Qed.

(** The choices of the first lists are those of one endpoint. *)
Lemma picks_sound eps info d f :
  sound eps 3 [] info -> follows info d f ->
  (forall n, 1 <= d -> picked (cf_node f) = Some n -> exists e, e ∈ eps /\ stands_for e [n]) /\
  (forall n i, 2 <= d -> picked (cf_node f) = Some n -> picked (cf_intf f) = Some i ->
     exists e, e ∈ eps /\ stands_for e [n; i]) /\
  (forall n i u, 3 <= d -> picked (cf_node f) = Some n -> picked (cf_intf f) = Some i ->
     picked (cf_unit f) = Some u -> exists e, e ∈ eps /\ stands_for e [n; i; u]) /\
  (forall n i u p, 4 <= d -> picked (cf_node f) = Some n -> picked (cf_intf f) = Some i ->
     picked (cf_unit f) = Some u -> picked (cf_peer f) = Some p ->
     exists e, e ∈ eps /\ stands_for e [n; i; u; p]).
Proof.
  intros Hs (F1 & F2 & F3 & F4).
  assert (W1 : forall n, 1 <= d -> picked (cf_node f) = Some n ->
    (exists e, e ∈ eps /\ stands_for e [n]) /\ exists x, walk [n] info = Some x /\ sound eps 2 [n] x).
  { intros n Hd En. destruct (pick_sound eps 3 [] info _ n Hs (F1 Hd) En) as (H1 & x & Hx & Sx).
    split; [done|]. exists x. split; [cbn [walk]; by rewrite Hx | done]. }
  assert (W2 : forall n i, 2 <= d -> picked (cf_node f) = Some n -> picked (cf_intf f) = Some i ->
    (exists e, e ∈ eps /\ stands_for e [n; i]) /\ exists x, walk [n; i] info = Some x /\ sound eps 1 [n; i] x).
  { intros n i Hd En Ei. destruct (W1 n) as (_ & x & Hx & Sx); [lia | done|].
    destruct (pick_sound eps 2 [n] x _ i Sx (F2 Hd n x En Hx) Ei) as (H1 & y & Hy & Sy).
    split; [done|]. exists y. split; [|done]. change [n; i] with ([n] ++ [i]). by rewrite walk_app, Hx. }
  assert (W3 : forall n i u, 3 <= d -> picked (cf_node f) = Some n -> picked (cf_intf f) = Some i ->
    picked (cf_unit f) = Some u ->
    (exists e, e ∈ eps /\ stands_for e [n; i; u]) /\ exists x, walk [n; i; u] info = Some x /\ sound eps 0 [n; i; u] x).
  { intros n i u Hd En Ei Eu. destruct (W2 n i) as (_ & x & Hx & Sx); [lia | done | done|].
    destruct (pick_sound eps 1 [n; i] x _ u Sx (F3 Hd n i x En Ei Hx) Eu) as (H1 & y & Hy & Sy).
    split; [done|]. exists y. split; [|done]. change [n; i; u] with ([n; i] ++ [u]). by rewrite walk_app, Hx. }
  split_and!.
  - intros n Hd En. by apply W1.
  - intros n i Hd En Ei. by apply W2.
  - intros n i u Hd En Ei Eu. by apply W3.
  - intros n i u p Hd En Ei Eu Ep. destruct (W3 n i u) as (_ & x & Hx & Sx); [lia | done..|].
    by apply (pick_sound eps 0 [n; i; u] x _ p Sx (F4 Hd n i u x En Ei Eu Hx) Ep).
Qed.

(** ** Properties *)

(** However the user moves through the lists and changes the command, a
    command is only ever run on a combination that exists: the node, interface,
    unit and peer it is sent with are those of one endpoint of the connection. *)
Theorem command_targets_endpoint eps info t f opts :
  loadCommandParams eps = Ok info -> form_reachable info (t, f) ->
  command_options t f = Some (Ok opts) ->
  names opts = take (depth t) ["node"; "interface"; "unit"; "peer"] /\
  exists e, e ∈ eps /\ stands_for e (map (fun kv => to_string kv.2) opts).
Proof.
  intros Hp Hr Ho. apply params_sound in Hp. apply reachable_follows in Hr.
  destruct (picks_sound eps info (depth t) f Hp Hr) as (P1 & P2 & P3 & P4).
  unfold command_options in Ho.
  destruct (depth_cases t) as [[-> | [-> | [-> | ->]]] | (_ & E1 & E2 & E3 & E4)];
    [| | | |by rewrite E1, E2, E3, E4 in Ho].
  all: cbn [String.eqb] in Ho; simpl in Ho; unfold res_map in Ho; simpl in Ho.
  all: destruct (picked (cf_node f)) as [n|]; simpl in Ho; try done.
  2-4: destruct (picked (cf_intf f)) as [i|]; simpl in Ho; try done.
  3-4: destruct (picked (cf_unit f)) as [u|]; simpl in Ho; try done.
  4: destruct (picked (cf_peer f)) as [p|]; simpl in Ho; try done.
  all: simplify_eq; split; [reflexivity|]; cbn [map snd to_string].
  - by apply P1.
  - by apply P2.
  - by apply P3.
  - by apply P4.
Qed.

Definition sample_ep (node intf : string) (unit : Z) (ips : list string) : val :=
  VObj [("node", VStr node); ("interface", VStr intf); ("tag", VInt unit); ("unit", VInt unit);
        ("peers", VArr (map (fun ip => VObj [("peer_ip", VStr ip)]) ips))].
Definition sample_eps : list val :=
  [sample_ep "sw1" "e0" 10 ["10.0.0.1/31"]; sample_ep "sw2" "e5" 20 ["10.0.1.1/31"; "fe80::1/64"]].

Definition sample_info : obj :=
  match loadCommandParams sample_eps with Ok o => o | Err _ => [] end.
Definition sample_start : cform := commandSelectChangeHandler sample_info "peer" empty_form.
Definition sample_form : cform :=
  nodeSelectChangeHandler sample_info "peer"
    (CForm (choose 1 (cf_node sample_start)) (cf_intf sample_start) (cf_unit sample_start)
       (cf_peer sample_start) (cf_shown sample_start)).

Lemma command_targets_endpoint_witness :
  exists opts, command_options "peer" sample_form = Some (Ok opts) /\
    exists e, e ∈ sample_eps /\ stands_for e (map (fun kv => to_string kv.2) opts).
Proof.
  eexists. split; [vm_compute; reflexivity|].
  apply (command_targets_endpoint sample_eps sample_info "peer" sample_form).
  - vm_compute. reflexivity.
  - eapply form_act; [apply (form_start _ "peer")|].
    apply (act_node sample_info "peer" 1 sample_start). vm_compute. lia.
  - vm_compute. reflexivity.
Defined.

(** The test looks for the tag and the entry is made under the unit: a second
    endpoint on the same unit with another tag replaces the peers of the first. *)
Example peers_replaced :
  let e tag ip := VObj [("node", VStr "sw1"); ("interface", VStr "e0"); ("tag", VInt tag); ("unit", VInt 7);
                        ("peers", VArr [VObj [("peer_ip", VStr ip)]])] in
  (info ← match loadCommandParams [e 100%Z "10.0.0.1"; e 200%Z "10.0.0.3"] with Ok o => Some o | Err _ => None end;
   names <$> walk ["sw1"; "e0"; "7"] info) = Some ["10.0.0.3"].
Proof. by vm_compute. Qed.
