(* ===== verification/Acl.v ===== *)
(** * Editing access control lists (acl/, acl.js, js_utilities/interface_acl_*.js)

    Two editors for the VLAN ranges a workgroup may use on an interface: the
    dialog of the ACL page, with its list and priorities, and the panel of the
    interface tables, with its validation and the requests it sends. *)

From Stdlib Require Import ZArith Lia Ascii String.
From stdpp Require Import base option list sets strings numbers tactics.
From S2P Require Import Prelude JsValue JsJson Fetch Api EndpointModal.

(** ** The dialog of the ACL page (acl/modal.js) *)

(** [this.state] of the dialog; the interface is missing until the first
    [render]. *)
Record acl_state := AclState {
  st_workgroupID : val;
  st_aclID : val;
  st_selectedWorkgroupID : val;
  st_entityID : val;
  st_allow : val;
  st_high : val;
  st_low : val;
  st_notes : val;
  st_position : val;
  st_interfaceID : option val
}.

(** The state as the object the client functions receive. *)
Definition state_obj (s : acl_state) : val :=
  VObj ([("workgroupID", st_workgroupID s); ("aclID", st_aclID s);
         ("selectedWorkgroupID", st_selectedWorkgroupID s); ("entityID", st_entityID s);
         ("allow", st_allow s); ("high", st_high s); ("low", st_low s); ("notes", st_notes s);
         ("position", st_position s)]
        ++ match st_interfaceID s with None => [] | Some v => [("interfaceID", v)] end).

(** The defaults of a new ACL, set by the constructor and by [render]. *)
Definition new_acl (workgroupID : val) (interfaceID : option val) : acl_state :=
  AclState workgroupID (VInt (-1)) (VInt (-1)) (VInt (-1)) (VStr "allow") (VInt 4095) (VInt 2)
    (VStr estr) (VInt 10) interfaceID.

(** The state of an ACL that was fetched. *)
Definition edited_acl (workgroupID acl : val) : res acl_state :=
  let? id := prop acl "interface_acl_id" in
  let? wg := prop acl "workgroup_id" in
  let? ent := prop acl "entity_id" in
  let? allow := prop acl "allow_deny" in
  let? high := prop acl "end" in
  let? low := prop acl "start" in
  let? notes := prop acl "notes" in
  let? position := prop acl "eval_position" in
  let? intf := prop acl "interface_id" in
  Ok (AclState workgroupID id (js_or wg (VInt (-1))) ent allow high low (js_or notes (VStr estr))
        position (Some intf)).

(** The first entity is taken when none is chosen yet. *)
Definition entity_step (s : acl_state) (e : val) : res acl_state :=
  let? id := prop e "entity_id" in
  Ok (if strict_eq (st_entityID s) (VInt (-1))
      then AclState (st_workgroupID s) (st_aclID s) (st_selectedWorkgroupID s) id (st_allow s)
             (st_high s) (st_low s) (st_notes s) (st_position s) (st_interfaceID s)
      else s).

Section dialog.
Variable path : string.

(** [render({aclID, interfaceID})], for the state it leaves. *)
Definition acl_render (workgroupID aclID interfaceID : val) : io acl_state :=
  await st :=
    (if strict_eq aclID (VInt (-1)) then
       await workgroups := getAllWorkgroups path in
       await entities := getEntitiesAll path workgroupID VUndef in
       Ret (new_acl workgroupID (Some interfaceID), workgroups, entities)
     else
       await acl := getACL path aclID in
       await workgroups := getAllWorkgroups path in
       await entities := getEntitiesAll path workgroupID VUndef in
       pure s := edited_acl workgroupID acl in
       Ret (s, workgroups, entities)) in
  let '(s, workgroups, entities) := st in
  pure ws := elements_of workgroups in
  pure _ := res_map (fun w => prop w "workgroup_id") ws in
  pure es := elements_of entities in
  io_lift (res_fold entity_step s es).

(** The input handlers; [e.value] is always text. *)
Definition setSelectedWorkgroupID (v : string) (s : acl_state) : acl_state :=
  AclState (st_workgroupID s) (st_aclID s) (VStr v) (st_entityID s) (st_allow s) (st_high s) (st_low s)
    (st_notes s) (st_position s) (st_interfaceID s).
Definition setEntityID (v : string) (s : acl_state) : acl_state :=
  AclState (st_workgroupID s) (st_aclID s) (st_selectedWorkgroupID s) (VStr v) (st_allow s) (st_high s)
    (st_low s) (st_notes s) (st_position s) (st_interfaceID s).
Definition setAllow (v : string) (s : acl_state) : acl_state :=
  AclState (st_workgroupID s) (st_aclID s) (st_selectedWorkgroupID s) (st_entityID s) (VStr v) (st_high s)
    (st_low s) (st_notes s) (st_position s) (st_interfaceID s).
Definition setLow (v : string) (s : acl_state) : acl_state :=
  AclState (st_workgroupID s) (st_aclID s) (st_selectedWorkgroupID s) (st_entityID s) (st_allow s)
    (st_high s) (VStr v) (st_notes s) (st_position s) (st_interfaceID s).
Definition setHigh (v : string) (s : acl_state) : acl_state :=
  AclState (st_workgroupID s) (st_aclID s) (st_selectedWorkgroupID s) (st_entityID s) (st_allow s) (VStr v)
    (st_low s) (st_notes s) (st_position s) (st_interfaceID s).
Definition setNotes (v : string) (s : acl_state) : acl_state :=
  AclState (st_workgroupID s) (st_aclID s) (st_selectedWorkgroupID s) (st_entityID s) (st_allow s)
    (st_high s) (st_low s) (VStr v) (st_position s) (st_interfaceID s).

(** ** The page (acl.js)

    [update] renders the list, the dialog and the interfaces again; the dialog's
    state is what the renderings change. *)
Record acl_page := AclPage {
  pg_selectedInterface : val;
  pg_selectedACL : val;
  pg_dialog : acl_state
}.

Definition update (p : acl_page) : io acl_page :=
  await s := acl_render (st_workgroupID (pg_dialog p)) (pg_selectedACL p) (pg_selectedInterface p) in
  Ret (AclPage (pg_selectedInterface p) (pg_selectedACL p) s).

Definition selectInterface (id : val) (p : acl_page) : io acl_page :=
  update (AclPage id (pg_selectedACL p) (pg_dialog p)).
Definition selectACL (id : val) (p : acl_page) : io acl_page :=
  update (AclPage (pg_selectedInterface p) id (pg_dialog p)).

(** [saveACL]: the refresh is not waited for, so the dialog closes whatever
    comes of it. *)
Definition saveACL (p : acl_page) : io acl_page :=
  let s := pg_dialog p in
  await _ := (if strict_eq (st_aclID s) (VInt (-1)) then addACL path (state_obj s)
              else modifyACL path (state_obj s)) in
  Act (AModal "#myModal" false) (update p).

(** ** The editor (acl/editor.js) and its list (acl/list.js) *)

(** The buttons of a row hold the fields of the ACL as source text: a number
    written as text becomes a number there. *)
Definition canonical_int (t : string) : bool :=
  match parse_int_str t with
  | Fin (Dec z 0) => String.eqb t (string_of_Z z)
  | _ => false
  end.

Definition inline_arg (v : val) : res val :=
  match v with
  | VStr t => if canonical_int t then Ok (VNum (parse_int_str t)) else Err ESyntax
  | VArr _ | VObj _ => Err ESyntax
  | _ => Ok v
  end.

Definition showAddACLModal (p : acl_page) : io acl_page :=
  Act (AModal "#myModal" true) (selectACL (VInt (-1)) p).
Definition showEditACLModal (aclID : val) (p : acl_page) : io acl_page :=
  Act (AModal "#myModal" true) (selectACL aclID p).
Definition hideEditACLModal (p : acl_page) : io acl_page :=
  Act (AModal "#myModal" false) (selectACL (VInt (-1)) p).

Definition confirmAndDeleteACL (id : val) (p : acl_page) : io acl_page :=
  Confirm "You are about to remove an acl. This CANNOT be undone! Are you sure you want to proceed?"
    (fun ok => if ok then await _ := deleteACL path id in selectACL (VInt (-1)) p else Ret p).

(** [position - 10] and [position + 10] on the argument of the handler. *)
Definition shift_position (d : Z) (v : val) : val := VNum (num_add (to_number v) (Fin (Dec d 0))).

Definition priority_obj (id position allow_deny low high workgroupID entityID : val) : val :=
  VObj [("aclID", id); ("position", position); ("low", low); ("high", high); ("allow", allow_deny);
        ("selectedWorkgroupID", workgroupID); ("entityID", entityID)].

Definition increaseACLPriority (id position allow_deny low high workgroupID entityID : val)
    (p : acl_page) : io acl_page :=
  await _ := modifyACL path (priority_obj id (shift_position (-10) position) allow_deny low high
                               workgroupID entityID) in
  selectACL (VInt (-1)) p.

Definition decreaseACLPriority (id position allow_deny low high workgroupID entityID : val)
    (p : acl_page) : io acl_page :=
  await _ := modifyACL path (priority_obj id (shift_position 10 position) allow_deny low high
                               workgroupID entityID) in
  selectACL (VInt (-1)) p.

(** A click on a button of the row of [acl]. *)
Definition priority_clicked (up : bool) (acl : val) (p : acl_page) : io acl_page :=
  pure id := (let? v := prop acl "interface_acl_id" in inline_arg v) in
  pure position := (let? v := prop acl "eval_position" in inline_arg v) in
  pure allow := (let? v := prop acl "allow_deny" in Ok (VStr (to_string v))) in
  pure low := (let? v := prop acl "start" in inline_arg v) in
  pure high := (let? v := prop acl "end" in inline_arg v) in
  pure wg := (let? v := prop acl "workgroup_id" in inline_arg v) in
  pure ent := (let? v := prop acl "entity_id" in inline_arg v) in
  (if up then increaseACLPriority else decreaseACLPriority) id position allow low high wg ent p.

(** The interface the list selects: the first one, when none is. *)
Definition list_selects (interfaceID : val) (intfs : list val) : res val :=
  match intfs with
  | i :: _ => if loose_eq interfaceID (VInt (-1)) then prop i "interface_id" else Ok interfaceID
  | [] => Ok interfaceID
  end.

End dialog.

(** ** The panel of the interface tables (js_utilities/interface_acl_panel.js) *)

(** [s.match(/^-?\d+$/) != null] *)
Definition digits1 (s : string) : bool :=
  match s with EmptyString => false | _ => str_forall is_digit s end.
Definition is_int_text (s : string) : bool :=
  match s with
  | String c t => if Ascii.eqb c "-" then digits1 t else digits1 s
  | EmptyString => false
  end.

(** [_validate_data]: the complaints, in order; the fields are the text of two
    inputs and the value of a list. *)
Definition validate_data (permission : val) (vlan_start vlan_end : string) : list string :=
  (if loose_eq permission VUndef || loose_eq permission (VStr estr)
   then ["Permission must be defined"] else []) ++
  (if negb (is_int_text vlan_start) then ["The start of the vlan range must be a number"] else []) ++
  (if negb (loose_eq (VStr vlan_end) (VStr estr)) && negb (is_int_text vlan_end)
   then ["The end of the vlan range must be a number or undefined"] else []) ++
  (if is_int_text vlan_end && is_int_text vlan_start
      && num_ltb (parse_int_str vlan_end) (parse_int_str vlan_start)
   then ["The start of the vlan range must be smaller the the end of the range"] else []).

(** ** The panel's inputs *)

(** The panel: the record it edits, its two lists, its text fields and whether
    its save button is enabled. *)
Record panel := Panel {
  p_record : option val;
  p_interface : val;
  p_workgroup : select;
  p_entity : select;
  p_permission : val;
  p_start : string;
  p_end : string;
  p_notes : string;
  p_save : bool
}.

(** jQuery's [val(x)] writes null and undefined as the empty text. *)
Definition field_text (v : val) : string :=
  match v with VUndef | VNull => estr | _ => to_string v end.

Definition empty_select : select := Select [] None true.

(** A new panel.  The permission list has an empty, an allow and a deny entry;
    the workgroup and entity lists fill when the replies arrive. *)
Definition open_panel (record : option val) (interface_id : val) : res panel :=
  match record with
  | None => Ok (Panel None interface_id empty_select empty_select (VStr estr) estr estr estr true)
  | Some rec =>
      let? allow := prop rec "allow_deny" in
      let? start := prop rec "start" in
      let? end_ := prop rec "end" in
      let? notes := prop rec "notes" in
      Ok (Panel (Some rec) interface_id empty_select empty_select (VStr (field_text allow))
            (field_text start) (field_text end_) (field_text notes) false)
  end.

(** The options of a reply: all, then an entry for each identifier. *)
Definition reply_options (ids : list val) : list opt :=
  Opt estr "All" [] false :: map (fun i => Opt (to_string i) (to_string i) [] false) ids.

(** Entries are appended to the list, which shows its first entry until a value
    is set; then the list is enabled. *)
Definition fill_select (s : select) (ids : list val) (wanted : option val) : select :=
  let opts := sl_options s ++ reply_options ids in
  let s1 := Select opts (match sl_index s with None => Some 0 | i => i end) false in
  match wanted with None => s1 | Some v => set_value s1 (field_text v) end.

Definition wanted_of (p : panel) (k : string) : res (option val) :=
  match p_record p with
  | None => Ok None
  | Some rec => let? v := prop rec k in Ok (Some v)
  end.

(** The replies of the two requests that the panel sends when it opens. *)
Definition entities_reply (ids : list val) (p : panel) : res panel :=
  let? w := wanted_of p "entity_id" in
  Ok (Panel (p_record p) (p_interface p) (p_workgroup p) (fill_select (p_entity p) ids w)
        (p_permission p) (p_start p) (p_end p) (p_notes p) true).

Definition workgroups_reply (ids : list val) (p : panel) : res panel :=
  let? w := wanted_of p "workgroup_id" in
  Ok (Panel (p_record p) (p_interface p) (fill_select (p_workgroup p) ids w) (p_entity p)
        (p_permission p) (p_start p) (p_end p) (p_notes p) true).

(** The value of a list; null when it shows nothing. *)
Definition select_val (s : select) : val :=
  match chosen s with Ok o => VStr (o_value o) | Err _ => VNull end.

(** The optional part of the request. *)
Definition optional_param (k : string) (v : val) : string :=
  if truthy v then "&" +:+ k +:+ "=" +:+ to_string v else estr.

(** The address of the save request. *)
Definition panel_url (prefix : string) (p : panel) : res string :=
  let? action :=
    (match p_record p with
     | Some rec =>
         let? id := prop rec "interface_acl_id" in
         let? position := prop rec "eval_position" in
         Ok ("update_acl&interface_acl_id=" +:+ to_string id
             +:+ "&eval_position=" +:+ to_string position)
     | None => Ok "add_acl"
     end) in
  Ok (prefix +:+ "services/workgroup_manage.cgi?method=" +:+ action
      +:+ "&allow_deny=" +:+ to_string (p_permission p) +:+ "&vlan_start=" +:+ p_start p
      +:+ "&interface_id=" +:+ to_string (p_interface p)
      +:+ optional_param "workgroup_id" (select_val (p_workgroup p))
      +:+ optional_param "entity_id" (select_val (p_entity p))
      +:+ optional_param "notes" (VStr (encodeURIComponent (p_notes p)))
      +:+ optional_param "vlan_end" (VStr (p_end p))).

(** What a click on the save button does. *)
Inductive save_outcome :=
  | SaveIgnored
  | SaveRejected (complaints : list string)
  | SaveSent (url : string).

Definition panel_save (prefix : string) (p : panel) : res save_outcome :=
  if negb (p_save p) then Ok SaveIgnored
  else match validate_data (p_permission p) (p_start p) (p_end p) with
       | [] => let? url := panel_url prefix p in Ok (SaveSent url)
       | l => Ok (SaveRejected l)
       end.

(** The reply of the save request: an alert, or the callback of the page. *)
Definition panel_saved (results : list val) (error interface_id : val) : res (string + val) :=
  match results with
  | [] => Ok (inl ("Error saving acl data: " +:+ to_string error))
  | r :: _ =>
      let? ok := prop r "success" in
      Ok (if truthy ok then inr (VObj [("interface_id", interface_id)])
          else inl ("Error saving acl data: " +:+ to_string error))
  end.

(** The remove button of an edit, once confirmed. *)
Definition panel_remove_url (prefix : string) (rec : val) : res string :=
  let? id := prop rec "interface_acl_id" in
  Ok (prefix +:+ "services/workgroup_manage.cgi?method=remove_acl&interface_acl_id=" +:+ to_string id).

(** ** The range column of the table (js_utilities/interface_acl_table.js) *)

Definition vlan_range (vlan_start vlan_end : val) : string :=
  let untagged := loose_eq vlan_start (VInt (-1)) in
  let shown := if untagged then VStr "untagged" else vlan_start in
  match vlan_end with
  | VNull => match shown with VNull => estr | _ => to_string shown end
  | _ => to_string shown +:+ (if loose_eq shown (VStr "untagged") then ", 1" else estr)
         +:+ "-" +:+ to_string vlan_end
  end.

(** ** Integer text *)

(** The integer an accepted text denotes. *)
Definition int_value (s : string) : Z :=
  match s with
  | String c t => if Ascii.eqb c "-" then (- Z.of_N (dec_value t))%Z else Z.of_N (dec_value s)
  | EmptyString => 0%Z
  end.

Lemma parse_int_text s : is_int_text s = true -> parse_int_str s = Fin (Dec (int_value s) 0).
Proof.
  destruct s as [|c t]; [done|]. unfold is_int_text, int_value. intros H.
  destruct (Ascii.eqb c "-") eqn:E.
  - apply Ascii.eqb_eq in E as ->. apply parse_int_minus_digits; by destruct t.
  - rewrite <- (str_app_nil_r (String c t)) at 1. by apply parse_int_digits.
Qed.

(** ** Validation *)

(** The panel accepts its data exactly when a permission is chosen, the
    first VLAN is an integer, and the last one is empty or an integer that is
    not below the first. *)
Theorem validate_data_accepts permission vlan_start vlan_end :
  validate_data permission vlan_start vlan_end = [] <->
  loose_eq permission VUndef = false /\ loose_eq permission (VStr estr) = false /\
  is_int_text vlan_start = true /\
  (vlan_end = estr \/
   is_int_text vlan_end = true /\ (int_value vlan_start <= int_value vlan_end)%Z).
Proof.
  unfold validate_data.
  destruct (loose_eq permission VUndef), (loose_eq permission (VStr estr)); cbn [orb app];
    try (split; [done|intros (? & ? & ?); done]).
  destruct (is_int_text vlan_start) eqn:Hs; cbn [negb app];
    [|split; [done|intros (_ & _ & ? & _); done]].
  cbn [loose_eq]. destruct (String.eqb_spec vlan_end estr) as [->|Hne]; cbn [negb andb app].
  { split; intros _; [auto 6|done]. }
  destruct (is_int_text vlan_end) eqn:He; cbn [negb andb app].
  - rewrite !parse_int_text, num_ltb_int by done.
    destruct (Z.ltb_spec (int_value vlan_end) (int_value vlan_start)).
    + split; [done|]. intros (_ & _ & _ & [?|[_ ?]]); [done|lia].
    + split; intros _; [auto 8|done].
  - split; [done|]. intros (_ & _ & _ & [?|[? _]]); done.
Qed.

(** ** The panel's requests *)

Definition opt_int (o : option Z) : val := match o with Some z => VInt z | None => VNull end.
Definition permission_text (allow : bool) : string := if allow then "allow" else "deny".

(** An ACL as the table holds it: no workgroup or entity stands for all. *)
Definition acl_data (id intf pos : Z) (wg ent : option Z) (allow : bool) (start : Z)
    (end_ : option Z) (notes : string) : val :=
  VObj [("interface_acl_id", VInt id); ("workgroup_id", opt_int wg); ("entity_id", opt_int ent);
        ("interface_id", VInt intf); ("allow_deny", VStr (permission_text allow));
        ("eval_position", VInt pos); ("start", VInt start); ("end", opt_int end_);
        ("notes", VStr notes)].

Definition opt_pair (k : string) (o : option Z) : list (string * string) :=
  match o with Some z => [(k, string_of_Z z)] | None => [] end.

(** The parameters of an update, in the order they are sent. *)
Definition update_params (id intf pos : Z) (wg ent : option Z) (allow : bool) (start : Z)
    (end_ : option Z) (notes : string) : list (string * string) :=
  [("method", "update_acl"); ("interface_acl_id", string_of_Z id);
   ("eval_position", string_of_Z pos); ("allow_deny", permission_text allow);
   ("vlan_start", string_of_Z start); ("interface_id", string_of_Z intf)]
  ++ opt_pair "workgroup_id" wg ++ opt_pair "entity_id" ent
  ++ match notes with EmptyString => [] | _ => [("notes", encodeURIComponent notes)] end
  ++ opt_pair "vlan_end" end_.

Lemma encode_plain s : plain (encodeURIComponent s) = true.
Proof.
  eapply str_forall_weaken; [|apply encode_safe].
  intros c H. destruct c as [[] [] [] [] [] [] [] []]; first [reflexivity | discriminate H].
Qed.

Lemma int_text_of_Z z : is_int_text (string_of_Z z) = true.
Proof.
  assert (D : forall n, digits1 (string_of_N n) = true).
  { intros n. pose proof (string_of_N_digits n). by destruct (string_of_N_cons n) as (? & ? & E & _); rewrite E in *. }
  destruct z as [|p|p]; simpl string_of_Z; [done| |].
  - destruct (string_of_N_cons (Npos p)) as (c & t & E & Hc). pose proof (D (Npos p)) as H. rewrite E in *.
    unfold is_int_text. destruct (Ascii.eqb c "-") eqn:Em; [|done].
    apply Ascii.eqb_eq in Em as ->. discriminate Hc.
  - apply (D (Npos p)).
Qed.

Lemma int_value_of_Z z : int_value (string_of_Z z) = z.
Proof.
  pose proof (parse_int_text _ (int_text_of_Z z)) as H. rewrite parse_int_string_of_Z in H. congruence.
Qed.

#[local] Hint Resolve string_of_Z_plain encode_plain : oess.

Lemma update_params_plain id intf pos wg ent allow start end_ notes :
  Forall (fun kv => plain kv.1 = true /\ plain kv.2 = true)
    (update_params id intf pos wg ent allow start end_ notes).
Proof.
  unfold update_params. rewrite !list.Forall_app, !list.Forall_cons. cbn [fst snd].
  destruct allow, wg, ent, notes, end_; cbn [opt_pair];
    repeat split; rewrite ?list.Forall_cons; cbn [fst snd]; auto with oess.
Qed.

(** The list shows the entry of [o], or nothing that is sent. *)
Definition shows (s : select) (o : option Z) : Prop :=
  match o with
  | Some z => select_val s = VStr (string_of_Z z)
  | None => truthy (select_val s) = false
  end.

Lemma optional_shows k s o : shows s o -> optional_param k (select_val s) = amp (opt_pair k o).
Proof.
  unfold optional_param, shows. destruct o as [z|]; [|by intros ->].
  intros ->. destruct (string_of_Z_head z) as (c & t & E & _). rewrite E.
  cbn [truthy to_string opt_pair amp]. by rewrite E, str_app_nil_r.
Qed.

Lemma optional_int k o : optional_param k (VStr (field_text (opt_int o))) = amp (opt_pair k o).
Proof.
  destruct o as [z|]; [|done]. unfold optional_param.
  change (field_text (opt_int (Some z))) with (string_of_Z z).
  cbn [opt_pair amp]. rewrite str_app_nil_r.
  by destruct (string_of_Z_head z) as (c & t & -> & _).
Qed.

Lemma optional_notes notes :
  optional_param "notes" (VStr (encodeURIComponent notes)) =
  amp (match notes with EmptyString => [] | _ => [("notes", encodeURIComponent notes)] end).
Proof.
  destruct notes as [|c t]; [done|].
  assert (encodeURIComponent (String c t) <> estr) as Hne.
  { intros E. pose proof (percent_decode_encode (String c t)) as H. by rewrite E in H. }
  unfold optional_param. cbn [amp]. rewrite str_app_nil_r.
  by destruct (encodeURIComponent (String c t)).
Qed.

(** A panel that edits an ACL. *)
Definition edit_panel (id intf pos : Z) (wg ent : option Z) (allow : bool) (start : Z)
    (end_ : option Z) (notes : string) (W E : select) (save : bool) : panel :=
  Panel (Some (acl_data id intf pos wg ent allow start end_ notes)) (VInt intf) W E
    (VStr (permission_text allow)) (string_of_Z start) (field_text (opt_int end_)) notes save.

Lemma edit_panel_valid start end_ allow :
  match end_ with Some e => (start <= e)%Z | None => True end ->
  validate_data (VStr (permission_text allow)) (string_of_Z start) (field_text (opt_int end_)) = [].
Proof.
  intros H. unfold validate_data. rewrite int_text_of_Z.
  destruct end_ as [e|].
  - change (field_text (opt_int (Some e))) with (string_of_Z e).
    rewrite int_text_of_Z, !parse_int_string_of_Z, num_ltb_int, andb_false_r.
    rewrite (proj2 (Z.ltb_ge _ _)) by done. by destruct allow.
  - by destruct allow.
Qed.

(** A valid edit sends the parameters of the record, with the workgroup and the
    entity its lists show. *)
Lemma edit_panel_sends prefix id intf pos wg ent allow start end_ notes W E wg' ent' :
  str_forall (fun c => negb (Ascii.eqb c "?")) prefix = true ->
  match end_ with Some e => (start <= e)%Z | None => True end ->
  shows W wg' -> shows E ent' ->
  exists url,
    panel_save prefix (edit_panel id intf pos wg ent allow start end_ notes W E true)
      = Ok (SaveSent url) /\
    query_of url = update_params id intf pos wg' ent' allow start end_ notes.
Proof.
  intros Hp Hend HW HE. unfold panel_save, edit_panel. cbn [p_save negb p_permission p_start p_end].
  rewrite edit_panel_valid by done. eexists. split; [reflexivity|].
  rewrite <- (query_of_string (acl_script prefix)
                (update_params id intf pos wg' ent' allow start end_ notes));
    [|by apply no_question_acl|done|apply update_params_plain].
  f_equal. cbn [p_interface p_workgroup p_entity p_notes p_end p_start p_permission].
  rewrite (optional_shows _ _ _ HW), (optional_shows _ _ _ HE), optional_notes, optional_int.
  unfold update_params, acl_script. cbn [app]. rewrite query_string_amp.
  cbn [amp]. rewrite !amp_app, !str_app_assoc. reflexivity.
Qed.

Lemma set_value_shows s v :
  v ∈ map o_value (sl_options s) -> select_val (set_value s v) = VStr v.
Proof.
  intros (o & -> & Ho)%list_elem_of_fmap_1. unfold select_val, set_value, chosen.
  cbn [sl_index sl_options].
  destruct (list_find (fun o' => o_value o' = o_value o) (sl_options s)) as [[i o']|] eqn:F.
  - apply list_find_Some in F as (L & Hv & _). cbn [fmap option_fmap option_map fst].
    rewrite L. by rewrite Hv.
  - apply list_find_None in F. rewrite list.Forall_forall in F. by destruct (F o Ho).
Qed.

Definition int_vals (l : list Z) : list val := map (fun z => VInt z) l.

Lemma filled_shows ids o :
  (forall z, o = Some z -> z ∈ ids) ->
  shows (fill_select empty_select (int_vals ids) (Some (opt_int o))) o.
Proof.
  intros H. unfold fill_select. cbn [empty_select sl_options sl_index app].
  destruct o as [z|]; unfold shows.
  - change (field_text (opt_int (Some z))) with (string_of_Z z).
    apply set_value_shows. cbn [sl_options reply_options map o_value].
    apply elem_of_cons. right. unfold int_vals. rewrite !map_map. cbn [o_value].
    change (string_of_Z z) with ((fun i => to_string (VInt i)) z).
    apply list_elem_of_fmap_2, H. done.
  - change (field_text (opt_int None)) with estr. rewrite set_value_shows; [done|].
    apply elem_of_cons. by left.
Qed.

(** Editing an ACL in the panel and saving it unchanged, once both lists have
    arrived, in either order, updates the ACL to the values it has: the same
    identifier, position, permission, range, interface, workgroup, entity and
    notes, which the receiver decodes to the text of the ACL. *)
Theorem panel_edit_roundtrip prefix id intf pos wg ent allow start end_ notes ws es :
  str_forall (fun c => negb (Ascii.eqb c "?")) prefix = true ->
  match end_ with Some e => (start <= e)%Z | None => True end ->
  (forall z, wg = Some z -> z ∈ ws) -> (forall z, ent = Some z -> z ∈ es) ->
  let rec := acl_data id intf pos wg ent allow start end_ notes in
  exists p url,
    (let? p0 := open_panel (Some rec) (VInt intf) in
     let? p1 := entities_reply (int_vals es) p0 in workgroups_reply (int_vals ws) p1) = Ok p /\
    (let? p0 := open_panel (Some rec) (VInt intf) in
     let? p1 := workgroups_reply (int_vals ws) p0 in entities_reply (int_vals es) p1) = Ok p /\
    panel_save prefix p = Ok (SaveSent url) /\
    query_of url = update_params id intf pos wg ent allow start end_ notes /\
    percent_decode (encodeURIComponent notes) = Some notes.
Proof.
  intros Hp Hend Hw He rec.
  destruct (edit_panel_sends prefix id intf pos wg ent allow start end_ notes _ _ wg ent Hp Hend
              (filled_shows _ _ Hw) (filled_shows _ _ He)) as (url & Hs & Hq).
  eexists _, url. split; [reflexivity|]. split; [reflexivity|].
  split; [exact Hs|]. split; [exact Hq|apply percent_decode_encode].
Qed.

Lemma panel_edit_roundtrip_witness :
  exists p url,
    (let? p0 := open_panel (Some (acl_data 4 7 10 (Some 3%Z) None true 100 (Some 200%Z) "a&b")) (VInt 7) in
     let? p1 := entities_reply (int_vals [5%Z]) p0 in workgroups_reply (int_vals [2; 3]%Z) p1) = Ok p /\
    panel_save "../" p = Ok (SaveSent url) /\
    query_of url =
      [("method", "update_acl"); ("interface_acl_id", "4"); ("eval_position", "10");
       ("allow_deny", "allow"); ("vlan_start", "100"); ("interface_id", "7"); ("workgroup_id", "3");
       ("notes", "a%26b"); ("vlan_end", "200")].
Proof.
  destruct (panel_edit_roundtrip "../" 4 7 10 (Some 3%Z) None true 100 (Some 200%Z) "a&b" [2; 3]%Z [5]%Z)
    as (p & url & H1 & _ & H2 & H3 & _).
  - reflexivity.
  - lia.
  - intros z [= <-]. apply (bool_decide_unpack _). vm_compute. exact I.
  - intros z [=].
  - exists p, url. split; [exact H1|]. split; [exact H2|]. exact H3.
Defined.

(** The save button of an edit is enabled as soon as the entities arrive,
    before the workgroups do: saving then sends the ACL without its workgroup,
    which stands for every workgroup. *)
Theorem panel_early_save prefix id intf pos wg ent allow start end_ notes es :
  str_forall (fun c => negb (Ascii.eqb c "?")) prefix = true ->
  match end_ with Some e => (start <= e)%Z | None => True end ->
  (forall z, ent = Some z -> z ∈ es) ->
  exists p url,
    (let? p0 := open_panel (Some (acl_data id intf pos wg ent allow start end_ notes)) (VInt intf) in
     entities_reply (int_vals es) p0) = Ok p /\
    panel_save prefix p = Ok (SaveSent url) /\
    query_of url = update_params id intf pos None ent allow start end_ notes.
Proof.
  intros Hp Hend He.
  destruct (edit_panel_sends prefix id intf pos wg ent allow start end_ notes empty_select _ None ent
              Hp Hend eq_refl (filled_shows _ _ He)) as (url & Hs & Hq).
  eexists _, url. split; [reflexivity|]. split; [exact Hs|exact Hq].
Qed.

Lemma panel_early_save_witness :
  exists p url,
    (let? p0 := open_panel (Some (acl_data 4 7 10 (Some 3%Z) (Some 5%Z) true 100 None estr)) (VInt 7) in
     entities_reply (int_vals [5%Z]) p0) = Ok p /\
    panel_save estr p = Ok (SaveSent url) /\
    query_of url =
      [("method", "update_acl"); ("interface_acl_id", "4"); ("eval_position", "10");
       ("allow_deny", "allow"); ("vlan_start", "100"); ("interface_id", "7"); ("entity_id", "5")].
Proof.
  apply (panel_early_save estr 4 7 10 (Some 3%Z) (Some 5%Z) true 100 None estr [5%Z]).
  - reflexivity.
  - exact I.
  - intros z [= <-]. apply (bool_decide_unpack _). vm_compute. exact I.
Defined.

(** ** The requests of the dialog and of the priority buttons *)

(** The parameters of an update by the client, in the order they are sent. *)
Definition modify_params (id pos allow low : val) (intf : option val) (ent wg high : val)
    (notes : option val) : list (string * string) :=
  [("method", "update_acl"); ("interface_acl_id", show id); ("eval_position", show pos);
   ("allow_deny", show allow); ("start", show low)]
  ++ match intf with Some i => [("interface_id", show i)] | None => [] end
  ++ (if truthy ent && negb (strict_eq ent (VInt (-1))) then [("entity_id", show ent)] else [])
  ++ (if truthy wg then [("workgroup_id", show wg)] else [])
  ++ [("end", show high)]
  ++ match notes with Some n => [("notes", show n)] | None => [] end.

Definition opt_list {A} (o : option A) : list A := match o with Some a => [a] | None => [] end.

Lemma modify_params_plain id pos allow low intf ent wg high notes :
  forallb plain (map show ([id; pos; allow; low; ent; wg; high] ++ opt_list intf ++ opt_list notes))
    = true ->
  Forall (fun kv => plain kv.1 = true /\ plain kv.2 = true)
    (modify_params id pos allow low intf ent wg high notes).
Proof.
  intros H. cbn [app map forallb] in H.
  repeat match type of H with _ && _ = true => apply andb_true_iff in H as [? H] end.
  unfold modify_params. rewrite !list.Forall_app, !list.Forall_cons.
  destruct intf, notes, (truthy ent && _), (truthy wg); cbn [opt_list app map forallb fst snd] in *;
    repeat match type of H with _ && _ = true => apply andb_true_iff in H as [? H] end;
    repeat split; rewrite ?list.Forall_cons; cbn [fst snd]; auto.
Qed.

Lemma modify_url_state path s :
  modify_acl_url path (state_obj s) =
  Ok (acl_script path +:+ "?" +:+ query_string
        (modify_params (st_aclID s) (st_position s) (st_allow s) (st_low s) (st_interfaceID s)
           (st_entityID s) (st_selectedWorkgroupID s) (st_high s) (Some (st_notes s)))).
Proof.
  unfold modify_acl_url, state_obj, modify_params, acl_script, acl_base. cbn [app].
  rewrite query_string_amp. cbn -[String.append amp strict_eq truthy show].
  destruct (st_interfaceID s); cbn -[String.append amp strict_eq truthy show];
    destruct (truthy (st_entityID s) && _), (truthy (st_selectedWorkgroupID s));
    cbn [amp app]; rewrite !str_app_assoc, ?str_app_nil_r; reflexivity.
Qed.

Lemma modify_url_priority path id pos allow low high wg ent :
  modify_acl_url path (priority_obj id pos allow low high wg ent) =
  Ok (acl_script path +:+ "?" +:+ query_string (modify_params id pos allow low None ent wg high None)).
Proof.
  unfold modify_acl_url, priority_obj, modify_params, acl_script, acl_base. cbn [app].
  rewrite query_string_amp. cbn -[String.append amp strict_eq truthy show].
  destruct (truthy ent && _), (truthy wg); cbn [amp app];
    rewrite !str_app_assoc, ?str_app_nil_r; reflexivity.
Qed.

(** A guarded request, then the rest of the program. *)
Lemma after_get_or {S A} (w : env S) url body d (f : val -> io A) s :
  exists v s', run_trace w (io_bind (get_or url body d) f) s
               = EvFetch (Req false url []) :: run_trace w (f v) s'.
Proof.
  destruct (total_run w _ s (get_or_total url body d)) as [v Hv].
  exists v, (run_state w (get_or url body d) s). unfold run_trace at 1.
  rewrite run_bind, run_eta, Hv, (get_or_only url body d _ w s), (run_eta w (f v)). done.
Qed.

Lemma save_trace {S} path (w : env S) url body d p st :
  exists t,
    run_trace w (io_bind (get_or url body d) (fun _ => Act (AModal "#myModal" false) (update path p))) st
    = EvFetch (Req false url []) :: EvAct (AModal "#myModal" false) :: t.
Proof.
  destruct (after_get_or w url body d (fun _ => Act (AModal "#myModal" false) (update path p)) st)
    as (v & s' & ->).
  exists (run_trace w (update path p) s'). f_equal. unfold run_trace. simpl.
  by destruct (run w (update path p) s') as [[]].
Qed.

Lemma add_url_state path s :
  add_acl_url path (state_obj s) =
  Ok (acl_script path +:+ "?" +:+ query_string
        (add_acl_params (st_allow s) (st_low s) (default VUndef (st_interfaceID s))
           (st_entityID s) (st_selectedWorkgroupID s) (st_high s) (st_notes s))).
Proof. rewrite <- add_acl_url_eq. unfold state_obj. by destruct (st_interfaceID s). Qed.

Lemma add_params_plain allow low intf ent wg high notes :
  forallb plain (map show ([allow; low; ent; wg; high] ++ opt_list intf ++ [notes])) = true ->
  Forall (fun kv => plain kv.1 = true /\ plain kv.2 = true)
    (add_acl_params allow low (default VUndef intf) ent wg high notes).
Proof.
  intros H. cbn [app map forallb] in H.
  repeat match type of H with _ && _ = true => apply andb_true_iff in H as [? H] end.
  unfold add_acl_params. destruct intf; cbn [opt_list app map forallb] in H;
    repeat match type of H with _ && _ = true => apply andb_true_iff in H as [? H] end;
    destruct (strict_eq wg (VInt (-1))); repeat constructor; done.
Qed.

(** Saving the dialog sends its fields, each once and under its name, to the
    method that fits (a creation, or an update of the ACL being edited), then
    closes the dialog, whatever the server answers. *)
Theorem saveACL_sends {S} path (w : env S) (p : acl_page) (st : S) :
  let s := pg_dialog p in
  str_forall (fun c => negb (Ascii.eqb c "?")) path = true ->
  forallb plain (map show ([st_aclID s; st_position s; st_allow s; st_low s; st_entityID s;
                            st_selectedWorkgroupID s; st_high s]
                           ++ opt_list (st_interfaceID s) ++ [st_notes s])) = true ->
  exists url t,
    run_trace w (saveACL path p) st
      = EvFetch (Req false url []) :: EvAct (AModal "#myModal" false) :: t /\
    query_of url =
      (if strict_eq (st_aclID s) (VInt (-1))
       then add_acl_params (st_allow s) (st_low s) (default VUndef (st_interfaceID s)) (st_entityID s)
              (st_selectedWorkgroupID s) (st_high s) (st_notes s)
       else modify_params (st_aclID s) (st_position s) (st_allow s) (st_low s) (st_interfaceID s)
              (st_entityID s) (st_selectedWorkgroupID s) (st_high s) (Some (st_notes s))).
Proof.
  intros s Hp H. unfold saveACL. fold s.
  destruct (strict_eq (st_aclID s) (VInt (-1))) eqn:E.
  - unfold addACL. rewrite add_url_state. cbn [io_lift io_bind].
    edestruct (@save_trace S) as (t & Ht). eexists _, t. split; [exact Ht|].
    apply query_of_string; [by apply no_question_acl|done|]. apply add_params_plain.
    cbn [app map forallb] in H. apply andb_true_iff in H as [_ H]. by apply andb_true_iff in H as [_ H].
  - unfold modifyACL. rewrite modify_url_state. cbn [io_lift io_bind].
    edestruct (@save_trace S) as (t & Ht). eexists _, t. split; [exact Ht|].
    apply query_of_string; [by apply no_question_acl|done|by apply modify_params_plain].
Qed.

Lemma saveACL_sends_witness :
  exists s url t,
    edited_acl (VInt 1) (acl_data 4 7 10 (Some 3%Z) (Some 5%Z) false 100 (Some 200%Z) "maintenance") = Ok s /\
    run_trace (const_server ONetFail) (saveACL "/oess/" (AclPage (VInt 7) (VInt 4) (setLow "150" s))) tt
      = EvFetch (Req false url []) :: EvAct (AModal "#myModal" false) :: t /\
    query_of url =
      [("method", "update_acl"); ("interface_acl_id", "4"); ("eval_position", "10");
       ("allow_deny", "deny"); ("start", "150"); ("interface_id", "7"); ("entity_id", "5");
       ("workgroup_id", "3"); ("end", "200"); ("notes", "maintenance")].
Proof.
  eexists. edestruct (@saveACL_sends unit "/oess/" (const_server ONetFail)) as (url & t & H1 & H2);
    [| |exists url, t; split; [reflexivity|split; [exact H1|exact H2]]]; reflexivity.
Defined.

(** An ACL with no last VLAN is saved with the word null for it. *)
Example dialog_sends_null :
  (let? s := edited_acl (VInt 1) (acl_data 4 7 10 (Some 3%Z) (Some 5%Z) true 100 None estr) in
   let? url := modify_acl_url "/" (state_obj s) in Ok (query_of url)) =
  Ok [("method", "update_acl"); ("interface_acl_id", "4"); ("eval_position", "10");
      ("allow_deny", "allow"); ("start", "100"); ("interface_id", "7"); ("entity_id", "5");
      ("workgroup_id", "3"); ("end", "null"); ("notes", estr)].
Proof. vm_compute. reflexivity. Qed.

(** Choosing all workgroups again, in a new ACL, sends the text -1 as workgroup;
    the untouched dialog sends none. *)
Example all_workgroups_text :
  let fresh := new_acl (VInt 1) (Some (VInt 7)) in
  (let? url := add_acl_url "/" (state_obj fresh) in Ok (map fst (query_of url))) =
  Ok ["method"; "allow_deny"; "vlan_start"; "interface_id"; "entity_id"; "vlan_end"; "notes"] /\
  (let? url := add_acl_url "/" (state_obj (setSelectedWorkgroupID "-1" fresh)) in
   Ok (filter (fun kv => kv.1 = "workgroup_id") (query_of url))) = Ok [("workgroup_id", "-1")].
Proof. vm_compute. split; reflexivity. Qed.

(** ** Priorities *)

(** An integer field of a reply: a number, or its text. *)
Definition num_or_text (t : bool) (z : Z) : val := if t then VStr (string_of_Z z) else VInt z.
Definition opt_field (t : bool) (o : option Z) : val :=
  match o with Some z => num_or_text t z | None => VNull end.

(** The row of an ACL in the list. *)
Definition row_data (t : bool) (id pos : Z) (allow : bool) (start : Z) (end_ wg ent : option Z) : val :=
  VObj [("interface_acl_id", num_or_text t id); ("eval_position", num_or_text t pos);
        ("allow_deny", VStr (permission_text allow)); ("start", num_or_text t start);
        ("end", opt_field t end_); ("workgroup_id", opt_field t wg); ("entity_id", opt_field t ent)].

Lemma inline_num t z : inline_arg (num_or_text t z) = Ok (VInt z).
Proof.
  destruct t; [|done]. unfold num_or_text, inline_arg, canonical_int.
  by rewrite parse_int_string_of_Z, String.eqb_refl.
Qed.

Lemma inline_opt t o : inline_arg (opt_field t o) = Ok (opt_int o).
Proof. destruct o; [apply inline_num|done]. Qed.

Lemma shift_position_int d z : shift_position d (VInt z) = VInt (z + d).
Proof.
  unfold shift_position, num_add, dscale_up. cbn [to_number dman dscale].
  by rewrite !Z.mul_1_r.
Qed.

(** The up and down buttons of a row move the ACL by ten places and send its
    other fields as they are, whether the server wrote them as numbers or as
    text: the position is computed on numbers, never joined as text. *)
Theorem priority_moves {S} path (w : env S) up t id pos allow start end_ wg ent p (st : S) :
  str_forall (fun c => negb (Ascii.eqb c "?")) path = true ->
  exists url tr,
    run_trace w (priority_clicked path up (row_data t id pos allow start end_ wg ent) p) st
      = EvFetch (Req false url []) :: tr /\
    query_of url =
      modify_params (VInt id) (VInt (if up then pos - 10 else pos + 10)) (VStr (permission_text allow))
        (VInt start) None (opt_int ent) (opt_int wg) (opt_int end_) None.
Proof.
  intros Hp. set (par := modify_params _ _ _ _ _ _ _ _ _).
  assert (HF : Forall (fun kv => plain kv.1 = true /\ plain kv.2 = true) par).
  { apply modify_params_plain. cbn [opt_list app map forallb].
    assert (V : forall z, plain (show (VInt z)) = true) by (intros z; apply string_of_Z_plain).
    rewrite !V. by destruct allow, wg, ent, end_; cbn [opt_int]; rewrite ?V. }
  assert (HR : priority_clicked path up (row_data t id pos allow start end_ wg ent) p =
          io_bind (get_or (acl_script path +:+ "?" +:+ query_string par) acl_reply (VBool false))
            (fun _ => selectACL path (VInt (-1)) p)).
  { unfold priority_clicked, row_data. cbn -[inline_arg increaseACLPriority decreaseACLPriority num_or_text opt_field].
    rewrite !inline_num, !inline_opt. cbn [io_lift io_bind].
    subst par. destruct up; unfold increaseACLPriority, decreaseACLPriority, modifyACL;
      rewrite modify_url_priority, shift_position_int; reflexivity. }
  rewrite HR. edestruct (@after_get_or S acl_page) as (v & s' & Ht). eexists _, _. split; [exact Ht|].
  apply query_of_string; [by apply no_question_acl|done|done].
Qed.

Lemma priority_moves_witness :
  exists url tr,
    run_trace (const_server OBadJson)
      (priority_clicked "/" false (row_data true 4 20 true 100 (Some 200%Z) None (Some 5%Z))
         (AclPage (VInt 7) (VInt (-1)) (new_acl (VInt 1) (Some (VInt 7))))) tt
      = EvFetch (Req false url []) :: tr /\
    query_of url =
      [("method", "update_acl"); ("interface_acl_id", "4"); ("eval_position", "30");
       ("allow_deny", "allow"); ("start", "100"); ("entity_id", "5"); ("end", "200")].
Proof.
  apply (@priority_moves unit "/" (const_server OBadJson) false true 4 20 true 100 (Some 200%Z) None
           (Some 5%Z)). reflexivity.
Defined.
