(* ===== verification/AdminApi.v ===== *)
(** * The service client of the administration pages (new/admin_new/src/api)

    One definition per exported function.  Every function builds an address by
    appending parameters, sends it, throws the error text of the reply, and
    returns the first result, the list of results or the whole document; some
    catch every error and return a default instead, and three look at the HTTP
    status first.  [base] is [config.base_url], set when the bundle is built.

    The module keeps the names of the source apart from the older client's. *)

From Stdlib Require Import ZArith Lia Ascii String.
From stdpp Require Import base option list sets strings numbers tactics.
From S2P Require Import Prelude JsValue JsJson Fetch Api.

Module Admin.
Section client.
Variable base : string.

(** [`${config.base_url}/services/<script>?method=<method>`], then
    [url += `&k=v`] for each parameter. *)
Definition script_url (script : string) : string := base +:+ "/services/" +:+ script.
Definition svc (script method : string) (params : list (string * string)) : string :=
  script_url script +:+ "?method=" +:+ method +:+ amp params.

(** Request, document, error text, and the part of the document returned. *)
Definition call (url : string) (part : val -> res val) : io val :=
  await data := get_json url in
  io_lift (let? _ := throw_error_text data in part data).

Definition whole (data : val) : res val := Ok data.

(** [try { call } catch (error) { return dflt }] *)
Definition guarded (url : string) (part : val -> res val) (dflt : val) : io val :=
  io_try (call url part) (fun _ => Ret dflt).

(** [if (!resp.ok) throw resp.statusText;] before the document is read. *)
Definition call_ok (url : string) (part : val -> res val) : io val :=
  await data := Fetch (Req false url []) (fun o =>
                  match o with
                  | OHttp text _ => Raise (EVal (VStr text))
                  | _ => io_lift (outcome_data o)
                  end) in
  io_lift (let? _ := throw_error_text data in part data).

(** Parameters read from the properties of an object. *)
Definition reads (obj : val) (l : list (string * string)) : res (list (string * string)) :=
  res_map (fun kn => let? v := prop obj (snd kn) in Ok (fst kn, show v)) l.

(** [if ('k' in obj) url += `&p=${obj.k}`;] *)
Definition read_if (obj : val) (param k : string) : res (list (string * string)) :=
  let? b := has k obj in
  if b then reads obj [(param, k)] else Ok [].

(** ** acls.js *)

Definition getAcl (id : val) : io val := call (svc "acl.cgi" "get_acl" [("interface_acl_id", show id)]) first_result.
Definition getAcls (id : val) : io val := call (svc "acl.cgi" "get_acls" [("interface_id", show id)]) results.

Definition createAcl (acl : val) : io val :=
  pure ps := reads acl [("allow_deny", "allowDeny"); ("start", "start"); ("end", "end");
                        ("interface_id", "interfaceId"); ("notes", "notes");
                        ("workgroup_id", "workgroupId"); ("entity_id", "entityId")] in
  call (svc "acl.cgi" "create_acl" ps) first_result.

Definition deleteAcl (id : val) : io val :=
  call (svc "acl.cgi" "delete_acl" [("interface_acl_id", show id)]) first_result.

Definition editAcl (acl : val) : io val :=
  pure ps := reads acl [("interface_acl_id", "interfaceAclId"); ("allow_deny", "allowDeny");
                        ("start", "start"); ("end", "end"); ("interface_id", "interfaceId");
                        ("notes", "notes"); ("eval_position", "evalPosition");
                        ("workgroup_id", "workgroupId"); ("entity_id", "entityId")] in
  pure qs := read_if acl "notes" "notes" in
  call (svc "acl.cgi" "edit_acl" (ps ++ qs)) first_result.

(** [acl.evalPosition = parseInt(acl.evalPosition) + d; return editAcl(acl);] *)
Definition move_acl (d : Z) (acl : val) : io val :=
  pure v := prop acl "evalPosition" in
  let pos := VNum (num_add (parseInt v) (Fin (Dec d 0))) in
  pure acl1 := (match acl with
                | VObj o => Ok (VObj (obj_set "evalPosition" pos o))
                | _ => Err EType
                end) in
  editAcl acl1.
Definition increaseAclPriority (acl : val) : io val := move_acl (-10) acl.
Definition decreaseAclPriority (acl : val) : io val := move_acl 10 acl.

(** ** admin.js *)

Definition getEndpointsInReview : io val := call (svc "admin/admin.cgi" "get_endpoints_in_review" []) results.

Definition reviewEndpoint (approve circuitEpId vrfEpId : val) : io val :=
  call_ok (svc "admin/admin.cgi" "review_endpoint"
             ((if truthy approve then [("approve", "1")] else [("approve", "0")])
              ++ (if truthy circuitEpId then [("circuit_ep_id", show circuitEpId)]
                  else if truthy vrfEpId then [("vrf_ep_id", show vrfEpId)] else [])))
    results.

(** ** entities.js, links.js *)

Definition getEntities (workgroupId : val) : io val :=
  guarded (svc "entity.cgi" "get_entities" [("workgroup_id", show workgroupId)]) results (VArr []).

Definition deleteLink (linkID : val) : io val :=
  call (svc "link.cgi" "edit_link" [("link_id", show linkID); ("status", "down")]) results.
Definition getLinks : io val := call (svc "link.cgi" "get_links" []) results.

(** ** interfaces.js *)

Definition getInterfaces (nodeId : val) : io val :=
  call (svc "interface.cgi" "get_interfaces" [("node_id", show nodeId)]) results.
Definition getInterfacesByWorkgroupId (workgroupId : val) : io val :=
  call (svc "interface.cgi" "get_workgroup_interfaces" [("workgroup_id", show workgroupId)]) results.
Definition getInterface (interfaceId : val) : io val :=
  call (svc "interface.cgi" "get_interface" [("interface_id", show interfaceId)]) first_result.

Definition editInterface (intf : val) : io val :=
  pure p1 := reads intf [("interface_id", "interfaceId")] in
  pure p2 := read_if intf "mpls_vlan_tag_range" "mplsVlanTagRange" in
  pure p3 := read_if intf "cloud_interconnect_type" "cloudInterconnectType" in
  pure p4 := read_if intf "cloud_interconnect_id" "cloudInterconnectId" in
  pure p5 := reads intf [("workgroup_id", "workgroupId")] in
  call (svc "interface.cgi" "edit_interface" (p1 ++ p2 ++ p3 ++ p4 ++ p5)) results.

Definition migrateInterface (src dst : val) : io val :=
  call (svc "interface.cgi" "migrate_interface"
          [("src_interface_id", show src); ("dst_interface_id", show dst)]) results.

(** ** nodes.js *)

(** [if (!allowed.includes(v)) throw `Invalid <what> '${v}' used in <who>.`;] *)
Definition require_one (allowed : list string) (what who : string) (v : val) : res unit :=
  if existsb (fun s => strict_eq (VStr s) v) allowed then Ok tt
  else Err (EVal (VStr ("Invalid " +:+ what +:+ " '" +:+ show v +:+ "' used in " +:+ who +:+ "."))).

Definition validControllers : list string := ["netconf"; "nso"; "openflow"].

Definition node_fields : list (string * string) :=
  [("name", "name"); ("short_name", "shortName"); ("longitude", "longitude"); ("latitude", "latitude");
   ("vlan_range", "vlanRange"); ("ip_address", "ipAddress"); ("tcp_port", "tcpPort"); ("make", "make");
   ("model", "model"); ("controller", "controller")].

Definition createNode (node : val) : io val :=
  pure c := prop node "controller" in
  pure _ := require_one validControllers "controller" "createNode" c in
  pure ps := reads node node_fields in
  call (svc "node.cgi" "create_node" ps) first_result.

Definition editNode (node : val) : io val :=
  pure c := prop node "controller" in
  pure _ := require_one validControllers "controller" "editNode" c in
  pure ps := reads node (("node_id", "nodeId") :: node_fields) in
  call (svc "node.cgi" "edit_node" ps) first_result.

Definition node_call (method : string) (nodeId : val) : string := svc "node.cgi" method [("node_id", show nodeId)].
Definition getNode (nodeId : val) : io val := call (node_call "get_node" nodeId) first_result.
Definition getNodes : io val := call (svc "node.cgi" "get_nodes" []) results.
Definition approveDiff (nodeId : val) : io val := call_ok (node_call "approve_diff" nodeId) results.
Definition getDiff (nodeId : val) : io val := call_ok (node_call "get_diff" nodeId) first_result.
Definition deleteNode (nodeId : val) : io val := call (node_call "delete_node" nodeId) results.

(** ** workgroup.js *)

Definition getWorkgroups : io val := guarded (svc "data.cgi" "get_workgroups" []) results (VArr []).
Definition getAllWorkgroups : io val :=
  guarded (svc "workgroup_manage.cgi" "get_all_workgroups" []) results (VArr []).

Definition validTypes : list string := ["demo"; "normal"; "admin"].
Definition workgroup_fields : list (string * string) :=
  [("name", "name"); ("description", "description"); ("external_id", "externalId"); ("type", "type")].

Definition createWorkgroup (workgroup : val) : io val :=
  pure t := prop workgroup "type" in
  pure _ := require_one validTypes "type" "createWorkgroup" t in
  pure ps := reads workgroup workgroup_fields in
  call (svc "workgroup.cgi" "create_workgroup" ps) first_result.

Definition workgroup_call (method : string) (id : val) (more : list (string * string)) : string :=
  svc "workgroup.cgi" method (("workgroup_id", show id) :: more).

Definition deleteWorkgroup (id : val) : io val := call (workgroup_call "delete_workgroup" id []) first_result.

Definition editWorkgroup (workgroup : val) : io val :=
  pure t := prop workgroup "type" in
  pure _ := require_one validTypes "type" "editWorkgroup" t in
  pure ps := reads workgroup (workgroup_fields ++ [("workgroup_id", "workgroupId")]) in
  call (svc "workgroup.cgi" "edit_workgroup" ps) first_result.

Definition getWorkgroup (id : val) : io val := guarded (workgroup_call "get_workgroup" id []) whole (VArr []).
Definition getWorkgroupUsers (id : val) : io val :=
  guarded (workgroup_call "get_workgroup_users" id []) whole (VArr []).

Definition modifyWorkgroupUser (id user_id role : val) : io val :=
  call (workgroup_call "modify_workgroup_user" id [("user_id", show user_id); ("role", show role)]) first_result.
Definition removeWorkgroupUser (id user_id : val) : io val :=
  call (workgroup_call "remove_workgroup_user" id [("user_id", show user_id)]) first_result.
Definition addWorkgroupUser (id user_id role : val) : io val :=
  call (workgroup_call "add_workgroup_user" id [("user_id", show user_id); ("role", show role)]) first_result.

(** ** users.jsx, user_menu.jsx *)

Definition getUser (user_id : val) : io val :=
  guarded (svc "user.cgi" "get_user" [("user_id", show user_id)]) whole VNull.
Definition getUsers : io val := guarded (svc "user.cgi" "get_users" []) results (VArr []).

(** [for (...) url += `&username=${user.usernames[i]}`;]; the form keeps the
    names in an array. *)
Definition usernames (user : val) : res (list (string * string)) :=
  let? us := prop user "usernames" in
  let? l := elements_of us in
  Ok (map (fun u => ("username", show u)) l).

Definition createUser (user : val) : io val :=
  pure ps := reads user [("email", "email"); ("first_name", "firstName"); ("last_name", "lastName")] in
  pure us := usernames user in
  call (svc "user.cgi" "create_user" (ps ++ us)) first_result.

Definition deleteUser (user_id : val) : io val :=
  call (svc "user.cgi" "delete_user" [("user_id", show user_id)]) first_result.

Definition editUser (user : val) : io val :=
  pure ps := reads user [("user_id", "userId"); ("first_name", "firstName"); ("last_name", "lastName");
                         ("email", "email")] in
  pure us := usernames user in
  call (svc "user.cgi" "edit_user" (ps ++ us)) results.

Definition getCurrentUser : io val :=
  io_try (await data := get_json (svc "user.cgi" "get_current" []) in io_lift (first_result data))
    (fun _ => Ret VNull).

End client.
End Admin.

(** ** Lemmas *)

Lemma call_run {S} (w : env S) url part s :
  run w (Admin.call url part) s =
  let '(s', o) := server w s (Req false url []) in
  (s', [EvFetch (Req false url [])],
   let? data := outcome_data o in let? _ := throw_error_text data in part data).
Proof.
  unfold Admin.call. rewrite run_bind. simpl. destruct (server w s _) as [s' o].
  destruct (outcome_data o) as [data|e]; simpl; [|done].
  by destruct (let? _ := throw_error_text data in part data).
Qed.

Lemma guarded_total url part d : total (Admin.guarded url part d).
Proof. unfold Admin.guarded. auto with oess. Qed.

#[export] Hint Resolve guarded_total : oess.

Lemma svc_query base script method params :
  str_forall (fun c => negb (Ascii.eqb c "?")) (Admin.script_url base script) = true ->
  plain method = true ->
  Forall (fun kv => plain (fst kv) = true /\ plain (snd kv) = true) params ->
  query_of (Admin.svc base script method params) = ("method", method) :: params.
Proof.
  intros Hb Hm HF.
  rewrite <- (query_of_string (Admin.script_url base script) (("method", method) :: params));
    [|done|done|by constructor].
  f_equal. unfold Admin.svc. by rewrite query_string_amp.
Qed.

Lemma script_no_question base script :
  str_forall (fun c => negb (Ascii.eqb c "?")) base = true ->
  str_forall (fun c => negb (Ascii.eqb c "?")) script = true ->
  str_forall (fun c => negb (Ascii.eqb c "?")) (Admin.script_url base script) = true.
Proof. intros H1 H2. unfold Admin.script_url. by rewrite !str_forall_app, H1, H2. Qed.

(** A property of an object, undefined when it is missing. *)
Definition field_of (o : list (string * val)) (k : string) : val := default VUndef (obj_get k o).

Lemma reads_obj o l :
  Admin.reads (VObj o) l = Ok (map (fun kn => (fst kn, show (field_of o (snd kn)))) l).
Proof.
  unfold Admin.reads. induction l as [|[k n] l IH]; [done|].
  rewrite res_map_cons, IH. done.
Qed.

Lemma read_params_plain o l :
  forallb (fun kn => plain (fst kn) && plain (show (field_of o (snd kn)))) l = true ->
  Forall (fun kv => plain (fst kv) = true /\ plain (snd kv) = true)
    (map (fun kn => (fst kn, show (field_of o (snd kn)))) l).
Proof.
  induction l as [|[k n] l IH]; [constructor|]. cbn [forallb map fst snd]. intros H.
  apply andb_true_iff in H as [H Hl]. apply andb_true_iff in H as [H1 H2].
  constructor; [done|by apply IH].
Qed.

(** ** Theorems *)

(** Saving a node, new or existing, checks the controller before it sends
    anything: a controller that is not one of the three throws, with no
    request.  Otherwise one request carries every field of the node under its
    name, and the call returns the first result or throws the error text. *)
Theorem node_saved {S} (w : env S) base (edit : bool) o s :
  let fields := (if edit then [("node_id", "nodeId")] else []) ++ Admin.node_fields in
  let save := if edit then Admin.editNode base (VObj o) else Admin.createNode base (VObj o) in
  str_forall (fun c => negb (Ascii.eqb c "?")) base = true ->
  forallb (fun kn => plain (fst kn) && plain (show (field_of o (snd kn)))) fields = true ->
  if existsb (fun c => strict_eq (VStr c) (field_of o "controller")) Admin.validControllers
  then exists url,
    query_of url = ("method", if edit then "edit_node" else "create_node")
                   :: map (fun kn => (fst kn, show (field_of o (snd kn)))) fields /\
    run w save s =
    let '(s', out) := server w s (Req false url []) in
    (s', [EvFetch (Req false url [])],
     let? data := outcome_data out in let? _ := throw_error_text data in first_result data)
  else exists text, run w save s = (s, [], Err (EVal (VStr text))).
Proof.
  intros fields save Hb HF.
  assert (Q : forall m, plain m = true ->
    query_of (Admin.svc base "node.cgi" m (map (fun kn => (fst kn, show (field_of o (snd kn)))) fields))
    = ("method", m) :: map (fun kn => (fst kn, show (field_of o (snd kn)))) fields).
  { intros m Hm. apply svc_query; [by apply script_no_question|done|by apply read_params_plain]. }
  destruct (existsb _ _) eqn:E.
  - exists (Admin.svc base "node.cgi" (if edit then "edit_node" else "create_node")
              (map (fun kn => (fst kn, show (field_of o (snd kn)))) fields)).
    split; [apply Q; by destruct edit|]. rewrite <- call_run. f_equal.
    subst save fields. destruct edit; unfold Admin.editNode, Admin.createNode; cbn [prop io_lift io_bind];
      unfold Admin.require_one; fold (field_of o "controller"); rewrite E; cbn [io_lift io_bind];
      by rewrite reads_obj.
  - subst save. destruct edit; unfold Admin.editNode, Admin.createNode; cbn [prop io_lift io_bind];
      unfold Admin.require_one; fold (field_of o "controller"); rewrite E; cbn [io_lift io_bind];
      eexists; reflexivity.
Qed.

Definition sample_node (controller : string) : list (string * val) :=
  [("name", VStr "rtr.chic"); ("shortName", VStr "chic"); ("longitude", VStr "-87.6"); ("latitude", VStr "41.8");
   ("vlanRange", VStr "1-4095"); ("ipAddress", VStr "192.0.2.1"); ("tcpPort", VInt 830); ("make", VStr "Juniper");
   ("model", VStr "MX"); ("controller", VStr controller)].

Lemma node_saved_witness :
  (exists url,
     query_of url =
       [("method", "create_node"); ("name", "rtr.chic"); ("short_name", "chic"); ("longitude", "-87.6");
        ("latitude", "41.8"); ("vlan_range", "1-4095"); ("ip_address", "192.0.2.1"); ("tcp_port", "830");
        ("make", "Juniper"); ("model", "MX"); ("controller", "nso")] /\
     run (const_server (OJson (VObj [("error_text", VStr "denied")])))
       (Admin.createNode "https://host/oess" (VObj (sample_node "nso"))) tt
     = (tt, [EvFetch (Req false url [])], Err (EVal (VStr "denied")))) /\
  (exists text,
     run (const_server ONetFail) (Admin.createNode "https://host/oess" (VObj (sample_node "snmp"))) tt
     = (tt, [], Err (EVal (VStr text)))).
Proof.
  split.
  - apply (node_saved (const_server (OJson (VObj [("error_text", VStr "denied")]))) "https://host/oess" false
             (sample_node "nso") tt); vm_compute; reflexivity.
  - apply (node_saved (const_server ONetFail) "https://host/oess" false (sample_node "snmp") tt);
      vm_compute; reflexivity.
Defined.

(** The calls the administration pages make without a handler never throw:
    they return their default when the request or the reply is bad. *)
Theorem admin_readers_total base (a : val) :
  total (Admin.getEntities base a) /\ total (Admin.getWorkgroups base) /\
  total (Admin.getAllWorkgroups base) /\ total (Admin.getWorkgroup base a) /\
  total (Admin.getWorkgroupUsers base a) /\ total (Admin.getUser base a) /\
  total (Admin.getUsers base) /\ total (Admin.getCurrentUser base).
Proof. repeat split; try apply guarded_total. unfold Admin.getCurrentUser. auto with oess. Qed.
