(* ===== verification/AdminPages.v ===== *)
(** * Administration pages: ACLs and the page context (new/admin_new/src)

    The form that edits an ACL, the table that moves, deletes and reloads ACLs,
    the two pages around the form, and the provider of the user and workgroup
    every page reads.  React state is a record; what a page shows at the top (its
    status) is a value. *)

From Stdlib Require Import ZArith Lia Ascii String.
From stdpp Require Import base option list sets strings numbers tactics.
From S2P Require Import Prelude JsValue JsJson Fetch Api AdminApi Session.

(** ** AclForm.jsx *)

Record acl_form := AclForm {
  interfaceAclId : val;
  interfaceId : val;
  start : val;
  end_ : val;
  notes : val;
  allowDeny : val;
  evalPosition : val;
  entityId : val;
  workgroupId : val
}.

(** The initial state, from [props.acl]. *)
Definition open_form (acl0 : val) : res acl_form :=
  let acl := match acl0 with VNull | VUndef => VObj [] | _ => acl0 end in
  let read k d := let? v := prop acl k in Ok (js_or v d) in
  let? f1 := read "interface_acl_id" (VInt (-1)) in
  let? f2 := read "interface_id" (VInt (-1)) in
  let? f3 := read "start" (VInt 1) in
  let? f4 := read "end" (VInt 4095) in
  let? f5 := read "notes" (VStr estr) in
  let? f6 := read "allow_deny" (VStr "allow") in
  let? f7 := read "eval_position" (VInt (-1)) in
  let? f8 := read "entity_id" (VInt (-1)) in
  let? f9 := read "workgroup_id" (VInt (-1)) in
  Ok (AclForm f1 f2 f3 f4 f5 f6 f7 f8 f9).

(** The inputs of the form; the two completion fields pass the identifier they
    were given, the others text. *)
Inductive acl_input :=
  | InAllowDeny (t : string)
  | InWorkgroup (v : val)
  | InEntity (v : val)
  | InStart (t : string)
  | InEnd (t : string)
  | InNotes (t : string).

Definition input (f : acl_form) (i : acl_input) : acl_form :=
  let '(AclForm a b c d e g h k l) := f in
  match i with
  | InAllowDeny t => AclForm a b c d e (VStr t) h k l
  | InWorkgroup v => AclForm a b c d e g h k v
  | InEntity v => AclForm a b c d e g h v l
  | InStart t => AclForm a b (VStr t) d e g h k l
  | InEnd t => AclForm a b c (VStr t) e g h k l
  | InNotes t => AclForm a b c d (VStr t) g h k l
  end.

(** [submitHandler]: the object handed to the page; the form accepts anything. *)
Definition submitted (f : acl_form) : val :=
  VObj [("interfaceAclId", interfaceAclId f); ("interfaceId", interfaceId f); ("start", start f);
        ("end", end_ f); ("notes", notes f); ("allowDeny", allowDeny f);
        ("evalPosition", evalPosition f); ("entityId", entityId f); ("workgroupId", workgroupId f)].

(** ** The status of a page and the pages around the form *)

Inductive status :=
  | NoStatus
  | Success (message : string)
  | Failure (e : exn).

(** [history.goBack()] *)
Definition goBack : action := AGoto "back".

Section pages.
Variable base : string.

(** [submitHandler] of EditAcl.jsx and CreateAcl.jsx. *)
Definition submit_then (m : io val) (message : string) : io status :=
  await st := io_try (await _ := m in Ret (Success message)) (fun e => Ret (Failure e)) in
  Act goBack (Ret st).

Definition edit_acl_submit (acl : val) : io status :=
  submit_then (Admin.editAcl base acl) "ACL was successfully edited.".
Definition create_acl_submit (acl : val) : io status :=
  submit_then (Admin.createAcl base acl) "ACL was successfully created.".

(** Loading of the ACL to edit: the ACL with its interface, or an error. *)
Definition load_acl (interfaceAclId interfaceId : val) : io (val + exn) :=
  io_try
    (await acl := Admin.getAcl base interfaceAclId in
     io_try
       (await intf := Admin.getInterface base interfaceId in
        match acl with
        | VObj o => Ret (inl (VObj (obj_set "interface" intf o)))
        | VArr _ => Ret (inl acl)
        | _ => Raise EType
        end)
       (fun e => Ret (inr e)))
    (fun e => Ret (inr e)).

(** ** AclProvider.jsx and AclTable.jsx *)

Record acl_table := AclTable {
  tb_interface : val;
  tb_acls : val;
  tb_status : status
}.

Definition reloadAcls (t : acl_table) : io acl_table :=
  io_try (await acls := Admin.getAcls base (tb_interface t) in
          Ret (AclTable (tb_interface t) acls (tb_status t)))
    (fun e => Ret (AclTable (tb_interface t) (tb_acls t) (Failure e))).

(** [.then(...)] of the table's actions: the reload is started, the status set,
    and the reload ends; [.catch(...)] shows the error. *)
Definition acting (m : io val) (message : string) (t : acl_table) : io acl_table :=
  await r := io_try (await _ := m in Ret None) (fun e => Ret (Some e)) in
  match r with
  | None => reloadAcls (AclTable (tb_interface t) (tb_acls t) (Success message))
  | Some e => Ret (AclTable (tb_interface t) (tb_acls t) (Failure e))
  end.

Definition onDeleteAcl (acl : val) (t : acl_table) : io acl_table :=
  pure id := prop acl "interface_acl_id" in
  acting (Admin.deleteAcl base id) "ACL entry was successfully deleted." t.

Definition moved_obj (acl : val) : res val :=
  let? id := prop acl "interface_acl_id" in
  let? pos := prop acl "eval_position" in
  let? allow := prop acl "allow_deny" in
  let? st := prop acl "start" in
  let? en := prop acl "end" in
  let? intf := prop acl "interface_id" in
  let? nt := prop acl "notes" in
  let? ent := prop acl "entity_id" in
  let? wg := prop acl "workgroup_id" in
  Ok (VObj [("interfaceAclId", id); ("evalPosition", pos); ("allowDeny", allow); ("start", st); ("end", en);
            ("interfaceId", intf); ("notes", nt); ("entityId", js_or ent (VInt (-1)));
            ("workgroupId", js_or wg (VInt (-1)))]).

Definition decreasePriority (acl : val) (t : acl_table) : io acl_table :=
  pure obj := moved_obj acl in
  acting (Admin.decreaseAclPriority base obj) "ACL entry was successfully edited." t.
Definition increasePriority (acl : val) (t : acl_table) : io acl_table :=
  pure obj := moved_obj acl in
  acting (Admin.increaseAclPriority base obj) "ACL entry was successfully edited." t.

End pages.

(** ** PageContext.jsx *)

(** [selectWorkgroup]: what [sessionStorage.data] becomes. *)
Definition stored (obj : val) : string := encodeURIComponent (default "undefined" (stringify obj)).

Definition workgroup_entry (user wg : val) : res val :=
  let? name := prop user "username" in
  let? id := prop wg "workgroup_id" in
  let? n := prop wg "name" in
  let? t := prop wg "type" in
  Ok (VObj [("username", name); ("workgroup_id", id); ("workgroup_name", n); ("workgroup_type", t)]).

(** The first workgroup of the user that the session names. *)
Fixpoint same_workgroup (id : val) (wgs : list val) : res (option val) :=
  match wgs with
  | [] => Ok None
  | wg :: rest =>
      let? i := prop wg "workgroup_id" in
      if loose_eq id i then Ok (Some wg) else same_workgroup id rest
  end.

(** The state of the provider. *)
Record context := Context { cx_user : val; cx_workgroup : val; cx_data : option string }.

(** The effect that runs once the current user arrived. *)
Definition context_loaded (user : val) (data : option string) : res context :=
  let? first :=
    (match data with
     | None | Some EmptyString =>
         let? wgs := prop user "workgroups" in
         let? l := elements_of wgs in
         let? wg := (match l with g :: _ => Ok g | [] => Err EType end) in
         let? e := workgroup_entry user wg in
         Ok (Some (stored e))
     | Some text =>
         let? d := parse_data text in
         let? wgs := prop user "workgroups" in
         let? l := elements_of wgs in
         let? id := (match l with [] => Ok VUndef | _ => prop d "workgroup_id" end) in
         let? found := same_workgroup id l in
         match found with
         | Some wg => let? e := workgroup_entry user wg in Ok (Some (stored e))
         | None => Ok data
         end
     end) in
  let? d := parse_data (default "null" first) in
  let? n := prop d "workgroup_name" in
  let? i := prop d "workgroup_id" in
  Ok (Context user (VObj [("name", n); ("workgroup_id", i)]) first).

(** The effect that runs when the user or the workgroup changes. *)
Definition context_changed (c : context) : res context :=
  match cx_user c with
  | VUndef | VNull => Ok c
  | user =>
      let? e := workgroup_entry user (cx_workgroup c) in
      Ok (Context user (cx_workgroup c) (Some (stored e)))
  end.

Definition setWorkgroup (wg : val) (c : context) : res context :=
  context_changed (Context (cx_user c) wg (cx_data c)).

Definition context_ready (user : val) (data : option string) : res context :=
  let? c := context_loaded user data in context_changed c.

(** ** Lemmas *)

(** The parameters of an edit, in the order they are sent. *)
Definition edit_params (id allow st en intf nt pos wg ent : val) : list (string * string) :=
  [("method", "edit_acl"); ("interface_acl_id", show id); ("allow_deny", show allow); ("start", show st);
   ("end", show en); ("interface_id", show intf); ("notes", show nt); ("eval_position", show pos);
   ("workgroup_id", show wg); ("entity_id", show ent); ("notes", show nt)].

Definition plain_values (l : list val) : bool := forallb plain (map show l).

(** [editAcl] on an object with all its fields, in any order. *)
Lemma editAcl_call base o :
  obj_get "notes" o <> None ->
  str_forall (fun c => negb (Ascii.eqb c "?")) base = true ->
  let f k := field_of o k in
  plain_values (map f ["interfaceAclId"; "allowDeny"; "start"; "end"; "interfaceId"; "notes"; "evalPosition";
                       "workgroupId"; "entityId"]) = true ->
  exists url, Admin.editAcl base (VObj o) = Admin.call url first_result /\
    query_of url = edit_params (f "interfaceAclId") (f "allowDeny") (f "start") (f "end") (f "interfaceId")
                     (f "notes") (f "evalPosition") (f "workgroupId") (f "entityId").
Proof.
  intros Hn Hb f HF. unfold Admin.editAcl. rewrite reads_obj. cbn [io_lift io_bind].
  unfold Admin.read_if. cbn [has]. destruct (obj_get "notes" o) as [n|] eqn:En; [|done].
  cbn [res_bind]. rewrite reads_obj. cbn [io_lift io_bind map app fst snd].
  eexists. split; [reflexivity|]. apply svc_query; [by apply script_no_question|done|].
  unfold plain_values in HF. cbn [map forallb] in HF.
  repeat match type of HF with _ && _ = true => apply andb_true_iff in HF as [? HF] end.
  repeat constructor; assumption.
Qed.

Lemma shows_int z : plain (show (VInt z)) = true.
Proof. apply string_of_Z_plain. Qed.

Lemma truthy_int z : truthy (VInt z) = negb (z =? 0)%Z.
Proof. done. Qed.

(** An identifier that may be missing. *)
Definition opt_id (o : option Z) : val := match o with Some z => VInt z | None => VNull end.
Definition id_or_minus1 (o : option Z) : Z := match o with Some z => z | None => -1 end.

Lemma js_or_id o : o <> Some 0%Z -> js_or (opt_id o) (VInt (-1)) = VInt (id_or_minus1 o).
Proof.
  destruct o as [z|]; [|done]. intros H. unfold js_or. cbn [opt_id]. rewrite truthy_int.
  by rewrite (proj2 (Z.eqb_neq z 0)) by congruence.
Qed.

Lemma js_or_int z d : z <> 0%Z -> js_or (VInt z) d = VInt z.
Proof. intros H. unfold js_or. rewrite truthy_int. by rewrite (proj2 (Z.eqb_neq z 0)). Qed.

(** An ACL as the service returns it. *)
Definition service_acl (pos : val) (id intf st en : Z) (nt allow : string) (ent wg : option Z) : val :=
  VObj [("interface_acl_id", VInt id); ("interface_id", VInt intf); ("start", VInt st); ("end", VInt en);
        ("notes", VStr nt); ("allow_deny", VStr allow); ("eval_position", pos);
        ("entity_id", opt_id ent); ("workgroup_id", opt_id wg)].

Lemma open_service_acl pos id intf st en nt allow ent wg :
  Forall (fun z => z <> 0%Z) [id; intf; st; en; pos] -> allow <> estr ->
  ent <> Some 0%Z -> wg <> Some 0%Z ->
  open_form (service_acl (VInt pos) id intf st en nt allow ent wg) =
  Ok (AclForm (VInt id) (VInt intf) (VInt st) (VInt en) (VStr nt) (VStr allow) (VInt pos)
        (VInt (id_or_minus1 ent)) (VInt (id_or_minus1 wg))).
Proof.
  rewrite !list.Forall_cons. intros (H1 & H2 & H3 & H4 & H5 & _) Ha He Hw.
  unfold open_form, service_acl. cbn -[js_or opt_id].
  rewrite !js_or_int, !js_or_id by done. f_equal. f_equal.
  - by destruct nt.
  - by destruct allow.
Qed.

Lemma submit_then_run {S} (w : env S) url message s :
  run w (submit_then (Admin.call url first_result) message) s =
  let '(s', o) := server w s (Req false url []) in
  (s', [EvFetch (Req false url []); EvAct goBack],
   Ok (match (let? data := outcome_data o in let? _ := throw_error_text data in first_result data) with
       | Ok _ => Success message
       | Err e => Failure e
       end)).
Proof.
  unfold submit_then. rewrite run_bind, run_try, run_bind, call_run.
  destruct (server w s _) as [s' o].
  by destruct (let? data := outcome_data o in let? _ := throw_error_text data in first_result data).
Qed.

(** ** Theorems *)

(** Opening an ACL in the form and submitting it unchanged sends the ACL's own
    values, with -1 for a workgroup or an entity it does not name, and the notes
    twice; the page then goes back and shows success exactly when the reply is a
    result without an error text. *)
Theorem acl_form_roundtrip {S} (w : env S) base pos id intf st en nt allow ent wg s :
  str_forall (fun c => negb (Ascii.eqb c "?")) base = true ->
  Forall (fun z => z <> 0%Z) [id; intf; st; en; pos] -> ent <> Some 0%Z -> wg <> Some 0%Z ->
  allow <> estr -> plain allow = true -> plain nt = true ->
  exists f url,
    open_form (service_acl (VInt pos) id intf st en nt allow ent wg) = Ok f /\
    query_of url =
      edit_params (VInt id) (VStr allow) (VInt st) (VInt en) (VInt intf) (VStr nt) (VInt pos)
        (VInt (id_or_minus1 wg)) (VInt (id_or_minus1 ent)) /\
    run w (edit_acl_submit base (submitted f)) s =
    let '(s', o) := server w s (Req false url []) in
    (s', [EvFetch (Req false url []); EvAct goBack],
     Ok (match (let? data := outcome_data o in let? _ := throw_error_text data in first_result data) with
         | Ok _ => Success "ACL was successfully edited."
         | Err e => Failure e
         end)).
Proof.
  intros Hb Hz He Hw Ha Hpa Hpn. eexists.
  unfold edit_acl_submit, submitted.
  cbn [interfaceAclId interfaceId start end_ notes allowDeny evalPosition entityId workgroupId].
  edestruct (editAcl_call base) as (url & E & Q).
  4: { exists url. split; [by apply open_service_acl|]. rewrite E.
       split; [exact Q|apply submit_then_run]. }
  - done.
  - done.
  - unfold plain_values, field_of. cbn -[show plain]. rewrite !shows_int.
    change (show (VStr ?x)) with x. by rewrite Hpa, Hpn.
Qed.

Lemma acl_form_roundtrip_witness :
  exists f url,
    open_form (service_acl (VInt 20) 4 7 100 200 "lab" "deny" None (Some 3%Z)) = Ok f /\
    query_of url =
      [("method", "edit_acl"); ("interface_acl_id", "4"); ("allow_deny", "deny"); ("start", "100"); ("end", "200");
       ("interface_id", "7"); ("notes", "lab"); ("eval_position", "20"); ("workgroup_id", "3");
       ("entity_id", "-1"); ("notes", "lab")] /\
    run (const_server ONetFail) (edit_acl_submit "/oess" (submitted f)) tt =
      (tt, [EvFetch (Req false url []); EvAct goBack], Ok (Failure ENet)).
Proof.
  apply (acl_form_roundtrip (const_server ONetFail) "/oess" 20 4 7 100 200 "lab" "deny" None (Some 3%Z) tt);
    try reflexivity; try discriminate. repeat constructor; discriminate.
Defined.

(** An ACL at position zero is sent back with position -1. *)
Example position_zero_lost :
  (let? f := open_form (service_acl (VInt 0) 4 7 100 200 "lab" "deny" None None) in Ok (evalPosition f))
  = Ok (VInt (-1)).
Proof. reflexivity. Qed.

Lemma acting_run {S} (w : env S) base url message t s :
  run w (acting base (Admin.call url first_result) message t) s =
  let '(s', o) := server w s (Req false url []) in
  match (let? data := outcome_data o in let? _ := throw_error_text data in first_result data) with
  | Ok _ =>
      let '(s2, tr, r) := run w (reloadAcls base (AclTable (tb_interface t) (tb_acls t) (Success message))) s' in
      (s2, EvFetch (Req false url []) :: tr, r)
  | Err e => (s', [EvFetch (Req false url [])], Ok (AclTable (tb_interface t) (tb_acls t) (Failure e)))
  end.
Proof.
  unfold acting. rewrite run_bind, run_try, run_bind, call_run.
  destruct (server w s _) as [s' o].
  destruct (let? data := outcome_data o in let? _ := throw_error_text data in first_result data);
    cbn -[reloadAcls].
  - match goal with |- context [run w ?m s'] => by destruct (run w m s') as [[]] end.
  - done.
Qed.

(** The buttons that move an ACL in the table send it with its position moved
    by ten, whatever text or number [parseInt] reads the position from, and its
    other values unchanged; the table reloads its rows after a good reply, and
    keeps them and shows the error after any other. *)
Theorem acl_table_moves {S} (w : env S) base (up : bool) pos z id intf st en nt allow ent wg t s :
  str_forall (fun c => negb (Ascii.eqb c "?")) base = true ->
  parseInt pos = Fin (Dec z 0) -> ent <> Some 0%Z -> wg <> Some 0%Z ->
  plain allow = true -> plain nt = true ->
  let acl := service_acl pos id intf st en nt allow ent wg in
  let message := "ACL entry was successfully edited." in
  exists url,
    query_of url =
      edit_params (VInt id) (VStr allow) (VInt st) (VInt en) (VInt intf) (VStr nt)
        (VInt (if up then z - 10 else z + 10)) (VInt (id_or_minus1 wg)) (VInt (id_or_minus1 ent)) /\
    run w (if up then increasePriority base acl t else decreasePriority base acl t) s =
    let '(s', o) := server w s (Req false url []) in
    match (let? data := outcome_data o in let? _ := throw_error_text data in first_result data) with
    | Ok _ =>
        let '(s2, tr, r) := run w (reloadAcls base (AclTable (tb_interface t) (tb_acls t) (Success message))) s' in
        (s2, EvFetch (Req false url []) :: tr, r)
    | Err e => (s', [EvFetch (Req false url [])], Ok (AclTable (tb_interface t) (tb_acls t) (Failure e)))
    end.
Proof.
  intros Hb Hpos He Hw Hpa Hpn acl message.
  set (o := fun p => [("interfaceAclId", VInt id); ("evalPosition", p); ("allowDeny", VStr allow);
             ("start", VInt st); ("end", VInt en); ("interfaceId", VInt intf); ("notes", VStr nt);
             ("entityId", VInt (id_or_minus1 ent)); ("workgroupId", VInt (id_or_minus1 wg))]).
  destruct (editAcl_call base (o (VInt (if up then z - 10 else z + 10)))) as (url & E & Q); [done|done| |].
  { unfold plain_values, field_of, o. cbn -[show plain]. rewrite !shows_int.
    change (show (VStr ?x)) with x. by rewrite Hpa, Hpn. }
  exists url. split; [exact Q|]. rewrite <- acting_run, <- E. f_equal.
  assert (M : moved_obj acl = Ok (VObj (o pos))).
  { unfold moved_obj, acl, service_acl. cbn -[js_or opt_id]. rewrite !js_or_id by done. reflexivity. }
  assert (P : forall d, Admin.move_acl base d (VObj (o pos)) = Admin.editAcl base (VObj (o (VInt (z + d))))).
  { intros d. unfold Admin.move_acl. change (prop (VObj (o pos)) "evalPosition") with (Ok pos).
    cbn [io_lift io_bind]. rewrite Hpos. unfold num_add, dscale_up. cbn [dman dscale].
    by rewrite !Z.mul_1_r. }
  destruct up; unfold increasePriority, decreasePriority; rewrite M; cbn [io_lift io_bind];
    unfold Admin.increaseAclPriority, Admin.decreaseAclPriority; by rewrite P.
Qed.

Lemma acl_table_moves_witness :
  exists url,
    query_of url =
      [("method", "edit_acl"); ("interface_acl_id", "4"); ("allow_deny", "allow"); ("start", "100"); ("end", "200");
       ("interface_id", "7"); ("notes", estr); ("eval_position", "30"); ("workgroup_id", "-1");
       ("entity_id", "5"); ("notes", estr)] /\
    run (const_server ONetFail)
      (decreasePriority "/oess" (service_acl (VStr "20") 4 7 100 200 estr "allow" (Some 5%Z) None)
         (AclTable (VInt 7) (VArr []) NoStatus)) tt
    = (tt, [EvFetch (Req false url [])], Ok (AclTable (VInt 7) (VArr []) (Failure ENet))).
Proof.
  apply (acl_table_moves (const_server ONetFail) "/oess" false (VStr "20") 20 4 7 100 200 estr "allow"
           (Some 5%Z) None (AclTable (VInt 7) (VArr []) NoStatus) tt); first [reflexivity | discriminate].
Defined.

(** Once the page context is ready, the session it leaves has the user's name
    and the workgroup's identifier and name, and no workgroup type: the
    workgroup that the context keeps has none to store. *)
Theorem context_drops_type user data c :
  context_ready user data = Ok c -> cx_user c <> VUndef -> cx_user c <> VNull ->
  exists u n i,
    prop user "username" = Ok u /\
    cx_workgroup c = VObj [("name", n); ("workgroup_id", i)] /\
    cx_data c = Some (stored (VObj [("username", u); ("workgroup_id", i); ("workgroup_name", n)])).
Proof.
  unfold context_ready. intros H Hu Hn.
  apply res_bind_Ok_inv in H as (c0 & H0 & H1).
  unfold context_loaded in H0. apply res_bind_Ok_inv in H0 as (first & _ & H0).
  apply res_bind_Ok_inv in H0 as (d & _ & H0). apply res_bind_Ok_inv in H0 as (n & _ & H0).
  apply res_bind_Ok_inv in H0 as (i & _ & H0). apply Ok_inj in H0 as <-.
  unfold context_changed in H1. cbn [cx_user cx_workgroup] in H1.
  assert (exists e, workgroup_entry user (VObj [("name", n); ("workgroup_id", i)]) = Ok e /\
            c = Context user (VObj [("name", n); ("workgroup_id", i)]) (Some (stored e))) as (e & He & ->).
  { destruct user; try (apply Ok_inj in H1; subst c; done);
      apply res_bind_Ok_inv in H1 as (e & He & H1); apply Ok_inj in H1 as <-; eauto. }
  unfold workgroup_entry in He. apply res_bind_Ok_inv in He as (u & Hu' & He).
  cbn in He. apply Ok_inj in He as <-. exists u, n, i. done.
Qed.

Definition sample_user : val :=
  VObj [("username", VStr "ann");
        ("workgroups", VArr [VObj [("workgroup_id", VInt 3); ("name", VStr "lab"); ("type", VStr "normal")];
                             VObj [("workgroup_id", VInt 5); ("name", VStr "noc"); ("type", VStr "admin")]])].

Lemma context_drops_type_witness :
  exists c u n i,
    context_ready sample_user
      (Some (stored (VObj [("workgroup_id", VInt 5); ("workgroup_type", VStr "admin")]))) = Ok c /\
    cx_workgroup c = VObj [("name", n); ("workgroup_id", i)] /\
    cx_data c = Some (stored (VObj [("username", u); ("workgroup_id", i); ("workgroup_name", n)])).
Proof.
  destruct (context_ready sample_user
      (Some (stored (VObj [("workgroup_id", VInt 5); ("workgroup_type", VStr "admin")])))) as [c|e] eqn:E.
  - destruct (context_drops_type _ _ _ E) as (u & n & i & _ & H2 & H3).
    + vm_compute in E. apply Ok_inj in E as <-. discriminate.
    + vm_compute in E. apply Ok_inj in E as <-. discriminate.
    + exists c, u, n, i. auto.
  - vm_compute in E. discriminate.
Defined.
