(* ===== verification/Tables.v ===== *)
(** * Row reordering and link selection (js_utilities/datatable_utils.js,
      path_utils.js, multilink_panel.js)

    Both act on a YUI DataTable, which the library does not model: a table is
    anything with rows that [deleteRow] and [addRow] change as YUI documents.
    The list instance at the end shows the interface can be met. *)

From Stdlib Require Import ZArith Lia Ascii String.
From stdpp Require Import base option list sets strings numbers infinite tactics.
From S2P Require Import Prelude JsValue JsJson Fetch Api.

(** ** The table *)

(** Rows in the order they are shown, each with the identifier of its row
    element and the data of its record. *)
Class DataTable (T : Type) := {
  tb_rows : T -> list (string * val);
  deleteRow : nat -> T -> T;
  addRow : val -> nat -> T -> T
}.

(** [deleteRow] removes the row at an index; [addRow] puts a row with a new
    identifier at an index. *)
Class DataTableLaws (T : Type) `{DataTable T} := {
  rows_deleteRow t i : tb_rows (deleteRow i t) = splice1 i (tb_rows t);
  rows_addRow t d i : i <= length (tb_rows t) ->
    exists id, id ∉ map fst (tb_rows t) /\
      tb_rows (addRow d i t) = insert_at i (id, d) (tb_rows t)
}.

Section table.
Context {T : Type} `{DataTable T}.

(** [sectionRowIndex] of the row element [id]. *)
Definition row_index (t : T) (id : string) : option nat :=
  fst <$> list_find (fun r => fst r = id) (tb_rows t).

(** [table.getRecord(...)] of a row element and of an index. *)
Definition row_record (t : T) (id : string) : option val :=
  snd <$> (snd <$> list_find (fun r => fst r = id) (tb_rows t)).
Definition index_record (t : T) (i : nat) : option val := snd <$> tb_rows t !! i.

(** ** Dragging a row (datatable_utils.js) *)

(** The variables of a drag. *)
Record drag := Drag {
  d_srcData : val;
  d_srcIndex : nat;
  d_tmpIndex : option nat;
  d_seen : list (string * nat);
  d_displaced : option string;
  d_displacedRecord : option val
}.

(** [startDrag] on the row at index [i]. *)
Definition startDrag (t : T) (i : nat) : option drag :=
  (fun r => Drag (snd r) i None [] None None) <$> tb_rows t !! i.

Fixpoint seen_index (id : string) (l : list (string * nat)) : option nat :=
  match l with
  | [] => None
  | (k, n) :: l' => if String.eqb k id then Some n else seen_index id l'
  end.

(** The first row that was seen at index [i]. *)
Fixpoint seen_at (i : nat) (l : list (string * nat)) : option string :=
  match l with
  | [] => None
  | (k, n) :: l' => if Nat.eqb n i then Some k else seen_at i l'
  end.

(** [onDragOver] the row [id]; an element that is not a row of the table does
    nothing. *)
Definition onDragOver (id : string) (td : T * drag) : T * drag :=
  let '(t, d) := td in
  match row_index t id with
  | None => td
  | Some destIndex =>
      if match d_tmpIndex d with Some k => Nat.eqb k destIndex | None => false end then td
      else
        let seen := match seen_index id (d_seen d) with
                    | None => d_seen d ++ [(id, destIndex)]
                    | Some _ => d_seen d
                    end in
        let displaced :=
          if match seen_index id seen with Some n => Nat.eqb destIndex n | None => false end
          then Some id
          else match seen_at destIndex seen with Some r => Some r | None => d_displaced d end in
        let record := displaced ≫= row_record t in
        let t1 := deleteRow (default (d_srcIndex d) (d_tmpIndex d)) t in
        let t2 := addRow (d_srcData d) destIndex t1 in
        (t2, Drag (d_srcData d) (d_srcIndex d) (Some destIndex) seen displaced record)
  end.

(** [endDrag]: the record where the row was dropped, and the displaced one. *)
Definition endDrag (td : T * drag) : option val * option val :=
  (d_tmpIndex (snd td) ≫= index_record (fst td), d_displacedRecord (snd td)).

End table.

(** The request of a drop: the position of the displaced row, and the
    parameters of the dragged one that are set. *)
Definition param_step (record : val) (url k : string) : res string :=
  let? v := prop record k in
  Ok (if truthy v then url +:+ "&" +:+ k +:+ "=" +:+ to_string v else url).

Definition rowDrag (url position_param : string) (ws_params : list string)
    (dropped : option val * option val) : res (option string) :=
  match dropped with
  | (Some dragged, Some replaced) =>
      let? v := prop replaced position_param in
      let? u := res_fold (param_step dragged)
                  (url +:+ "&" +:+ position_param +:+ "=" +:+ to_string v) ws_params in
      Ok (Some u)
  | _ => Ok None
  end.

(** ** Selecting links (path_utils.js) *)

Section path.
Context {T : Type} `{DataTable T}.

(** One record of the scan: the rows to remove, whether the link was found, and
    whether the scan goes on. *)
Definition scan_options (name : val) (link : val) (i : nat) (options : list val) (removals : list nat)
  : res (list nat) :=
  res_fold (fun rs o =>
    let? n := prop o "link_name" in
    Ok (if loose_eq name n && negb (loose_eq name link) then rs ++ [i] else rs)) removals options.

Fixpoint scan (options : list val) (link : val) (i : nat) (records : list val) (removals : list nat)
  : res (list nat * bool) :=
  match records with
  | [] => Ok (removals, false)
  | r :: rest =>
      let? name := prop r "link" in
      if loose_eq name link then Ok (removals ++ [i], true)
      else
        let? rs := scan_options name link i options removals in
        scan options link (S i) rest rs
  end.

(** [modify_path_table({link})] *)
Definition modify_path_table (options : list val) (link : val) (t : T) : res T :=
  let? found := scan options link 0 (map snd (tb_rows t)) [] in
  let t1 := foldl (fun u i => deleteRow i u) t (fst found) in
  Ok (if negb (snd found) && truthy link
      then addRow (VObj [("link", link)]) (length (tb_rows t1)) t1 else t1).

(** The value the panel passes: null for its first entry. *)
Definition panel_link (v : string) : val := match v with EmptyString => VNull | _ => VStr v end.

(** A click on a link of the map: its choices are offered when it has several
    circuits, and otherwise it is toggled.  [choice] is the answer of the panel,
    or nothing when it was cancelled. *)
Definition onClickLink (links : list val) (name : val) (choice : option string) (t : T) : res T :=
  match links with
  | [] => modify_path_table [] name t
  | _ => match choice with
         | Some v => modify_path_table links (panel_link v) t
         | None => Ok t
         end
  end.

End path.

(** ** Lemmas *)

Lemma map_splice1 {A B} (f : A -> B) i l : map f (splice1 i l) = splice1 i (map f l).
Proof. unfold splice1. by rewrite map_app, firstn_map, skipn_map. Qed.

Lemma map_insert_at {A B} (f : A -> B) i x l : map f (insert_at i x l) = insert_at i (f x) (map f l).
Proof. unfold insert_at. rewrite map_app. cbn [map]. by rewrite firstn_map, skipn_map. Qed.

Lemma splice1_insert_at {A} i (x : A) l : i <= length l -> splice1 i (insert_at i x l) = l.
Proof.
  intros Hi. unfold splice1, insert_at.
  rewrite take_app_le, take_take, Nat.min_id by (rewrite length_take; lia).
  rewrite drop_app_ge by (rewrite length_take; lia).
  rewrite length_take, Nat.min_l by done. replace (S i - i) with 1 by lia. cbn [drop].
  apply (take_drop i).
Qed.

Lemma length_insert_at {A} i (x : A) l : i <= length l -> length (insert_at i x l) = S (length l).
Proof. intros Hi. unfold insert_at. rewrite length_app, length_take. cbn [length]. rewrite length_drop. lia. Qed.

Lemma insert_splice1 {A} i (x : A) l : l !! i = Some x -> insert_at i x (splice1 i l) = l.
Proof.
  intros Hx. pose proof (lookup_lt_Some _ _ _ Hx). unfold splice1, insert_at.
  rewrite take_app_le, take_take, Nat.min_id by (rewrite length_take; lia).
  rewrite drop_app_ge by (rewrite length_take; lia). rewrite length_take, Nat.min_l by lia.
  rewrite Nat.sub_diag. cbn [drop]. by apply take_drop_middle.
Qed.

Lemma insert_at_lookup {A} i (x : A) l : i <= length l -> insert_at i x l !! i = Some x.
Proof.
  intros Hi. unfold insert_at. rewrite lookup_app_r by (rewrite length_take; lia).
  rewrite length_take, Nat.min_l by done. by rewrite Nat.sub_diag.
Qed.

Lemma find_row (a : list (string * val)) id d b :
  id ∉ map fst a -> list_find (fun r => fst r = id) (a ++ (id, d) :: b) = Some (length a, (id, d)).
Proof.
  induction a as [|[k v] a IH]; cbn [app list_find map fst length].
  - intros _. by rewrite decide_True.
  - rewrite not_elem_of_cons. intros [Hk Ha]. rewrite decide_False by (intros E; congruence).
    by rewrite (IH Ha).
Qed.

Section drag_lemmas.
Context {T : Type} `{HT : DataTable T} `{!DataTableLaws T}.

(** The records, in the order they are shown. *)
Definition shown (t : T) : list val := map snd (tb_rows t).

Lemma shown_deleteRow t i : shown (deleteRow i t) = splice1 i (shown t).
Proof. unfold shown. by rewrite rows_deleteRow, map_splice1. Qed.

Lemma shown_addRow t d i : i <= length (shown t) -> shown (addRow d i t) = insert_at i d (shown t).
Proof.
  unfold shown. rewrite length_map. intros Hi. destruct (rows_addRow t d i Hi) as (id & _ & ->).
  by rewrite map_insert_at.
Qed.

Lemma row_index_lt t id i : row_index t id = Some i -> i < length (shown t).
Proof.
  unfold row_index, shown. rewrite length_map. intros ([j r] & F & ->)%fmap_Some.
  apply list_find_Some in F as (L & _). by apply lookup_lt_Some in L.
Qed.

(** The dragged record sits at the current index; the others are as at the
    start. *)
Definition dragging (i : nat) (rest : list val) (src : val) (td : T * drag) : Prop :=
  let k := default i (d_tmpIndex (snd td)) in
  d_srcIndex (snd td) = i /\ d_srcData (snd td) = src /\ k <= length rest /\ shown (fst td) = insert_at k src rest.

Lemma onDragOver_dragging i rest src row td :
  dragging i rest src td -> dragging i rest src (onDragOver row td).
Proof.
  destruct td as [t d]. intros (Hi & Hs & Hk & Hd). unfold onDragOver.
  destruct (row_index t row) as [dest|] eqn:R; [|done].
  apply row_index_lt in R. cbn [fst snd] in *. rewrite Hd, length_insert_at in R by done.
  destruct (match d_tmpIndex d with Some k => _ | None => _ end); [done|].
  unfold dragging. cbn [fst snd d_tmpIndex d_srcIndex d_srcData default from_option id].
  split; [done|]. split; [done|]. split; [lia|]. rewrite Hi.
  rewrite shown_addRow; rewrite shown_deleteRow, Hd, splice1_insert_at by done; [by rewrite Hs|lia].
Qed.

Lemma drags_dragging i rest src ids td :
  dragging i rest src td -> dragging i rest src (foldl (fun x id => onDragOver id x) td ids).
Proof. revert td. induction ids as [|id ids IH]; intros td Htd; [done|]. by apply IH, onDragOver_dragging. Qed.

Lemma startDrag_dragging t i d :
  startDrag t i = Some d -> dragging i (splice1 i (shown t)) (d_srcData d) (t, d).
Proof.
  unfold startDrag. intros ([k v] & L & ->)%fmap_Some. unfold dragging.
  cbn [fst snd d_tmpIndex d_srcIndex d_srcData default from_option id].
  assert (shown t !! i = Some v) as Lv by (unfold shown; by rewrite list_lookup_fmap, L).
  pose proof (lookup_lt_Some _ _ _ Lv). split; [done|]. split; [done|]. split; [rewrite length_splice1; lia|].
  by rewrite insert_splice1.
Qed.

(** However a row is dragged over the others, the table keeps its records: the
    other records stay in their order and the dragged one ends at the index the
    drop reports, or nothing changes when no row was crossed. *)
Theorem drag_moves t i d ids :
  startDrag t i = Some d ->
  let '(t', d') := foldl (fun x id => onDragOver id x) (t, d) ids in
  let k := default i (d_tmpIndex d') in
  k < length (shown t) /\ shown t' = insert_at k (d_srcData d) (splice1 i (shown t)) /\
  (forall k', d_tmpIndex d' = Some k' -> fst (endDrag (t', d')) = Some (d_srcData d)).
Proof.
  intros Hs. pose proof (drags_dragging _ _ _ ids _ (startDrag_dragging _ _ _ Hs)) as D.
  destruct (foldl _ (t, d) ids) as [t' d']. destruct D as (_ & _ & Hk & Hd). cbn [fst snd] in *.
  assert (Hi : i < length (shown t)).
  { unfold startDrag in Hs. apply fmap_Some in Hs as (r & L & _). unfold shown. rewrite length_map.
    by apply lookup_lt_Some in L. }
  rewrite length_splice1 in Hk by done. split; [lia|]. split; [done|].
  intros k' E. rewrite E in *. cbn [default from_option id] in *. unfold endDrag. cbn [fst snd].
  rewrite E. cbn [mbind option_bind]. unfold index_record.
  change (snd <$> tb_rows t' !! k') with (option_map snd (tb_rows t' !! k')).
  rewrite <- list_lookup_fmap. change (snd <$> tb_rows t') with (shown t'). rewrite Hd.
  by apply insert_at_lookup; rewrite length_splice1.
Qed.

Lemma find_second (a : list (string * val)) s0 src r1 d1 b :
  r1 ∉ map fst a -> r1 <> s0 ->
  list_find (fun r => fst r = r1) (a ++ (s0, src) :: (r1, d1) :: b) = Some (S (length a), (r1, d1)).
Proof.
  intros Ha Hs. change ((s0, src) :: (r1, d1) :: b) with ([(s0, src)] ++ (r1, d1) :: b).
  rewrite app_assoc, find_row; [by rewrite length_app, Nat.add_comm|].
  rewrite map_app, list.elem_of_app. cbn [map fst]. by rewrite list_elem_of_singleton; intros [].
Qed.

(** The row at [length a] moves behind the next one. *)
Lemma rows_moved_down t a s0 src r1 d1 b :
  tb_rows t = a ++ (s0, src) :: (r1, d1) :: b ->
  exists n, tb_rows (addRow src (S (length a)) (deleteRow (length a) t)) = a ++ (r1, d1) :: (n, src) :: b.
Proof.
  intros Hr. assert (tb_rows (deleteRow (length a) t) = a ++ (r1, d1) :: b) as Hd.
  { rewrite rows_deleteRow, Hr. unfold splice1.
    by rewrite take_app_length, drop_app_ge, Nat.sub_succ_l, Nat.sub_diag by lia. }
  destruct (rows_addRow (deleteRow (length a) t) src (S (length a))) as (n & _ & Hn).
  { rewrite Hd, length_app. cbn [length]. lia. }
  exists n. rewrite Hn, Hd. unfold insert_at.
  change ((r1, d1) :: b) with ([(r1, d1)] ++ b). rewrite app_assoc.
  rewrite take_app_length', drop_app_length' by (rewrite length_app; cbn [length]; lia).
  by rewrite <- app_assoc.
Qed.

(** A row that is dragged over the next one and back ends where it was, and
    yet the drop reports the next record as the displaced one: the request asks
    the server to move the row to that record's position. *)
Theorem drag_back_reorders t a s0 src r1 d1 b :
  tb_rows t = a ++ (s0, src) :: (r1, d1) :: b -> r1 ∉ map fst a -> r1 <> s0 ->
  exists d, startDrag t (length a) = Some d /\
    let td := onDragOver r1 (onDragOver r1 (t, d)) in
    shown (fst td) = shown t /\ d_tmpIndex (snd td) = Some (length a) /\
    endDrag td = (Some src, Some d1).
Proof.
  intros Hr Ha Hs. set (d0 := Drag src (length a) None [] None None).
  assert (S0 : startDrag t (length a) = Some d0) by (unfold startDrag; by rewrite Hr, list_lookup_middle).
  exists d0. split; [done|]. intros td.
  assert (D : dragging (length a) (splice1 (length a) (shown t)) src td).
  { do 2 apply onDragOver_dragging. apply (startDrag_dragging _ _ _ S0). }
  destruct (rows_moved_down t a s0 src r1 d1 b Hr) as [n Hr1].
  set (t1 := addRow src (S (length a)) (deleteRow (length a) t)) in *.
  assert (E1 : onDragOver r1 (t, d0) =
    (t1, Drag src (length a) (Some (S (length a))) [(r1, S (length a))] (Some r1) (Some d1))).
  { unfold onDragOver, row_index, d0. rewrite Hr, find_second by done. cbn -[addRow deleteRow].
    rewrite String.eqb_refl, Nat.eqb_refl. cbn -[addRow deleteRow].
    unfold row_record. rewrite Hr, find_second by done. reflexivity. }
  assert (E2 : d_tmpIndex (snd td) = Some (length a) /\ d_displacedRecord (snd td) = Some d1).
  { unfold td. rewrite E1. unfold onDragOver, row_index. rewrite Hr1, find_row by done.
    cbn -[addRow deleteRow Nat.eqb]. rewrite String.eqb_refl.
    rewrite (proj2 (Nat.eqb_neq (S (length a)) (length a))) by lia. cbn -[addRow deleteRow Nat.eqb].
    rewrite String.eqb_refl, (proj2 (Nat.eqb_neq (length a) (S (length a)))) by lia.
    rewrite (proj2 (Nat.eqb_neq (S (length a)) (length a))) by lia. cbn -[addRow deleteRow].
    unfold row_record. rewrite Hr1, find_row by done. done. }
  destruct E2 as [E2 E3], D as (_ & _ & Hk & Hd). rewrite E2 in *. cbn [default from_option id] in *.
  assert (shown t !! length a = Some src) as L.
  { unfold shown. rewrite Hr, map_app. cbn [map snd]. by rewrite list_lookup_middle by (by rewrite length_map). }
  assert (shown (fst td) = shown t) as Hsh by (by rewrite Hd, insert_splice1).
  split; [done|]. split; [done|]. unfold endDrag. rewrite E2, E3. f_equal. cbn [mbind option_bind].
  unfold index_record. change (option_map snd (tb_rows (fst td) !! length a) = Some src).
  rewrite <- list_lookup_fmap. change (snd <$> tb_rows (fst td)) with (shown (fst td)). by rewrite Hsh.
Qed.

End drag_lemmas.

(** ** Link selection *)

Definition link_rec (n : string) : val := VObj [("link", VStr n)].
Definition link_opt (n : string) : val := VObj [("link_name", VStr n)].
Definition link_val (l : option string) : val := match l with Some n => VStr n | None => VNull end.

(** A link of the group that a choice concerns: one of the options, or the
    chosen link itself. *)
Definition in_group (os : list string) (l : option string) (x : string) : bool :=
  bool_decide (x ∈ os) || bool_decide (l = Some x).

Lemma loose_eq_link x l : loose_eq (VStr x) (link_val l) = bool_decide (l = Some x).
Proof.
  destruct l as [n|]; cbn [link_val loose_eq].
  - destruct (String.eqb_spec x n) as [->|Hn]; [by rewrite bool_decide_true|].
    rewrite bool_decide_false; [done|congruence].
  - by rewrite bool_decide_false.
Qed.

Lemma scan_options_spec x l i os rs :
  NoDup os ->
  scan_options (VStr x) (link_val l) i (map link_opt os) rs =
  Ok (if bool_decide (x ∈ os) && negb (bool_decide (l = Some x)) then rs ++ [i] else rs).
Proof.
  unfold scan_options. set (f := fun (rs : list nat) (o : val) => _).
  assert (F : forall n r, f r (link_opt n) =
    Ok (if String.eqb x n && negb (bool_decide (l = Some x)) then r ++ [i] else r)).
  { intros n r. unfold f, link_opt. change (prop _ "link_name") with (Ok (VStr n)). cbn [res_bind].
    by rewrite loose_eq_link. }
  clearbody f. revert rs. induction os as [|n os IH]; intros rs Hnd; [done|].
  apply list.NoDup_cons in Hnd as [Hn Hnd]. cbn [map res_fold]. rewrite F. cbn [res_bind].
  rewrite (IH _ Hnd). clear IH.
  destruct (String.eqb_spec x n) as [->|Hx].
  - rewrite (bool_decide_false (n ∈ os)) by done.
    rewrite (bool_decide_true (n ∈ n :: os)) by (by apply list_elem_of_here). done.
  - assert (bool_decide (x ∈ n :: os) = bool_decide (x ∈ os)) as ->; [|done].
    apply bool_decide_ext. rewrite elem_of_cons. naive_solver.
Qed.

Lemma scan_step x l i os ns rs :
  NoDup os ->
  scan (map link_opt os) (link_val l) i (map link_rec (x :: ns)) rs =
  if bool_decide (l = Some x) then Ok (rs ++ [i], true)
  else scan (map link_opt os) (link_val l) (S i) (map link_rec ns)
         (if bool_decide (x ∈ os) then rs ++ [i] else rs).
Proof.
  intros Hnd. cbn [map scan]. change (prop (link_rec x) "link") with (Ok (VStr x)). cbn [res_bind].
  rewrite loose_eq_link. destruct (bool_decide (l = Some x)) eqn:E; [done|].
  rewrite scan_options_spec, E by done. cbn [res_bind negb]. by rewrite andb_true_r.
Qed.

Lemma scan_skip l i os a ns rs :
  NoDup os -> Forall (fun x => in_group os l x = false) a ->
  scan (map link_opt os) (link_val l) i (map link_rec (a ++ ns)) rs =
  scan (map link_opt os) (link_val l) (i + length a) (map link_rec ns) rs.
Proof.
  intros Hnd HF. revert i. induction HF as [|x a Hx HF IH]; intros i; [by rewrite Nat.add_0_r|].
  cbn [app]. rewrite scan_step by done. unfold in_group in Hx. apply orb_false_iff in Hx as [-> ->].
  rewrite IH. f_equal. cbn [length]. lia.
Qed.

Lemma filter_all {A} (P : A -> Prop) `{!forall x, Decision (P x)} l : Forall P l -> filter P l = l.
Proof. induction 1 as [|x l Hx _ IH]; [done|]. by rewrite filter_cons_True, IH. Qed.

Lemma splice1_middle {A} (a : list A) x b : splice1 (length a) (a ++ x :: b) = a ++ b.
Proof.
  unfold splice1. rewrite take_app_length, drop_app_ge, Nat.sub_succ_l, Nat.sub_diag by lia. done.
Qed.

(** The link the group has in the table, if any: what is left without it. *)
Inductive group_split (os : list string) (l : option string) (ns : list string) : Prop :=
  | group_absent : Forall (fun x => in_group os l x = false) ns -> group_split os l ns
  | group_present a x b :
      ns = a ++ x :: b -> in_group os l x = true ->
      Forall (fun y => in_group os l y = false) (a ++ b) -> group_split os l ns.

Lemma group_splits os l ns :
  NoDup ns ->
  (forall x y, x ∈ ns -> y ∈ ns -> in_group os l x = true -> in_group os l y = true -> x = y) ->
  group_split os l ns.
Proof.
  intros Hnd Hu. destruct (decide (Exists (fun x => in_group os l x = true) ns)) as [E|E].
  - apply list.Exists_exists in E as (x & Hx & Hg).
    apply list_elem_of_split in Hx as (a & b & ->). eapply (group_present _ _ _ a x b); [done|done|].
    apply list.Forall_forall. intros y Hy. destruct (in_group os l y) eqn:Ey; [|done]. exfalso.
    apply list.NoDup_app in Hnd as (_ & Hd & Hb). apply list.NoDup_cons in Hb as [Hb _].
    assert (y = x) as -> by (apply Hu; set_solver). set_solver.
  - apply group_absent, list.Forall_forall. intros y Hy. destruct (in_group os l y) eqn:Ey; [|done].
    exfalso. apply E, list.Exists_exists. eauto.
Qed.

Section path_theorem.
Context {T : Type} `{HT : DataTable T} `{!DataTableLaws T}.

(** The rows the scan removes, and whether it met the chosen link. *)
Lemma scan_group os l ns :
  NoDup os -> group_split os l ns ->
  exists removals found,
    scan (map link_opt os) (link_val l) 0 (map link_rec ns) [] = Ok (removals, found) /\
    foldl (fun u i => splice1 i u) (map link_rec ns) removals
      = map link_rec (filter (fun x => in_group os l x = false) ns) /\
    (forall n, l = Some n -> (found = true <-> n ∈ ns)).
Proof.
  intros Hnd [HF|a x b -> Hg HF].
  - exists [], false. rewrite <- (app_nil_r ns) at 1. rewrite scan_skip by done. split; [done|].
    rewrite filter_all by done. split; [done|]. intros n ->. split; [done|]. intros Hn.
    rewrite list.Forall_forall in HF. specialize (HF _ Hn). unfold in_group in HF.
    rewrite (bool_decide_true (Some n = Some n)), orb_true_r in HF by done. done.
  - apply list.Forall_app in HF as [Ha Hb].
    exists [length a], (bool_decide (l = Some x)). rewrite scan_skip, scan_step by done.
    rewrite list.filter_app, filter_cons_False, !filter_all by (done || congruence). split; [|split].
    + destruct (bool_decide (l = Some x)) eqn:E; [done|].
      unfold in_group in Hg. rewrite E, orb_false_r in Hg. rewrite Hg.
      rewrite <- (app_nil_r b). by rewrite scan_skip.
    + cbn [foldl]. rewrite map_app. cbn [map]. rewrite <- (length_map link_rec a) at 1.
      by rewrite splice1_middle, map_app.
    + intros n ->. rewrite bool_decide_eq_true. split; [intros [= ->]; set_solver|]. intros Hn.
      assert (G : in_group os (Some n) n = true) by (unfold in_group; by rewrite (bool_decide_true (Some n = Some n)), orb_true_r by done).
      rewrite list.Forall_forall in Ha. rewrite list.Forall_forall in Hb.
      apply list.elem_of_app in Hn as [Hn|[->|Hn]%elem_of_cons]; [|done|].
      * by rewrite Ha in G.
      * by rewrite Hb in G.
Qed.

Lemma shown_deletions t rs : shown (foldl (fun u i => deleteRow i u) t rs) = foldl (fun u i => splice1 i u) (shown t) rs.
Proof. revert t. induction rs as [|i rs IH]; intros t; [done|]. cbn [foldl]. by rewrite IH, shown_deleteRow. Qed.

(** Choosing a link of a group replaces the group's link in the path, choosing
    the one that is there removes it, and the empty choice removes any; links
    outside the group stay, in their order.  It assumes what the page keeps: no
    link twice in the path, and at most one of the group. *)
Theorem path_choice (t : T) ns os l :
  shown t = map link_rec ns -> NoDup ns -> NoDup os -> l <> Some estr ->
  (forall x y, x ∈ ns -> y ∈ ns -> in_group os l x = true -> in_group os l y = true -> x = y) ->
  exists t', modify_path_table (map link_opt os) (link_val l) t = Ok t' /\
    shown t' = map link_rec (filter (fun x => in_group os l x = false) ns
                             ++ match l with Some n => if decide (n ∈ ns) then [] else [n] | None => [] end).
Proof.
  intros Ht Hns Hos Hl Hu.
  destruct (scan_group os l ns Hos (group_splits os l ns Hns Hu)) as (rs & found & Hsc & Hdel & Hf).
  unfold modify_path_table. fold (shown t). rewrite Ht, Hsc. cbn [res_bind fst snd].
  eexists. split; [reflexivity|]. rewrite <- Ht, <- shown_deletions in Hdel.
  rewrite map_app, <- Hdel.
  destruct l as [n|]; [|by rewrite andb_false_r, app_nil_r].
  specialize (Hf n eq_refl). assert (truthy (link_val (Some n)) = true) as -> by (by destruct n).
  rewrite andb_true_r. destruct found; cbn [negb].
  - rewrite decide_True by (by apply Hf). by rewrite app_nil_r.
  - rewrite decide_False by (intros E; by apply Hf in E).
    rewrite shown_addRow by (unfold shown; by rewrite length_map).
    unfold insert_at, shown. rewrite <- (length_map snd), firstn_all, skipn_all. done.
Qed.

End path_theorem.

(** ** Tables as lists *)

#[export] Instance list_table : DataTable (list (string * val)) := {
  tb_rows l := l;
  deleteRow i l := splice1 i l;
  addRow d i l := insert_at i (fresh (map fst l), d) l
}.

#[export] Instance list_table_laws : DataTableLaws (list (string * val)).
Proof.
  split; [done|]. intros l d i _. exists (fresh (map fst l)). split; [apply infinite_is_fresh|done].
Qed.

Definition acl_row (id position : Z) : val := VObj [("interface_acl_id", VInt id); ("eval_position", VInt position)].
Definition sample_rows : list (string * val) :=
  [("rec0", acl_row 1 10); ("rec1", acl_row 2 20); ("rec2", acl_row 3 30)].

Lemma drag_moves_witness :
  let '(t', d') := foldl (fun x id => onDragOver id x)
                     (sample_rows, Drag (acl_row 1 10) 0 None [] None None) ["rec1"; "rec2"] in
  shown t' = [acl_row 2 20; acl_row 3 30; acl_row 1 10].
Proof.
  pose proof (drag_moves sample_rows 0 (Drag (acl_row 1 10) 0 None [] None None) ["rec1"; "rec2"] eq_refl) as H.
  destruct (foldl _ _ _) as [t' d'] eqn:E. destruct H as (_ & H & _). rewrite H.
  vm_compute in E. injection E as <- <-. reflexivity.
Defined.

Lemma drag_back_reorders_witness :
  exists d, startDrag sample_rows 0 = Some d /\
    let td := onDragOver "rec1" (onDragOver "rec1" (sample_rows, d)) in
    shown (fst td) = shown sample_rows /\
    rowDrag "update_acl" "eval_position" ["interface_acl_id"] (endDrag td)
      = Ok (Some "update_acl&eval_position=20&interface_acl_id=1").
Proof.
  destruct (drag_back_reorders sample_rows [] "rec0" (acl_row 1 10) "rec1" (acl_row 2 20)
              [("rec2", acl_row 3 30)]) as (d & H1 & H2 & _ & H3); [reflexivity|..].
  - apply not_elem_of_nil.
  - discriminate.
  - exists d. split; [exact H1|]. cbv zeta. rewrite H3. split; [exact H2|reflexivity].
Defined.

Lemma path_choice_witness :
  exists t',
    modify_path_table (map link_opt ["chic-newy-1"; "chic-newy-2"]) (link_val (Some "chic-newy-2"))
      [("rec0", link_rec "seat-chic"); ("rec1", link_rec "chic-newy-1"); ("rec2", link_rec "newy-wash")] = Ok t' /\
    shown t' = map link_rec ["seat-chic"; "newy-wash"; "chic-newy-2"].
Proof.
  apply (path_choice [("rec0", link_rec "seat-chic"); ("rec1", link_rec "chic-newy-1"); ("rec2", link_rec "newy-wash")]
           ["seat-chic"; "chic-newy-1"; "newy-wash"] ["chic-newy-1"; "chic-newy-2"] (Some "chic-newy-2"));
    [reflexivity| | |discriminate|].
  - apply (bool_decide_unpack _). vm_compute. exact I.
  - apply (bool_decide_unpack _). vm_compute. exact I.
  - intros x y Hx Hy. revert x y Hx Hy.
    repeat (setoid_rewrite elem_of_cons || setoid_rewrite elem_of_nil).
    intros x y [->|[->|[->|[]]]] [->|[->|[->|[]]]]; vm_compute; congruence.
Defined.

(** Two links of one group in the path: the rows to remove are counted before
    the first one goes, so the second removal takes another link away. *)
Example path_stale_index :
  modify_path_table (map link_opt ["a"; "b"; "c"]) (link_val (Some "c"))
    [("r0", link_rec "a"); ("r1", link_rec "b"); ("r2", link_rec "d")]
  = Ok [("r1", link_rec "b"); (fresh ["r1"], link_rec "c")].
Proof. vm_compute. reflexivity. Qed.
