(* ===== verification/Checks.v ===== *)
(** * Checks of the older administration page (js_templates/admin.js)

    The conditions under which the forms of the page refuse their input:
    coordinates, VLAN ranges, names, limits.  Each is written as the source
    writes it, over the regular expressions of [JsRegex], and is proved to
    accept exactly the texts it is meant to describe. *)

From Stdlib Require Import ZArith Lia Ascii String.
From stdpp Require Import base option list sets strings numbers tactics.
From S2P Require Import Prelude JsValue JsRegex Fetch Api.

(** ** The expressions *)

Definition rdigit : re := RClass is_digit.
Definition rdigits : re := rplus rdigit.

(** [/^\-?\d+(\.\d+)?$/] *)
Definition coordinate_re : re :=
  rseqs [ropt (rchr "-"); rdigits; ropt (RSeq (rchr ".") rdigits)].

(** [/^\d+$/] and [/^\d+-\d+$/] *)
Definition single_re : re := rdigits.
Definition interval_re : re := RSeq rdigits (RSeq (rchr "-") rdigits).

(** [s.match(/c/)] for an expression of one class: some character is in it. *)
Fixpoint str_exists (p : ascii -> bool) (s : string) : bool :=
  match s with
  | EmptyString => false
  | String c s' => p c || str_exists p s'
  end.

Fixpoint starts_with (p s : string) : bool :=
  match p, s with
  | EmptyString, _ => true
  | String a p', String b s' => Ascii.eqb a b && starts_with p' s'
  | _, EmptyString => false
  end.

Definition bytes (l : list nat) : string := foldr (fun n s => String (ascii_of_nat n) s) estr l.

(** The white space of [\s] outside ASCII, in UTF-8: no-break space, ogham
    space, the spaces of U+2000, line and paragraph separators, narrow and
    mathematical spaces, ideographic space, byte order mark. *)
Definition wide_spaces : list string :=
  map bytes
    ([[194; 160]; [225; 154; 128]] ++ map (fun n => [226; 128; n]) (seq 128 11)
     ++ [[226; 128; 168]; [226; 128; 169]; [226; 128; 175]; [226; 129; 159];
         [227; 128; 128]; [239; 187; 191]]).

(** [s.match(/\s/)] *)
Fixpoint has_white (s : string) : bool :=
  match s with
  | EmptyString => false
  | String c s' => is_space c || existsb (fun w => starts_with w s) wide_spaces || has_white s'
  end.

(** ** The conditions *)

(** [! x || ! x.match(/^\-?\d+(\.\d+)?$/) || x < -limit || x > limit] *)
Definition bad_coordinate (limit : Z) (x : string) : bool :=
  negb (truthy (VStr x)) || negb (re_match coordinate_re x)
  || js_lt (VStr x) (VInt (- limit)) || js_gt (VStr x) (VInt limit).

(** The loop over [range.split(',')] that refuses a segment. *)
Definition bad_segment (segment : string) : bool :=
  negb (re_match single_re segment) && negb (re_match interval_re segment).
Definition bad_ranges (range : string) : bool := existsb bad_segment (split_on "," range).

(** [name.match(/:/) || name.match(/\s/)] *)
Definition bad_name (name : string) : bool := str_exists (Ascii.eqb ":") name || has_white name.

(** [! x.match(/\d+/)] *)
Definition no_number (x : string) : bool := negb (str_exists is_digit x).

(** ** Digits *)

(** A text of one or more digits. *)
Definition is_digits (s : string) : Prop := s <> estr /\ str_forall is_digit s = true.

Lemma lang_digits s : re_lang rdigits s <-> is_digits s.
Proof.
  unfold rdigits, rplus, is_digits. rewrite lang_seq. setoid_rewrite lang_class. split.
  - intros (a & b & -> & (c & -> & Hc) & Hb). split; [done|]. simpl. rewrite Hc. simpl.
    remember (RStar rdigit) as r eqn:Er. induction Hb; try done.
    injection Er as ->. rewrite str_forall_app. apply lang_class in Hb1 as (d & -> & Hd).
    simpl. rewrite Hd. simpl. auto.
  - intros [Hne H]. destruct s as [|c s]; [done|]. simpl in H. apply andb_true_iff in H as [Hc H].
    exists (String c estr), s. split; [done|]. split; [eauto|]. clear c Hc Hne.
    induction s as [|c s IH]; [constructor|]. simpl in H. apply andb_true_iff in H as [Hc H].
    change (String c s) with (String c estr +:+ s). constructor; [|auto].
    apply lang_class. eauto.
Qed.

#[local] Opaque rdigits.

Definition sign_text (neg : bool) : string := if neg then "-" else estr.
Definition frac_text (b : string) : string := match b with EmptyString => estr | _ => "." +:+ b end.

(** A text of digits, or nothing. *)
Definition maybe_digits (s : string) : Prop := str_forall is_digit s = true.

Lemma lang_coordinate s :
  re_lang coordinate_re s <->
  exists neg a b, is_digits a /\ maybe_digits b /\ s = sign_text neg +:+ a +:+ frac_text b.
Proof.
  unfold coordinate_re, rseqs, ropt. cbn [foldr].
  repeat setoid_rewrite lang_seq. setoid_rewrite lang_alt. setoid_rewrite lang_seq.
  setoid_rewrite lang_eps. setoid_rewrite lang_chr. setoid_rewrite lang_digits.
  split.
  - intros (p & q & -> & Hp & a & r & -> & Ha & t & u & -> & Ht & ->).
    exists (match p with EmptyString => false | _ => true end), a.
    rewrite str_app_nil_r.
    destruct Ht as [->|(d & b & -> & -> & Hb)].
    + exists estr. split; [done|]. split; [done|]. by destruct Hp as [->| ->].
    + exists b. split; [done|]. split; [apply Hb|]. destruct Hb as [Hb _].
      destruct b; [done|]. by destruct Hp as [->| ->].
  - intros (neg & a & b & Ha & Hb & ->). exists (sign_text neg), (a +:+ frac_text b).
    split; [done|]. split; [destruct neg; auto|].
    exists a, (frac_text b). split; [done|]. split; [done|].
    exists (frac_text b), estr. split; [by rewrite str_app_nil_r|]. split; [|done].
    destruct b as [|c b]; [by left|]. right. exists ".", (String c b). repeat split; done.
Qed.

(** ** The value of a coordinate *)

Lemma is_digit_no_trim s : str_forall (fun c => negb (is_space c)) s = true -> js_trim s = s.
Proof.
  intros H. unfold js_trim, ltrim.
  assert (E : snd (span is_space s) = s).
  { destruct s as [|c s]; [done|]. simpl in *. apply andb_true_iff in H as [Hc _].
    by destruct (is_space c). }
  rewrite E. clear E. induction s as [|c s IH]; [done|]. simpl in *.
  apply andb_true_iff in H as [Hc H]. rewrite IH by done.
  destruct s; [by destruct (is_space c)|done].
Qed.

Lemma digits_not_space s : str_forall is_digit s = true -> str_forall (fun c => negb (is_space c)) s = true.
Proof. apply str_forall_weaken. intros c Hc. cbv beta. rewrite is_digit_not_space; done. Qed.

Lemma coordinate_not_space neg a b :
  is_digits a -> maybe_digits b ->
  str_forall (fun c => negb (is_space c)) (sign_text neg +:+ a +:+ frac_text b) = true.
Proof.
  intros [_ Ha] Hb. rewrite !str_forall_app, (digits_not_space a) by done.
  destruct b as [|c b]; [by destruct neg|].
  change (frac_text (String c b)) with ("." +:+ String c b).
  rewrite str_forall_app, (digits_not_space (String c b)) by done. by destruct neg.
Qed.

Lemma span_digits_frac a b :
  str_forall is_digit a = true -> span is_digit (a +:+ frac_text b) = (a, frac_text b).
Proof.
  intros Ha. rewrite (span_app _ a); [done| |]; by destruct b.
Qed.

Lemma unsigned_coordinate a b :
  is_digits a -> maybe_digits b ->
  unsigned_literal (a +:+ frac_text b) =
  Fin (dec_norm (Dec (Z.of_N (dec_value (a +:+ b))) (String.length b))).
Proof.
  intros [Hne Ha] Hb. unfold unsigned_literal. rewrite span_digits_frac by done.
  destruct b as [|c b].
  - cbn [frac_text]. rewrite str_app_nil_r. destruct a; [done|]. done.
  - change (frac_text (String c b)) with (String "." (String c b)).
    cbv iota. rewrite span_all by done.
    destruct a as [|d a]; [done|]. simpl String.append. cbv iota. cbn [take_exponent].
    unfold scale_by. rewrite Z.sub_0_r. destruct (Z.ltb_spec (Z.of_nat (String.length (String c b))) 0); [lia|].
    by rewrite Nat2Z.id.
Qed.

(** Stripping zeros divides by a power of ten. *)
Lemma strip_value m s :
  exists k, (dscale (dec_strip m s) + k)%nat = s /\ m = (dman (dec_strip m s) * 10 ^ Z.of_nat k)%Z.
Proof.
  revert m. induction s as [|s IH]; intros m; [exists 0; simpl; lia|].
  cbn [dec_strip]. destruct (Z.eqb_spec (m mod 10) 0) as [E|_]; [|exists 0; simpl; lia].
  destruct (IH (m / 10)%Z) as (k & Hk & Hm). exists (S k). split; [lia|].
  apply Z.div_exact in E; [|done]. rewrite E, Hm at 1.
  rewrite Nat2Z.inj_succ, Z.pow_succ_r by lia. ring.
Qed.

Definition signed_Z (neg : bool) (m : Z) : Z := if neg then (- m)%Z else m.

(** Comparison of a signed decimal with an integer. *)
Lemma signed_decimal_ltb neg m s z :
  num_ltb (signed neg (Fin (dec_norm (Dec m s)))) (Fin (Dec z 0)) =
    (signed_Z neg m <? z * 10 ^ Z.of_nat s)%Z /\
  num_ltb (Fin (Dec z 0)) (signed neg (Fin (dec_norm (Dec m s)))) =
    (z * 10 ^ Z.of_nat s <? signed_Z neg m)%Z.
Proof.
  unfold dec_norm. cbn [dman dscale]. destruct (strip_value m s) as (k & Hs & Hm).
  destruct (dec_strip m s) as [m' s']. cbn [dman dscale] in *. subst m s.
  rewrite Nat2Z.inj_add, Z.pow_add_r by lia.
  assert (0 < 10 ^ Z.of_nat k)%Z by (apply Z.pow_pos_nonneg; lia).
  set (p := (10 ^ Z.of_nat k)%Z) in *. set (q := (10 ^ Z.of_nat s')%Z).
  destruct neg; unfold signed, num_opp, num_ltb, dec_compare, dscale_up, signed_Z; cbn [dman dscale];
    fold q; change (10 ^ Z.of_nat 0)%Z with 1%Z; rewrite Z.mul_1_r;
    split; match goal with |- context [(?a ?= ?b)%Z] => destruct (Z.compare_spec a b) end;
    symmetry; first [apply Z.ltb_lt | apply Z.ltb_ge]; nia.
Qed.

(** A literal that starts with a digit and is not hexadecimal. *)
Lemma string_to_num_digit c r :
  is_digit c = true -> js_trim (String c r) = String c r ->
  (match r with EmptyString => True | String d _ => (Ascii.eqb d "x" || Ascii.eqb d "X")%char = false end) ->
  string_to_num (String c r) = unsigned_literal (String c r).
Proof.
  intros Hc Ht Hr. unfold string_to_num. rewrite Ht.
  destruct c as [[] [] [] [] [] [] [] []]; try discriminate Hc; destruct r as [|d r]; try reflexivity.
  by rewrite Hr.
Qed.

Lemma string_to_num_coordinate neg a b :
  is_digits a -> maybe_digits b ->
  string_to_num (sign_text neg +:+ a +:+ frac_text b) =
  signed neg (Fin (dec_norm (Dec (Z.of_N (dec_value (a +:+ b))) (String.length b)))).
Proof.
  intros Ha Hb. rewrite <- unsigned_coordinate by done.
  pose proof (is_digit_no_trim _ (coordinate_not_space neg a b Ha Hb)) as Ht.
  destruct neg.
  - unfold string_to_num. by rewrite Ht.
  - cbn [sign_text String.append signed] in *. destruct Ha as [Hne Ha].
    destruct a as [|c a]; [done|]. cbn [String.append] in *.
    apply andb_true_iff in Ha as [Hc Ha]. apply string_to_num_digit; [done..|].
    destruct a as [|d a]; [by destruct b|]. cbn [String.append].
    apply andb_true_iff in Ha as [Hd _]. by apply is_digit_not_x.
Qed.

(** The printed integer reads back as a number. *)
Lemma string_to_num_of_Z z : string_to_num (string_of_Z z) = Fin (Dec z 0).
Proof.
  assert (E : string_of_Z z = sign_text (z <? 0)%Z +:+ string_of_N (Z.to_N (Z.abs z)) +:+ frac_text estr).
  { rewrite str_app_nil_r. by destruct z. }
  rewrite E, string_to_num_coordinate; [|split; [|apply string_of_N_digits]|done].
  - rewrite str_app_nil_r, dec_value_string_of_N. unfold dec_norm. simpl.
    rewrite Z2N.id by lia. destruct (Z.ltb_spec z 0); unfold signed, num_opp; do 2 f_equal; lia.
  - destruct (string_of_N_cons (Z.to_N (Z.abs z))) as (c & t & -> & _). done.
Qed.

(** A coordinate is accepted exactly when it is a decimal between the limits:
    an optional minus, digits and an optional fraction whose value is at most
    the limit in absolute value.  (A double also takes for the limit what
    exceeds it by less than the fourteenth decimal.) *)
Lemma coordinate_accepts (limit : N) x :
  bad_coordinate (Z.of_N limit) x = false <->
  exists neg a b,
    is_digits a /\ maybe_digits b /\ x = sign_text neg +:+ a +:+ frac_text b /\
    (dec_value (a +:+ b) <= limit * 10 ^ N.of_nat (String.length b))%N.
Proof.
  assert (V : forall neg a b, is_digits a -> maybe_digits b ->
    js_lt (VStr (sign_text neg +:+ a +:+ frac_text b)) (VInt (- Z.of_N limit))
    || js_gt (VStr (sign_text neg +:+ a +:+ frac_text b)) (VInt (Z.of_N limit)) = false <->
    (dec_value (a +:+ b) <= limit * 10 ^ N.of_nat (String.length b))%N).
  { intros neg a b Ha Hb. unfold js_gt, js_lt. cbn [text_operands to_number].
    rewrite string_to_num_coordinate by done.
    rewrite (proj1 (signed_decimal_ltb _ _ _ _)), (proj2 (signed_decimal_ltb _ _ _ _)).
    rewrite orb_false_iff, !Z.ltb_ge, N2Z.inj_le, N2Z.inj_mul, N2Z.inj_pow, nat_N_Z.
    assert (0 <= 10 ^ Z.of_nat (String.length b))%Z by (apply Z.pow_nonneg; lia).
    destruct neg; cbn [signed_Z]; lia. }
  unfold bad_coordinate. rewrite <- orb_assoc, !orb_false_iff, !negb_false_iff, re_match_lang, lang_coordinate.
  split.
  - intros ((_ & neg & a & b & Ha & Hb & ->) & H). rewrite <- orb_false_iff, V in H by done. by exists neg, a, b.
  - intros (neg & a & b & Ha & Hb & -> & H). rewrite <- V with (neg := neg), orb_false_iff in H by done.
    split; [|done]. split; [|by exists neg, a, b]. destruct Ha as [Hne _]. destruct neg, a; done.
Qed.

(** ** VLAN ranges *)

(** A segment: one number, or two with a hyphen. *)
Definition segment_text (g : string * option string) : string :=
  match g with (a, None) => a | (a, Some b) => a +:+ "-" +:+ b end.
Definition is_segment (g : string * option string) : Prop :=
  is_digits (fst g) /\ match snd g with Some b => is_digits b | None => True end.

Lemma segment_accepts s : bad_segment s = false <-> exists g, is_segment g /\ s = segment_text g.
Proof.
  unfold bad_segment. rewrite andb_false_iff, !negb_false_iff, !re_match_lang.
  unfold single_re, interval_re. setoid_rewrite lang_seq. setoid_rewrite lang_seq.
  setoid_rewrite lang_chr. setoid_rewrite lang_digits. split.
  - intros [H|(a & r & -> & Ha & d & b & -> & -> & Hb)]; [exists (s, None)|exists (a, Some b)];
      (split; [split; done|done]).
  - intros ([a [b|]] & [Ha Hb] & ->); [right|by left]. exists a, ("-" +:+ b). split; [done|].
    split; [done|]. by exists "-", b.
Qed.

Lemma split_on_join sep s : str_join (String sep estr) (split_on sep s) = s.
Proof.
  induction s as [|c s IH]; [done|]. cbn [split_on].
  destruct (Ascii.eqb_spec c sep) as [->|Hne].
  - destruct (split_on sep s) as [|x l] eqn:E; [by destruct s; simpl in E; repeat case_match|].
    rewrite str_join_cons, IH. done.
  - destruct (split_on sep s) as [|x l] eqn:E; [by destruct s; simpl in E; repeat case_match|].
    destruct l as [|y l]; [by rewrite <- IH|]. rewrite str_join_cons in *. rewrite <- IH. done.
Qed.

Lemma split_on_of_join sep l :
  l <> [] -> Forall (fun x => str_forall (fun c => negb (Ascii.eqb c sep)) x = true) l ->
  split_on sep (str_join (String sep estr) l) = l.
Proof.
  intros Hne H. induction H as [|x l Hx Hl IH]; [done|].
  destruct l as [|y l]; [by apply split_on_none|].
  rewrite str_join_cons. cbn [String.append]. rewrite split_on_app by done. by rewrite IH.
Qed.

(** A VLAN range text is accepted exactly when it is a list of numbers and of
    pairs of numbers, separated by commas. *)
Lemma ranges_accept s :
  bad_ranges s = false <->
  exists l, l <> [] /\ Forall is_segment l /\ s = str_join "," (map segment_text l).
Proof.
  unfold bad_ranges. split.
  - intros H. assert (exists l, map segment_text l = split_on "," s /\ Forall is_segment l) as (l & E & Hl).
    { rewrite <- not_true_iff_false, existsb_exists in H. revert H.
      induction (split_on "," s) as [|x r IH]; intros H; [by exists []|].
      destruct IH as (l & E & Hl); [intros (y & Hy & B); apply H; exists y; simpl; auto|].
      destruct (proj1 (segment_accepts x)) as (g & Hg & ->).
      { destruct (bad_segment x) eqn:B; [|done]. destruct H. exists x. simpl. auto. }
      exists (g :: l). simpl. rewrite E. auto. }
    exists l. rewrite E, split_on_join. repeat split; [|done].
    intros ->. simpl in E. destruct s; simpl in E; repeat case_match; done.
  - intros (l & Hne & Hl & ->). rewrite split_on_of_join.
    + apply not_true_iff_false. rewrite existsb_exists. intros (x & Hx & B).
      apply in_map_iff in Hx as (g & <- & Hg). rewrite list.Forall_forall in Hl.
      apply list_elem_of_In, Hl in Hg. rewrite (proj2 (segment_accepts _)) in B by eauto. done.
    + by destruct l.
    + apply Forall_map. eapply list.Forall_impl; [exact Hl|].
      assert (D : forall t, is_digits t -> str_forall (fun c => negb (Ascii.eqb c ",")) t = true).
      { intros t [_ Ht]. eapply str_forall_weaken; [|exact Ht].
        intros c Hc. by destruct c as [[] [] [] [] [] [] [] []]. }
      intros [a [b|]] [Ha Hb]; simpl in *; [|by apply D].
      rewrite str_forall_app, (D a) by done. simpl. by rewrite (D b).
Qed.
