(* ===== verification/TagPanel.v ===== *)
(** * The tag selection panel (utility.js)

    A click on the save button of the panel validates the tag, then asks the
    server whether the tag is available and, when static MAC addresses are
    given, whether they are within the limit.  The two answers come in any
    order, possibly after the user changed the fields and clicked again: every
    click has its own flags, while the button, the session and the panel are
    shared.  The panel is a step function on events; a behaviour is a list of
    events that all could happen. *)

From Stdlib Require Import ZArith Lia Ascii String.
From stdpp Require Import base option list sets strings numbers tactics.
From S2P Require Import Prelude JsValue JsJson Fetch Api Acl Checks.

(** ** Options and state *)

Record tag_options := TagOptions {
  to_interdomain : bool;
  to_current : option val;
  to_interface : string;
  to_node : string;
  to_workgroup_id : val
}.

(** The flags of one call of [verify_and_add_endpoint], and which of its answers
    are still to come. *)
Record attempt := Attempt {
  at_tag : val;
  at_tag_verified : bool;
  at_mac_limit_verified : bool;
  at_tag_pending : bool;
  at_mac_pending : bool
}.

(** The fields of the panel, its save button, what is shared with the page, and
    what has been done: requests, alerts, calls of [save_action] (with the click
    they belong to) and handlers of the next button. *)
Record tag_panel := TagPanel {
  tp_tagged : bool;
  tp_input : string;
  tp_macs : list string;
  tp_static_mac : bool;
  tp_disabled : bool;
  tp_open : bool;
  tp_circuit_type : val;
  tp_attempts : list attempt;
  tp_sent : list string;
  tp_alerts : list string;
  tp_saves : list (nat * val);
  tp_next : list string
}.

Definition set_fields (tagged : bool) (input : string) (macs : list string) (s : tag_panel) : tag_panel :=
  TagPanel tagged input macs (tp_static_mac s) (tp_disabled s) (tp_open s) (tp_circuit_type s)
    (tp_attempts s) (tp_sent s) (tp_alerts s) (tp_saves s) (tp_next s).
Definition set_disabled (b : bool) (s : tag_panel) : tag_panel :=
  TagPanel (tp_tagged s) (tp_input s) (tp_macs s) (tp_static_mac s) b (tp_open s) (tp_circuit_type s)
    (tp_attempts s) (tp_sent s) (tp_alerts s) (tp_saves s) (tp_next s).
Definition set_attempts (l : list attempt) (s : tag_panel) : tag_panel :=
  TagPanel (tp_tagged s) (tp_input s) (tp_macs s) (tp_static_mac s) (tp_disabled s) (tp_open s)
    (tp_circuit_type s) l (tp_sent s) (tp_alerts s) (tp_saves s) (tp_next s).
Definition close (s : tag_panel) : tag_panel :=
  TagPanel (tp_tagged s) (tp_input s) (tp_macs s) (tp_static_mac s) (tp_disabled s) false
    (tp_circuit_type s) (tp_attempts s) (tp_sent s) (tp_alerts s) (tp_saves s) (tp_next s).
Definition send (url : string) (s : tag_panel) : tag_panel :=
  TagPanel (tp_tagged s) (tp_input s) (tp_macs s) (tp_static_mac s) (tp_disabled s) (tp_open s)
    (tp_circuit_type s) (tp_attempts s) (tp_sent s ++ [url]) (tp_alerts s) (tp_saves s) (tp_next s).
Definition say (text : string) (s : tag_panel) : tag_panel :=
  TagPanel (tp_tagged s) (tp_input s) (tp_macs s) (tp_static_mac s) (tp_disabled s) (tp_open s)
    (tp_circuit_type s) (tp_attempts s) (tp_sent s) (tp_alerts s ++ [text]) (tp_saves s) (tp_next s).
Definition set_circuit_type (t : val) (url : string) (s : tag_panel) : tag_panel :=
  TagPanel (tp_tagged s) (tp_input s) (tp_macs s) (tp_static_mac s) (tp_disabled s) (tp_open s)
    t (tp_attempts s) (tp_sent s) (tp_alerts s) (tp_saves s) (tp_next s ++ [url]).

(** ** verify_and_add_endpoint *)

(** The tag to validate: the text of the field when it is a number between 1 and
    4095, or -1 when the endpoint is untagged. *)
Definition read_tag (s : tag_panel) : string + val :=
  if tp_tagged s then
    if negb (truthy (VStr (tp_input s))) then inl "You must specify an outgoing VLAN tag."
    else if negb (digits1 (tp_input s)) || js_le (VInt 4096) (VStr (tp_input s))
            || js_lt (VStr (tp_input s)) (VInt 1)
    then inl "You must specify a VLAN tag between 1 and 4095."
    else inr (VStr (tp_input s))
  else inr (VInt (-1)).

(** No need to ask for the tag: interdomain, or the tag being edited. *)
Definition tag_skipped (o : tag_options) (tag : val) : bool :=
  to_interdomain o || match to_current o with Some t => loose_eq tag t | None => false end.

Definition mac_skipped (s : tag_panel) : bool := negb (tp_static_mac s) || Nat.eqb (length (tp_macs s)) 0.

Definition query_tail (o : tag_options) : string :=
  "&interface=" +:+ encodeURIComponent (to_interface o) +:+ "&node=" +:+ encodeURIComponent (to_node o)
  +:+ "&workgroup_id=" +:+ to_string (to_workgroup_id o).
Definition tag_url (o : tag_options) (tag : val) : string :=
  "services/data.cgi?method=is_vlan_tag_available&vlan=" +:+ to_string tag +:+ query_tail o.
Definition mac_url (o : tag_options) (macs : list string) : string :=
  "services/data.cgi?method=is_within_mac_limit" +:+ amp (map (fun m => ("mac_address", m)) macs)
  +:+ query_tail o.

(** [save()] of click [k]: only when both checks passed. *)
Definition save_if_verified (k : nat) (s : tag_panel) : tag_panel :=
  match tp_attempts s !! k with
  | Some a =>
      if at_tag_verified a && at_mac_limit_verified a then
        TagPanel (tp_tagged s) (tp_input s) (tp_macs s) (tp_static_mac s) false false (tp_circuit_type s)
          (tp_attempts s) (tp_sent s) (tp_alerts s) (tp_saves s ++ [(k, at_tag a)]) (tp_next s)
      else s
  | None => s
  end.

(** A click on the save button. *)
Definition verify_and_add_endpoint (o : tag_options) (s : tag_panel) : tag_panel :=
  match read_tag s with
  | inl text => say text s
  | inr tag =>
      let k := length (tp_attempts s) in
      let tagv := tag_skipped o tag in
      let macv := mac_skipped s in
      let s1 := set_attempts (tp_attempts s ++ [Attempt tag tagv macv (negb tagv) (negb macv)]) s in
      let s2 := if tagv then s1 else send (tag_url o tag) (set_disabled true s1) in
      if macv then (if tagv then save_if_verified k s2 else s2)
      else send (mac_url o (tp_macs s)) (set_disabled true s2)
  end.

(** The answers: [TError] carries [meta.error], [TEmpty] is a reply without
    results (reading it throws). *)
Inductive tag_answer :=
  | TError (text : string)
  | TEmpty
  | TResult (available : val) (type : val)
  | TFail.
Inductive mac_answer :=
  | MError (text : string)
  | MEmpty
  | MResult (verified explanation : val)
  | MFail.

Definition answered_tag (k : nat) (verified : bool) (s : tag_panel) : tag_panel :=
  set_attempts (alter (fun a => Attempt (at_tag a) (at_tag_verified a || verified)
                                  (at_mac_limit_verified a) false (at_mac_pending a)) k (tp_attempts s)) s.
Definition answered_mac (k : nat) (verified : bool) (s : tag_panel) : tag_panel :=
  set_attempts (alter (fun a => Attempt (at_tag a) (at_tag_verified a)
                                  (at_mac_limit_verified a || verified) (at_tag_pending a) false) k
                  (tp_attempts s)) s.

Definition next_url (type : val) : string :=
  if loose_eq type (VStr "mpls") then "?action=primary_path" else "?action=options".

Definition mode_message : string :=
  "This vlan tag is in a different mode than the previous vlan tag. The tag mode must match on each interface".

Definition busy_message (o : tag_options) (tag : val) : string :=
  (if loose_eq tag (VInt (-1)) then "Untagged traffic is currently in use by another circuit on interface "
   else "Tag " +:+ to_string tag +:+ " is not currently available on interface ")
  +:+ to_interface o +:+ " on endpoint " +:+ to_node o +:+ ".".

Definition on_tag_answer (o : tag_options) (k : nat) (a : tag_answer) (s : tag_panel) : tag_panel :=
  let tag := match tp_attempts s !! k with Some x => at_tag x | None => VUndef end in
  match a with
  | TError text => say ("Error - " +:+ text) (answered_tag k false s)
  | TEmpty => answered_tag k false s
  | TFail => say "Error validating endpoint." (set_disabled false (answered_tag k false s))
  | TResult available type =>
      if loose_eq available (VInt 1) then
        if loose_eq (tp_circuit_type s) VNull then
          save_if_verified k (set_circuit_type type (next_url type) (answered_tag k true s))
        else if loose_eq (tp_circuit_type s) type then save_if_verified k (answered_tag k true s)
        else set_disabled false (say mode_message (answered_tag k false s))
      else set_disabled false (say (busy_message o tag) (answered_tag k false s))
  end.

Definition on_mac_answer (k : nat) (a : mac_answer) (s : tag_panel) : tag_panel :=
  match a with
  | MError text => set_disabled false (say ("Error - " +:+ text) (answered_mac k false s))
  | MEmpty => answered_mac k false s
  | MFail => say "Error validating endpoint." (set_disabled false (answered_mac k false s))
  | MResult verified explanation =>
      if loose_eq verified (VInt 1) then save_if_verified k (answered_mac k true s)
      else set_disabled false
             (say ("Problem adding mac addresses: " +:+ to_string explanation) (answered_mac k false s))
  end.

(** ** Events *)

(** [toLowerCase()] on the letters a MAC address may hold. *)
Fixpoint to_lower (s : string) : string :=
  match s with
  | EmptyString => estr
  | String c s' =>
      let n := nat_of_ascii c in
      String (if Nat.leb 65 n && Nat.leb n 90 then ascii_of_nat (n + 32) else c) (to_lower s')
  end.

(** [/^([0-9a-f]{2}:){5}([0-9a-f]{2})$/] on lower-case text. *)
Definition is_mac (s : string) : bool :=
  match split_on ":" s with
  | [a; b; c; d; e; f] =>
      forallb (fun x => Nat.eqb (String.length x) 2 && str_forall is_hex x) [a; b; c; d; e; f]
  | _ => false
  end.

Inductive panel_event :=
  | SetTag (text : string)
  | ToggleTagged (checked : bool)
  | AddMac (text : string)
  | DeleteMac (i : nat)
  | ClosePanel
  | ClickSave
  | TagAnswer (k : nat) (a : tag_answer)
  | MacAnswer (k : nat) (a : mac_answer).

(** One event, when it can happen: the fields and the button need the panel, an
    answer needs its request. *)
Definition panel_step (o : tag_options) (s : tag_panel) (e : panel_event) : option tag_panel :=
  match e with
  | SetTag text => if tp_open s && tp_tagged s then Some (set_fields true text (tp_macs s) s) else None
  | ToggleTagged c =>
      if tp_open s then Some (set_fields c (if c then tp_input s else estr) (tp_macs s) s) else None
  | AddMac text =>
      if tp_open s && tp_static_mac s then
        Some (if is_mac (to_lower text) then set_fields (tp_tagged s) (tp_input s) (tp_macs s ++ [to_lower text]) s
              else say "Invalid format, must match XX:XX:XX:XX:XX:XX" s)
      else None
  | DeleteMac i =>
      if tp_open s && tp_static_mac s && Nat.ltb i (length (tp_macs s))
      then Some (set_fields (tp_tagged s) (tp_input s) (splice1 i (tp_macs s)) s) else None
  | ClosePanel => if tp_open s then Some (close s) else None
  | ClickSave => if tp_open s && negb (tp_disabled s) then Some (verify_and_add_endpoint o s) else None
  | TagAnswer k a =>
      match tp_attempts s !! k with
      | Some x => if at_tag_pending x then Some (on_tag_answer o k a s) else None
      | None => None
      end
  | MacAnswer k a =>
      match tp_attempts s !! k with
      | Some x => if at_mac_pending x then Some (on_mac_answer k a s) else None
      | None => None
      end
  end.

Fixpoint panel_run (o : tag_options) (s : tag_panel) (es : list panel_event) : option tag_panel :=
  match es with
  | [] => Some s
  | e :: es' => match panel_step o s e with Some s' => panel_run o s' es' | None => None end
  end.

(** A panel that just opened; an edit starts with the current tag and
    addresses. *)
Definition new_panel (o : tag_options) (static_mac : bool) (macs : list string) (circuit_type : val) : tag_panel :=
  TagPanel true (match to_current o with Some t => to_string t | None => estr end) macs static_mac
    false true circuit_type [] [] [] [] [].

(** ** Properties *)

(** The tag the fields of the panel name: a number from 1 to 4095, as it was typed, or
    -1 when the box for tagged traffic is not checked. *)
Definition tag_of_fields (s : tag_panel) (tag : val) : Prop :=
  if tp_tagged s
  then tag = VStr (tp_input s) /\ str_forall is_digit (tp_input s) = true /\ (1 <= dec_value (tp_input s) <= 4095)%N
  else tag = VInt (-1).

Section evidence.
Variables (o : tag_options) (s0 : tag_panel).

(** Why the click [k] may take its tag as verified, from the events after it: none
    has to ask in an interdomain panel or for the tag being edited, otherwise its
    own answer says that the tag is available. *)
Definition tag_evidence (after : list panel_event) (k : nat) (tag : val) : Prop :=
  to_interdomain o = true \/ (exists t, to_current o = Some t /\ loose_eq tag t = true) \/
  exists v t, TagAnswer k (TResult v t) ∈ after /\ loose_eq v (VInt 1) = true.

(** The same for its addresses: the panel [s1] the button was pressed on has none, or
    its own answer says that they are within the limit. *)
Definition mac_evidence (s1 : tag_panel) (after : list panel_event) (k : nat) : Prop :=
  tp_static_mac s1 = false \/ tp_macs s1 = [] \/
  exists v x, MacAnswer k (MResult v x) ∈ after /\ loose_eq v (VInt 1) = true.

(** The click [k] among the events: the panel it was made on, and what came after. *)
Definition clicked_at (es : list panel_event) (k : nat) (s1 : tag_panel) (after : list panel_event) : Prop :=
  exists before, es = before ++ ClickSave :: after /\ panel_run o s0 before = Some s1 /\ length (tp_attempts s1) = k.

Definition evidence (es : list panel_event) (k : nat) (a : attempt) : Prop :=
  exists s1 after, clicked_at es k s1 after /\ tag_of_fields s1 (at_tag a) /\
    (at_tag_verified a = true -> tag_evidence after k (at_tag a)) /\
    (at_mac_limit_verified a = true -> mac_evidence s1 after k).

Definition attempts_ok (es : list panel_event) (l : list attempt) : Prop :=
  forall k a, l !! k = Some a -> evidence es k a.
Definition saves_ok (l : list attempt) (saves : list (nat * val)) : Prop :=
  forall k tag, (k, tag) ∈ saves ->
    exists a, l !! k = Some a /\ at_tag a = tag /\ at_tag_verified a = true /\ at_mac_limit_verified a = true.

Lemma clicked_snoc es e k s1 after : clicked_at es k s1 after -> clicked_at (es ++ [e]) k s1 (after ++ [e]).
Proof. intros (before & -> & H). exists before. by rewrite <-app_assoc. Qed.

Lemma tag_evidence_mono after e k tag : tag_evidence after k tag -> tag_evidence (after ++ [e]) k tag.
Proof.
  intros [?|[?|(v & t & Hin & ?)]]; [by left|by right; left|]. right. right. exists v, t. split; [|done].
  apply list.elem_of_app. by left.
Qed.

Lemma mac_evidence_mono s1 after e k : mac_evidence s1 after k -> mac_evidence s1 (after ++ [e]) k.
Proof.
  intros [?|[?|(v & t & Hin & ?)]]; [by left|by right; left|]. right. right. exists v, t. split; [|done].
  apply list.elem_of_app. by left.
Qed.

Lemma evidence_mono es e k a : evidence es k a -> evidence (es ++ [e]) k a.
Proof.
  intros (s1 & after & H1 & H2 & H3 & H4). exists s1, (after ++ [e]). split; [by apply clicked_snoc|]. split; [done|].
  split; intros Hv; [by apply tag_evidence_mono, H3|by apply mac_evidence_mono, H4].
Qed.

Lemma attempts_ok_mono es e l : attempts_ok es l -> attempts_ok (es ++ [e]) l.
Proof. intros H k a Hk. by apply evidence_mono, H. Qed.

Lemma save_if_verified_attempts k s : tp_attempts (save_if_verified k s) = tp_attempts s.
Proof. unfold save_if_verified. destruct (tp_attempts s !! k) as [a|]; [|done]. by case_match. Qed.

Lemma save_if_verified_saves k s :
  saves_ok (tp_attempts s) (tp_saves s) -> saves_ok (tp_attempts s) (tp_saves (save_if_verified k s)).
Proof.
  intros H. unfold save_if_verified. destruct (tp_attempts s !! k) as [a|] eqn:E; [|done].
  destruct (at_tag_verified a && at_mac_limit_verified a) eqn:V; [|done].
  apply andb_true_iff in V as [V1 V2]. intros k' tag. cbn [tp_saves].
  rewrite list.elem_of_app, list_elem_of_singleton. intros [Hin|[= -> ->]]; [by apply H|]. eauto 6.
Qed.

(** Flags of an attempt may only be raised. *)
Lemma saves_ok_alter (f : attempt -> attempt) k l saves :
  (forall a, at_tag (f a) = at_tag a /\ (at_tag_verified a = true -> at_tag_verified (f a) = true) /\
             (at_mac_limit_verified a = true -> at_mac_limit_verified (f a) = true)) ->
  saves_ok l saves -> saves_ok (alter f k l) saves.
Proof.
  intros Hf H k' tag Hin. destruct (H k' tag Hin) as (a & L & Ht & V1 & V2).
  destruct (Hf a) as (F1 & F2 & F3). destruct (decide (k' = k)) as [->|Hk].
  - exists (f a). rewrite list_lookup_alter_eq, L. split; [done|]. rewrite F1. auto.
  - exists a. rewrite list_lookup_alter_ne by done. auto.
Qed.

Lemma attempts_ok_alter (f : attempt -> attempt) es e k l :
  attempts_ok es l -> (forall a, evidence es k a -> evidence (es ++ [e]) k (f a)) -> attempts_ok (es ++ [e]) (alter f k l).
Proof.
  intros H Hf k' a. destruct (decide (k' = k)) as [->|Hk].
  - rewrite list_lookup_alter_eq. intros (a' & L & ->)%fmap_Some. by apply Hf, H.
  - rewrite list_lookup_alter_ne by done. intros L. by apply evidence_mono, H.
Qed.

Definition inv (es : list panel_event) (s : tag_panel) : Prop :=
  attempts_ok es (tp_attempts s) /\ saves_ok (tp_attempts s) (tp_saves s).

Lemma inv_save es k s : inv es s -> inv es (save_if_verified k s).
Proof.
  intros [H1 H2]. split; rewrite save_if_verified_attempts; [done|]. by apply save_if_verified_saves.
Qed.

Lemma inv_answered_tag es e k v s :
  inv es s -> (v = true -> exists x t, e = TagAnswer k (TResult x t) /\ loose_eq x (VInt 1) = true) ->
  inv (es ++ [e]) (answered_tag k v s).
Proof.
  intros [H1 H2] Hv. split; cbn [answered_tag set_attempts tp_attempts tp_saves].
  - apply attempts_ok_alter; [done|]. intros a (s1 & after & E1 & E2 & E3 & E4). exists s1, (after ++ [e]).
    split; [by apply clicked_snoc|]. split; [done|]. cbn [at_tag at_tag_verified at_mac_limit_verified].
    split; [|intros V; by apply mac_evidence_mono, E4].
    intros [V|V]%orb_true_iff; [by apply tag_evidence_mono, E3|]. destruct (Hv V) as (x & t & -> & Hx).
    right. right. exists x, t. split; [apply list.elem_of_app; right; apply list_elem_of_here|done].
  - apply saves_ok_alter; [|done]. intros a. cbn. split; [done|]. by split; [intros ->|].
Qed.

Lemma inv_answered_mac es e k v s :
  inv es s -> (v = true -> exists x t, e = MacAnswer k (MResult x t) /\ loose_eq x (VInt 1) = true) ->
  inv (es ++ [e]) (answered_mac k v s).
Proof.
  intros [H1 H2] Hv. split; cbn [answered_mac set_attempts tp_attempts tp_saves].
  - apply attempts_ok_alter; [done|]. intros a (s1 & after & E1 & E2 & E3 & E4). exists s1, (after ++ [e]).
    split; [by apply clicked_snoc|]. split; [done|]. cbn [at_tag at_tag_verified at_mac_limit_verified].
    split; [intros V; by apply tag_evidence_mono, E3|].
    intros [V|V]%orb_true_iff; [by apply mac_evidence_mono, E4|]. destruct (Hv V) as (x & t & -> & Hx).
    right. right. exists x, t. split; [apply list.elem_of_app; right; apply list_elem_of_here|done].
  - apply saves_ok_alter; [|done]. intros a. cbn. split; [done|]. by split; [|intros ->].
Qed.

Lemma inv_tag_answer es k a s : inv es s -> inv (es ++ [TagAnswer k a]) (on_tag_answer o k a s).
Proof.
  intros H. assert (N : inv (es ++ [TagAnswer k a]) (answered_tag k false s)) by (by apply inv_answered_tag).
  unfold on_tag_answer. destruct a as [text| |av ty|]; [exact N|exact N| |exact N].
  destruct (loose_eq av (VInt 1)) eqn:E; [|exact N].
  assert (Y : inv (es ++ [TagAnswer k (TResult av ty)]) (answered_tag k true s)).
  { apply inv_answered_tag; [done|]. intros _. by exists av, ty. }
  destruct (loose_eq (tp_circuit_type s) VNull); [by apply inv_save|].
  destruct (loose_eq (tp_circuit_type s) ty); [by apply inv_save|exact N].
Qed.

Lemma inv_mac_answer es k a s : inv es s -> inv (es ++ [MacAnswer k a]) (on_mac_answer k a s).
Proof.
  intros H. assert (N : inv (es ++ [MacAnswer k a]) (answered_mac k false s)) by (by apply inv_answered_mac).
  unfold on_mac_answer. destruct a as [text| |v x|]; [exact N|exact N| |exact N].
  destruct (loose_eq v (VInt 1)) eqn:E; [|exact N].
  apply inv_save, inv_answered_mac; [done|]. intros _. by exists v, x.
Qed.

Lemma digits_number t : digits1 t = true -> to_number (VStr t) = Fin (Dec (Z.of_N (dec_value t)) 0).
Proof.
  intros Ht. assert (Hd : is_digits t) by (destruct t; [done|by split]). cbn [to_number].
  pose proof (string_to_num_coordinate false t estr Hd) as E. cbn [sign_text frac_text signed] in E.
  rewrite str_app_nil_r in E. change (estr +:+ t) with t in E. by rewrite E.
Qed.

Lemma read_tag_ok s tag : read_tag s = inr tag -> tag_of_fields s tag.
Proof.
  unfold read_tag, tag_of_fields. destruct (tp_tagged s); [|by intros [= <-]].
  destruct (negb (truthy _)); [done|].
  destruct (digits1 (tp_input s)) eqn:D; [|done]. pose proof (digits_number _ D) as N.
  assert (E1 : js_le (VInt 4096) (VStr (tp_input s)) = (4096 <=? Z.of_N (dec_value (tp_input s)))%Z).
  { rewrite <-js_le_int. unfold js_le. cbn [text_operands]. by rewrite N. }
  assert (E2 : js_lt (VStr (tp_input s)) (VInt 1) = (Z.of_N (dec_value (tp_input s)) <? 1)%Z).
  { rewrite <-js_lt_int. unfold js_lt. cbn [text_operands]. by rewrite N. }
  rewrite E1, E2. cbn [negb orb]. destruct (4096 <=? _)%Z eqn:L; [done|]. destruct (_ <? 1)%Z eqn:G; [done|]. intros [= <-].
  split; [done|]. split; [by destruct (tp_input s)|]. lia.
Qed.

Lemma inv_click es s :
  panel_run o s0 es = Some s -> inv es s -> inv (es ++ [ClickSave]) (verify_and_add_endpoint o s).
Proof.
  intros Hr [H1 H2]. unfold verify_and_add_endpoint. destruct (read_tag s) as [text|tag] eqn:R.
  { split; [by apply attempts_ok_mono|done]. }
  set (a := Attempt tag (tag_skipped o tag) (mac_skipped s) _ _).
  assert (J : inv (es ++ [ClickSave]) (set_attempts (tp_attempts s ++ [a]) s)).
  { split; cbn [set_attempts tp_attempts tp_saves].
    - intros k x [L|[Hk L]]%lookup_app_Some; [by apply evidence_mono, H1|].
      apply list_lookup_singleton_Some in L as [Hz <-]. exists s, []. split; [exists es; split; [done|]; split; [done|lia]|].
      split; [by apply (read_tag_ok s)|]. cbn [a at_tag_verified at_mac_limit_verified at_tag]. split.
      + unfold tag_skipped. intros [V|V]%orb_true_iff; [by left|]. right. left. destruct (to_current o) as [t|]; [by exists t|done].
      + unfold mac_skipped. intros [V%negb_true_iff|V%Nat.eqb_eq]%orb_true_iff; [by left|]. right. left. by apply nil_length_inv.
    - intros k x Hin. destruct (H2 k x Hin) as (y & L & ?). exists y. split; [by apply lookup_app_l_Some|done]. }
  destruct (mac_skipped s), (tag_skipped o tag); try exact J. by apply inv_save.
Qed.

Lemma inv_step es s e s' :
  panel_run o s0 es = Some s -> inv es s -> panel_step o s e = Some s' -> inv (es ++ [e]) s'.
Proof.
  intros Hr H Hs.
  assert (M : inv (es ++ [e]) s) by (destruct H; split; [by apply attempts_ok_mono|done]).
  destruct e as [text|c|text|i| | |k a|k a]; unfold panel_step in Hs.
  1-5: repeat match type of Hs with (if ?b then _ else _) = _ => destruct b end;
    simplify_eq; first [exact M | destruct (is_mac _); exact M].
  - destruct (_ && _); simplify_eq. by apply inv_click.
  - destruct (tp_attempts s !! k) as [x|]; [|done]. destruct (at_tag_pending x); simplify_eq. by apply inv_tag_answer.
  - destruct (tp_attempts s !! k) as [x|]; [|done]. destruct (at_mac_pending x); simplify_eq. by apply inv_mac_answer.
Qed.
End evidence.

Lemma panel_run_snoc o s es e :
  panel_run o s (es ++ [e]) = match panel_run o s es with Some s' => panel_step o s' e | None => None end.
Proof.
  revert s. induction es as [|x es IH]; intros s; cbn [app panel_run].
  - by destruct (panel_step o s e).
  - destruct (panel_step o s x); [apply IH|done].
Qed.

(** C3 Whatever the user does and in whatever order the answers arrive, the panel
    hands over an endpoint only for a click of its own: the tag is the one its fields
    named when the button was pressed, a number from 1 to 4095 or untagged; after the
    click the server answered, to this click, that the tag is available (unless the
    panel is interdomain or the tag is the one being edited); and either the panel
    had no MAC addresses when the button was pressed, or after the click the server
    answered, to this click, that they are within the limit. *)
Theorem saves_are_verified o static_mac macs ct es s k tag :
  let s0 := new_panel o static_mac macs ct in
  panel_run o s0 es = Some s -> (k, tag) ∈ tp_saves s ->
  exists s1 after, clicked_at o s0 es k s1 after /\ tag_of_fields s1 tag /\ tag_evidence o after k tag /\ mac_evidence s1 after k.
Proof.
  intros s0 Hr Hin.
  assert (I : inv o s0 es s).
  { clear Hin. revert s Hr. induction es as [|e es IH] using rev_ind; intros s Hr.
    - injection Hr as <-. split; [by intros ? ?|]. intros ? ? Hin. by apply elem_of_nil in Hin.
    - rewrite panel_run_snoc in Hr. destruct (panel_run o s0 es) as [s1|] eqn:E; [|done].
      by apply (inv_step _ _ _ s1); [|apply IH|]. }
  destruct I as [H1 H2]. destruct (H2 k tag Hin) as (a & L & <- & V1 & V2).
  destruct (H1 k a L) as (s1 & after & E1 & E2 & E3 & E4). exists s1, after. auto.
Qed.

Definition sample_options : tag_options := TagOptions false None "xe-0/0/0" "chic" (VInt 3).

Definition sample_events : list panel_event :=
  [SetTag "120"; AddMac "AA:00:11:22:33:44"; ClickSave; MacAnswer 0 (MResult (VInt 1) VNull);
   TagAnswer 0 (TResult (VInt 1) (VStr "mpls"))].
Definition sample_final : option tag_panel :=
  Eval vm_compute in panel_run sample_options (new_panel sample_options true [] VNull) sample_events.

Lemma saves_are_verified_witness :
  exists s, panel_run sample_options (new_panel sample_options true [] VNull) sample_events = Some s /\
    tp_saves s = [(0, VStr "120")] /\ tp_next s = ["?action=primary_path"] /\ tp_open s = false /\
    exists s1 after, clicked_at sample_options (new_panel sample_options true [] VNull) sample_events 0 s1 after /\
      tag_of_fields s1 (VStr "120") /\ tag_evidence sample_options after 0 (VStr "120") /\ mac_evidence s1 after 0.
Proof.
  assert (E : panel_run sample_options (new_panel sample_options true [] VNull) sample_events = sample_final)
    by (vm_compute; reflexivity).
  unfold sample_final in E.
  match type of E with _ = Some ?x => exists x end.
  split; [exact E|]. do 3 (split; [reflexivity|]).
  refine (saves_are_verified sample_options true [] VNull sample_events _ 0 (VStr "120") E _).
  apply list_elem_of_here.
Defined.

(** With MAC addresses the panel may hand over an endpoint twice: a late refusal
    of an earlier click enables the button while a later click is validating. *)
Example double_save :
  option_map tp_saves
    (panel_run sample_options (new_panel sample_options true ["aa:00:11:22:33:44"] (VStr "mpls"))
       [SetTag "120"; ClickSave; TagAnswer 0 (TResult (VInt 0) VNull);
        SetTag "121"; ClickSave; MacAnswer 0 MFail;
        ClickSave; TagAnswer 1 (TResult (VInt 1) (VStr "mpls")); MacAnswer 1 (MResult (VInt 1) VNull);
        TagAnswer 2 (TResult (VInt 1) (VStr "mpls")); MacAnswer 2 (MResult (VInt 1) VNull)])
  = Some [(1, VStr "121"); (2, VStr "121")].
Proof. vm_compute. reflexivity. Qed.

(** ** Without MAC addresses *)

Definition idle (a : attempt) : Prop := at_tag_pending a = false.
Definition no_macs (l : list attempt) : Prop :=
  Forall (fun a => at_mac_limit_verified a = true /\ at_mac_pending a = false) l.

(** The panel rests: every answer came, and nothing was handed over while it is
    open.  Or it waits for the answer of its last click, with the button off. *)
Definition resting (s : tag_panel) : Prop :=
  Forall idle (tp_attempts s) /\ length (tp_saves s) <= 1 /\ (tp_open s = true -> tp_saves s = []).
Definition waiting (s : tag_panel) : Prop :=
  exists l a, tp_attempts s = l ++ [a] /\ Forall idle l /\ at_tag_pending a = true /\
    tp_disabled s = true /\ tp_saves s = [].
Definition single (s : tag_panel) : Prop :=
  tp_static_mac s = false /\ no_macs (tp_attempts s) /\ (resting s \/ waiting s).

(** States that agree on what [single] reads. *)
Lemma single_same s s' :
  tp_static_mac s' = tp_static_mac s -> tp_attempts s' = tp_attempts s -> tp_saves s' = tp_saves s ->
  tp_disabled s' = tp_disabled s -> (tp_open s' = true -> tp_open s = true) -> single s -> single s'.
Proof.
  unfold single, resting, waiting. intros -> -> -> -> Ho (H1 & H2 & [(R1 & R2 & R3)|W]); split_and!; auto.
  left. auto.
Qed.

Lemma no_macs_snoc l a :
  no_macs l -> at_mac_limit_verified a = true -> at_mac_pending a = false -> no_macs (l ++ [a]).
Proof. intros. apply list.Forall_app. split; [done|]. by repeat constructor. Qed.

Lemma single_click o s :
  single s -> tp_open s = true -> tp_disabled s = false -> single (verify_and_add_endpoint o s).
Proof.
  intros (H1 & H2 & H3) Ho Hd. unfold verify_and_add_endpoint.
  destruct H3 as [(R1 & R2 & R3)|(l & a & _ & _ & _ & W & _)]; [|congruence].
  destruct (read_tag s) as [text|tag]; [by split_and!; [..|left]|].
  unfold mac_skipped. rewrite H1. cbn [negb orb]. specialize (R3 Ho).
  destruct (tag_skipped o tag); cbn [negb].
  - unfold save_if_verified. cbn [set_attempts tp_attempts]. rewrite list_lookup_middle by done.
    split_and!; [done|by apply no_macs_snoc|left]. unfold resting.
    cbn [tp_attempts tp_saves tp_open set_attempts]. rewrite R3. split_and!; [|simpl; lia|done].
    apply list.Forall_app. split; [done|]. by repeat constructor.
  - split_and!; [done|by apply no_macs_snoc|right]. eexists _, _. by split_and!.
Qed.

Lemma alter_last {A} (f : A -> A) l a : alter f (length l) (l ++ [a]) = l ++ [f a].
Proof. induction l as [|x l IH]; [done|]. cbn. f_equal. exact IH. Qed.

(** The answer of the pending click ends the waiting. *)
Lemma single_answered k v l a s :
  tp_attempts s = l ++ [a] -> k = length l -> single s -> Forall idle l -> tp_saves s = [] ->
  single (answered_tag k v s) /\ resting (answered_tag k v s) /\
  tp_attempts (answered_tag k v s) !! k =
    Some (Attempt (at_tag a) (at_tag_verified a || v) (at_mac_limit_verified a) false (at_mac_pending a)).
Proof.
  intros Ha -> (H1 & H2 & _) Hl Hs. unfold answered_tag. rewrite Ha, alter_last.
  rewrite Ha in H2. apply list.Forall_app in H2 as [H2 H3]. apply list.Forall_singleton in H3 as [H3 H4].
  assert (R : resting (set_attempts (l ++ [Attempt (at_tag a) (at_tag_verified a || v)
             (at_mac_limit_verified a) false (at_mac_pending a)]) s)).
  { unfold resting. cbn [set_attempts tp_attempts tp_saves tp_open]. rewrite Hs.
    split_and!; [|simpl; lia|done]. apply list.Forall_app. split; [done|]. by repeat constructor. }
  split_and!; [|exact R|cbn [set_attempts tp_attempts]; by rewrite list_lookup_middle].
  split_and!; [done|by apply no_macs_snoc|by left].
Qed.

Lemma resting_same s s' :
  tp_static_mac s' = tp_static_mac s -> tp_attempts s' = tp_attempts s -> tp_saves s' = tp_saves s ->
  tp_open s' = tp_open s -> resting s -> single s -> single s'.
Proof.
  unfold single, resting. intros -> -> -> -> R (H1 & H2 & _). split_and!; [done|done|]. by left.
Qed.

Lemma single_save k s : single s -> resting s -> tp_saves s = [] -> single (save_if_verified k s).
Proof.
  intros Hs (R1 & R2 & R3) Hn. unfold save_if_verified. destruct (tp_attempts s !! k) as [a|]; [|done].
  destruct (at_tag_verified a && at_mac_limit_verified a); [|done].
  destruct Hs as (H1 & H2 & _). split_and!; [done|done|left]. unfold resting.
  cbn [tp_attempts tp_saves tp_open]. rewrite Hn. split_and!; [done|simpl; lia|done].
Qed.

Lemma pending_last l a k x :
  Forall idle l -> (l ++ [a]) !! k = Some x -> at_tag_pending x = true -> k = length l.
Proof.
  intros Hl [L|[Hk L]]%lookup_app_Some Hp.
  - rewrite list.Forall_lookup in Hl. specialize (Hl _ _ L). unfold idle in Hl. congruence.
  - apply list_lookup_singleton_Some in L as [Hz _]. lia.
Qed.

Lemma single_tag_answer o k a x s :
  single s -> tp_attempts s !! k = Some x -> at_tag_pending x = true -> single (on_tag_answer o k a s).
Proof.
  intros Hs L Hp. pose proof Hs as (H1 & H2 & [(R & _)|(l & y & Ha & Hl & _ & _ & Hn)]).
  { rewrite list.Forall_lookup in R. specialize (R _ _ L). unfold idle in R. congruence. }
  rewrite Ha in L. pose proof (pending_last _ _ _ _ Hl L Hp) as Hk.
  assert (A : forall v, single (answered_tag k v s) /\ resting (answered_tag k v s)).
  { intros v. destruct (single_answered k v l y s Ha Hk Hs Hl Hn) as (? & ? & _). done. }
  destruct (A false) as [N Rn], (A true) as [Y Ry]. unfold on_tag_answer.
  destruct a as [text| |av ty|]; [by apply (resting_same (answered_tag k false s))|done| |
                                  by apply (resting_same (answered_tag k false s))].
  destruct (loose_eq av (VInt 1)); [|by apply (resting_same (answered_tag k false s))].
  destruct (loose_eq (tp_circuit_type s) VNull).
  { apply single_save; [by apply (resting_same (answered_tag k true s))|exact Ry|exact Hn]. }
  destruct (loose_eq (tp_circuit_type s) ty); [by apply single_save|].
  by apply (resting_same (answered_tag k false s)).
Qed.

Lemma single_step o s e s' : single s -> panel_step o s e = Some s' -> single s'.
Proof.
  intros Hs He. destruct e as [text|c|text|i| | |k a|k a]; unfold panel_step in He.
  1-5: repeat match type of He with (if ?b then _ else _) = _ => destruct b eqn:? end; simplify_eq;
    try (destruct (is_mac _)); by apply (single_same s).
  - destruct (tp_open s) eqn:Ho, (tp_disabled s) eqn:Hd; simplify_eq/=. by apply single_click.
  - destruct (tp_attempts s !! k) as [x|] eqn:L; [|done]. destruct (at_tag_pending x) eqn:P; simplify_eq.
    by apply (single_tag_answer _ _ _ x).
  - destruct Hs as (_ & H2 & _). destruct (tp_attempts s !! k) as [x|] eqn:L; [|done].
    unfold no_macs in H2. rewrite list.Forall_lookup in H2. destruct (H2 _ _ L) as [_ P]. by rewrite P in He.
Qed.

(** Without static MAC addresses, one panel hands over at most one endpoint,
    however often the button is pressed and whenever the answers arrive. *)
Theorem at_most_one_save o macs ct es s :
  panel_run o (new_panel o false macs ct) es = Some s -> length (tp_saves s) <= 1.
Proof.
  intros Hr. assert (Hs : single (new_panel o false macs ct)).
  { split_and!; [done|constructor|left]. split_and!; [constructor|simpl; lia|done]. }
  revert Hs Hr. generalize (new_panel o false macs ct). induction es as [|e es IH]; intros s0 Hs Hr.
  - injection Hr as <-. destruct Hs as (_ & _ & [(_ & ? & _)|(l & a & _ & _ & _ & _ & ->)]); simpl; lia.
  - cbn [panel_run] in Hr. destruct (panel_step o s0 e) as [s1|] eqn:E; [|done].
    by apply (IH s1); [apply (single_step o s0 e)|].
Qed.

Lemma at_most_one_save_witness :
  exists s, panel_run sample_options (new_panel sample_options false [] (VStr "mpls"))
    [SetTag "7"; ClickSave; TagAnswer 0 TFail; ClickSave; TagAnswer 1 (TResult (VInt 1) (VStr "mpls"))] = Some s
    /\ length (tp_saves s) <= 1.
Proof.
  assert (E : is_Some (panel_run sample_options (new_panel sample_options false [] (VStr "mpls"))
    [SetTag "7"; ClickSave; TagAnswer 0 TFail; ClickSave; TagAnswer 1 (TResult (VInt 1) (VStr "mpls"))])).
  { vm_compute. eexists. reflexivity. }
  destruct E as [s E]. exists s. split; [exact E|]. exact (at_most_one_save _ _ _ _ s E).
Defined.

(** Nothing to wait for, and the button is off. *)
Definition stuck (s : tag_panel) : Prop :=
  Forall idle (tp_attempts s) /\ no_macs (tp_attempts s) /\ tp_disabled s = true /\ tp_saves s = [].

Lemma stuck_step o s e s' : stuck s -> panel_step o s e = Some s' -> stuck s'.
Proof.
  intros (H1 & H2 & H3 & H4) He. destruct e as [text|c|text|i| | |k a|k a]; unfold panel_step in He.
  1-5: repeat match type of He with (if ?b then _ else _) = _ => destruct b eqn:? end; simplify_eq;
    try (destruct (is_mac _)); by split_and!.
  - by rewrite H3, andb_false_r in He.
  - destruct (tp_attempts s !! k) as [x|] eqn:L; [|done]. rewrite list.Forall_lookup in H1.
    specialize (H1 _ _ L). unfold idle in H1. by rewrite H1 in He.
  - destruct (tp_attempts s !! k) as [x|] eqn:L; [|done]. unfold no_macs in H2.
    rewrite list.Forall_lookup in H2. destruct (H2 _ _ L) as [_ P]. by rewrite P in He.
Qed.

(** When the server answers the tag check with an error, the save button stays
    disabled: whatever the user does next, this panel never hands over an
    endpoint again. *)
Theorem tag_error_disables o ct tag text es s :
  tag <> estr -> digits1 tag = true -> js_le (VInt 4096) (VStr tag) = false ->
  js_lt (VStr tag) (VInt 1) = false -> tag_skipped o (VStr tag) = false ->
  panel_run o (new_panel o false [] ct) (SetTag tag :: ClickSave :: TagAnswer 0 (TError text) :: es) = Some s ->
  tp_saves s = [] /\ tp_disabled s = true.
Proof.
  intros Hne Hd Hle Hlt Hsk Hr.
  set (s1 := set_fields true tag [] (new_panel o false [] ct)).
  set (s2 := send (tag_url o (VStr tag))
               (set_disabled true (set_attempts [Attempt (VStr tag) false true true false] s1))).
  set (s3 := say ("Error - " +:+ text) (answered_tag 0 false s2)).
  assert (E2 : panel_step o s1 ClickSave = Some s2).
  { cbn [panel_step]. change (tp_open s1 && negb (tp_disabled s1)) with true. cbv iota.
    unfold verify_and_add_endpoint. assert (read_tag s1 = inr (VStr tag)) as ->; [|by rewrite Hsk].
    unfold read_tag. cbn [s1 set_fields tp_tagged tp_input]. rewrite Hd, Hle, Hlt. by destruct tag. }
  cbn [panel_run] in Hr. change (panel_step o (new_panel o false [] ct) (SetTag tag)) with (Some s1) in Hr.
  cbv beta iota in Hr. rewrite E2 in Hr. change (panel_step o s2 (TagAnswer 0 (TError text))) with (Some s3) in Hr.
  cbv beta iota in Hr.
  assert (Hs : stuck s3) by (unfold stuck; split_and!; repeat constructor).
  clearbody s3. clear - Hs Hr. revert s3 Hs Hr. induction es as [|e es IH]; intros s3 Hs Hr.
  - injection Hr as <-. destruct Hs as (_ & _ & ? & ?). done.
  - cbn [panel_run] in Hr. destruct (panel_step o s3 e) as [s4|] eqn:E; [|done].
    by apply (IH s4); [apply (stuck_step o s3 e)|].
Qed.

Lemma tag_error_disables_witness :
  exists s, panel_run sample_options (new_panel sample_options false [] VNull)
    [SetTag "7"; ClickSave; TagAnswer 0 (TError "busy"); SetTag "8"] = Some s /\
    tp_saves s = [] /\ tp_disabled s = true.
Proof.
  assert (E : is_Some (panel_run sample_options (new_panel sample_options false [] VNull)
    [SetTag "7"; ClickSave; TagAnswer 0 (TError "busy"); SetTag "8"])).
  { vm_compute. eexists. reflexivity. }
  destruct E as [s E]. exists s. split; [exact E|].
  apply (tag_error_disables sample_options VNull "7" "busy" [SetTag "8"] s);
    [discriminate|reflexivity|reflexivity|reflexivity|reflexivity|exact E].
Defined.
