(* ===== verification/DataSource.v ===== *)
(** * Requests through YUI data sources

    The older pages send their requests through YAHOO.util.DataSource: the
    response is read with a schema and given to a success or to a failure
    callback.  YUI itself is not part of the sources: the class [DataSource] is
    what a page sees of it, [DataSourceLaws] its documented behaviour, and the
    instance at the end shows that the laws can be met.

    The file also has what the handlers share: assignments to widgets, the value
    an attribute has after a run, and programs that leave an attribute settled
    on every path. *)

From Stdlib Require Import ZArith Lia Ascii String.
From stdpp Require Import base option list sets strings numbers tactics.
From S2P Require Import Prelude JsValue JsJson Fetch Api Checks.

(** ** Schemas and replies *)

(** [responseSchema] with [resultsList: 'results']: the fields of a row, each
    with whether it has [parser: 'number'], and the meta fields. *)
Record schema := Schema { sc_fields : list (string * bool); sc_meta : list string }.

(** Fields without a parser. *)
Definition fields (l : list string) : list (string * bool) := map (fun k => (k, false)) l.

Inductive reply :=
  | Failure
  | Success (results : list val) (meta : list (string * val)).

Class DataSource := {
  parse_number : val -> val;
  ds_reply : schema -> outcome -> reply
}.

(** The row a document element becomes. *)
Definition ds_row `{DataSource} (sc : schema) (row : list (string * val)) : val :=
  VObj (map (fun f : string * bool => (fst f, (if snd f then parse_number else id) (default VUndef (obj_get (fst f) row))))
          (sc_fields sc)).

(** The number parser gives null for a text that is not a number.  A failed connection and an error status reach the failure callback; a
    document with a list of results reaches the success callback, with one row
    for each element, in order, and the meta fields of the document. *)
Class DataSourceLaws `{DataSource} := {
  parse_number_int z : parse_number (VInt z) = VInt z;
  parse_number_text z : parse_number (VStr (string_of_Z z)) = VInt z;
  parse_number_other s : string_to_num s = NaN -> parse_number (VStr s) = VNull;
  reply_net sc : ds_reply sc ONetFail = Failure;
  reply_http sc t b : ds_reply sc (OHttp t b) = Failure;
  reply_rows sc doc rows :
    obj_get "results" doc = Some (VArr (map VObj rows)) ->
    ds_reply sc (OJson (VObj doc)) =
    Success (map (ds_row sc) rows) (map (fun k => (k, default VUndef (obj_get k doc))) (sc_meta sc))
}.

(** [resp.meta.k] *)
Definition meta_of (meta : list (string * val)) (k : string) : val := default VUndef (obj_get k meta).

(** [resp.results[0].k] *)
Definition first_of (results : list val) (k : string) : res val :=
  let? r := index (VArr results) 0 in prop r k.

(** [resp.results && resp.results[0].success == 1] *)
Definition succeeded (results : list val) : res bool :=
  let? s := first_of results "success" in Ok (loose_eq s (VInt 1)).

(** ** Programs *)

Section programs.
Context `{DataSource}.

(** [new YAHOO.util.DataSource(url)] and [sendRequest]. *)
Definition sendRequest {A} (sc : schema) (url : string) (k : reply -> io A) : io A :=
  Fetch (Req false url []) (fun o => k (ds_reply sc o)).

(** The same with [connMethodPost]: the parameters are the body. *)
Definition postRequest {A} (sc : schema) (url body : string) (k : reply -> io A) : io A :=
  Fetch (Req true url (map query_pair (split_on "&" body))) (fun o => k (ds_reply sc o)).

End programs.

(** Page actions one after the other. *)
Definition acts {A} (l : list action) (k : io A) : io A := foldr Act k l.

Definition done_ : io unit := Ret tt.

(** [alert(text); return;] *)
Definition complain (text : string) : io unit := Act (AAlert text) done_.

(** [showConfirm(question, yes, function(){})] *)
Definition showConfirm (question : string) (yes : io unit) : io unit :=
  Confirm question (fun b => if b then yes else done_).

Definition set_disabled (b : string) (v : bool) : action := ASet b "disabled" (VBool v).
Definition set_label (b text : string) : action := ASet b "label" (VStr text).
Definition set_html (id : string) (v : val) : action := ASet id "innerHTML" v.
Definition call (target method : string) : action := ACall target method [].

(** ** Attributes after a run *)

(** What an action makes of an attribute of a widget. *)
Definition attr_step (target attribute : string) (v : val) (a : action) : val :=
  match a with
  | ASet x k u => if String.eqb x target && String.eqb k attribute then u else v
  | _ => v
  end.

(** What an action makes of a table that can be disabled. *)
Definition table_step (table : string) (v : val) (a : action) : val :=
  match a with
  | ACall x m _ =>
      if String.eqb x table && String.eqb m "disable" then VBool true
      else if String.eqb x table && String.eqb m "undisable" then VBool false else v
  | _ => v
  end.

Section settle.
Context (step : val -> action -> val).

(** The value after a trace that starts with the value [v]. *)
Definition value_after (v : val) (t : list event) : val :=
  foldl (fun v e => match e with EvAct a => step v a | _ => v end) v t.

(** Every path of the program, normal or exceptional, ends with a value that
    satisfies [good]. *)
Inductive settles {A} (good : val -> Prop) : val -> io A -> Prop :=
  | settles_ret v a : good v -> settles good v (Ret a)
  | settles_raise v e : good v -> settles good v (Raise e)
  | settles_fetch v r k : (forall o, settles good v (k o)) -> settles good v (Fetch r k)
  | settles_confirm v q k : (forall b, settles good v (k b)) -> settles good v (Confirm q k)
  | settles_act v a k : settles good (step v a) k -> settles good v (Act a k).

Lemma settles_run {S A} (w : env S) good v (m : io A) s :
  settles good v m -> good (value_after v (run_trace w m s)).
Proof.
  unfold run_trace. intros H. revert s.
  induction H as [v a|v e|v r k _ IH|v q k _ IH|v a k _ IH]; intros s; simpl; try done.
  - destruct (server w s r) as [s1 o]. specialize (IH o s1). by destruct (run w (k o) s1) as [[]].
  - specialize (IH (answer w q) s). by destruct (run w (k (answer w q)) s) as [[]].
  - specialize (IH s). by destruct (run w k s) as [[]].
Qed.

Lemma settles_send `{DataSource} {A} good v sc url (k : reply -> io A) :
  (forall r, settles good v (k r)) -> settles good v (sendRequest sc url k).
Proof. intros Hk. constructor. auto. Qed.

Lemma settles_acts {A} good v l (m : io A) :
  settles good (foldl step v l) m -> settles good v (acts l m).
Proof. revert v. induction l as [|a l IH]; intros v Hm; [done|]. constructor. auto. Qed.

Lemma settles_question good v q (m : io unit) :
  good v -> settles good v m -> settles good v (showConfirm q m).
Proof. intros Hv Hm. constructor. intros []; [done|by constructor]. Qed.

Lemma settles_lift {A B} good v (r : res A) (f : A -> io B) :
  good v -> (forall a, settles good v (f a)) -> settles good v (io_bind (io_lift r) f).
Proof. intros Hv Hf. destruct r; [apply Hf|by constructor]. Qed.

End settle.

Lemma acts_run {S A} (w : env S) l (m : io A) s :
  run w (acts l m) s = (run_state w m s, map EvAct l ++ run_trace w m s, run_result w m s).
Proof.
  induction l as [|a l IH]; simpl; [apply run_eta|]. unfold acts in *. by rewrite IH.
Qed.

(** ** Programs that send nothing *)

Inductive quiet {A} : io A -> Prop :=
  | quiet_ret a : quiet (Ret a)
  | quiet_raise e : quiet (Raise e)
  | quiet_confirm q k : (forall b, quiet (k b)) -> quiet (Confirm q k)
  | quiet_act a k : quiet k -> quiet (Act a k).

Lemma quiet_requests {S A} (w : env S) (m : io A) s : quiet m -> requests (run_trace w m s) = [].
Proof.
  unfold run_trace. intros H. revert s. induction H as [a|e|q k _ IH|a k _ IH]; intros s; simpl; try done.
  - specialize (IH (answer w q) s). by destruct (run w (k (answer w q)) s) as [[]].
  - specialize (IH s). by destruct (run w k s) as [[]].
Qed.

Lemma quiet_acts {A} l (m : io A) : quiet m -> quiet (acts l m).
Proof. intros Hm. induction l; simpl; auto using @quiet. Qed.

Lemma quiet_pure {A B} (r : res A) (f : A -> io B) : (forall a, quiet (f a)) -> quiet (io_bind (io_lift r) f).
Proof. intros Hf. destruct r; simpl; auto using @quiet. Qed.

Lemma quiet_done : quiet done_.
Proof. constructor. Qed.

Lemma quiet_complain text : quiet (complain text).
Proof. repeat constructor. Qed.

(** The requests of a callback follow its request. *)
Lemma requests_send_step `{DataSource} {S A} (w : env S) sc url (k : reply -> io A) s s1 o :
  server w s (Req false url []) = (s1, o) ->
  requests (run_trace w (sendRequest sc url k) s) =
  Req false url [] :: requests (run_trace w (k (ds_reply sc o)) s1).
Proof.
  intros Hs. unfold run_trace, sendRequest. simpl. rewrite Hs. by destruct (run w _ s1) as [[]].
Qed.

(** A request whose callbacks send nothing is the only one. *)
Lemma requests_send `{DataSource} {S A} (w : env S) sc url (k : reply -> io A) s :
  (forall r, quiet (k r)) -> requests (run_trace w (sendRequest sc url k) s) = [Req false url []].
Proof.
  intros Hk. destruct (server w s (Req false url [])) as [s1 o] eqn:Hs.
  by rewrite (requests_send_step w sc url k s s1 o Hs), quiet_requests.
Qed.

Lemma requests_acts {S A} (w : env S) l (m : io A) s :
  requests (run_trace w (acts l m) s) = requests (run_trace w m s).
Proof.
  unfold run_trace at 1. rewrite acts_run. cbn [fst snd]. rewrite requests_app.
  replace (requests (map EvAct l)) with (@nil request); [done|]. by induction l.
Qed.

Lemma requests_confirm {S} (w : env S) q yes s :
  requests (run_trace w (showConfirm q yes) s) = if answer w q then requests (run_trace w yes s) else [].
Proof.
  unfold run_trace, showConfirm. simpl. destruct (answer w q); simpl; [|done].
  by destruct (run w yes s) as [[]].
Qed.

#[export] Hint Constructors quiet : oess.
#[export] Hint Resolve quiet_acts quiet_pure quiet_complain quiet_done : oess.

(** ** An instance *)

Module ListSource.

Definition number (v : val) : val :=
  match v with
  | VUndef | VNull | VStr EmptyString => VNull
  | _ => match to_number v with NaN => VNull | n => VNum n end
  end.

#[export] Instance source : DataSource := {
  parse_number := number;
  ds_reply sc o :=
    match o with
    | OJson (VObj doc) =>
        match obj_get "results" doc with
        | Some (VArr rows) =>
            Success
              (map (fun r => let row := match r with VObj row => row | _ => [] end in
                     VObj (map (fun f : string * bool => (fst f, (if snd f then number else id) (default VUndef (obj_get (fst f) row))))
                             (sc_fields sc))) rows)
              (map (fun k => (k, default VUndef (obj_get k doc))) (sc_meta sc))
        | _ => Failure
        end
    | _ => Failure
    end
}.

#[export] Instance laws : DataSourceLaws.
Proof.
  split; try done.
  - intros z. destruct (string_of_Z_head z) as (c & t & E & _).
    pose proof (string_to_num_of_Z z) as H. unfold parse_number, source, number. rewrite E in *.
    cbn [to_number]. by rewrite H.
  - intros s Hs. unfold parse_number, source, number. destruct s; [done|]. cbn [to_number]. by rewrite Hs.
  - intros sc doc rows H. cbn. rewrite H. f_equal. rewrite map_map. by apply map_ext.
Qed.

End ListSource.
