(* ===== verification/Console.v ===== *)
(** * The older administration page (js_templates/admin.js)

    The handlers of the page's tabs: configuration changes, remote devices and
    links, workgroups, the links and nodes of the network map, discovery,
    maintenance and the move of a configuration.  A handler reads its form
    fields (the arguments), checks them, asks for confirmation, sends a request
    through a data source and acts on the reply: it is a program of [Fetch]
    over the actions of the page. *)

From Stdlib Require Import ZArith Lia Ascii String.
From stdpp Require Import base option list sets strings numbers tactics.
From S2P Require Import Prelude JsValue JsJson JsRegex ValidateIP Fetch Api Checks DataSource.

Definition admin_url (method : string) : string := "../services/admin/admin.cgi?method=" +:+ method.
Definition maintenance_url (method : string) : string := "../services/admin/maintenance.cgi?method=" +:+ method.

Definition success_schema : schema := Schema (fields ["success"]) [].
Definition success_error_schema : schema := Schema (fields ["success"]) ["error"].

Section handlers.
Context `{DataSource}.

(** ** Configuration changes *)

Definition diff_schema : schema := Schema (fields ["text"]) ["error_text"].

(** The text shown for the reply of a diff. *)
Definition diff_shown (r : reply) : res val :=
  match r with
  | Failure => Ok (VStr "Failed to receive diff. Please try again later.")
  | Success results meta =>
      if truthy (meta_of meta "error_text")
      then Ok (VStr ("Failed to generate diff: " +:+ to_string (meta_of meta "error_text")))
      else
        let? text := first_of results "text" in
        if loose_eq text (VStr (String (ascii_of_nat 10) estr)) || loose_eq text (VStr estr)
        then Ok (VStr "No diff required at this time.") else Ok text
  end.

Definition load_diff (node_id : val) : io unit :=
  Act (set_html "config_diff_pre" (VStr "Loading diff..."))
    (sendRequest diff_schema (admin_url "get_diff_text&node_id=" +:+ to_string node_id)
       (fun r => pure t := diff_shown r in Act (set_html "config_diff_pre" t) done_)).

(** The approve button.  Its failure callback names a variable that does not
    exist. *)
Definition approve_diff (node_id : val) : io unit :=
  Act (set_label "approve" "Approving...")
    (postRequest (Schema [] ["error"]) "../services/admin/admin.cgi?"
       ("method=set_diff_approval&node_id=" +:+ to_string node_id +:+ "&approved=1")
       (fun r =>
          match r with
          | Failure => Raise ERef
          | Success _ meta =>
              if truthy (meta_of meta "error")
              then complain ("Error adding maintenance: " +:+ to_string (meta_of meta "error"))
              else acts [AAlert "Configuration change was approved."; call "panel" "hide"] done_
          end)).

(** The state column. *)
Definition colored (color text : string) : string :=
  "<p style=" +:+ dq +:+ "color:" +:+ color +:+ dq +:+ ">" +:+ text +:+ "</p>".

Definition state_formatter (pending_diff : val) : string :=
  if loose_eq pending_diff (VStr "2") then colored "#BA2617" "Error"
  else if loose_eq pending_diff (VStr "1") then colored "#BA7717" "Pending Approval"
  else colored "#59BA17" "OK".

(** The panel over time.  A click on a row of the table opens the panel for its
    node and requests the diff; replies arrive in any order. *)
Record config_panel := ConfigPanel {
  cp_node : option val;
  cp_shown : val;
  cp_waiting : list val
}.

Definition no_panel : config_panel := ConfigPanel None (VStr "Loading diff...") [].

Inductive config_event :=
  | RowClicked (node_id : val)
  | DiffReply (i : nat) (r : reply)
  | PanelHidden.

Definition config_step (p : config_panel) (e : config_event) : config_panel :=
  match e with
  | RowClicked node_id => ConfigPanel (Some node_id) (VStr "Loading diff...") (cp_waiting p ++ [node_id])
  | DiffReply i r =>
      if (i <? length (cp_waiting p))%nat then
        ConfigPanel (cp_node p) (match diff_shown r with Ok t => t | Err _ => cp_shown p end)
          (splice1 i (cp_waiting p))
      else p
  | PanelHidden => ConfigPanel (cp_node p) (VStr "Loading diff...") (cp_waiting p)
  end.

(** The approve button of the panel. *)
Definition config_approve (p : config_panel) : io unit :=
  match cp_node p with Some node_id => approve_diff node_id | None => done_ end.

(** ** Remote devices *)

Definition update_remote_url (node_id name : val) (new_lat new_lon : string) : string :=
  admin_url "update_remote_device&node_id=" +:+ to_string node_id
  +:+ "&name=" +:+ encodeURIComponent (to_string name)
  +:+ "&latitude=" +:+ new_lat +:+ "&longitude=" +:+ new_lon.

Definition bad_latitude : string -> bool := bad_coordinate 90.
Definition bad_longitude : string -> bool := bad_coordinate 180.
Definition latitude_message : string :=
  "You must specify a valid latitude at which this device will be visualized on the map.".
Definition longitude_message : string :=
  "You must specify a valid longitude at which this device will be visualized on the map.".

(** [table.getDataSource().sendRequest(...)] with the table's own callback: the
    table fetches its rows again. *)
Definition refill (table : string) : action := ACall table "onDataReturnInitializeTable" [].

Definition save_remote_node (node_id name : val) (new_lat new_lon : string) : io unit :=
  if bad_latitude new_lat then complain latitude_message
  else if bad_longitude new_lon then complain longitude_message
  else
    Act (set_html "remote_dev_update_status" (VStr estr))
      (sendRequest success_schema (update_remote_url node_id name new_lat new_lon)
         (fun r =>
            match r with
            | Failure => complain "Error while talking to server."
            | Success results _ =>
                pure ok := succeeded results in
                if ok then
                  acts [set_html "remote_dev_update_status" (VStr "Remote Device Update Successful.");
                        call "panel" "destroy"; refill "remote_dev_table"] done_
                else complain "Device update unsuccessful."
            end)).

(** ** Remote links *)

Definition submit_topology : io unit :=
  acts [set_disabled "resubmit_button" true; set_label "resubmit_button" "Submitting Topology..."]
    (sendRequest success_error_schema (admin_url "submit_topology")
       (fun r =>
          acts [set_disabled "resubmit_button" false; set_label "resubmit_button" "Submit Topology"]
            match r with
            | Failure => complain "Server error while submitting topology."
            | Success _ meta =>
                if truthy (meta_of meta "error")
                then complain ("Error submitting topology: " +:+ to_string (meta_of meta "error"))
                else complain "Topology has been resubmitted successfully."
            end)).

(** The text of the topology panel. *)
Definition topology_text (r : reply) : res val :=
  match r with
  | Failure => Ok (VStr "Error Fetching Topology")
  | Success results meta =>
      if negb (truthy (meta_of meta "error")) then first_of results "topo"
      else Ok (meta_of meta "error_text")
  end.

Definition view_topology : io unit :=
  sendRequest (Schema (fields ["topo"]) ["error"; "error_text"]) (admin_url "get_topology")
    (fun r => pure t := topology_text r in
       Act (ACall "view_topo_p" "setBody"
              [VStr ("<div style='overflow: scroll; height: 100%; width: 100%'><pre>" +:+ to_string t
                     +:+ "</pre></div>")]) done_).

(** The form of a remote link. *)
Record link_form := LinkForm { lf_urn : string; lf_name : string; lf_vlan_range : string }.

Definition ranges_message : string :=
  "You must specify a valid vlan range in the format " +:+ dq +:+ "1-3,5,7,8-10" +:+ dq.

(** The first complaint about the form. *)
Definition link_complaint (f : link_form) : option string :=
  if str_exists (Ascii.eqb " ") (lf_name f) then Some "URN Names can not contain spaces"
  else if bad_ranges (lf_vlan_range f) then Some ranges_message
  else if negb (truthy (VStr (lf_urn f))) then Some "You must specify a URN for this remote link."
  else if negb (truthy (VStr (lf_name f))) then Some "You must specify a name for this link."
  else None.

Definition remote_links_schema : schema :=
  Schema (("link_id", true) :: fields ["node"; "interface"; "interface_id"; "urn"; "vlan_tag_range"; "link_name"])
    ["error"].

(** What the loop over the existing links finds. *)
Record conflicts := Conflicts { alert_same : bool; name_conflict : bool; alert_message : string }.

(** The texts that differ between the panel that adds and the one that edits. *)
Record link_texts := LinkTexts { same_range : string; same_urn : string; sure : string; refused : string }.
Definition add_texts : link_texts :=
  LinkTexts "' has the same vlan_range as the link you are trying to create!<br/>"
    "' has the same urn as the link you are trying to create!<br/>"
    "Are you sure you want to create this link with duplicate information?"
    "You cannot create a link with this name: '".
Definition edit_texts : link_texts :=
  LinkTexts "' has the same vlan_range you are trying to assign to this link!<br/>"
    "' has the same urn as you are trying to assign to this link<br/>"
    "Are you sure you want to edit this link so it has duplicate information?"
    "You cannot change the link to this name: '".

(** One existing link.  The panel that adds looks for the name on the same
    interface, the panel that edits on the other interfaces. *)
Definition check_link (edit : bool) (t : link_texts) (f : link_form) (interface_id : val)
    (c : conflicts) (row : val) : res conflicts :=
  let? range := prop row "vlan_tag_range" in
  let? intf := prop row "interface_id" in
  let? urn := prop row "urn" in
  let? name := prop row "link_name" in
  let here := loose_eq intf interface_id in
  let c1 := if loose_eq range (VStr (lf_vlan_range f)) && here
            then Conflicts true (name_conflict c) (alert_message c +:+ "Link '" +:+ lf_name f +:+ same_range t)
            else c in
  let c2 := if loose_eq urn (VStr (lf_urn f)) && here
            then Conflicts true (name_conflict c1) (alert_message c1 +:+ "Link '" +:+ lf_name f +:+ same_urn t)
            else c1 in
  Ok (if loose_eq name (VStr (lf_name f)) && (if edit then negb here else here)
      then Conflicts (alert_same c2) true (alert_message c2) else c2).

(** [add_the_link] and [edit_the_link]. *)
Definition add_link_url (interface_id : val) (f : link_form) : string :=
  admin_url "add_remote_link&interface_id=" +:+ to_string interface_id
  +:+ "&urn=" +:+ encodeURIComponent (lf_urn f) +:+ "&name=" +:+ encodeURIComponent (lf_name f)
  +:+ "&vlan_tag_range=" +:+ encodeURIComponent (lf_vlan_range f).

Definition edit_link_url (link_id : val) (f : link_form) : string :=
  admin_url "edit_remote_link&link_id=" +:+ encodeURIComponent (to_string link_id)
  +:+ "&urn=" +:+ encodeURIComponent (lf_urn f) +:+ "&name=" +:+ encodeURIComponent (lf_name f)
  +:+ "&vlan_tag_range=" +:+ encodeURIComponent (lf_vlan_range f).

Definition write_link (edit : bool) (status url : string) : io unit :=
  let label := if edit then "Update" else "Add" in
  acts [set_disabled "save_button" true;
        set_label "save_button" (if edit then "Updating Remote URN..." else "Adding Remote URN...");
        set_html status (VStr estr)]
    (sendRequest success_error_schema url
       (fun r =>
          acts [set_label "save_button" label; set_disabled "save_button" false]
            match r with
            | Failure => complain (if edit then "Server error while updating remote link."
                                   else "Server error while adding remote link.")
            | Success _ meta =>
                if truthy (meta_of meta "error")
                then Act (set_html status (VStr ("Error: " +:+ to_string (meta_of meta "error")))) done_
                else
                  acts (set_html status (VStr "Remote URN saved successfully.")
                        :: (if edit then [refill "remote_link_table"; call "urn_panel" "destroy"]
                            else [call "urn_panel" "destroy"; refill "remote_link_table";
                                  call "remote_link_table" "reload"])) done_
            end)).

(** The save button of both panels, after the checks. *)
Definition save_link (edit : bool) (interface_name interface_id : val) (f : link_form)
    (status url : string) : io unit :=
  let t := if edit then edit_texts else add_texts in
  let label := if edit then "Update" else "Add" in
  match link_complaint f with
  | Some text => complain text
  | None =>
      sendRequest remote_links_schema (admin_url "get_remote_links")
        (fun r =>
           acts [set_label "save_button" label; set_disabled "save_button" false]
             match r with
             | Failure => complain "Server error while checking for remote link conflicts."
             | Success results meta =>
                 if truthy (meta_of meta "error") then done_
                 else
                   pure c := res_fold (check_link edit t f interface_id)
                     (Conflicts false false
                        ("Warning! Duplicate remote link information found on interface "
                         +:+ to_string interface_name +:+ "!<br/><br/>")) results in
                   if name_conflict c
                   then complain (refused t +:+ lf_name f +:+ "' <br/>Duplicate name found.")
                   else if alert_same c
                   then showConfirm (alert_message c +:+ sure t) (write_link edit status url)
                   else write_link edit status url
             end)
  end.

Definition save_new_link (interface_name interface_id : val) (f : link_form) : io unit :=
  save_link false interface_name interface_id f "add_remote_status" (add_link_url interface_id f).

Definition save_edited_link (link_id interface_name interface_id : val) (f : link_form) : io unit :=
  save_link true interface_name interface_id f "remote_update_status" (edit_link_url link_id f).

Definition removeRemoteLink (link_id : val) : io unit :=
  acts [set_label "button" "Removing.."; set_disabled "button" true]
    (sendRequest success_error_schema (admin_url "remove_remote_link&link_id=" +:+ to_string link_id)
       (fun r =>
          match r with
          | Failure =>
              acts [set_label "button" "Remove"; set_disabled "button" false;
                    AAlert "Server error while removing remote link."] done_
          | Success _ meta =>
              acts [set_label "button" "Removing.."; set_disabled "button" true]
                (if truthy (meta_of meta "error")
                 then complain ("Error while removing link: " +:+ to_string (meta_of meta "error"))
                 else Act (refill "remote_link_table") done_)
          end)).

(** ** Workgroups *)

(** The characters [encodeURI] leaves as they are besides the unreserved ones. *)
Definition uri_reserved (c : ascii) : bool :=
  existsb (Ascii.eqb c) [";"; "/"; "?"; ":"; "@"; "&"; "="; "+"; "$"; ","; "#"]%char.

Fixpoint encodeURI (s : string) : string :=
  match s with
  | EmptyString => estr
  | String c s' =>
      (if uri_unreserved c || uri_reserved c then String c estr else percent_encode c) +:+ encodeURI s'
  end.

Definition edit_workgroup_url (workgroup_id : val) (name external max_circuits : string) : string :=
  admin_url "edit_workgroup&workgroup_id=" +:+ to_string workgroup_id
  +:+ "&name=" +:+ encodeURI name +:+ "&max_circuits=" +:+ max_circuits
  +:+ (if negb (loose_eq (VStr external) (VStr estr)) then "&external_id=" +:+ encodeURI external else estr).

(** The reply is ignored. *)
Definition submit_edit_workgroup (workgroup_id : val) (name external max_circuits : string) : io unit :=
  if no_number max_circuits then complain "Circuits limit must be an integer"
  else
    sendRequest (Schema (fields ["success"; "error"]) [])
      (edit_workgroup_url workgroup_id name external max_circuits)
      (fun _ => Act (call "wg_details_panel" "hide") done_).

(** The remove column of a table: confirmation, request, removal of the row. *)
Definition remove_row (table question url error_prefix failure : string) (target : val) : io unit :=
  showConfirm question
    (Act (call table "disable")
       (sendRequest success_error_schema url
          (fun r =>
             Act (call table "undisable")
               match r with
               | Failure => complain failure
               | Success _ meta =>
                   if truthy (meta_of meta "error")
                   then complain (error_prefix +:+ to_string (meta_of meta "error"))
                   else Act (ACall table "deleteRow" [target]) done_
               end))).

Definition remove_user_url (user_id workgroup_id : val) : string :=
  admin_url "remove_user_from_workgroup&user_id=" +:+ to_string user_id
  +:+ "&workgroup_id=" +:+ to_string workgroup_id.

(** Only a click on the column labelled Remove does something. *)
Definition user_cell_clicked (workgroup_id : val) (label : string) (rec target : val) : io unit :=
  pure user_id := prop rec "user_id" in
  pure first := prop rec "first_name" in
  pure last := prop rec "last_name" in
  if negb (String.eqb label "Remove") then done_
  else
    remove_row "workgroup_user_table"
      ("Are you sure you wish to remove user " +:+ dq +:+ to_string first +:+ " " +:+ to_string last +:+ dq +:+ "?")
      (remove_user_url user_id workgroup_id) "Error removing user: " "Server error while removing user." target.

Definition interface_cell_clicked (label : string) (rec target : val) : io unit :=
  pure interface_id := prop rec "interface_id" in
  pure int_name := prop rec "interface_name" in
  pure node_name := prop rec "node_name" in
  if negb (String.eqb label "Remove") then done_
  else
    remove_row "owned_interfaces_table"
      ("Removing the interface will remove all acl rules the workgroup has associated with it. Are you sure you wish to remove interface "
       +:+ dq +:+ to_string int_name +:+ dq +:+ " on endpoint " +:+ dq +:+ to_string node_name +:+ dq +:+ "?")
      (admin_url "update_interface_owner&interface_id=" +:+ to_string interface_id)
      "Error removing ACL: " "Server error while removing ACL." target.

(** The table of a user's workgroups removes in the same way. *)
Definition user_workgroup_clicked (user_id first_name family_name : val) (label : string)
    (rec target : val) : io unit :=
  pure workgroup := prop rec "name" in
  pure workgroup_id := prop rec "workgroup_id" in
  if negb (String.eqb label "Remove") then done_
  else
    remove_row "table"
      ("Are you sure you wish to remove user " +:+ to_string first_name +:+ " " +:+ to_string family_name
       +:+ " from workgroup " +:+ to_string workgroup +:+ "?")
      (remove_user_url user_id workgroup_id) "Error removing user: " "Server error while removing user." target.

Definition add_member_url (workgroup_id user_id : val) : string :=
  admin_url "add_user_to_workgroup&workgroup_id=" +:+ to_string workgroup_id
  +:+ "&user_id=" +:+ to_string user_id +:+ "&role=normal".

(** The request of both panels that add a member. *)
Definition add_member (table target_table : string) (workgroup_id user_id row : val) : io unit :=
  sendRequest success_error_schema (add_member_url workgroup_id user_id)
    (fun r =>
       Act (call table "undisable")
         match r with
         | Failure => Act (set_html "add_result" (VStr "Server error while adding user to workgroup.")) done_
         | Success _ meta =>
             if truthy (meta_of meta "error")
             then Act (set_html "add_result"
                         (VStr ("Error while adding user: " +:+ to_string (meta_of meta "error")))) done_
             else acts [set_html "add_result" (VStr "User added successfully.");
                        ACall target_table "addRow" [row]] done_
         end).

(** The row added for a user. *)
Definition added_user (user_id first last : val) : val :=
  VObj [("user_id", user_id); ("first_name", first); ("family_name", last)].

Definition user_row_clicked (workgroup_id rec : val) : io unit :=
  acts [call "user_table" "disable"; set_html "add_result" (VStr estr)]
    (pure user_id := prop rec "user_id" in
     pure first := prop rec "first_name" in
     pure last := prop rec "family_name" in
     add_member "user_table" "workgroup_user_table" workgroup_id user_id (added_user user_id first last)).

(** The name column of the members. *)
Definition member_name (rec : val) : res string :=
  let? first := prop rec "first_name" in
  let? last := prop rec "last_name" in
  Ok (to_string first +:+ " " +:+ to_string last).

(** A workgroup picked for a user: for a user that does not exist yet it is
    only remembered (in [add_new_user_to_workgroup]). *)
Definition workgroup_row_clicked (user_id rec : val) : io unit :=
  acts [call "my_wg_table" "disable"; set_html "add_result" (VStr estr)]
    (pure workgroup_id := prop rec "workgroup_id" in
     pure name := prop rec "name" in
     if negb (truthy user_id)
     then acts [ASet "window" "add_new_user_to_workgroup" workgroup_id;
                set_html "add_result"
                  (VStr "Workgroup request received. User will be added to workgroup when user is created.")] done_
     else add_member "my_wg_table" "table" workgroup_id user_id (VObj [("name", name)])).

(** An interface picked for a workgroup: the owner is asked for first. *)
Definition update_interface_owner (workgroup_id interface_id : val) : io unit :=
  Act (call "table" "disable")
    (sendRequest success_error_schema
       (admin_url "update_interface_owner&workgroup_id=" +:+ to_string workgroup_id
        +:+ "&interface_id=" +:+ to_string interface_id)
       (fun r =>
          Act (call "table" "undisable")
            match r with
            | Failure => Act (set_html "add_int_status" (VStr "Server error while adding new edge interface.")) done_
            | Success _ meta =>
                if truthy (meta_of meta "error")
                then Act (set_html "add_int_status"
                            (VStr ("Error adding interface: " +:+ to_string (meta_of meta "error")))) done_
                else acts [set_html "add_int_status" (VStr "Interface added successfully.");
                           refill "owned_interfaces_table"] done_
            end)).

Definition interface_row_clicked (workgroup_id rec : val) : io unit :=
  Act (set_html "add_int_status" (VStr estr))
    (pure interface_id := prop rec "interface_id" in
     sendRequest (Schema (fields ["workgroup_name"]) ["error"])
       ("../services/data.cgi?method=get_interface&interface_id=" +:+ to_string interface_id)
       (fun r =>
          match r with
          | Failure => Raise (EVal (VStr "Error fetching interface"))
          | Success results _ =>
              pure owner := first_of results "workgroup_name" in
              if truthy owner
              then showConfirm
                     ("This interface is already owned by workgroup, " +:+ to_string owner
                      +:+ ". Changing the workgroup will removed all of the acl rules that " +:+ to_string owner
                      +:+ " has associated to it. Are you sure you want to change the owner?")
                     (update_interface_owner workgroup_id interface_id)
              else update_interface_owner workgroup_id interface_id
          end)).

(** The interfaces offered: those of trunks only to an admin workgroup. *)
Definition node_interfaces_url (node : string) (workgroup_type : val) : string :=
  "../services/data.cgi?method=get_node_interfaces&node=" +:+ encodeURIComponent node +:+ "&show_down=1"
  +:+ (if strict_eq workgroup_type (VStr "admin") then "&show_trunk=1" else estr).

Definition add_workgroup_url (name external_id type : string) : string :=
  admin_url "add_workgroup&name=" +:+ encodeURIComponent name
  +:+ "&external_id=" +:+ encodeURIComponent external_id +:+ "&type=" +:+ encodeURIComponent type.

Definition submit_new_workgroup (name external_id type : string) : io unit :=
  if negb (truthy (VStr name)) then complain "You must specify a workgroup name."
  else if (20 <? js_length name)%nat then complain "Workgroup name must be fewer than 20 characters."
  else
    acts [set_label "submit_button" "Creating workgroup..."; set_disabled "submit_button" true;
          set_html "workgroup_status" (VStr estr)]
      (sendRequest success_error_schema (add_workgroup_url name external_id type)
         (fun r =>
            match r with
            | Failure =>
                acts [set_label "submit_button" "Add Workgroup"; set_disabled "submit_button" false;
                      AAlert "Server error while creating workgroup."] done_
            | Success _ meta =>
                if truthy (meta_of meta "error")
                then complain ("Error creating workgroup: " +:+ to_string (meta_of meta "error"))
                else acts [set_html "workgroup_status" (VStr "Workgroup created successfully.");
                           call "new_workgroup_panel" "destroy"; call "window" "setup_workgroup_tab"] done_
            end)).

(** ** Links of the network map *)

(** What the panels do when a change succeeded. *)
Definition close_panel (status : string) : list action :=
  [call "map" "reinitialize"; call "panel" "destroy";
   set_html "active_network_update_status" (VStr status)].

(** The empty function meant for the answer no is passed to [sendRequest], so
    that this answer calls [undefined]. *)
Definition do_node_insert (link_id : val) : io unit :=
  Confirm "This link has active circuits.  However there is a node in the middle of the path.  Would you like to automatically approve the new links and migrate all existing circuits onto the new paths?"
    (fun yes => if negb yes then Raise EType else
     acts [set_disabled "save_button" true; set_disabled "delete_button" true;
           set_label "delete_button" "Migrating circuits..."]
       (sendRequest success_schema (admin_url "insert_node_in_path&link_id=" +:+ to_string link_id)
          (fun r =>
             match r with
             | Failure => complain "error while communicating with server"
             | Success results _ =>
                 acts [set_disabled "delete_button" false; set_label "delete_button" "Decomission Link";
                       set_disabled "save_button" false]
                   (pure ok := succeeded results in
                    if ok then acts (close_panel "Link successfully decomissioned.") done_
                    else complain "Error while migrating circuits")
             end))).

Definition do_decom_link (link_id : val) : io unit :=
  showConfirm "Decomissioning this link will remove it. Are you sure you wish to continue?"
    (sendRequest success_schema (admin_url "decom_link&link_id=" +:+ to_string link_id)
       (fun r =>
          match r with
          | Failure =>
              acts [set_disabled "save_button" false; set_disabled "delete_button" false;
                    set_label "delete_button" "Decomission Link"; AAlert "Error while talking to server."] done_
          | Success results _ =>
              acts [set_disabled "delete_button" false; set_label "delete_button" "Decomission Link";
                    set_disabled "save_button" false]
                (pure ok := succeeded results in
                 if ok then acts (close_panel "Link successfully decomissioned.") done_
                 else complain "Link decomission unsuccessful.")
          end)).

(** A metric that is zero or empty is sent as one. *)
Definition metric_of (new_metric : string) : val :=
  if loose_eq (VStr new_metric) (VInt 0) then VInt 1 else VStr new_metric.

Definition update_link_url (link_id : val) (new_name new_metric : string) : string :=
  admin_url "update_link&link_id=" +:+ to_string link_id +:+ "&name=" +:+ encodeURIComponent new_name
  +:+ (let m := metric_of new_metric in
       if truthy m then "&metric=" +:+ encodeURIComponent (to_string m) else estr).

Definition save_active_link (link_id : val) (new_name new_metric : string) : io unit :=
  if negb (truthy (VStr new_name)) then complain "You must specify a name for this link."
  else
    acts [set_disabled "delete_button" true; set_disabled "save_button" true;
          set_label "save_button" "Updating Link..."]
      (sendRequest success_schema (update_link_url link_id new_name new_metric)
         (fun r =>
            acts [set_disabled "delete_button" false; set_disabled "save_button" false;
                  set_label "save_button" "Update Link"]
              match r with
              | Failure => complain "Error while talking to server."
              | Success results _ =>
                  pure ok := succeeded results in
                  if ok then acts (close_panel "Link successfully updated.") done_
                  else complain "Link update unsuccessful."
              end)).

(** A link with circuits is removed only by migrating them. *)
Definition delete_active_link (link_id : val) : io unit :=
  sendRequest (Schema (fields ["success"; "active_circuits"; "new_node_in_path"]) [])
    (admin_url "is_ok_to_decom_link&link_id=" +:+ to_string link_id)
    (fun r =>
       match r with
       | Failure => done_
       | Success results _ =>
           pure circuits := first_of results "active_circuits" in
           pure n := prop circuits "length" in
           if js_le n (VInt 0) then do_decom_link link_id
           else
             pure inserted := first_of results "new_node_in_path" in
             if loose_eq inserted (VInt 0)
             then complain "You can not decomission this link, there are active paths riding on it!"
             else do_node_insert link_id
       end).

Definition link_maint_question : string :=
  "Putting the link into maintenance state will cause all circuits with an alternate path to change to that alternate path, causing a small forwarding disruption.  Circuits without an alternate path will continue to forward on this path while the link is up.  No restore to primary events will occur until the link is up and the maintenance has been completed. Are you sure you want to do this?".

Definition maint_link (link_id : val) : io unit :=
  showConfirm link_maint_question
    (Act (set_disabled "maint_button" true)
       (sendRequest (Schema (fields ["maintenance_id"]) []) (maintenance_url "start_link&link_id=" +:+ to_string link_id)
          (fun r =>
             match r with
             | Failure =>
                 acts [set_disabled "save_button" false; set_disabled "delete_button" false;
                       set_label "delete_button" "Put Link in Maintenance";
                       AAlert "Error while talking to server."] done_
             | Success results _ =>
                 acts [set_disabled "maint_button" false; set_label "maint_button" "Put Link in Maintenance"]
                   (pure m := first_of results "maintenance_id" in
                    if truthy m
                    then acts (close_panel "Link successfully put into maintenance."
                               ++ [call "window" "setup_maintenance_tab"]) done_
                    else complain "Link maintenance unsuccessful.")
             end))).

(** ** Datapath identifiers (js_utilities/misc_funcs.js) *)

(** [.match(/.{1,2}/g)] on a text without line breaks. *)
Fixpoint pairs (s : string) : list string :=
  match s with
  | String a (String b r) => String a (String b estr) :: pairs r
  | String a EmptyString => [String a estr]
  | EmptyString => []
  end.

(** [n.toString(16)] *)
Fixpoint hex_digits (fuel : nat) (n : N) (acc : string) : string :=
  match fuel with
  | O => acc
  | S fuel' =>
      let acc' := String (hex_char (n mod 16)) acc in
      if (n / 16 =? 0)%N then acc' else hex_digits fuel' (n / 16)%N acc'
  end.
Definition hex_text (n : N) : string := hex_digits (S (N.size_nat n)) n estr.

(** Numbers are printed in base 16; a text with a hexadecimal digit stays as it
    is, any other text reads as NaN. *)
Definition convert_dpid_to_hex (dpid : string + N) : string :=
  str_join ":" (pairs
    match dpid with
    | inl s => if str_exists is_hex s then s else "NaN"
    | inr n => hex_text n
    end).

(** The whole function: a missing identifier raises, and so does a value whose text is
    empty.  Numbers are integers. *)
Definition dpid_string (v : val) : res string :=
  match v with
  | VUndef | VNull => Err EType
  | VStr s => Ok (convert_dpid_to_hex (inl s))
  | VNum (Fin (Dec (Zneg p) 0)) => Ok (str_join ":" (pairs ("-" +:+ hex_text (Npos p))))
  | VNum (Fin (Dec z 0)) => Ok (convert_dpid_to_hex (inr (Z.to_N z)))
  | _ => match pairs (to_string v) with [] => Err EType | ps => Ok (str_join ":" ps) end
  end.

(** ** Nodes of the network map *)

(** The fields of the node panel. *)
Record node_form := NodeForm {
  nf_name : string; nf_lat : string; nf_lon : string; nf_vlan_range : string;
  nf_openflow : string; nf_mpls : bool;
  nf_mgmt_addr : string; nf_tcp_port : string; nf_vendor : string; nf_model : string;
  nf_sw_version : string; nf_controller : string; nf_short_name : string;
  nf_default_drop : bool; nf_default_forward : bool; nf_max_flows : string;
  nf_tx_delay_ms : string; nf_barrier_bulk : bool; nf_max_static_mac_flows : string; nf_dpid : string
}.

(** Assigning to the value of an input: null is the empty text. *)
Definition input_text (v : val) : string := match v with VNull => estr | _ => to_string v end.

(** Assigning to the value of the list of controllers: no entry, no value. *)
Definition controller_value (v : val) : string :=
  let t := to_string v in if String.eqb t "netconf" || String.eqb t "nso" then t else estr.

Definition zero_or_null (v : val) : bool := loose_eq v (VInt 0) || loose_eq v VNull.

(** The panel opened for a node of the map: the fields of the MPLS configuration keep
    their initial values when MPLS is off, and a node without a datapath identifier
    raises before the panel is made. *)
Definition open_node (args : val) : res node_form :=
  let get k := prop args k in
  let? name := get "name" in let? lat := get "lat" in let? lon := get "lon" in
  let? range := get "vlan_range" in let? max_flows := get "max_flows" in
  let? short_name := get "short_name" in let? delay := get "tx_delay_ms" in
  let? drop := get "default_drop" in let? forward := get "default_forward" in
  let? bulk := get "barrier_bulk" in let? macs := get "max_static_mac_flows" in
  let? dpid := get "dpid" in let? dpid := dpid_string dpid in
  let? openflow := get "openflow" in let? mpls := get "mpls" in
  let? addr := get "mgmt_addr" in let? port := get "tcp_port" in let? vendor := get "vendor" in
  let? model := get "model" in let? version := get "sw_version" in let? controller := get "controller" in
  let on := negb (zero_or_null mpls) in
  let field v := if on then input_text v else estr in
  Ok (NodeForm (input_text name) (input_text lat) (input_text lon) (input_text range)
        (if zero_or_null openflow then "false" else "true") on
        (field addr) (field port) (field vendor) (field model) (field version)
        (if on then controller_value controller else "netconf") (input_text short_name)
        (negb (loose_eq drop (VInt 0))) (negb (loose_eq forward (VInt 0))) (input_text max_flows)
        (input_text delay) (negb (loose_eq bulk (VInt 0))) (input_text macs) dpid).

Definition node_complaint (f : node_form) : option string :=
  if negb (truthy (VStr (nf_name f))) then Some "You must specify a name for this device."
  else if bad_latitude (nf_lat f) then Some latitude_message
  else if bad_longitude (nf_lon f) then Some longitude_message
  else if negb (truthy (VStr (nf_max_static_mac_flows f))) || no_number (nf_max_static_mac_flows f)
  then Some "The max mac rules limit must be an integer."
  else if bad_ranges (nf_vlan_range f) then Some ranges_message
  else None.

Definition bool_text (b : bool) : string := if b then "true" else "false".

Definition node_args (node_id : val) (f : node_form) : string :=
  let e := encodeURIComponent in
  "&node_id=" +:+ to_string node_id +:+ "&name=" +:+ e (nf_name f)
  +:+ "&latitude=" +:+ nf_lat f +:+ "&longitude=" +:+ nf_lon f
  +:+ "&vlan_range=" +:+ e (nf_vlan_range f)
  +:+ "&mpls=" +:+ e (bool_text (nf_mpls f)) +:+ "&openflow=" +:+ e (nf_openflow f)
  +:+ (if nf_mpls f then
         "&mgmt_addr=" +:+ e (nf_mgmt_addr f) +:+ "&tcp_port=" +:+ e (nf_tcp_port f)
         +:+ "&vendor=" +:+ e (nf_vendor f) +:+ "&model=" +:+ e (nf_model f)
         +:+ "&sw_version=" +:+ e (nf_sw_version f) +:+ "&controller=" +:+ e (nf_controller f)
         +:+ "&short_name=" +:+ e (nf_short_name f)
       else estr)
  +:+ (if truthy (VStr (nf_openflow f)) then
         "&default_drop=" +:+ e (bool_text (nf_default_drop f))
         +:+ "&default_forward=" +:+ e (bool_text (nf_default_forward f))
         +:+ "&max_flows=" +:+ e (nf_max_flows f) +:+ "&tx_delay_ms=" +:+ e (nf_tx_delay_ms f)
         +:+ "&bulk_barrier=" +:+ e (bool_text (nf_barrier_bulk f))
         +:+ "&max_static_mac_flows=" +:+ e (nf_max_static_mac_flows f)
       else estr).

Definition save_active_node (node_id : val) (f : node_form) : io unit :=
  showConfirm "The new values will take effect immediately.Are you sure you want to update the device?"
    match node_complaint f with
    | Some text => complain text
    | None =>
        acts [set_disabled "delete_button" true; set_disabled "save_button" true;
              set_label "save_button" "Updating Device..."]
          (sendRequest success_schema (admin_url "update_node" +:+ node_args node_id f)
             (fun r =>
                acts [set_disabled "delete_button" false; set_disabled "save_button" false;
                      set_label "save_button" "Update Device"]
                  match r with
                  | Failure => complain "Error while talking to server."
                  | Success results _ =>
                      pure ok := succeeded results in
                      if ok then acts (close_panel "Device successfully updated.") done_
                      else complain "Device update unsuccessful."
                  end))
    end.

Definition decom_node_question : string :=
  "Decomissioning this device will remove it and all links going to it. This will not impact existing circuits going across it presently, but you will not be able to add any more circuits that traverse this device. Are you sure you wish to continue?".

Definition delete_active_node (node_id : val) : io unit :=
  showConfirm decom_node_question
    (acts [set_disabled "save_button" true; set_disabled "delete_button" true;
           set_label "delete_button" "Decomissioning Device..."]
       (sendRequest success_schema (admin_url "decom_node&node_id=" +:+ to_string node_id)
          (fun r =>
             match r with
             | Failure =>
                 acts [set_disabled "save_button" false; set_disabled "delete_button" false;
                       set_label "delete_button" "Decomission Device"; AAlert "Error while talking to server."] done_
             | Success results _ =>
                 acts [set_disabled "delete_button" false; set_label "delete_button" "Decomission Device";
                       set_disabled "save_button" false]
                   (pure ok := succeeded results in
                    if ok then acts (close_panel "Device successfully decomissioned.") done_
                    else complain "Device decomission unsuccessful.")
             end))).

Definition node_maint_question : string :=
  "Putting the node into maintenance will have the links it is connected to have their associated circuits change to that alternative path, causing a small forwarding disruption. Circuits without an alternate path will continue to forward on this path while the link is up. No restore to primary events will occur until the link is up and the maintenance has been completed. Are you sure you want to do this?".

(** The text of a maintenance error: the first of the two that is a string. *)
Definition maint_error_text (meta : list (string * val)) : string :=
  match meta_of meta "error_text", meta_of meta "error" with
  | VStr t, _ => t
  | _, VStr t => t
  | _, _ => "Error putting device into maintenance."
  end.

Definition maint_node (node_id : val) : io unit :=
  showConfirm node_maint_question
    (sendRequest (Schema (fields ["maintenance_id"]) ["error"; "error_text"])
       (maintenance_url "start_node&node_id=" +:+ to_string node_id)
       (fun r =>
          match r with
          | Failure =>
              acts [set_disabled "save_button" false; call "window" "setup_maintenance_tab";
                    set_disabled "delete_button" false;
                    set_label "delete_button" "Put Device in Maintenance";
                    AAlert "Error while talking to server."] done_
          | Success results meta =>
              acts [set_disabled "maint_button" false; set_label "maint_button" "Put Device in Maintenance";
                    set_disabled "save_button" false]
                (if truthy (meta_of meta "error") then complain (maint_error_text meta)
                 else
                   pure m := first_of results "maintenance_id" in
                   if truthy m
                   then acts (close_panel "Device successfully put into maintenance."
                              ++ [call "window" "setup_maintenance_tab"]) done_
                   else complain "Device maintenance unsuccessful.")
          end)).

(** ** Discovery *)

(** The form of a new switch.  A field that is disabled reads as null. *)
Record switch_form := SwitchForm {
  sf_name : string; sf_short_name : string; sf_lat : string; sf_lon : string;
  sf_ip : string; sf_port : string; sf_controller : string;
  sf_vendor : option string; sf_model : option string; sf_sw_ver : option string
}.

(** The change of the controller list enables or disables the three fields. *)
Definition set_controller (controller : string) (vendor model sw_ver : string) (f : switch_form) : switch_form :=
  let v x := if String.eqb controller "netconf" then Some x else None in
  SwitchForm (sf_name f) (sf_short_name f) (sf_lat f) (sf_lon f) (sf_ip f) (sf_port f) controller
    (v vendor) (v model) (v sw_ver).

Definition is_blank (o : option string) : bool := match o with Some EmptyString => true | _ => false end.

Definition switch_complaint (f : switch_form) : option string :=
  if negb (truthy (VStr (sf_name f))) then Some "You must specify a name for this device."
  else if negb (truthy (VStr (sf_ip f))) || negb (truthy (VStr (sf_port f)))
  then Some "You must specify and IP, SSH port, and password"
  else if negb (re_match IPv4 (sf_ip f)) then Some "You must specify a valid IPv4 Address."
  else if bad_name (sf_name f) then Some "You may not have spaces or colons in the name."
  else if bad_latitude (sf_lat f) then Some latitude_message
  else if bad_longitude (sf_lon f) then Some longitude_message
  else if String.eqb (sf_controller f) "netconf"
          && (is_blank (sf_vendor f) || is_blank (sf_model f) || is_blank (sf_sw_ver f))
  then Some "Hardware vendor, model, and software version are required for NETCONF controlled devices."
  else None.

Definition optional_arg (k : string) (o : option string) : string :=
  match o with
  | Some (String _ _ as v) => "&" +:+ k +:+ "=" +:+ encodeURIComponent v
  | _ => estr
  end.

Definition add_switch_url (f : switch_form) : string :=
  let e := encodeURIComponent in
  admin_url "add_mpls_switch" +:+ "&name=" +:+ e (sf_name f) +:+ "&short_name=" +:+ e (sf_short_name f)
  +:+ "&latitude=" +:+ e (sf_lat f) +:+ "&longitude=" +:+ e (sf_lon f) +:+ "&ip_address=" +:+ e (sf_ip f)
  +:+ "&port=" +:+ e (sf_port f) +:+ "&controller=" +:+ e (sf_controller f)
  +:+ optional_arg "vendor" (sf_vendor f) +:+ optional_arg "model" (sf_model f)
  +:+ optional_arg "sw_ver" (sf_sw_ver f).

Definition add_switch (f : switch_form) : io unit :=
  match switch_complaint f with
  | Some text => complain text
  | None =>
      acts [set_disabled "add_button" true; set_label "add_button" "Adding device...."]
        (sendRequest (Schema (fields ["success"]) ["error"; "error_text"]) (add_switch_url f)
           (fun r =>
              match r with
              | Failure =>
                  acts [set_disabled "add_button" false; set_label "add_button" "Add MPLS Device";
                        AAlert "Server error while adding MPLS device"] done_
              | Success _ meta =>
                  if truthy (meta_of meta "error") then
                    acts [AAlert ("Error creating Switch: " +:+ to_string (meta_of meta "error_text"));
                          set_disabled "add_button" false; set_label "add_button" "Add Switch"] done_
                  else
                    acts [set_disabled "add_button" false; set_label "add_button" "Add MPLS Device";
                          call "new_mpls_switch_details_panel" "hide"; call "window" "setup_network_tab"] done_
              end))
  end.

(** The form of a discovered node. *)
Record pending_form := PendingForm {
  pf_name : string; pf_lat : string; pf_lon : string; pf_range : string;
  pf_default_drop : bool; pf_default_forward : bool; pf_max_flows : string;
  pf_tx_delay_ms : string; pf_bulk_barrier : bool
}.

(** The panel opened for a record.  Of the numeric fields the check mark is set,
    not the value; the record has no other fields than the six of its table. *)
Definition open_pending (rec : val) : res pending_form :=
  let text k := let? v := prop rec k in Ok (if truthy v then input_text v else estr) in
  let? name := text "name" in let? lat := text "latitude" in
  let? lon := text "longitude" in let? range := text "vlan_range" in
  Ok (PendingForm name lat lon range true true estr estr true).

Definition pending_complaint (f : pending_form) : option string :=
  if negb (truthy (VStr (pf_name f))) then Some "You must specify a name for this device."
  else if bad_name (pf_name f) then Some "You may not have spaces or colons in the name."
  else if bad_latitude (pf_lat f) then Some latitude_message
  else if bad_longitude (pf_lon f) then Some longitude_message
  else if bad_ranges (pf_range f) then Some ranges_message
  else None.

Definition confirm_node_url (node_id : val) (f : pending_form) : string :=
  let e := encodeURIComponent in
  admin_url "confirm_node&node_id=" +:+ to_string node_id +:+ "&name=" +:+ e (pf_name f)
  +:+ "&latitude=" +:+ e (pf_lat f) +:+ "&longitude=" +:+ e (pf_lon f)
  +:+ "&vlan_range=" +:+ e (pf_range f) +:+ "&default_drop=" +:+ e (bool_text (pf_default_drop f))
  +:+ "&default_forward=" +:+ e (bool_text (pf_default_forward f))
  +:+ "&max_flows=" +:+ e (pf_max_flows f) +:+ "&tx_delay_ms=" +:+ e (pf_tx_delay_ms f)
  +:+ "&bulk_barrier=" +:+ e (bool_text (pf_bulk_barrier f)).

(** The two buttons of a pending node or link: the button is disabled with the
    label [busy] while the request runs, the [cleared] texts are emptied, and
    [more] happens after a success. *)
Definition settle_pending (button label busy : string) (cleared : list string) (url : string)
    (status table ok_text bad_text failure : string) (more : list action) (record : val) : io unit :=
  acts ([set_disabled button true; set_label button busy]
        ++ map (fun i => set_html i (VStr estr)) cleared)
    (sendRequest success_schema url
       (fun r =>
          acts [set_disabled button false; set_label button label]
            match r with
            | Failure => complain failure
            | Success results _ =>
                pure ok := succeeded results in
                if ok then
                  acts ([set_html status (VStr ok_text); ACall table "deleteRow" [record];
                         call "details_panel" "hide"] ++ more ++ [call "window" "setup_network_tab"]) done_
                else complain bad_text
            end)).

Definition deny_node (rec : val) : io unit :=
  pure node_id := prop rec "node_id" in
  pure ip := prop rec "ip_address" in
  pure dpid := prop rec "dpid" in
  settle_pending "deny_button" "Deny Device" "Denying device..." ["node_confirm_status"; "node_confirm_status"]
    (admin_url "deny_device&node_id=" +:+ to_string node_id +:+ "&ipv4_addr=" +:+ to_string ip
     +:+ "&dpid=" +:+ to_string dpid)
    "node_confirm_status" "node_table" "Device successfully denied." "Device denial unsuccessful."
    "Server error while denying device." [] rec.

Definition confirm_node (rec : val) (f : pending_form) : io unit :=
  match pending_complaint f with
  | Some text => complain text
  | None =>
      pure node_id := prop rec "node_id" in
      settle_pending "confirm_button" "Confirm Device" "Confirming Device..."
        ["node_confirm_status"; "link_confirm_status"] (confirm_node_url node_id f)
        "node_confirm_status" "node_table" "Device successfully confirmed." "Device confirmation unsuccessful."
        "Server error while confirming device." [call "window" "makePendingLinkTable"] rec
  end.

Definition endpoint_interface (rec : val) (i : nat) : res val :=
  let? eps := prop rec "endpoints" in let? e := index eps i in prop e "interface_id".

Definition deny_link (rec : val) : io unit :=
  pure link_id := prop rec "link_id" in
  pure a := endpoint_interface rec 0 in
  pure z := endpoint_interface rec 1 in
  settle_pending "deny_button" "Deny Link" "Denying link..." ["link_confirm_status"; "node_confirm_status"]
    (admin_url "deny_link&link_id=" +:+ to_string link_id +:+ "&interface_a_id=" +:+ to_string a
     +:+ "&interface_z_id=" +:+ to_string z)
    "link_confirm_status" "table" "Link successfully denied." "Link denial unsuccessful."
    "Server error while denying link." [] rec.

Definition confirm_link (rec : val) (name : string) : io unit :=
  if negb (truthy (VStr name)) then complain "You must specify a name for this link."
  else if bad_name name then complain "You may not have spaces or colons in the name."
  else
    pure link_id := prop rec "link_id" in
    settle_pending "confirm_button" "Confirm Link" "Confirming Link..." ["link_confirm_status"; "node_confirm_status"]
      (admin_url "confirm_link&link_id=" +:+ to_string link_id +:+ "&name=" +:+ encodeURIComponent name)
      "link_confirm_status" "table" "Link successfully confirmed." "Link confirmation unsuccessful."
      "Server error while confirming link." [] rec.

(** ** Maintenance *)

(** The complete buttons of the two maintenance tables; they differ in the
    attributes they set while the request runs and when it failed. *)
Definition maint_complete (question : string) (obj : val) (url : string) (busy : action)
    (on_error : string -> list action) : io unit :=
  showConfirm question
    (pure id_ := prop obj "id" in
     acts [set_label "b" "Submitting..."; busy]
       (sendRequest (Schema (fields ["maintenance_id"]) ["error"]) (url +:+ to_string id_)
          (fun r =>
             match r with
             | Failure =>
                 acts [set_label "b" "Complete"; ASet "b" "enabled" (VStr "true");
                       AAlert "Server error submitting maintenance completion"] done_
             | Success _ meta =>
                 if truthy (meta_of meta "error")
                 then acts (on_error ("Error submitting maintenance completion: "
                                      +:+ to_string (meta_of meta "error"))) done_
                 else acts [call "window" "setup_network_tab"; call "table" "load"] done_
             end))).

Definition node_maint_complete (node : val) : io unit :=
  maint_complete "This will end the node maintenance for this node. Are you sure you wish to do this?" node
    (maintenance_url "end_node&node_id=") (ASet "b" "enable" (VBool false))
    (fun text => [set_label "b" "Complete"; ASet "b" "enabled" (VBool true); AAlert text]).

Definition link_maint_complete (link : val) : io unit :=
  maint_complete "This will end the link maintenance for this link. Are you sure you wish to do this?" link
    (maintenance_url "end_link&link_id=") (ASet "b" "enabled" (VStr "false"))
    (fun text => [set_label "b" "Complete"; AAlert text; ASet "b" "enabled" (VStr "true")]).

(** ** Moving the configuration of an interface *)

(** The entries [getOptions] puts into the list of new interfaces; [None] is
    the placeholder for an error. *)
Definition move_options (r : reply) : res (option (list (val * val))) :=
  match r with
  | Failure => Ok None
  | Success results meta =>
      if truthy (meta_of meta "error") then Ok None
      else
        let? l := res_map (fun row => let? v := prop row "interface_id" in let? n := prop row "name" in Ok (v, n))
                    results in
        Ok (Some l)
  end.

Definition move_options_request (node : string) (k : option (list (val * val)) -> io unit) : io unit :=
  sendRequest (Schema (fields ["name"; "interface_id"]) ["error"])
    ("../services/data.cgi?method=get_node_interfaces&show_down=1&show_trunk=0&node=" +:+ node)
    (fun r => pure o := move_options r in k o).

Definition move_message : string :=
  "This will cause all selected circuits on this interface to be moved to the "
  +:+ "selected interface. Circuits with conflicting vlans will remain unmoved."
  +:+ "Are you sure this is what you want to do?".

(** The text of the success box, a template literal: its lines with their
    indentation. *)
Definition moved_lines : list string :=
  [estr;
   "                            <div>Interface configuration move succesful.</div>";
   "                            <div class=" +:+ dq +:+ "success" +:+ dq +:+ ">";
   "                              <ul>";
   "                                <li>ACLs Moved</li>";
   "                                <li>Cloud Configurations Moved</li>";
   "                                <li>Layer2 Endpoints Moved</li>";
   "                                <li>Layer3 Endpoints Moved</li>";
   "                              </ul>";
   "                            </div>";
   "                            <div class=" +:+ dq +:+ "warning" +:+ dq +:+ ">";
   "                            </div>";
   "                            "].
Definition moved_message : string := str_join (String (ascii_of_nat 10) estr) moved_lines.

(** The apply button. *)
Definition move_configuration (orig_interface_id new_interface_id : val) : io unit :=
  showConfirm move_message
    (Act (set_label "add_button" "Submitting...")
       (postRequest (Schema (fields ["moved_circuits"; "unmoved_circuits"]) ["error"; "error_text"])
          "../services/admin/admin.cgi?"
          ("method=move_interface_configuration&orig_interface_id=" +:+ to_string orig_interface_id
           +:+ "&new_interface_id=" +:+ to_string new_interface_id)
          (fun r =>
             Act (set_label "add_button" "Add")
               match r with
               | Failure => complain "Server error moving circuits."
               | Success _ meta =>
                   if truthy (meta_of meta "error")
                   then complain ("Error moving circuits: " +:+ to_string (meta_of meta "error_text"))
                   else acts [call "panel" "destroy"; AAlert moved_message; call "table" "load"] done_
               end))).

End handlers.
