(* ===== verification/ConsoleProofs.v ===== *)
(** * What the older administration page guarantees

    Theorems about the handlers of [Console]: what is sent and what the server
    reads from it, under which conditions anything is sent, and the state the
    buttons are left in. *)

From Stdlib Require Import ZArith Lia Ascii String.
From stdpp Require Import base option list sets strings numbers tactics.
From S2P Require Import Prelude JsValue JsJson JsRegex ValidateIP Fetch Api Acl Checks DataSource Console.

(** ** What the server reads *)

(** The parameters of a request with their escapes decoded. *)
Definition decoded_query (url : string) : option (list (string * string)) :=
  mapM (fun kv => (fun v => (fst kv, v)) <$> decodeURIComponent (snd kv)) (query_of url).

(** Parameters as they are sent, their values escaped. *)
Definition escaped (l : list (string * string)) : list (string * string) :=
  map (fun kv => (fst kv, encodeURIComponent (snd kv))) l.

Definition params_ok (l : list (string * string)) : Prop :=
  Forall (fun kv => plain (fst kv) = true /\ utf8_valid (snd kv) = true) l.

Lemma unreserved_encode v : str_forall uri_unreserved v = true -> encodeURIComponent v = v.
Proof.
  induction v as [|c v IH]; [done|]. cbn [str_forall encodeURIComponent].
  intros [Hc Hv]%andb_true_iff. rewrite Hc, (IH Hv). done.
Qed.

Lemma unreserved_utf8 v : str_forall uri_unreserved v = true -> utf8_valid v = true.
Proof.
  unfold utf8_valid. induction v as [|c v IH]; [done|]. cbn [str_forall utf8_ok].
  intros [Hc Hv]%andb_true_iff. rewrite (IH Hv).
  assert (E : Nat.ltb (nat_of_ascii c) 128 = true); [|by rewrite E].
  destruct c as [[] [] [] [] [] [] [] []]; first [reflexivity|discriminate Hc].
Qed.

Lemma decode_escaped l :
  params_ok l ->
  mapM (fun kv => (fun v => (fst kv, v)) <$> decodeURIComponent (snd kv)) (escaped l) = Some l.
Proof.
  intros H. induction H as [|[k v] l [_ Hv] _ IH]; [done|].
  cbn [escaped map mapM fst snd]. cbn [fst snd] in Hv.
  rewrite decode_encode by done. cbn. unfold escaped in IH. by rewrite IH.
Qed.

(** The server reads back every parameter of a call to the admin script. *)
Lemma admin_query script method l :
  str_forall (fun c => negb (Ascii.eqb c "?")) script = true ->
  str_forall uri_unreserved method = true -> params_ok l ->
  decoded_query (script +:+ "?method=" +:+ method +:+ amp (escaped l)) = Some (("method", method) :: l).
Proof.
  intros Hs Hm Hl. unfold decoded_query.
  assert (E : script +:+ "?method=" +:+ method +:+ amp (escaped l) =
              script +:+ "?" +:+ query_string (escaped (("method", method) :: l))).
  { cbn [escaped map fst snd]. rewrite query_string_amp, (unreserved_encode method) by done. done. }
  rewrite E, query_of_string; [|done|done|].
  - apply decode_escaped. constructor; [|done]. split; [done|by apply unreserved_utf8].
  - apply Forall_map. constructor; [cbn; split; [done|apply encode_plain]|].
    eapply list.Forall_impl; [exact Hl|]. intros [k v] [Hk _]. cbn. split; [done|apply encode_plain].
Qed.

(** ** Coordinates *)

Lemma digits_unreserved s : str_forall is_digit s = true -> str_forall uri_unreserved s = true.
Proof. apply str_forall_weaken. intros c Hc. unfold uri_unreserved. by rewrite Hc. Qed.

Lemma coordinate_unreserved limit x :
  bad_coordinate (Z.of_N limit) x = false -> str_forall uri_unreserved x = true.
Proof.
  intros (neg & a & b & [_ Ha] & Hb & -> & _)%coordinate_accepts.
  rewrite !str_forall_app, (digits_unreserved a) by done.
  destruct b as [|c b]; [by destruct neg|].
  change (frac_text (String c b)) with ("." +:+ String c b).
  rewrite str_forall_app, (digits_unreserved (String c b)) by done. by destruct neg.
Qed.

Lemma latitude_unreserved x : bad_latitude x = false -> str_forall uri_unreserved x = true.
Proof. exact (coordinate_unreserved 90 x). Qed.
Lemma longitude_unreserved x : bad_longitude x = false -> str_forall uri_unreserved x = true.
Proof. exact (coordinate_unreserved 180 x). Qed.

Lemma int_unreserved z : str_forall uri_unreserved (string_of_Z z) = true.
Proof.
  destruct z as [|p|p]; [done|apply digits_unreserved, string_of_N_digits|].
  cbn [string_of_Z str_forall]. by rewrite digits_unreserved by apply string_of_N_digits.
Qed.

(** ** The node panel *)

(** The fields of the panel as parameters of the update. *)
Definition node_params (node_id : Z) (f : node_form) : list (string * string) :=
  [("node_id", string_of_Z node_id); ("name", nf_name f); ("latitude", nf_lat f); ("longitude", nf_lon f);
   ("vlan_range", nf_vlan_range f); ("mpls", bool_text (nf_mpls f)); ("openflow", nf_openflow f)]
  ++ (if nf_mpls f then
        [("mgmt_addr", nf_mgmt_addr f); ("tcp_port", nf_tcp_port f); ("vendor", nf_vendor f);
         ("model", nf_model f); ("sw_version", nf_sw_version f); ("controller", nf_controller f);
         ("short_name", nf_short_name f)]
      else [])
  ++ (if truthy (VStr (nf_openflow f)) then
        [("default_drop", bool_text (nf_default_drop f)); ("default_forward", bool_text (nf_default_forward f));
         ("max_flows", nf_max_flows f); ("tx_delay_ms", nf_tx_delay_ms f);
         ("bulk_barrier", bool_text (nf_barrier_bulk f)); ("max_static_mac_flows", nf_max_static_mac_flows f)]
      else []).

(** The texts of the panel are Unicode. *)
Definition node_form_text (f : node_form) : bool :=
  forallb utf8_valid
    [nf_name f; nf_vlan_range f; nf_openflow f; nf_mgmt_addr f; nf_tcp_port f; nf_vendor f; nf_model f;
     nf_sw_version f; nf_controller f; nf_short_name f; nf_max_flows f; nf_tx_delay_ms f;
     nf_max_static_mac_flows f].

Lemma node_args_params node_id f :
  str_forall uri_unreserved (nf_lat f) = true -> str_forall uri_unreserved (nf_lon f) = true ->
  node_args (VInt node_id) f = amp (escaped (node_params node_id f)).
Proof.
  intros Hlat Hlon. unfold node_args, node_params, escaped.
  rewrite <- (unreserved_encode (nf_lat f)) at 1 by done.
  rewrite <- (unreserved_encode (nf_lon f)) at 1 by done.
  change (to_string (VInt node_id)) with (string_of_Z node_id).
  rewrite <- (unreserved_encode (string_of_Z node_id)) at 1 by apply int_unreserved.
  destruct (nf_mpls f), (truthy (VStr (nf_openflow f))); cbn [app map amp fst snd];
    rewrite ?str_app_assoc, ?str_app_nil_r; reflexivity.
Qed.

Lemma node_params_ok node_id f :
  node_form_text f = true -> node_complaint f = None -> params_ok (node_params node_id f).
Proof.
  unfold node_complaint. intros Ht Hc.
  destruct (negb (truthy _)); [done|]. destruct (bad_latitude (nf_lat f)) eqn:Hlat; [done|].
  destruct (bad_longitude (nf_lon f)) eqn:Hlon; [done|].
  apply latitude_unreserved, unreserved_utf8 in Hlat. apply longitude_unreserved, unreserved_utf8 in Hlon.
  unfold node_form_text in Ht. cbn [forallb] in Ht.
  repeat (apply andb_true_iff in Ht as [? Ht]).
  assert (B : forall b, utf8_valid (bool_text b) = true) by by intros [].
  pose proof (unreserved_utf8 _ (int_unreserved node_id)).
  unfold params_ok, node_params. rewrite !list.Forall_app.
  destruct (nf_mpls f), (truthy (VStr (nf_openflow f))); repeat constructor; cbn [fst snd]; auto.
Qed.

Definition update_question : string :=
  "The new values will take effect immediately.Are you sure you want to update the device?".

Definition is_none {A} (o : option A) : bool := match o with None => true | Some _ => false end.

Section delivered.
Context `{DataSource}.

(** C36 The node panel sends one update exactly when the user confirms and the
    fields pass the checks, and nothing otherwise; and the server reads back
    from that request every field of the panel, the coordinates included, which
    are sent without escaping. *)
Theorem node_update_delivered {S} (w : env S) node_id f s :
  node_form_text f = true ->
  let sent := requests (run_trace w (save_active_node (VInt node_id) f) s) in
  if answer w update_question && is_none (node_complaint f) then
    exists url, sent = [Req false url []] /\
      decoded_query url = Some (("method", "update_node") :: node_params node_id f)
  else sent = [].
Proof.
  intros Ht sent. unfold sent, save_active_node. rewrite requests_confirm.
  fold update_question. destruct (answer w update_question); cbn [andb]; [|done].
  destruct (node_complaint f) as [text|] eqn:Hc; cbn [is_none].
  { apply quiet_requests. auto with oess. }
  eexists. split; [rewrite requests_acts; apply requests_send; intros r; apply quiet_acts|].
  - destruct r; [|apply quiet_pure; intros []]; auto with oess.
  - pose proof (node_params_ok node_id f Ht Hc) as Hp. revert Hc. unfold node_complaint.
    destruct (negb (truthy _)); [done|]. destruct (bad_latitude (nf_lat f)) eqn:Hlat; [done|].
    destruct (bad_longitude (nf_lon f)) eqn:Hlon; [done|]. intros _.
    rewrite node_args_params by first [by apply latitude_unreserved | by apply longitude_unreserved].
    by apply (admin_query "../services/admin/admin.cgi" "update_node").
Qed.

End delivered.

Definition sample_node : node_form :=
  NodeForm "mx240 (lab)" "39.77" "-86.16" "1-99,200" "false" true "10.0.0.1" "830" "Juniper" "MX" "15.1" "netconf"
    "mx" true true "4000" "0" true "100" "Na:N".

Lemma node_update_delivered_witness :
  exists url,
    requests (run_trace (const_server ONetFail)
                (save_active_node (H := ListSource.source) (VInt 3) sample_node) tt) = [Req false url []] /\
    decoded_query url = Some (("method", "update_node") :: node_params 3 sample_node).
Proof. exact (node_update_delivered (H := ListSource.source) (const_server ONetFail) 3 sample_node tt eq_refl). Defined.

(** ** Buttons *)

(** A button is enabled at the end, whatever the server and the user do. *)
Definition enabled_after (button : string) (m : io unit) : Prop :=
  settles (attr_step button "disabled") (fun v => v = VBool false) (VBool false) m.

(** One step of a proof that a program settles. *)
Ltac settle_step :=
  match goal with
  | |- settles _ _ _ (acts _ _) => apply settles_acts
  | |- settles _ _ _ (sendRequest _ _ _) => apply settles_send; intros []
  | |- settles _ _ _ (showConfirm _ _) => apply settles_question
  | |- settles _ _ _ (io_bind (io_lift _) _) => apply settles_lift; [|intros ?]
  | |- settles _ _ _ (if ?b then _ else _) => destruct b
  | |- settles _ _ _ (match ?r with Failure => _ | Success _ _ => _ end) => destruct r
  | |- settles _ _ _ (match ?o with Some _ => _ | None => _ end) => destruct o
  | |- settles _ _ _ (complain _) => apply settles_act
  | |- settles _ _ _ (Act _ _) => apply settles_act
  | |- settles _ _ _ done_ => apply settles_ret
  | |- settles _ _ _ (Raise _) => apply settles_raise
  end.

(** Comparisons of literal names. *)
Ltac closed_names :=
  repeat match goal with
  | |- context [String.eqb ?x ?y] =>
      let b := eval vm_compute in (String.eqb x y) in
      match b with true => idtac | false => idtac end;
      change (String.eqb x y) with b
  end.

(** Assignments to the button itself decide, others do not matter. *)
Ltac settle button :=
  repeat settle_step;
  cbn [foldl attr_step table_step set_disabled set_label set_html call close_panel refill app map];
  closed_names; rewrite ?andb_false_r, ?andb_true_r;
  repeat match goal with |- context [String.eqb ?x button] => destruct (String.eqb x button) end;
  try done.

Section buttons.
Context `{DataSource}.

(** The handlers that disable buttons while their request runs. *)
Definition busy_handlers (x y z : val) (l : link_form) (f : node_form) (g : switch_form) (p : pending_form)
    (name metric : string) : list (io unit) :=
  [submit_topology; save_new_link x y l; save_edited_link x y z l; do_decom_link x;
   save_active_link x name metric; save_active_node x f; delete_active_node x; maint_node x;
   add_switch g; deny_node x; confirm_node x p; deny_link x; confirm_link x name].

(** The handlers that disable a table while their request runs; [o] is the data
    of a record. *)
Definition table_handlers (x y z : val) (label : string) (o : list (string * val)) : list (io unit) :=
  [user_cell_clicked x label (VObj o) y; interface_cell_clicked label (VObj o) y;
   user_workgroup_clicked x y z label (VObj o) y; user_row_clicked x (VObj o);
   interface_row_clicked x (VObj o)].

Lemma write_link_settles button edit status url : enabled_after button (write_link edit status url).
Proof. unfold enabled_after, write_link. destruct edit; settle button.
Qed.

Lemma save_link_settles button edit x y l status url : enabled_after button (save_link edit x y l status url).
Proof.
  assert (W : forall b, enabled_after button (write_link b status url)) by (intros; apply write_link_settles).
  unfold enabled_after, save_link in *. destruct (link_complaint l); [settle button|].
  apply settles_send. intros r. apply settles_acts.
  assert (E : forall t, foldl (attr_step button "disabled") (VBool false)
                          [set_label "save_button" t; set_disabled "save_button" false] = VBool false).
  { intros t. cbn [foldl attr_step set_label set_disabled]. closed_names.
    rewrite andb_false_r, andb_true_r. by destruct (String.eqb "save_button" button). }
  rewrite E. destruct r as [|results meta]; [settle button|].
  destruct (truthy _); [by constructor|]. apply settles_lift; [done|]. intros c.
  destruct (name_conflict c); [settle button|]. destruct (alert_same c); [|apply W].
  apply settles_question; [done|apply W].
Qed.

Lemma tables_settle table x y z label o :
  Forall (settles (table_step table) (fun v => v = VBool false) (VBool false)) (table_handlers x y z label o).
Proof.
  unfold table_handlers. repeat (apply list.Forall_cons; split); try apply list.Forall_nil;
    unfold user_cell_clicked, interface_cell_clicked, user_workgroup_clicked, user_row_clicked,
      interface_row_clicked, update_interface_owner, add_member, remove_row; cbn [prop io_lift io_bind];
    settle table.
Qed.

(** The handlers that send a request and disable their buttons meanwhile
    leave every button enabled when they end, on success, on an error of the
    service, on a failed connection, on a malformed reply, and when the user
    does not confirm; and those that disable a table leave every table enabled. *)
Theorem buttons_restored {S} (w : env S) button x y z l f g p name metric label o s :
  Forall (fun m => value_after (attr_step button "disabled") (VBool false) (run_trace w m s) = VBool false)
    (busy_handlers x y z l f g p name metric) /\
  Forall (fun m => value_after (table_step button) (VBool false) (run_trace w m s) = VBool false)
    (table_handlers x y z label o).
Proof.
  split; [|apply (list.Forall_impl (settles (table_step button) (fun v => v = VBool false) (VBool false)));
           [apply tables_settle|intros m Hm; by apply (settles_run _ w _ _ _ s) in Hm]].
  apply (list.Forall_impl (enabled_after button)); [|intros m Hm; by apply (settles_run _ w _ _ _ s) in Hm].
  unfold busy_handlers. repeat (apply list.Forall_cons; split); try apply list.Forall_nil; try apply save_link_settles;
    unfold enabled_after, submit_topology, do_decom_link, save_active_link, save_active_node, delete_active_node,
      maint_node, add_switch, deny_node, confirm_node, deny_link, confirm_link, settle_pending;
    settle button.
Qed.

End buttons.

(** Where they do not: when the connection fails, the migration of circuits
    leaves its two buttons disabled, and starting the maintenance of a link
    leaves its own button disabled and relabels the button that removes the
    link; when the service refuses, removing a remote link and creating a
    workgroup leave their buttons disabled; and picking a workgroup for a user
    that does not exist yet leaves the table disabled. *)
Theorem buttons_stuck `{DataSourceLaws} x name error :
  truthy error = true -> negb (truthy (VStr name)) || (20 <? js_length name)%nat = false ->
  let down := const_server ONetFail in
  let refusal := const_server (OJson (VObj [("error", error); ("results", VArr [])])) in
  let after w m target attribute := value_after (attr_step target attribute) (VBool false) (run_trace w m tt) in
  after down (do_node_insert x) "save_button" "disabled" = VBool true /\
  after down (do_node_insert x) "delete_button" "disabled" = VBool true /\
  after down (maint_link x) "maint_button" "disabled" = VBool true /\
  after down (maint_link x) "delete_button" "label" = VStr "Put Link in Maintenance" /\
  after refusal (removeRemoteLink x) "button" "disabled" = VBool true /\
  after refusal (submit_new_workgroup name estr "normal") "submit_button" "disabled" = VBool true /\
  value_after (table_step "my_wg_table") (VBool false)
    (run_trace down (workgroup_row_clicked VUndef (VObj [("workgroup_id", x)])) tt) = VBool true.
Proof.
  intros He [Hn Hl]%orb_false_iff. cbv zeta.
  assert (R : forall sc, ds_reply sc (OJson (VObj [("error", error); ("results", VArr [])])) =
                Success [] (map (fun k => (k, default VUndef (obj_get k [("error", error); ("results", VArr [])])))
                              (sc_meta sc))).
  { intros sc. apply (reply_rows sc _ []). done. }
  assert (M : truthy (meta_of (map (fun k => (k, default VUndef (obj_get k [("error", error); ("results", VArr [])])))
                              (sc_meta success_error_schema)) "error") = true) by done.
  unfold run_trace, do_node_insert, maint_link, removeRemoteLink, submit_new_workgroup, showConfirm, sendRequest.
  rewrite Hn, Hl. cbn [acts foldr run const_server server answer negb]. rewrite !reply_net, !R.
  cbn [acts foldr run]. rewrite !M. repeat split; vm_compute; reflexivity.
Qed.

Lemma buttons_stuck_witness :
  let after o m target := value_after (attr_step target "disabled") (VBool false) (run_trace (const_server o) m tt) in
  after ONetFail (maint_link (H := ListSource.source) (VInt 7)) "maint_button" = VBool true /\
  after (OJson (VObj [("error", VStr "denied"); ("results", VArr [])]))
    (removeRemoteLink (H := ListSource.source) (VInt 7)) "button" = VBool true.
Proof.
  pose proof (buttons_stuck (H := ListSource.source) (H0 := ListSource.laws) (VInt 7) "lab" (VStr "denied") eq_refl eq_refl) as T.
  cbv zeta in *. split; apply T.
Defined.

(** ** Remote links *)




Section remote.
Context `{DataSourceLaws}.





End remote.

(** ** Coordinates and ranges *)

(** The text of a decimal whose absolute value is at most the limit. *)
Definition within (limit : N) (x : string) : Prop :=
  exists neg a b,
    is_digits a /\ maybe_digits b /\ x = sign_text neg +:+ a +:+ frac_text b /\
    (dec_value (a +:+ b) <= limit * 10 ^ N.of_nat (String.length b))%N.

(** The text of a list of VLANs and of intervals of VLANs. *)
Definition range_text (s : string) : Prop :=
  exists l, l <> [] /\ Forall is_segment l /\ s = str_join "," (map segment_text l).

(** The program sends a request for some server and user. *)
Definition sends (m : io unit) : Prop :=
  exists (S : Type) (w : env S) (s : S), requests (run_trace w m s) <> [].

Lemma sends_quiet m : quiet m -> ~ sends m.
Proof. intros Hq (S & w & s & Hs). by rewrite quiet_requests in Hs. Qed.

Lemma nonempty_text s : negb (truthy (VStr s)) = false <-> s <> estr.
Proof. by destruct s. Qed.

Lemma latitude_within x : bad_latitude x = false <-> within 90 x.
Proof. exact (coordinate_accepts 90 x). Qed.
Lemma longitude_within x : bad_longitude x = false <-> within 180 x.
Proof. exact (coordinate_accepts 180 x). Qed.

Section sending.
Context `{DataSource}.

Lemma sends_send l sc url k : sends (acts l (sendRequest sc url k)).
Proof.
  exists unit, (const_server ONetFail), tt. rewrite requests_acts.
  by rewrite (requests_send_step _ _ _ _ _ tt ONetFail).
Qed.

Lemma sends_confirmed q l sc url k : sends (showConfirm q (acts l (sendRequest sc url k))).
Proof.
  exists unit, (const_server ONetFail), tt. rewrite requests_confirm. cbn [answer const_server]. rewrite requests_acts.
  by rewrite (requests_send_step _ _ _ _ _ tt ONetFail).
Qed.

(** A check in front of the rest of a handler. *)
Lemma complaint_sends (c : option string) m :
  (c = None -> sends m) -> sends (match c with Some t => complain t | None => m end) <-> c = None.
Proof.
  intros Hm. destruct c; [|naive_solver]. split; [|done]. intros Hs. by apply sends_quiet in Hs; [|auto with oess].
Qed.

(** The first complaint of a sequence of checks is absent when all are passed. *)
Lemma no_complaint (b : bool) (t : string) (r : option string) :
  (if b then Some t else r) = None <-> b = false /\ r = None.
Proof. destruct b; naive_solver. Qed.

Lemma remote_node_sends x name lat lon :
  sends (save_remote_node x name lat lon) <-> within 90 lat /\ within 180 lon.
Proof.
  unfold save_remote_node. rewrite <- latitude_within, <- longitude_within.
  destruct (bad_latitude lat); [split; [intros Hs; by apply sends_quiet in Hs; [|auto with oess]|naive_solver]|].
  destruct (bad_longitude lon); [split; [intros Hs; by apply sends_quiet in Hs; [|auto with oess]|naive_solver]|].
  split; [done|]. intros _. exact (sends_send [_] _ _ _).
Qed.

Lemma active_node_sends x f :
  sends (save_active_node x f) <->
  nf_name f <> estr /\ within 90 (nf_lat f) /\ within 180 (nf_lon f) /\
  str_exists is_digit (nf_max_static_mac_flows f) = true /\ range_text (nf_vlan_range f).
Proof.
  transitivity (node_complaint f = None).
  - unfold save_active_node. destruct (node_complaint f).
    + split; [|done]. intros Hs. by apply sends_quiet in Hs; [|constructor; intros []; auto with oess].
    + split; [done|]. intros _. apply sends_confirmed.
  - unfold node_complaint. rewrite !no_complaint, nonempty_text, latitude_within, longitude_within.
    rewrite orb_false_iff, nonempty_text. unfold bad_ranges, no_number. fold (bad_ranges (nf_vlan_range f)).
    rewrite negb_false_iff, (ranges_accept (nf_vlan_range f)).
    assert (str_exists is_digit (nf_max_static_mac_flows f) = true -> nf_max_static_mac_flows f <> estr)
      by (intros Hd E; by rewrite E in Hd).
    unfold range_text. naive_solver.
Qed.

Lemma is_blank_iff o : is_blank o = true <-> o = Some estr.
Proof. by destruct o as [[]|]. Qed.

Lemma add_switch_sends g :
  sends (add_switch g) <->
  sf_name g <> estr /\ sf_port g <> estr /\ is_ipv4 (sf_ip g) /\ bad_name (sf_name g) = false /\
  within 90 (sf_lat g) /\ within 180 (sf_lon g) /\
  ~ (sf_controller g = "netconf" /\
     (sf_vendor g = Some estr \/ sf_model g = Some estr \/ sf_sw_ver g = Some estr)).
Proof.
  unfold add_switch. rewrite complaint_sends by (intros _; apply sends_send).
  unfold switch_complaint. rewrite !no_complaint, orb_false_iff, !nonempty_text, latitude_within, longitude_within.
  rewrite negb_false_iff, re_match_lang, lang_IPv4.
  assert (E : String.eqb (sf_controller g) "netconf"
              && (is_blank (sf_vendor g) || is_blank (sf_model g) || is_blank (sf_sw_ver g)) = false <->
              ~ (sf_controller g = "netconf" /\
                 (sf_vendor g = Some estr \/ sf_model g = Some estr \/ sf_sw_ver g = Some estr))).
  { rewrite <- not_true_iff_false, andb_true_iff, String.eqb_eq, !orb_true_iff, !is_blank_iff. naive_solver. }
  assert (is_ipv4 (sf_ip g) -> sf_ip g <> estr).
  { intros Hi E0. rewrite E0 in Hi. apply lang_IPv4, re_match_lang in Hi. discriminate Hi. }
  naive_solver.
Qed.

Lemma confirm_node_sends rec p :
  sends (confirm_node (VObj rec) p) <->
  pf_name p <> estr /\ bad_name (pf_name p) = false /\ within 90 (pf_lat p) /\ within 180 (pf_lon p) /\
  range_text (pf_range p).
Proof.
  unfold confirm_node. rewrite complaint_sends by (intros _; apply sends_send).
  unfold pending_complaint. rewrite !no_complaint, nonempty_text, latitude_within, longitude_within, ranges_accept.
  unfold range_text. naive_solver.
Qed.

(** C38 A request that carries coordinates is sent only for a latitude from -90
    to 90 and a longitude from -180 to 180: the panels of remote devices, nodes,
    new switches and discovered nodes can send exactly when these hold, the
    name is filled in, VLAN ranges are lists of numbers and intervals, addresses
    are IPv4, and the other fields have what their checks ask for. *)
Theorem sent_fields_in_range x name lat lon f g rec p :
  (sends (save_remote_node x name lat lon) <-> within 90 lat /\ within 180 lon) /\
  (sends (save_active_node x f) <->
     nf_name f <> estr /\ within 90 (nf_lat f) /\ within 180 (nf_lon f) /\
     str_exists is_digit (nf_max_static_mac_flows f) = true /\ range_text (nf_vlan_range f)) /\
  (sends (add_switch g) <->
     sf_name g <> estr /\ sf_port g <> estr /\ is_ipv4 (sf_ip g) /\ bad_name (sf_name g) = false /\
     within 90 (sf_lat g) /\ within 180 (sf_lon g) /\
     ~ (sf_controller g = "netconf" /\
        (sf_vendor g = Some estr \/ sf_model g = Some estr \/ sf_sw_ver g = Some estr))) /\
  (sends (confirm_node (VObj rec) p) <->
     pf_name p <> estr /\ bad_name (pf_name p) = false /\ within 90 (pf_lat p) /\ within 180 (pf_lon p) /\
     range_text (pf_range p)).
Proof.
  auto using remote_node_sends, active_node_sends, add_switch_sends, confirm_node_sends.
Qed.

End sending.

(** ** The configuration panel *)

(** Events whose replies are answers of the service, [texts] giving the diff of
    each node; [ordered] when the replies come in the order of the requests. *)
Definition diff_reply (texts : val -> string) (p : config_panel) (i : nat) : config_event :=
  DiffReply i (Success [VObj [("text", VStr (texts (default VUndef (cp_waiting p !! i))))]] []).

Inductive config_reach (texts : val -> string) (ordered : bool) : config_panel -> Prop :=
  | reach_start : config_reach texts ordered no_panel
  | reach_click p n : config_reach texts ordered p -> config_reach texts ordered (config_step p (RowClicked n))
  | reach_hide p : config_reach texts ordered p -> config_reach texts ordered (config_step p PanelHidden)
  | reach_reply p i : config_reach texts ordered p -> i < length (cp_waiting p) -> (ordered = true -> i = 0) ->
      config_reach texts ordered (config_step p (diff_reply texts p i)).

(** The text of a node that has changes. *)
Definition has_diff (texts : val -> string) : Prop :=
  forall n, texts n <> estr /\ texts n <> String (ascii_of_nat 10) estr.

Definition loading : val := VStr "Loading diff...".

Lemma diff_reply_shown texts p i n :
  has_diff texts -> cp_waiting p !! i = Some n ->
  config_step p (diff_reply texts p i) = ConfigPanel (cp_node p) (VStr (texts n)) (splice1 i (cp_waiting p)).
Proof.
  intros Hd Hn. unfold config_step, diff_reply. pose proof (lookup_lt_Some _ _ _ Hn) as Hi.
  destruct (Nat.ltb_spec i (length (cp_waiting p))); [|lia]. rewrite Hn. cbn [default].
  unfold diff_shown. cbn [meta_of obj_get default truthy]. cbn.
  destruct (Hd n) as [H1 H2]. apply String.eqb_neq in H1, H2. by rewrite H1, H2.
Qed.

(** In order, the last request waiting is the one of the node that is open, and
    when none is waiting the text is its diff. *)
Lemma ordered_panel texts p :
  has_diff texts -> config_reach texts true p ->
  match cp_node p with
  | None => cp_waiting p = [] /\ cp_shown p = loading
  | Some n =>
      (exists l, cp_waiting p = l ++ [n]) \/
      cp_waiting p = [] /\ (cp_shown p = VStr (texts n) \/ cp_shown p = loading)
  end.
Proof.
  intros Hd H. induction H as [|p n _ _|p _ IH|p i _ IH Hi H0].
  - done.
  - cbn [config_step cp_node cp_waiting]. eauto.
  - cbn [config_step cp_node cp_waiting cp_shown]. destruct (cp_node p) as [n|]; naive_solver.
  - rewrite (H0 eq_refl) in *. destruct (cp_waiting p) as [|m l] eqn:Hw; [simpl in Hi; lia|].
    rewrite (diff_reply_shown _ _ _ m) by (by rewrite ?Hw). cbn [cp_node cp_waiting cp_shown]. rewrite Hw.
    destruct (cp_node p) as [n|]; [|naive_solver]. destruct IH as [[k Hk]|[? _]]; [|done].
    destruct k as [|m' k]; simplify_list_eq; [by right; auto|]. left. exists k. done.
Qed.

(** The configuration panel approves the node of the row clicked last.  When
    the replies arrive in the order of the requests and none is missing, the
    diff on display is the one of that node (or the panel was closed); but when
    two replies overtake each other, the diff of one node is on display while
    another node would be approved. *)
Theorem approved_diff texts :
  has_diff texts ->
  (forall p, config_reach texts true p -> cp_waiting p = [] ->
     match cp_node p with
     | Some n => cp_shown p = VStr (texts n) \/ cp_shown p = loading
     | None => cp_shown p = loading
     end) /\
  (forall a b, exists p,
     config_reach texts false p /\ cp_waiting p = [] /\ cp_node p = Some b /\ cp_shown p = VStr (texts a)).
Proof.
  intros Hd. split.
  - intros p Hp Hw. pose proof (ordered_panel texts p Hd Hp) as I.
    destruct (cp_node p) as [n|]; [|naive_solver]. destruct I as [[l Hl]|[_ I]]; [|done].
    rewrite Hw in Hl. by destruct l.
  - intros a b. set (p1 := config_step no_panel (RowClicked a)). set (p2 := config_step p1 (RowClicked b)).
    set (p3 := config_step p2 (diff_reply texts p2 1)). set (p4 := config_step p3 (diff_reply texts p3 0)).
    assert (R2 : config_reach texts false p2) by (repeat constructor).
    assert (R3 : config_reach texts false p3) by (apply reach_reply; [done|simpl; lia|done]).
    assert (E3 : p3 = ConfigPanel (Some b) (VStr (texts b)) [a]) by (exact (diff_reply_shown texts p2 1 b Hd eq_refl)).
    assert (E4 : p4 = ConfigPanel (Some b) (VStr (texts a)) []).
    { unfold p4. rewrite (diff_reply_shown _ _ _ a) by (by rewrite ?E3). by rewrite E3. }
    exists p4. rewrite E4 at 2 3 4. repeat split. apply reach_reply; [done| |done].
    rewrite E3. simpl. lia.
Qed.

Lemma approved_diff_witness :
  has_diff (fun n => "- set vlan " +:+ to_string n) /\
  exists p, config_reach (fun n => "- set vlan " +:+ to_string n) false p /\ cp_waiting p = [] /\
    cp_node p = Some (VInt 2) /\ cp_shown p = VStr "- set vlan 1".
Proof.
  assert (Hd : has_diff (fun n => "- set vlan " +:+ to_string n)) by (intros n; split; discriminate).
  split; [exact Hd|]. exact (proj2 (approved_diff _ Hd) (VInt 1) (VInt 2)).
Defined.

(** ** Other texts *)

(** An ampersand in the name of a workgroup is not escaped and ends the
    parameter. *)
Example workgroup_name_cut :
  query_of (edit_workgroup_url (VInt 5) "R&D" estr "10") =
  [("method", "edit_workgroup"); ("workgroup_id", "5"); ("name", "R"); ("D", estr); ("max_circuits", "10")].
Proof. vm_compute. reflexivity. Qed.

(** The limit of circuits needs only one digit somewhere. *)
Example circuit_limit_text : no_number "none (1)" = false.
Proof. reflexivity. Qed.

(** The row of a user who was just added has no last name. *)
Lemma added_member_name user_id first last :
  member_name (added_user user_id first last) = Ok (to_string first +:+ " undefined").
Proof. reflexivity. Qed.

(** The hidden field that says whether OpenFlow is enabled is never empty, so
    that the OpenFlow parameters are part of every update. *)
Lemma openflow_always_sent args f : open_node args = Ok f -> truthy (VStr (nf_openflow f)) = true.
Proof.
  unfold open_node. intros H. repeat (apply res_bind_Ok_inv in H as (? & _ & H)).
  apply Ok_inj in H as <-. cbn [nf_openflow]. by destruct (zero_or_null _).
Qed.

(** A datapath identifier that arrives as decimal text is not converted. *)
Example dpid_text :
  convert_dpid_to_hex (inl "155569091328") = "15:55:69:09:13:28" /\
  convert_dpid_to_hex (inr 155569091328%N) = "24:38:a3:f3:00".
Proof. split; vm_compute; reflexivity. Qed.

(** ** Saving a remote link *)








