(* ===== verification/ConsoleTables.v ===== *)
(** * The tables of the older administration page (js_templates/admin.js)

    Each table of the page is a data source with a schema and a list of columns; a
    column makes the text of a cell from a record.  The handlers of [Console] act on
    these tables.  This file has the tables, the cell editors of the interface table,
    the searches that wait for the user to stop typing, and the form that moves the
    configuration of an interface, whose lists are filled by replies that may
    arrive in any order. *)

From Stdlib Require Import ZArith Lia Ascii String.
From stdpp Require Import base option list gmap sets strings numbers tactics.
From S2P Require Import Prelude JsValue JsJson JsRegex ValidateIP Fetch Api Acl Checks DataSource Console ConsoleProofs.

(** ** Tables *)

Record column := Column { co_label : string; co_cell : val -> res string }.

(** [yt_rows]: the rows of a page, when the table has a paginator; [yt_poll]: the
    interval at which the rows are fetched again, in milliseconds. *)
Record ytable := YTable {
  yt_url : string;
  yt_schema : schema;
  yt_columns : list column;
  yt_rows : option nat;
  yt_sorted : option string;
  yt_poll : option Z
}.

Section tables.
Context `{DataSource}.

(** What YUI writes in a cell without a formatter; [toLocaleString] of a date. *)
Context (default_cell : val -> string) (date_text : val -> string).

Definition data_column (k label : string) : column :=
  Column label (fun rec => let? v := prop rec k in Ok (default_cell v)).

(** A formatter that puts a button into the cell. *)
Definition button_column (label text : string) : column := Column label (fun _ => Ok text).

Definition number (k : string) : string * bool := (k, true).
Definition text (k : string) : string * bool := (k, false).

(** Two fields with something between them. *)
Definition pair_column (label a between b : string) : column :=
  Column label (fun rec => let? x := prop rec a in let? y := prop rec b in Ok (to_string x +:+ between +:+ to_string y)).

Definition makeConfigTable : ytable :=
  YTable (admin_url "get_diffs") (Schema (fields ["node_id"; "name"; "pending_diff"]) [])
    [data_column "node_id" "NodeId"; data_column "name" "Switch";
     Column "State" (fun rec => let? v := prop rec "pending_diff" in Ok (state_formatter v))]
    None (Some "name") (Some 15000%Z).

Definition remote_dev_table : ytable :=
  YTable (admin_url "get_remote_devices")
    (Schema [number "node_id"; text "name"; text "network"; number "latitude"; number "longitude"] ["error"])
    [data_column "network" "Network"; data_column "name" "Device"; pair_column "Lat / Long" "latitude" " / " "longitude"]
    (Some 10) None None.

Definition remote_link_table : ytable :=
  YTable (admin_url "get_remote_links")
    (Schema [number "link_id"; text "link_name"; text "node"; text "interface"; text "interface_id"; text "urn";
             text "vlan_tag_range"] ["error"])
    [pair_column "Endpoint" "node" " - " "interface"; data_column "urn" "URN"; data_column "vlan_tag_range" "Vlan Range";
     button_column "Delete" "Remove"; button_column "Edit" "Edit"]
    (Some 10) None None.

(** The interfaces offered for a new remote link. *)
Definition remote_interface_table (node : string) : ytable :=
  YTable ("../services/data.cgi?method=get_node_interfaces&node=" +:+ encodeURIComponent node +:+ "&show_down=1")
    (Schema [text "name"; text "description"; text "vlan_tag_range"; number "interface_id"] ["error"])
    [data_column "name" "Local Interface"] None None None.

(** The interfaces offered to a workgroup: the role is only fetched and shown for
    the admin workgroup, where the third field and the third column are kept. *)
Definition new_interface_table (node : string) (workgroup_type : val) : ytable :=
  let admin := strict_eq workgroup_type (VStr "admin") in
  let role := Column "Role" (fun rec => let? v := prop rec "int_role" in
                                        Ok (if strict_eq v (VStr "unknown") then "Endpoint" else "Trunk")) in
  let fs := [text "name"; text "description"; text "int_role"; number "interface_id"] in
  let cols := [data_column "name" "Interface"; data_column "description" "Description"; role] in
  YTable (node_interfaces_url node workgroup_type)
    (Schema (if admin then fs else splice1 2 fs) ["error"]) (if admin then cols else splice1 2 cols) None None None.

(** The formatter of a range of VLANs in the interface table. *)
Definition range_cell (k : string) (rec : val) : res string :=
  let? role := prop rec "int_role" in
  if loose_eq role (VStr "trunk") then Ok "TRUNK" else let? v := prop rec k in Ok (to_string v).

Definition make_node_intf_table (node : string) : ytable :=
  YTable ("../services/data.cgi?method=get_node_interfaces&show_down=1&show_trunk=1&node=" +:+ encodeURIComponent node)
    (Schema [text "name"; text "description"; text "vlan_tag_range"; text "short_name"; text "mpls_vlan_tag_range";
             number "interface_id"; number "workgroup_id"; text "workgroup_name"; text "int_role"] ["error"])
    [data_column "name" "Interface"; data_column "description" "Description";
     Column "VLAN Tags" (range_cell "vlan_tag_range"); Column "MPLS VLAN Tags" (range_cell "mpls_vlan_tag_range");
     Column "Workgroup" (fun rec => let? v := prop rec "workgroup_name" in
                                    Ok (if strict_eq v VNull then "None" else to_string v));
     button_column "Actions" "Actions"]
    (Some 3) None None.

(** The tables of maintenances: [rec._oData.node.name] and the epoch as a date. *)
Definition maintenance_columns (obj label : string) (more : list column) : list column :=
  Column label (fun rec => let? o := prop rec obj in let? n := prop o "name" in Ok (to_string n))
  :: more ++
  [Column "Activated On" (fun rec => let? t := prop rec "start_epoch" in Ok (date_text t));
   button_column "Complete" "Complete"].

Definition maintenance_schema (obj : string) : schema :=
  Schema [text obj; number "description"; number "start_epoch"; number "end_epoch"; number "maintenance_id"] [].

Definition makeNodeMaintenanceTable : ytable :=
  YTable (maintenance_url "nodes") (maintenance_schema "node")
    (maintenance_columns "node" "Node" [data_column "description" "Description"]) (Some 10) None None.

Definition makeLinkMaintenanceTable : ytable :=
  YTable (maintenance_url "links") (maintenance_schema "link") (maintenance_columns "link" "Link" []) (Some 10) None None.

Definition makeOwnedInterfaceTable (id : val) : ytable :=
  YTable ("../services/data.cgi?method=get_workgroup_interfaces&workgroup_id=" +:+ to_string id)
    (Schema [number "node_id"; number "interface_id"; text "description"; text "node_name"; text "interface_name"] [])
    [data_column "node_name" "Endpoint"; data_column "interface_name" "Interface"; data_column "description" "Description";
     button_column "Remove" "Remove"]
    (Some 10) (Some "node_name") None.

(** Members can be removed only where workgroups are not managed by a third party. *)
Definition makeWorkgroupUserTable (third_party_mgmt : string) (id : val) : ytable :=
  YTable (admin_url "get_users_in_workgroup&workgroup_id=" +:+ to_string id)
    (Schema [number "user_id"; text "first_name"; text "last_name"; text "email_address"; text "auth_name"] [])
    (Column "Name" member_name :: if String.eqb third_party_mgmt "n" then [button_column "Remove" "Remove"] else [])
    (Some 10) None None.

Definition makeUserTable : ytable :=
  YTable (admin_url "get_users")
    (Schema [number "user_id"; text "first_name"; text "family_name"; text "email_address"; text "auth_name"; text "type";
             text "status"] [])
    [data_column "first_name" "First Name"; data_column "family_name" "Last Name"; data_column "auth_name" "Username";
     data_column "email_address" "Email Address"; data_column "type" "User Type"; data_column "status" "User Status"]
    (Some 10) (Some "first_name") None.

Definition workgroup_fields : list (string * bool) :=
  [number "workgroup_id"; text "name"; text "description"; text "external_id"; text "max_mac_address_per_end";
   text "max_circuit_endpoints"; text "max_circuits"].

Definition makeUserWorkgroupTable (user_id : val) : ytable :=
  YTable (admin_url "get_workgroups&user_id=" +:+ to_string user_id) (Schema workgroup_fields [])
    [data_column "name" "Name"; button_column "Remove" "Remove"] (Some 10) (Some "name") None.

(** The workgroups offered to a user. *)
Definition add_user_workgroup_table : ytable :=
  YTable (admin_url "get_workgroups") (Schema workgroup_fields []) [data_column "name" "Name"] (Some 10) (Some "name") None.

Definition makeWorkgroupTable : ytable :=
  YTable (admin_url "get_workgroups")
    (Schema [number "workgroup_id"; text "name"; text "type"; text "description"; text "external_id";
             text "max_mac_address_per_end"; text "max_circuit_endpoints"; text "max_circuits"] [])
    [data_column "name" "Name"] (Some 10) (Some "name") None.

Definition makePendingNodeTable : ytable :=
  YTable (admin_url "get_pending_nodes")
    (Schema [number "node_id"; text "dpid"; text "ip_address"; text "longitude"; text "latitude"; text "name";
             text "vlan_range"] [])
    [data_column "name" "Name";
     Column "Datapath ID" (fun rec => let? v := prop rec "dpid" in dpid_string v);
     data_column "ip_address" "IPv4 Address"]
    (Some 10) None (Some 15000%Z).

(** [endpoints[i].node + ' - ' + endpoints[i].interface] *)
Definition endpoint_column (label : string) (i : nat) : column :=
  Column label (fun rec => let? es := prop rec "endpoints" in let? e := index es i in
                           let? n := prop e "node" in let? f := prop e "interface" in
                           Ok (to_string n +:+ " - " +:+ to_string f)).

Definition makePendingLinkTable : ytable :=
  YTable (admin_url "get_pending_links") (Schema [number "link_id"; text "name"; text "endpoints"] [])
    [endpoint_column "Endpoint A" 0; endpoint_column "Endpoint Z" 1] (Some 10) None (Some 15000%Z).

(** ** What a table shows *)

(** The cells of the rows, for the outcome of a request. *)
Definition table_cells (t : ytable) (o : outcome) : res (list (list string)) :=
  match ds_reply (yt_schema t) o with
  | Failure => Ok []
  | Success results _ => res_map (fun rec => res_map (fun c => co_cell c rec) (yt_columns t)) results
  end.

Lemma res_fold_map {A B C} (f : A -> C -> res A) (g : B -> C) l : forall a,
  res_fold f a (map g l) = res_fold (fun a b => f a (g b)) a l.
Proof. induction l as [|b l IH]; intros a; [done|]. cbn [map res_fold]. by destruct (f a (g b)); [apply IH|]. Qed.

Lemma res_map_map {A B C} (f : B -> res C) (g : A -> B) l : res_map f (map g l) = res_map (fun a => f (g a)) l.
Proof. unfold res_map. by rewrite res_fold_map. Qed.

(** One row of cells for each element of the reply, in order. *)
Lemma table_lines `{!DataSourceLaws} t doc rows :
  obj_get "results" doc = Some (VArr (map VObj rows)) ->
  table_cells t (OJson (VObj doc)) =
  res_map (fun row => res_map (fun c => co_cell c (ds_row (yt_schema t) row)) (yt_columns t)) rows.
Proof.
  intros Hd. unfold table_cells. rewrite (reply_rows _ _ _ Hd). by rewrite res_map_map.
Qed.

(** The description of a maintenance is read as a number, so that a text is lost. *)
Lemma maintenance_description_lost `{!DataSourceLaws} row s :
  obj_get "description" row = Some (VStr s) -> string_to_num s = NaN ->
  co_cell (data_column "description" "Description") (ds_row (yt_schema makeNodeMaintenanceTable) row) = Ok (default_cell VNull).
Proof.
  intros Hr Hs. cbn [co_cell data_column]. unfold ds_row. cbn. rewrite Hr. cbn. by rewrite parse_number_other.
Qed.

End tables.

(** ** Editing an interface *)

Section editing.
Context `{DataSource}.

(** The handler of a click on a cell: whether the editor of the column [k] opens. *)
Definition cell_editor_opens (k : string) (rec : val) : res bool :=
  if String.eqb k "description" then Ok true
  else if String.eqb k "vlan_tag_range" || String.eqb k "mpls_vlan_tag_range"
  then let? html := range_cell k rec in Ok (negb (String.eqb html "TRUNK"))
  else Ok false.

(** The address of the update of the field [k]. *)
Definition update_interface_url (k : string) (interface_id : val) (newValue : string) : string :=
  admin_url "update_interface&interface_id=" +:+ to_string interface_id +:+ "&" +:+ k +:+ "=" +:+ encodeURIComponent newValue.

(** [asyncSubmitter]: the answer is parsed and not looked at; the table is made again
    from the server, and only a failure goes back to the old value. *)
Definition asyncSubmitter (k : string) (interface_id oldValue : val) (newValue : string) : io unit :=
  Fetch (Req false (update_interface_url k interface_id newValue) []) (fun o =>
    match o with
    | ONetFail | OHttp _ _ => Act (ACall "editor" "callback" [VBool false; oldValue]) done_
    | OBadJson => Raise ESyntax
    | OJson _ => acts [call "table" "destroy"; call "table" "make_node_intf_table"] done_
    end).

(** The ranges of a trunk cannot be edited, those of any other interface can. *)
Lemma trunk_not_edited o k s :
  k ∈ ["vlan_tag_range"; "mpls_vlan_tag_range"] -> obj_get "int_role" o = Some (VStr s) ->
  obj_get k o <> Some (VStr "TRUNK") -> (forall v, obj_get k o = Some v -> exists t, v = VStr t) -> is_Some (obj_get k o) ->
  cell_editor_opens k (VObj o) = Ok (negb (String.eqb s "trunk")).
Proof.
  intros Hk Hs Hne Ht [v Hv]. destruct (Ht v Hv) as [t ->]. unfold cell_editor_opens, range_cell. cbn [prop res_bind]. rewrite Hs, Hv.
  assert (String.eqb t "TRUNK" = false) as E by (apply String.eqb_neq; by intros ->).
  rewrite !elem_of_cons, elem_of_nil in Hk. destruct Hk as [->|[->|[]]]; cbn [String.eqb Ascii.eqb Bool.eqb orb default from_option id loose_eq];
    destruct (String.eqb s "trunk"); cbn [res_bind to_string]; by rewrite ?E.
Qed.

(** An edit of an interface sends one request, from which the service reads the
    interface and exactly the text the user typed for exactly that field; after it
    the table is made again, or the editor gets the old value back. *)
Theorem interface_edit_delivered {S} (w : env S) k id old new s :
  k ∈ ["description"; "vlan_tag_range"; "mpls_vlan_tag_range"] -> utf8_valid new = true ->
  exists url,
    requests (run_trace w (asyncSubmitter k (VInt id) old new) s) = [Req false url []] /\
    decoded_query url = Some [("method", "update_interface"); ("interface_id", string_of_Z id); (k, new)] /\
    match snd (server w s (Req false url [])) with
    | OJson _ => run_trace w (asyncSubmitter k (VInt id) old new) s =
                 [EvFetch (Req false url []); EvAct (call "table" "destroy"); EvAct (call "table" "make_node_intf_table")]
    | OBadJson => run_result w (asyncSubmitter k (VInt id) old new) s = Err ESyntax
    | _ => run_trace w (asyncSubmitter k (VInt id) old new) s =
           [EvFetch (Req false url []); EvAct (ACall "editor" "callback" [VBool false; old])]
    end.
Proof.
  intros Hk Hnew. exists (update_interface_url k (VInt id) new). unfold asyncSubmitter, run_trace, run_result. cbn [run].
  destruct (server w s _) as [s1 o]. split; [|split].
  - by destruct o.
  - rewrite <-(admin_query "../services/admin/admin.cgi" "update_interface" [("interface_id", string_of_Z id); (k, new)]); [|done|done|].
    + f_equal. unfold update_interface_url, admin_url. cbn [escaped map fst snd amp to_string num_to_string dec_norm dec_strip dman dscale].
      rewrite (unreserved_encode (string_of_Z id)) by apply int_unreserved. by rewrite ?str_app_nil_r, ?str_app_assoc.
    + assert (plain k = true) by (rewrite !elem_of_cons, elem_of_nil in Hk; by destruct Hk as [->|[->|[->|[]]]]).
      unfold params_ok. repeat constructor; cbn [fst snd]; try done. apply unreserved_utf8, int_unreserved.
  - by destruct o.
Qed.

End editing.

Lemma interface_edit_delivered_witness :
  exists url,
    requests (run_trace (const_server ONetFail) (asyncSubmitter "vlan_tag_range" (VInt 41) (VStr "1-9") "1-99,200") tt)
      = [Req false url []] /\
    decoded_query url = Some [("method", "update_interface"); ("interface_id", "41"); ("vlan_tag_range", "1-99,200")] /\
    run_trace (const_server ONetFail) (asyncSubmitter "vlan_tag_range" (VInt 41) (VStr "1-9") "1-99,200") tt =
      [EvFetch (Req false url []); EvAct (ACall "editor" "callback" [VBool false; VStr "1-9"])].
Proof.
  exact (interface_edit_delivered (const_server ONetFail) "vlan_tag_range" 41 (VStr "1-9") "1-99,200" tt
           ltac:(set_solver) eq_refl).
Defined.

(** ** Searching while the user types *)

(** The timers that are running with the text each will search for, the identifier the
    page kept, and the searches made so far. *)
Record search := Search {
  se_timers : list (nat * string);
  se_kept : option nat;
  se_next : nat;
  se_done : list string
}.

Definition new_search : search := Search [] None 1 [].

Definition clear_timeout (id : option nat) (timers : list (nat * string)) : list (nat * string) :=
  match id with Some n => filter (fun t => t.1 <> n) timers | None => timers end.

Inductive search_event :=
  | Key (value : string)
  | Enter (value : string)
  | TimerFires (k : nat).

Definition search_fires (k : nat) (s : search) : search :=
  match se_timers s !! k with
  | Some t => Search (delete k (se_timers s)) (se_kept s) (se_next s) (se_done s ++ [t.2])
  | None => s
  end.

(** The search of [makeWorkgroupTable]. *)
Definition workgroup_search (s : search) (e : search_event) : search :=
  match e with
  | Enter value => Search (clear_timeout (se_kept s) (se_timers s)) (se_kept s) (se_next s) (se_done s ++ [value])
  | Key value =>
      Search (clear_timeout (se_kept s) (se_timers s) ++ [(se_next s, value)]) (Some (se_next s)) (S (se_next s)) (se_done s)
  | TimerFires k => search_fires k s
  end.

(** The search among the users for a workgroup tests one variable and sets another:
    no timer is ever stopped. *)
Definition wg_user_search (s : search) (e : search_event) : search :=
  match e with
  | Enter value => Search (se_timers s) (se_kept s) (se_next s) (se_done s ++ [value])
  | Key value => Search (se_timers s ++ [(se_next s, value)]) (se_kept s) (S (se_next s)) (se_done s)
  | TimerFires k => search_fires k s
  end.

(** What the box holds after the events. *)
Definition typed (l : list search_event) : option string :=
  foldl (fun v e => match e with Key value | Enter value => Some value | TimerFires _ => v end) None l.

(** Either the search for what the box holds is waiting, and no other, or it was the
    last one made. *)
Definition search_ok (v : option string) (s : search) : Prop :=
  (exists n x, v = Some x /\ se_timers s = [(n, x)] /\ se_kept s = Some n) \/
  (se_timers s = [] /\ list.last (se_done s) = v).

Lemma search_cleared v s : search_ok v s -> clear_timeout (se_kept s) (se_timers s) = [].
Proof.
  intros [(n & x & _ & Ht & Hk)|[Ht _]]; rewrite Ht; [|by destruct (se_kept s)]. rewrite Hk. cbn [clear_timeout].
  rewrite filter_cons_False by (cbn; intros Hne; by apply Hne). done.
Qed.

(** The workgroup search waits for the user to stop typing: there is never more
    than one search waiting, it is for what the box holds, and when none is waiting
    the last one made was for what the box holds. *)
Theorem search_settles l :
  let s := foldl workgroup_search new_search l in
  length (se_timers s) <= 1 /\
  (forall t, t ∈ se_timers s -> Some t.2 = typed l) /\
  (se_timers s = [] -> list.last (se_done s) = typed l).
Proof.
  assert (H : search_ok (typed l) (foldl workgroup_search new_search l)).
  { unfold typed. assert (H0 : search_ok None new_search) by (right; done). revert H0. generalize (@None string) new_search.
    induction l as [|e l IH]; intros v s Hs; [done|]. cbn [foldl]. apply IH. destruct e as [x|x|k]; cbn [workgroup_search].
    - left. exists (se_next s), x. cbn. by rewrite (search_cleared v s Hs).
    - right. cbn. rewrite (search_cleared v s Hs), list.last_snoc. done.
    - unfold search_fires. destruct (se_timers s !! k) as [t|] eqn:Ek; [|done].
      destruct Hs as [(n & x & -> & Ht & Hk)|[Ht _]]; [|by rewrite Ht in Ek].
      rewrite Ht in Ek. destruct k as [|k]; [|done]. injection Ek as <-. right. cbn. rewrite Ht, list.last_snoc. done. }
  cbn zeta. destruct H as [(n & x & -> & -> & _)|[-> Hd]]; repeat split; try done; cbn; try lia.
  - intros t ->%list_elem_of_singleton. done.
  - set_solver.
Qed.

(** The other search: a search that was waiting when the user pressed enter is made
    after it, for an older text. *)
Lemma stale_user_search :
  let s := foldl wg_user_search new_search [Key "a"; Key "ab"; Enter "ab"; TimerFires 0] in
  se_done s = ["ab"; "a"] /\ length (se_timers s) = 1.
Proof. done. Qed.

(** ** The form that moves a configuration *)

Inductive selector_type := NodeSelector | OintSelector | NintSelector.

#[export] Instance selector_type_eq_dec : EqDecision selector_type.
Proof. solve_decision. Defined.

(** A list: the values and names of its options, the selected index, the message. *)
Record selector := Selector { sl_options : list (val * string); sl_selected : nat; sl_placeholder : string }.

(** [config]: the node and the interface the form is opened for; a list is there only
    when what it selects is not given. *)
Record move_config := MoveConfig { cf_node : option string; cf_orig : option val }.

Record move_form := MoveForm {
  mv_node : option selector;
  mv_oint : option selector;
  mv_nint : option selector;
  mv_pending : list (list selector_type * string)
}.

Definition get_selector (t : selector_type) (f : move_form) : option selector :=
  match t with NodeSelector => mv_node f | OintSelector => mv_oint f | NintSelector => mv_nint f end.

(** A change of a list that is not in the page changes nothing. *)
Definition on_selector (t : selector_type) (g : selector -> selector) (f : move_form) : move_form :=
  match t with
  | NodeSelector => MoveForm (g <$> mv_node f) (mv_oint f) (mv_nint f) (mv_pending f)
  | OintSelector => MoveForm (mv_node f) (g <$> mv_oint f) (mv_nint f) (mv_pending f)
  | NintSelector => MoveForm (mv_node f) (mv_oint f) (g <$> mv_nint f) (mv_pending f)
  end.

(** [$('#...').chosen().val()]: a list without options has the value null. *)
Definition selector_val (s : option selector) : val :=
  match s with
  | Some s => default VNull (fst <$> sl_options s !! sl_selected s)
  | None => VUndef
  end.

Definition updatePlaceholder (t : selector_type) (msg : string) : move_form -> move_form :=
  on_selector t (fun s => Selector (sl_options s) (sl_selected s) msg).

(** [getOptions]: the request for the nodes, or for the interfaces of a node. *)
Definition getOptions (types : list selector_type) (node : val) (f : move_form) : move_form :=
  let url := if bool_decide (types = [NodeSelector]) then "../services/data.cgi?method=get_nodes"
             else "../services/data.cgi?method=get_node_interfaces&show_down=1&show_trunk=0&node=" +:+ to_string node in
  MoveForm (mv_node f) (mv_oint f) (mv_nint f) (mv_pending f ++ [(types, url)]).

(** [addOptions] without the change event it triggers. *)
Definition put_options (t : selector_type) (options : option (list (val * string))) : move_form -> move_form :=
  on_selector t (fun s =>
    match options with
    | None => Selector [] 0 "Loading..."
    | Some l => Selector (sl_options s ++ l) (sl_selected s) "Choose One"
    end).

(** The handler of a change of the node: the interfaces are cleared and requested. *)
Definition node_changed (f : move_form) : move_form :=
  match mv_node f with
  | None => f
  | Some s =>
      let f := put_options NintSelector None (put_options OintSelector None f) in
      getOptions [OintSelector; NintSelector] (selector_val (Some s)) f
  end.

Definition addOptions (t : selector_type) (options : option (list (val * string))) (f : move_form) : move_form :=
  let f := put_options t options f in
  if bool_decide (t = NodeSelector) then node_changed f else f.

(** The options of a reply: [None] is an error. *)
Definition reply_options (types : list selector_type) (r : reply) : res (option (list (val * string))) :=
  let key := if bool_decide (types = [NodeSelector]) then "name" else "interface_id" in
  match r with
  | Failure => Ok None
  | Success results meta =>
      if truthy (meta_of meta "error") then Ok None
      else let? l := res_map (fun row => let? v := prop row key in let? n := prop row "name" in Ok (v, to_string n)) results in
           Ok (Some l)
  end.

Definition options_received (types : list selector_type) (r : reply) (f : move_form) : move_form :=
  match reply_options types r with
  | Err _ => f
  | Ok None => foldl (fun f t => updatePlaceholder t "Data Error" f) f types
  | Ok (Some l) => foldl (fun f t => addOptions t (Some l) (addOptions t None f)) f types
  end.

Inductive move_event :=
  | OptionsReply (i : nat) (r : reply)
  | Pick (t : selector_type) (k : nat).

(** Choosing an option of a list; for the node the handler runs. *)
Definition pick (t : selector_type) (k : nat) (f : move_form) : move_form :=
  let f := on_selector t (fun s => Selector (sl_options s) k (sl_placeholder s)) f in
  if bool_decide (t = NodeSelector) then node_changed f else f.

Definition move_step (f : move_form) (e : move_event) : move_form :=
  match e with
  | OptionsReply i r =>
      match mv_pending f !! i with
      | Some (types, _) =>
          options_received types r (MoveForm (mv_node f) (mv_oint f) (mv_nint f) (delete i (mv_pending f)))
      | None => f
      end
  | Pick t k => pick t k f
  end.

(** [markup] and [init] of [getMoveConfigurationForm]. *)
Definition getMoveConfigurationForm (c : move_config) : move_form :=
  let fresh := Selector [] 0 "Loading..." in
  let f := MoveForm (if is_none (cf_node c) then Some fresh else None) (if is_none (cf_orig c) then Some fresh else None)
             (Some fresh) [] in
  match cf_node c with
  | Some node => getOptions (NintSelector :: if is_none (cf_orig c) then [OintSelector] else []) (VStr node) f
  | None => getOptions [NodeSelector] VUndef f
  end.

(** [val()] of the form. *)
Definition move_val (c : move_config) (f : move_form) : val * val :=
  (match cf_orig c with Some v => v | None => selector_val (mv_oint f) end, selector_val (mv_nint f)).

Definition move_run (c : move_config) (l : list move_event) : move_form := foldl move_step (getMoveConfigurationForm c) l.

(** *** The two lists of interfaces *)

Definition options_of (s : option selector) : list (val * string) := match s with Some s => sl_options s | None => [] end.

(** Requests are for the nodes or for both lists, and both lists have the same
    options. *)
Definition lists_agree (f : move_form) : Prop :=
  is_Some (mv_oint f) /\ is_Some (mv_nint f) /\ options_of (mv_oint f) = options_of (mv_nint f) /\
  forall types url, (types, url) ∈ mv_pending f ->
    types = [NodeSelector] \/ types = [OintSelector; NintSelector] \/ types = [NintSelector; OintSelector].

Lemma node_changed_agree f : lists_agree f -> lists_agree (node_changed f).
Proof.
  intros (Ho & Hn & He & Hp). unfold node_changed. destruct (mv_node f) as [s|]; [|done].
  destruct f as [n o i p]. cbn in *. destruct Ho as [? ->], Hn as [? ->]. repeat split; try by eexists. cbn.
  intros types url [Hin|Hin]%elem_of_app; [by eapply Hp|]. apply list_elem_of_singleton in Hin. injection Hin as -> _. auto.
Qed.

Lemma node_options_agree o f : lists_agree f -> lists_agree (addOptions NodeSelector o f).
Proof. intros H. unfold addOptions. rewrite bool_decide_eq_true_2 by done. by apply node_changed_agree. Qed.

Lemma both_filled_agree l f : lists_agree f ->
  lists_agree (foldl (fun f t => addOptions t (Some l) (addOptions t None f)) f [OintSelector; NintSelector]) /\
  lists_agree (foldl (fun f t => addOptions t (Some l) (addOptions t None f)) f [NintSelector; OintSelector]).
Proof.
  intros (Ho & Hn & He & Hp). destruct f as [n o i p]. cbn in *. destruct Ho as [? ->], Hn as [? ->].
  split; (repeat split; try by eexists); done.
Qed.

Lemma placeholders_agree m ts f : lists_agree f -> lists_agree (foldl (fun f t => updatePlaceholder t m f) f ts).
Proof.
  revert f. induction ts as [|t ts IH]; intros f Hf; [done|]. cbn [foldl]. apply IH. destruct Hf as (Ho & Hn & He & Hp).
  destruct f as [n o i p]. cbn in *. destruct Ho as [? ->], Hn as [? ->]. destruct t; (repeat split; try by eexists); done.
Qed.

Lemma move_step_agree f e : lists_agree f -> lists_agree (move_step f e).
Proof.
  intros Hf. destruct e as [i r|t k]; cbn [move_step].
  - destruct (mv_pending f !! i) as [[types url]|] eqn:Ei; [|done].
    destruct Hf as (Ho & Hn & He & Hp). pose proof (Hp types url (list_elem_of_lookup_2 _ _ _ Ei)) as Hty.
    set (f1 := MoveForm _ _ _ _). assert (Hf1 : lists_agree f1).
    { repeat split; [done..|]. cbn. intros ts u Hin. eapply Hp, elem_of_sublist; [exact Hin|apply sublist_delete]. }
    unfold options_received. destruct (reply_options types r) as [[l|]|]; [|by apply placeholders_agree|done].
    destruct Hty as [->|[->| ->]];
      [exact (node_options_agree (Some l) _ (node_options_agree None f1 Hf1))
      |exact (proj1 (both_filled_agree l f1 Hf1))|exact (proj2 (both_filled_agree l f1 Hf1))].
  - unfold pick. destruct Hf as (Ho & Hn & He & Hp). destruct f as [n o i p]. cbn in *. destruct Ho as [? ->], Hn as [? ->].
    destruct t; cbn [on_selector].
    + rewrite bool_decide_eq_true_2 by done. apply node_changed_agree. repeat split; try by eexists; done. all: done.
    + rewrite bool_decide_eq_false_2 by done. repeat split; try by eexists; done. all: done.
    + rewrite bool_decide_eq_false_2 by done. repeat split; try by eexists; done. all: done.
Qed.

(** However the replies interleave and whatever the user picks, the list of the
    original interface and the list of the new one always offer the same interfaces,
    so that a configuration is never moved between the interfaces of two nodes. *)
Theorem move_lists_agree node l :
  let f := move_run (MoveConfig node None) l in
  options_of (mv_oint f) = options_of (mv_nint f).
Proof.
  cbn zeta. assert (H : lists_agree (move_run (MoveConfig node None) l)); [|apply H].
  unfold move_run. assert (H0 : lists_agree (getMoveConfigurationForm (MoveConfig node None))).
  { destruct node; repeat split; try by eexists. all: cbn; intros types url Hin%list_elem_of_singleton; injection Hin as -> _; auto. }
  revert H0. generalize (getMoveConfigurationForm (MoveConfig node None)). induction l as [|e l IH]; intros f Hf; [done|].
  by apply IH, move_step_agree.
Qed.

(** *** The form as the page opens it *)

Definition interface_row (id : Z) (name : string) : val := VObj [("name", VStr name); ("interface_id", VInt id)].

Lemma reply_options_rows rows meta :
  truthy (meta_of meta "error") = false ->
  reply_options [NintSelector] (Success (map (fun r => interface_row r.1 r.2) rows) meta) =
  Ok (Some (map (fun r => (VInt r.1, r.2)) rows)).
Proof.
  intros Hm. unfold reply_options. rewrite Hm, bool_decide_eq_false_2 by done.
  assert (res_map (fun row => let? v := prop row "interface_id" in let? n := prop row "name" in Ok (v, to_string n))
            (map (fun r => interface_row r.1 r.2) rows) = Ok (map (fun r => (VInt r.1, r.2)) rows)) as ->; [|done].
  rewrite res_map_map. unfold res_map. cut (forall acc, res_fold (fun acc (x : Z * string) => let? y := (let? v := prop (interface_row x.1 x.2) "interface_id" in let? n := prop (interface_row x.1 x.2) "name" in Ok (v, to_string n)) in Ok (acc ++ [y])) acc rows = Ok (acc ++ map (fun r => (VInt r.1, r.2)) rows)); [intros E; apply (E [])|].
  induction rows as [|r rows IH]; intros acc; [by rewrite app_nil_r|]. cbn [map res_fold]. cbn. rewrite IH. by rewrite <-app_assoc.
Qed.

(** For a given node and interface the form asks once, for the interfaces of that
    node; when they have arrived and the user picks one of them, what the apply button
    submits is the given interface and exactly the one picked. *)
Theorem move_form_submits node orig rows meta k id name :
  truthy (meta_of meta "error") = false -> rows !! k = Some (id, name) ->
  let c := MoveConfig (Some node) (Some orig) in
  mv_pending (move_run c []) =
    [([NintSelector], "../services/data.cgi?method=get_node_interfaces&show_down=1&show_trunk=0&node=" +:+ node)] /\
  let f := move_run c [OptionsReply 0 (Success (map (fun r => interface_row r.1 r.2) rows) meta); Pick NintSelector k] in
  move_val c f = (orig, VInt id) /\ mv_pending f = [].
Proof.
  intros Hm Hk. cbn zeta. split; [done|]. unfold move_run. cbn [foldl move_step]. cbn [getMoveConfigurationForm cf_node cf_orig is_none getOptions mv_pending mv_node mv_oint mv_nint app lookup list_lookup].
  unfold options_received. rewrite reply_options_rows by done. cbn -[bool_decide]. unfold addOptions, pick. rewrite !bool_decide_eq_false_2 by done.
  cbn. unfold move_val. cbn. rewrite list_lookup_fmap, Hk. done.
Qed.

Lemma move_form_submits_witness :
  let c := MoveConfig (Some "mx1") (Some (VInt 41)) in
  mv_pending (move_run c []) =
    [([NintSelector], "../services/data.cgi?method=get_node_interfaces&show_down=1&show_trunk=0&node=mx1")] /\
  let f := move_run c [OptionsReply 0 (Success (map (fun r => interface_row r.1 r.2) [(42%Z, "xe-0/0/1"); (43%Z, "xe-0/0/2")]) []);
                       Pick NintSelector 1] in
  move_val c f = (VInt 41, VInt 43) /\ mv_pending f = [].
Proof.
  exact (move_form_submits "mx1" (VInt 41) [(42%Z, "xe-0/0/1"); (43%Z, "xe-0/0/2")] [] 1 43 "xe-0/0/2" eq_refl eq_refl).
Defined.
