(* ===== verification/Home.v ===== *)
(** * The home page (js_templates/index.js) and its table search (utility.js)

    The table of circuits with its three filters, the check of the circuit
    limit, the status columns, the request that asks for a new user.  Tables are
    those of [Tables]: anything with the documented behaviour of a YUI table. *)

From Stdlib Require Import ZArith Lia Ascii String.
From stdpp Require Import base option list sets strings numbers tactics.
From S2P Require Import Prelude JsValue JsJson Fetch Api Provision Checks DataSource Console Tables.

(** ** Search (utility.js, table_filter) *)

(** [new RegExp(text, 'i').exec]: the tests of the expressions a user may type;
    [None] for a text that is not an expression (a SyntaxError). *)
Class SearchExpr := { search_expr : string -> option (string -> bool) }.

Section search.
Context `{SearchExpr}.

(** Whether one of the columns of a row matches; columns without a key read
    [undefined]. *)
Definition row_matches (test : string -> bool) (columns : list string) (row : val) : res bool :=
  res_fold (fun (found : bool) c => if found then Ok true else let? v := prop row c in Ok (test (to_string v)))
    false columns.

Fixpoint res_filter (p : val -> res bool) (l : list val) : res (list val) :=
  match l with
  | [] => Ok []
  | x :: l' => let? b := p x in let? r := res_filter p l' in Ok (if b then x :: r else r)
  end.

(** The rows shown after a search in the rows the table has cached. *)
Definition table_filter (cache : option (list val)) (columns : list string) (search_term : string)
    (shown : list val) : res (list val) :=
  match cache with
  | None => Ok shown
  | Some rows =>
      match search_term with
      | EmptyString => Ok rows
      | _ =>
          match search_expr search_term with
          | None => Err ESyntax
          | Some test => res_filter (row_matches test columns) rows
          end
      end
  end.

End search.

(** ** The filter of VLANs *)

(** [$.each(tags, ...)]: the tags without repetitions, in order of appearance. *)
Definition add_tag (unique : list val) (tag : val) : list val :=
  if existsb (strict_eq tag) unique then unique else unique ++ [tag].
Definition unique_tags (tags : list val) : list val := foldl add_tag [] tags.

(** The tags of the endpoints of all circuits. *)
Definition all_tags (circuits : list val) : res (list val) :=
  let? l := res_map (fun c => let? eps := prop c "endpoints" in
                     let? es := elements_of eps in res_map (fun e => prop e "tag") es) circuits in
  Ok (concat l).

(** The entries of the list of VLANs. *)
Definition vlan_entries (circuits : list val) : res (list val) :=
  let? tags := all_tags circuits in Ok (unique_tags tags).

(** The address of the circuits for the selected nodes. *)
Definition selected_args (key : string) (values : list string) : string :=
  str_concat (map (fun v => "&" +:+ key +:+ "=" +:+ v) values).
Definition circuits_url (workgroup_id : val) (endpoint_nodes path_nodes : list string) : string :=
  "services/data.cgi?method=get_existing_circuits&workgroup_id=" +:+ to_string workgroup_id
  +:+ selected_args "endpoint_node_id" endpoint_nodes +:+ selected_args "path_node_id" path_nodes.

(** Whether an endpoint of a record has one of the selected tags. *)
Definition keeps (selected : list string) (record : val) : res bool :=
  let? eps := prop record "endpoints" in
  let? es := elements_of eps in
  let? tags := res_map (fun e => prop e "tag") es in
  Ok (existsb (fun t => existsb (fun s => loose_eq (VStr s) t) selected) tags).

Section vlan_filter.
Context {T : Type} `{DataTable T}.

(** The indices of the rows to delete, in the order of the rows. *)
Fixpoint offending (selected : list string) (i : nat) (rows : list (string * val)) : res (list Z) :=
  match rows with
  | [] => Ok []
  | (_, record) :: rows' =>
      let? keep := keeps selected record in
      let? r := offending selected (S i) rows' in
      Ok (if keep then r else Z.of_nat i :: r)
  end.

(** The loop that deletes them: the row at the [r]-th index, then every index
    is decremented. *)
Fixpoint delete_loop (n r : nat) (rows_to_delete : list Z) (t : T) : T :=
  match n with
  | O => t
  | S n' =>
      delete_loop n' (S r) (map Z.pred rows_to_delete)
        (deleteRow (Z.to_nat (nth r rows_to_delete 0%Z)) t)
  end.

Definition filter_vlans (selected : list string) (t : T) : res T :=
  match selected with
  | [] => Ok t
  | _ =>
      let? l := offending selected 0 (tb_rows t) in
      Ok (delete_loop (length l) 0 l t)
  end.

(** The bandwidth written after rows were deleted: the sum starts undefined. *)
Definition filtered_bandwidth (t : T) : res string :=
  let? l := res_map (fun r => prop (snd r) "bandwidth") (tb_rows t) in
  Ok (match l with
      | [] => "undefined"
      | _ => num_to_string (foldl (fun s v => num_add s (to_number v)) NaN l)
      end).

End vlan_filter.

(** ** Totals *)

(** The totals of the circuits that arrived: their number and their bandwidth. *)
Definition total_bandwidth (results : list val) : res num :=
  res_fold (fun s data => let? b := prop data "bandwidth" in Ok (num_add s (to_number b))) (Fin (Dec 0 0)) results.

Definition bandwidth_text (total : num) : string :=
  if num_leb (Fin (Dec 1000 0)) total then num_to_string (num_shift 3 total) +:+ " Gbps"
  else num_to_string total +:+ " Mbps".

(** ** The circuit limit *)

(** The link that creates a circuit: whether a check is running, and its text. *)
Record new_circuit := NewCircuit { nc_checking : bool; nc_text : string }.

Inductive limit_event :=
  | CreateClicked
  | LimitReply (r : reply).

Inductive limit_effect :=
  | LimitAlert (text : string)
  | LimitRequest (url : string)
  | LimitProceed (url : string).

Definition create_text : string := "Create a New VLAN".

Definition limit_step (role workgroup_id : val) (s : new_circuit) (e : limit_event)
    : res (new_circuit * list limit_effect) :=
  match e with
  | CreateClicked =>
      if strict_eq role (VStr "read-only")
      then Ok (s, [LimitAlert "Your account is read-only and can not provision a circuit"])
      else if nc_checking s then Ok (s, [])
      else Ok (NewCircuit true "Checking Circuit Limit...",
               [LimitRequest ("services/data.cgi?method=is_within_circuit_limit&workgroup_id=" +:+ to_string workgroup_id)])
  | LimitReply Failure =>
      Ok (NewCircuit false create_text, [LimitAlert "Problem fetching circuit limit for workgroup"])
  | LimitReply (Success results _) =>
      let? within := first_of results "within_limit" in
      if truthy (VNum (parseInt within)) then Ok (s, [LimitProceed "index.cgi?action=endpoints"])
      else Ok (NewCircuit false create_text, [LimitAlert "Workgroup is already at circuit limit"])
  end.

(** ** Status columns *)

Definition font (color text : string) : string := "<font color='" +:+ color +:+ "'>" +:+ text +:+ "</font>".

Definition link_status (in_maint fv_status status : val) : string :=
  if loose_eq in_maint (VStr "yes") then font "teal" "Maintenance"
  else if loose_eq fv_status (VStr "down") then
    (if loose_eq status (VStr "up") then font "red" "impaired" else font "red" (to_string status))
  else (if loose_eq status (VStr "up") then font "green" "up" else font "red" (to_string status)).

Definition switch_status (in_maint state : val) : string :=
  if loose_eq in_maint (VStr "yes") then font "teal" "Maintenance"
  else if loose_eq state (VStr "up") then font "green" "up"
  else if loose_eq state (VStr "unknown") then font "blue" "na"
  else font "red" "down".

(** [None]: the cell keeps its content. *)
Definition circuit_status (hops : nat) (state active_path operational_state : val) : option string :=
  let looped := if loose_eq state (VStr "looped") then "(Looped)" else estr in
  let shown :=
    if (0 <? hops)%nat then
      Some (if loose_eq active_path (VStr "tertiary") then font "orange" "Default"
            else if loose_eq active_path (VStr "primary") then font "green" ("Primary " +:+ looped)
            else font "orange" ("Backup " +:+ looped))
    else if loose_eq active_path (VStr "tertiary") then Some (font "green" "Default") else None in
  if loose_eq operational_state (VStr "down") then Some (font "red" "Down") else shown.

(** The endpoints column. *)
Definition endpoint_text (e : val) : res string :=
  let? node := prop e "node" in let? intf := prop e "interface" in let? tag := prop e "tag" in
  Ok (to_string node +:+ " - " +:+ to_string intf +:+ " (" +:+ to_string tag +:+ ")").

Definition endpoints_column (endpoints : list val) : res string :=
  if (length endpoints <=? 2)%nat then
    let? l := res_map endpoint_text endpoints in Ok (str_join "<br>" l)
  else
    let? e := index (VArr endpoints) 0 in
    let? first := endpoint_text e in
    Ok (first +:+ "<br>and " +:+ string_of_Z (Z.of_nat (length endpoints) - 1) +:+ " more").

(** The VLAN range of a resource: a leading -1 is shown as untagged. *)
Definition range_column (data : string) : string :=
  if starts_with "-1" data then "untagged" +:+ String.substring 2 (String.length data) data else data.

(** ** Requests *)

Record user_request := UserRequest {
  ur_username : string; ur_given : string; ur_family : string; ur_email : string; ur_phone : string
}.

Definition incomplete (u : user_request) : bool :=
  existsb (fun s => negb (truthy (VStr s))) [ur_username u; ur_given u; ur_family u; ur_email u; ur_phone u].

Definition user_request_url (workgroup_name workgroup_id : val) (u : user_request) : string :=
  "services/data.cgi?method=send_email&subject="
  +:+ encodeURI ("Please Add User to workgroup " +:+ to_string workgroup_name +:+ " (ID=" +:+ to_string workgroup_id +:+ ")")
  +:+ "&body="
  +:+ encodeURI ("Details: <br><table><tr><td>Username:</td><td>" +:+ ur_username u
        +:+ "</td></tr><tr><td>Given Name:</td><td>" +:+ ur_given u
        +:+ "</td></tr><tr><td>Family Name:</td><td>" +:+ ur_family u
        +:+ "</td></tr><tr><td>Email Address:</td><td>" +:+ ur_email u
        +:+ "</td><td>Phone Number:</td><td>" +:+ ur_phone u +:+ "</td></tr></table>").

Definition send_user_request `{DataSource} (workgroup_name workgroup_id : val) (u : user_request) : io unit :=
  if incomplete u then Act (set_html "user_add_error" (VStr "All Fields Are Required")) done_
  else
    acts [set_html "user_add_error" (VStr estr); call "panel" "hide"]
      (sendRequest (Schema (fields ["success"; "error"]) []) (user_request_url workgroup_name workgroup_id u)
         (fun _ => done_)).

(** ** The deletion loop *)

Section deletion.
Context {T : Type} `{DataTableLaws T}.

(** The loop, with the decrements counted instead of made. *)
Fixpoint delete_seq (l : list Z) (k : Z) (t : T) : T :=
  match l with
  | [] => t
  | x :: l' => delete_seq l' (k + 1) (deleteRow (Z.to_nat (x - k)) t)
  end.

Lemma delete_loop_seq n r k l (t : T) :
  n = length (drop r l) -> delete_loop n r (map (fun x => (x - k)%Z) l) t = delete_seq (drop r l) k t.
Proof.
  revert r k t. induction n as [|n IH]; intros r k t Hn.
  - by destruct (drop r l).
  - destruct (drop r l) as [|x m] eqn:E; [done|]. cbn [delete_loop delete_seq].
    assert (Hx : l !! r = Some x) by (rewrite <- (Nat.add_0_r r), <- lookup_drop, E; done).
    assert (Hd : drop (S r) l = m).
    { replace (S r) with (r + 1) by lia. by rewrite <- drop_drop, E. }
    rewrite map_map, (map_ext _ (fun x => (x - (k + 1))%Z)) by (intros; lia).
    rewrite (IH (S r) (k + 1)%Z), Hd; [|by rewrite Hd; injection Hn].
    f_equal. rewrite (nth_lookup_Some _ r 0%Z (x - k)%Z); [done|].
    change (map ?f l) with (f <$> l). by rewrite list_lookup_fmap, Hx.
Qed.

Lemma delete_seq_filter selected rows l i k (kept : list (string * val)) (t : T) (keep : string * val -> bool) :
  (forall r, r ∈ rows -> keeps selected (snd r) = Ok (keep r)) ->
  offending selected i rows = Ok l -> tb_rows t = kept ++ rows -> Z.of_nat i = (Z.of_nat (length kept) + k)%Z ->
  tb_rows (delete_seq l k t) = kept ++ List.filter keep rows.
Proof.
  revert l i k kept t. induction rows as [|[id rec] rows IH]; intros l i k kept t Hk Ho Ht Hi.
  - injection Ho as <-. cbn [delete_seq List.filter]. by rewrite Ht.
  - cbn [offending] in Ho. pose proof (Hk (id, rec) ltac:(set_solver)) as Hr. cbn [snd] in Hr.
    rewrite Hr in Ho. cbn [res_bind] in Ho.
    destruct (offending selected (S i) rows) as [l'|] eqn:E; [|done]. cbn [res_bind] in Ho. injection Ho as <-.
    cbn [List.filter]. destruct (keep (id, rec)).
    + rewrite (IH l' (S i) k (kept ++ [(id, rec)]) t); [by rewrite <- app_assoc|set_solver|done| |].
      * by rewrite Ht, <- app_assoc.
      * rewrite length_app. simpl. lia.
    + cbn [delete_seq]. apply (IH l' (S i) (k + 1)%Z kept); [set_solver|done| |lia].
      rewrite rows_deleteRow, Ht. replace (Z.to_nat (Z.of_nat i - k)) with (length kept) by lia.
      unfold splice1. rewrite take_app_length. f_equal.
      replace (S (length kept)) with (length kept + 1) by lia. by rewrite <- drop_drop, drop_app_length.
Qed.

Lemma offending_ok selected rows keep i :
  (forall r, r ∈ rows -> keeps selected (snd r) = Ok (keep r)) ->
  exists l, offending selected i rows = Ok l.
Proof.
  revert i. induction rows as [|[id rec] rows IH]; intros i Hk; [by eexists|].
  cbn [offending]. pose proof (Hk (id, rec) ltac:(set_solver)) as Hr. cbn [snd] in Hr. rewrite Hr.
  cbn [res_bind]. destruct (IH (S i)) as [l Hl]; [set_solver|]. rewrite Hl. cbn [res_bind]. by eexists.
Qed.

(** The endpoints of a circuit, and whether one of them is on a selected VLAN. *)
Definition endpoints_of (record : val) : list (list (string * val)) :=
  match record with
  | VObj o => match obj_get "endpoints" o with
              | Some (VArr es) => omap (fun e => match e with VObj f => Some f | _ => None end) es
              | _ => []
              end
  | _ => []
  end.
Definition on_vlan (selected : list string) (record : val) : bool :=
  existsb (fun e => existsb (fun s => loose_eq (VStr s) (default VUndef (obj_get "tag" e))) selected) (endpoints_of record).

(** A record of the table: an object with a list of endpoints. *)
Definition is_circuit (record : val) : bool :=
  match record with
  | VObj o => match obj_get "endpoints" o with Some (VArr es) => forallb is_obj es | _ => false end
  | _ => false
  end.

Lemma keeps_circuit selected record : is_circuit record = true -> keeps selected record = Ok (on_vlan selected record).
Proof.
  destruct record as [| | | | | |o]; try done. unfold keeps, is_circuit, on_vlan, endpoints_of. rewrite prop_obj.
  cbn [res_bind]. destruct (obj_get "endpoints" o) as [[| | | | |es|]|]; try done. cbn [default id elements_of res_bind].
  intros Ho.
  enough (res_map (fun e => prop e "tag") es =
    Ok (map (fun e => default VUndef (obj_get "tag" e)) (omap (fun e => match e with VObj f => Some f | _ => None end) es)))
    as ->.
  { cbn [res_bind]. f_equal. generalize (omap (fun e => match e with VObj f => Some f | _ => None end) es).
    intros l. induction l as [|e l IH]; [done|]. cbn [map existsb]. by rewrite IH. }
  induction es as [|e es IH]; [done|]. cbn [forallb] in Ho. apply andb_true_iff in Ho as [He Ho].
  destruct e as [| | | | | |f]; try done. rewrite res_map_cons, prop_obj, IH by done. done.
Qed.

(** The VLAN filter of the circuit table, which deletes the rows one by one
    while it decrements all the remaining indices, leaves exactly the rows with
    an endpoint on one of the selected VLANs, in their order; with no VLAN
    selected it leaves all rows. *)
Theorem vlan_filter_rows selected (t : T) :
  Forall (fun r => is_circuit (snd r) = true) (tb_rows t) ->
  exists t', filter_vlans selected t = Ok t'
  /\ tb_rows t' = match selected with [] => tb_rows t | _ => List.filter (fun r => on_vlan selected (snd r)) (tb_rows t) end.
Proof.
  intros Hc. unfold filter_vlans. destruct selected as [|s sel]; [by eexists|].
  assert (Hk : forall r, r ∈ tb_rows t -> keeps (s :: sel) (snd r) = Ok (on_vlan (s :: sel) (snd r))).
  { intros r Hr. apply keeps_circuit. by apply (list.Forall_forall (fun r => is_circuit (snd r) = true) (tb_rows t)). }
  destruct (offending_ok (s :: sel) (tb_rows t) _ 0 Hk) as [l Hl]. rewrite Hl. cbn [res_bind].
  eexists. split; [done|].
  rewrite <- (map_id l) at 2. rewrite (map_ext id (fun x => (x - 0)%Z)) by (intros; unfold id; lia).
  rewrite delete_loop_seq by done. by apply (delete_seq_filter (s :: sel) (tb_rows t) l 0 0 []).
Qed.

End deletion.

Definition circuit_row (tags : list Z) : val :=
  VObj [("endpoints", VArr (map (fun t => VObj [("tag", VInt t)]) tags))].

Lemma vlan_filter_rows_witness :
  let rows := [("r0", circuit_row [7]); ("r1", circuit_row [100; 200]); ("r2", circuit_row []);
               ("r3", circuit_row [200])]%Z in
  exists t', filter_vlans ["200"] rows = Ok t' /\ tb_rows t' = [("r1", circuit_row [100; 200]%Z); ("r3", circuit_row [200]%Z)].
Proof.
  intros rows. refine (vlan_filter_rows ["200"] rows _). repeat constructor.
Defined.

(** After the rows were filtered the bandwidth on display is not a number. *)
Lemma filtered_bandwidth_nan id rec b : prop rec "bandwidth" = Ok (VInt b) ->
  filtered_bandwidth [(id, rec)] = Ok "NaN".
Proof. intros Hb. unfold filtered_bandwidth, res_map. cbn. by rewrite Hb. Qed.

(** ** The check of the circuit limit *)

(** Runs of the link: a reply arrives only for a request that was sent. *)
Inductive limit_reach (role wg : val) : new_circuit -> nat -> Prop :=
  | limit_start : limit_reach role wg (NewCircuit false create_text) 0
  | limit_click s n s' l : limit_reach role wg s n -> limit_step role wg s CreateClicked = Ok (s', l) ->
      limit_reach role wg s' (n + length (List.filter (fun e => match e with LimitRequest _ => true | _ => false end) l))
  | limit_reply s n r s' l : limit_reach role wg s (S n) -> limit_step role wg s (LimitReply r) = Ok (s', l) ->
      limit_reach role wg s' n.

(** At most one check is on its way; while the link is idle none is. *)
Lemma limit_one_check role wg s n :
  limit_reach role wg s n -> n <= 1 /\ (nc_checking s = false -> n = 0).
Proof.
  intros H. induction H as [|s n s' l _ [IH1 IH2] E|s n r s' l _ [IH1 IH2] E]; [auto|..].
  - cbn in E. destruct (strict_eq role _); [|destruct (nc_checking s) eqn:C]; injection E as <- <-; cbn; try (split; [lia|]).
    + intros C. specialize (IH2 C). lia.
    + congruence.
    + discriminate.
  - split; [lia|]. intros _. lia.
Qed.

(** ** Distinct entries *)

Lemma existsb_strict_app t l x : existsb (strict_eq t) (l ++ [x]) = existsb (strict_eq t) l || strict_eq t x.
Proof. rewrite existsb_app. cbn. by rewrite orb_false_r. Qed.

(** Every tag that equals itself (all but NaN) is offered, and only tags are. *)
Lemma unique_tags_offers tags :
  (forall t, t ∈ unique_tags tags -> t ∈ tags) /\
  (forall t, t ∈ tags -> strict_eq t t = true -> existsb (strict_eq t) (unique_tags tags) = true).
Proof.
  unfold unique_tags. induction tags as [|x tags IH] using rev_ind; [set_solver|].
  rewrite foldl_app. cbn [foldl]. set (u := foldl add_tag [] tags) in *. destruct IH as [I1 I2]. unfold add_tag.
  destruct (existsb (strict_eq x) u) eqn:E.
  - split; [set_solver|]. intros t Ht Hr. apply elem_of_app in Ht as [Ht|Ht%list_elem_of_singleton]; [by apply I2|by subst].
  - split; [set_solver|]. intros t Ht Hr. rewrite existsb_strict_app.
    apply elem_of_app in Ht as [Ht|Ht%list_elem_of_singleton]; [by rewrite I2|subst; by rewrite Hr, orb_true_r].
Qed.
