(* ===== verification/HomeTables.v ===== *)
(** * The tables and panels of the home page (js_templates/index.js)

    The remaining parts of the page: its tables, the rows of other workgroups, the tab
    the address selects, the click that opens a circuit, the feedback panel, and the
    panels that edit the ACLs of the selected interface.  The filters and counters of
    the circuit table are in [Home]. *)

From Stdlib Require Import ZArith Lia Ascii String.
From stdpp Require Import base option list sets strings numbers tactics.
From S2P Require Import Prelude JsValue JsJson Fetch Api Session Checks DataSource Console ConsoleTables Home.

Section tables.
Context (default_cell : val -> string).

Let column := data_column default_cell.

(** ** Tables *)

Definition circuit_table (workgroup_id : val) (endpoint_nodes path_nodes : list string) : ytable :=
  YTable (circuits_url workgroup_id endpoint_nodes path_nodes)
    (Schema [number "circuit_id"; text "description"; text "external_identifier"; number "bandwidth"; text "name";
             text "endpoints"; text "workgroup.name"; text "loop_node"] ["error"])
    [column "description" "Description";
     Column "Endpoints" (fun rec => let? es := prop rec "endpoints" in let? es := elements_of es in endpoints_column es);
     Column "Owned By" (fun rec => let? v := prop rec "workgroup.name" in Ok ("<center>" +:+ to_string v +:+ "</center>"));
     Column "GRI" (fun rec => let? v := prop rec "external_identifier" in
                              Ok ("<enter>" +:+ (if loose_eq v VNull then "N/A" else to_string v) +:+ "</center>"))]
    (Some 10) None None.

Definition link_status_table : ytable :=
  YTable "services/data.cgi?method=get_all_link_status"
    (Schema (fields ["name"; "link_id"; "status"; "operational_state"; "fv_status"; "in_maint"]) [])
    [column "name" "Link";
     Column "Status" (fun rec => let? m := prop rec "in_maint" in let? f := prop rec "fv_status" in
                                 let? s := prop rec "status" in Ok (link_status m f s))]
    None None (Some 30000%Z).

Definition switch_status_table : ytable :=
  let state label k := Column label (fun rec => let? m := prop rec "in_maint" in let? s := prop rec k in Ok (switch_status m s)) in
  YTable "services/data.cgi?method=get_all_node_status"
    (Schema (fields ["name"; "node_id"; "operational_state"; "in_maint"; "operational_state_mpls"]) [])
    [column "name" "Switch"; state "OFP" "operational_state"; state "NetConf" "operational_state_mpls"]
    None None (Some 30000%Z).

(** The cell of the status is left empty when no branch writes it. *)
Definition circuit_status_table (workgroup_id : val) : ytable :=
  YTable (circuits_url workgroup_id [] [])
    (Schema (fields ["description"; "name"; "operational_state"; "active_path"; "state"; "in_maint"; "links"]) [])
    [column "description" "Name";
     Column "Status" (fun rec =>
       let? ls := prop rec "links" in let? ls := elements_of ls in
       let? s := prop rec "state" in let? p := prop rec "active_path" in let? o := prop rec "operational_state" in
       Ok (default estr (circuit_status (length ls) s p o)))]
    None None (Some 30000%Z).

Definition user_table (workgroup_id : val) : ytable :=
  YTable ("services/data.cgi?method=get_workgroup_members&order_by=auth_name&workgroup_id=" +:+ to_string workgroup_id)
    (Schema (fields ["auth_name"; "first_name"; "family_name"; "email_address"]) ["error"])
    [column "auth_name" "Username(s)"; column "first_name" "Given Name"; column "family_name" "Last Name";
     column "email_address" "Email Address"]
    (Some 10) None None.

(** [oData.replace(...)] needs a text. *)
Definition avail_resource_table (workgroup_id : val) : ytable :=
  YTable ("services/data.cgi?method=get_all_resources_for_workgroup&workgroup_id=" +:+ to_string workgroup_id)
    (Schema (fields ["node_name"; "interface_name"; "operational_state"; "description"; "vlan_tag_range"; "is_owner";
                     "owning_workgroup.name"]) [])
    [column "node_name" "Node"; column "interface_name" "Interface"; column "description" "Description";
     Column "VLAN Range" (fun rec => let? v := prop rec "vlan_tag_range" in
                                     match v with VStr s => Ok (range_column s) | _ => Err EType end);
     column "owning_workgroup.name" "Owned By"]
    None None None.

Definition build_owned_interface_table (workgroup_id : val) : ytable :=
  YTable ("services/data.cgi?method=get_workgroup_interfaces&workgroup_id=" +:+ to_string workgroup_id)
    (Schema [number "node_id"; number "interface_id"; text "node_name"; text "interface_name"] [])
    [column "node_name" "Node"; column "interface_name" "Interface"] (Some 10) (Some "node_name") None.

End tables.

(** ** Rows of other workgroups *)

(** [formatRow] of the circuit table and of the table of resources: it calls
    [Dom.addClass], and no script of the page defines [Dom]. *)
Definition format_circuit_row (workgroup_name rec : val) : res bool :=
  let? owner := prop rec "workgroup.name" in
  if negb (loose_eq owner workgroup_name) then Err ERef else Ok true.

Definition format_resource_row (rec : val) : res bool :=
  let? owner := prop rec "is_owner" in
  if negb (loose_eq owner (VInt 1)) then Err ERef else Ok true.

(** The rows of a page are formatted one after the other; one of another workgroup
    stops them. *)
Lemma guest_rows_throw name rows rec more s :
  (forall r, r ∈ rows -> prop r "workgroup.name" = Ok (VStr name)) ->
  prop rec "workgroup.name" = Ok (VStr s) -> s <> name ->
  res_map (format_circuit_row (VStr name)) (rows ++ rec :: more) = Err ERef.
Proof.
  intros Hr Hs Hne. unfold res_map. set (f := fun acc x => _).
  cut (forall acc, res_fold f acc (rows ++ rec :: more) = Err ERef); [intros E; apply E|].
  induction rows as [|r rows IH]; intros acc; cbn [app res_fold]; unfold f at 1, format_circuit_row.
  - rewrite Hs. cbn [res_bind loose_eq]. by rewrite (proj2 (String.eqb_neq s name) Hne).
  - rewrite Hr by set_solver. cbn [res_bind loose_eq]. rewrite String.eqb_refl. cbn [negb res_bind]. apply IH. set_solver.
Qed.

(** ** The tab of the address *)

(** The index of the tab whose reference is the fragment of the address. *)
Fixpoint find_tab (i : nat) (tabset : list string) (href : string) : option nat :=
  match tabset with
  | [] => None
  | t :: tabset' => if String.eqb t href then Some i else find_tab (S i) tabset' href
  end.

Definition initial_tab (href : string) (tabset : list string) : option nat :=
  match split_on "#" href with
  | _ :: fragment :: _ => find_tab 0 tabset ("#" +:+ fragment)
  | _ => None
  end.

Lemma find_tab_spec tabset i href k : find_tab i tabset href = Some k <->
  i <= k /\ tabset !! (k - i) = Some href /\ forall j, j < k - i -> tabset !! j <> Some href.
Proof.
  revert i. induction tabset as [|t tabset IH]; intros i; cbn [find_tab]; [naive_solver|].
  destruct (String.eqb_spec t href) as [->|Hne].
  - split.
    + intros [= <-]. rewrite Nat.sub_diag. split; [done|]. split; [done|]. lia.
    + intros (Hik & _ & Hfirst). destruct (k - i) as [|d] eqn:E; [f_equal; lia|]. exfalso. by apply (Hfirst 0); [lia|].
  - rewrite IH. split.
    + intros (Hik & Hk & Hfirst). replace (k - i) with (S (k - S i)) by lia. split; [lia|]. split; [done|].
      intros [|j] Hj; cbn; [congruence|]. apply Hfirst. lia.
    + intros (Hik & Hk & Hfirst). destruct (k - i) as [|d] eqn:E; [cbn in Hk; congruence|].
      replace (k - S i) with d by lia. split; [lia|]. split; [done|]. intros j Hj. apply (Hfirst (S j)). lia.
Qed.

(** The first tab with the reference of the fragment is selected. *)
Lemma tab_of_address base fragment tabset k :
  str_forall (fun c => negb (Ascii.eqb c "#")) base = true -> str_forall (fun c => negb (Ascii.eqb c "#")) fragment = true ->
  initial_tab (base +:+ "#" +:+ fragment) tabset = Some k <->
  tabset !! k = Some ("#" +:+ fragment) /\ forall j, j < k -> tabset !! j <> Some ("#" +:+ fragment).
Proof.
  intros Hb Hf. unfold initial_tab. change ("#" +:+ fragment) with (String "#" fragment).
  rewrite split_on_app, split_on_none by done. change (String "#" fragment) with ("#" +:+ fragment).
  rewrite find_tab_spec, Nat.sub_0_r. naive_solver lia.
Qed.

(** ** Opening a circuit *)

(** A click on a circuit: [session.clear()], the circuit, [session.save()]. *)
Definition circuit_row_clicked (b : browser) (data rec : val) : res (browser * string) :=
  let? s := clear b data false in
  let '(data, b) := s in
  let? id := prop rec "circuit_id" in
  let? data := assign_prop data "circuit_id" id in
  Ok (save b data, "?action=view_details").

(** ** Feedback *)

(** The two buttons of the feedback panel do the same: the panel goes, and nothing is
    sent. *)
Definition send_feedback (subject feedback : string) : io unit :=
  acts [call "send_feedback_p" "hide"; call "send_feedback_p" "destroy"] done_.

Lemma feedback_not_sent {S} (w : env S) subject feedback s : requests (run_trace w (send_feedback subject feedback) s) = [].
Proof. done. Qed.

(** ** The ACLs of an interface *)

(** The selected interface, the interface whose ACLs the table shows, and the panels
    that are open, each with the interface it edits. *)
Record acl_state := AclState {
  ac_selected : option val;
  ac_table : option val;
  ac_add : option val;
  ac_edit : option val
}.

Inductive acl_event :=
  | InterfaceClicked (rec : val)
  | AddClicked
  | AclClicked
  | AddSaved (interface_id : val)
  | EditSaved (interface_id : val)
  | EditRemoved.

(** The edit panel is for the interface of the table; the button that adds an ACL reads
    the selected row, and throws when there is none. *)
Definition acl_step (s : acl_state) (e : acl_event) : res acl_state :=
  match e with
  | InterfaceClicked rec =>
      let? id := prop rec "interface_id" in Ok (AclState (Some id) (Some id) (ac_add s) (ac_edit s))
  | AddClicked =>
      match ac_selected s with
      | Some id => Ok (AclState (ac_selected s) (ac_table s) (Some id) (ac_edit s))
      | None => Err EType
      end
  | AclClicked => Ok (match ac_table s with
                      | Some id => AclState (ac_selected s) (ac_table s) (ac_add s) (Some id)
                      | None => s
                      end)
  | AddSaved id => Ok (AclState (ac_selected s) (Some id) (ac_add s) (ac_edit s))
  | EditSaved id => Ok (AclState (ac_selected s) (Some id) (ac_add s) (ac_edit s))
  | EditRemoved => Ok (match ac_edit s with
                       | Some id => AclState (ac_selected s) (Some id) (ac_add s) (ac_edit s)
                       | None => s
                       end)
  end.

Definition no_acls : acl_state := AclState None None None None.

(** The button that adds an ACL throws exactly while no interface was clicked. *)
Lemma add_needs_interface l s :
  res_fold acl_step no_acls l = Ok s ->
  (acl_step s AddClicked = Err EType <-> forall rec, InterfaceClicked rec ∉ l).
Proof.
  assert (H : forall l s0 s, res_fold acl_step s0 l = Ok s ->
    (ac_selected s = None <-> ac_selected s0 = None /\ forall rec, InterfaceClicked rec ∉ l)).
  { clear. induction l as [|e l IH]; intros s0 s; cbn [res_fold].
    - intros [= <-]. set_solver.
    - destruct (acl_step s0 e) as [s1|] eqn:E; [|done]. cbn [res_bind]. intros Hs. rewrite (IH _ _ Hs). clear IH Hs.
      destruct e as [rec| | |id|id|]; cbn [acl_step] in E.
      + destruct (prop rec "interface_id") as [id|]; [|done]. injection E as <-. split; [by intros [? _]|].
        intros [_ Hn]. destruct (Hn rec). set_solver.
      + destruct (ac_selected s0) eqn:E0; [|done]. injection E as <-. cbn. split; intros []; congruence.
      + injection E as <-. assert (ac_selected (match ac_table s0 with Some id => AclState (ac_selected s0) (ac_table s0) (ac_add s0) (Some id) | None => s0 end) = ac_selected s0) as -> by (by destruct (ac_table s0)).
        setoid_rewrite not_elem_of_cons. naive_solver.
      + injection E as <-. cbn. setoid_rewrite not_elem_of_cons. naive_solver.
      + injection E as <-. cbn. setoid_rewrite not_elem_of_cons. naive_solver.
      + injection E as <-. assert (ac_selected (match ac_edit s0 with Some id => AclState (ac_selected s0) (Some id) (ac_add s0) (ac_edit s0) | None => s0 end) = ac_selected s0) as -> by (by destruct (ac_edit s0)).
        setoid_rewrite not_elem_of_cons. naive_solver. }
  intros Hs. pose proof (H l no_acls s Hs) as Hn. cbn [acl_step]. destruct (ac_selected s) eqn:E.
  - split; [done|]. intros Hno. by discriminate (proj2 Hn (conj eq_refl Hno)).
  - split; [intros _; apply Hn; done|done].
Qed.
