(* ===== verification/Directory.v ===== *)
(** * The phonebook, the list of connections and the list of workgroups
      (js_templates/phonebook.js, welcome.js, workgroups.js, entity.js)

    The phonebook shows one entity with its trail, its contacts and, to those
    who may change it, the users that can be added.  The welcome page lists the
    connections of a workgroup.  Of the HTML the model keeps what it says: the
    texts, the colours that stand for a state, the arguments of its links. *)

From Stdlib Require Import ZArith Lia Ascii String Sorting.Sorted.
From stdpp Require Import base option list sets strings numbers tactics.
From S2P Require Import Prelude JsValue JsJson Fetch Api Session Handlers Checks.

(** ** The trail of the phonebook *)

(** The first crumb with a name. *)
Fixpoint find_crumb (name : val) (crumbs : list val) : res (option val) :=
  match crumbs with
  | [] => Ok None
  | c :: l => let? n := prop c "name" in if strict_eq n name then Ok (Some c) else find_crumb name l
  end.

(** The trail below a parent.  [splice] returns what it removes, so that the
    trail becomes the crumb that was found. *)
Definition next_crumbs (parent : val) (crumbs : list val) : res (list val) :=
  let? name := prop parent "name" in
  let? hit := find_crumb name crumbs in
  match hit with
  | Some c => Ok [c]
  | None => let? id_ := prop parent "entity_id" in Ok (crumbs ++ [VObj [("name", name); ("id", id_)]])
  end.

(** The trail shown and the text stored under phone-crumb. *)
Definition load_crumbs (parent : option val) (path : option string) : res (list val * string) :=
  match parent, path with
  | Some p, Some (String _ _ as t) =>
      match json_parse t with
      | None => Err ESyntax
      | Some v =>
          let? l := elements_of v in
          let? l' := next_crumbs p l in
          Ok (l', default "undefined" (stringify (VArr l')))
      end
  | _, _ => Ok ([], "[]")
  end.

Definition crumb_item (c : val) : res string :=
  let? i := prop c "id" in
  let? n := prop c "name" in
  Ok ("<li><a href=" +:+ dq +:+ "#" +:+ dq +:+ " onclick=" +:+ dq +:+ "loadEntityList(" +:+ to_string i +:+ ")" +:+ dq
      +:+ ">" +:+ to_string n +:+ "</a></li>").

Definition crumbs_html (crumbs : list val) (name : val) : res string :=
  let? l := res_map crumb_item crumbs in
  Ok (str_concat l +:+ "<li class=" +:+ dq +:+ "active" +:+ dq +:+ ">" +:+ to_string name +:+ "</li>").

(** ** An entity of the phonebook *)

(** The first parent of an entity, if it has one. *)
Definition parent_of (entity : val) : res (option val) :=
  let? h := has "parents" entity in
  if h then
    let? ps := prop entity "parents" in
    let? n := prop ps "length" in
    if js_gt n (VInt 0) then let? p := index ps 0 in Ok (Some p) else Ok None
  else Ok None.

(** [(user.is_admin == 1 && user.type != 'read-only') || valid_users.includes(user.user_id)] *)
Definition may_edit (user valid_users : val) : res bool :=
  let? admin := prop user "is_admin" in
  let? type := prop user "type" in
  if loose_eq admin (VInt 1) && negb (loose_eq type (VStr "read-only")) then Ok true
  else
    let? l := elements_of valid_users in
    let? uid := prop user "user_id" in
    Ok (existsb (strict_eq uid) l).

(** A contact as it is shown, with the arguments of the mark that removes it. *)
Record contact_item := ContactItem { ci_name : string; ci_email : val; ci_remove : option (list val) }.

Definition show_contact (user valid_users entity contact : val) : res contact_item :=
  let? user_id := prop contact "user_id" in
  let? first := prop contact "first_name" in
  let? last := prop contact "last_name" in
  let? ok := may_edit user valid_users in
  let? eid := prop entity "entity_id" in
  let? ename := prop entity "name" in
  let? email := prop contact "email" in
  Ok (ContactItem (to_string first +:+ " " +:+ to_string last) email
        (if ok then Some [user_id; eid; ename; first; last] else None)).

(** The users offered: those who are not contacts. *)
Definition offer_user (contact_ids : list val) (u : val) : res (option (val * string)) :=
  let? uid := prop u "user_id" in
  if existsb (strict_eq uid) contact_ids then Ok None
  else
    let? first := prop u "first_name" in
    let? family := prop u "family_name" in
    Ok (Some (uid, to_string first +:+ " " +:+ to_string family)).

Definition offered_users (contact_ids users : list val) : res (list (val * string)) :=
  let? l := res_map (offer_user contact_ids) users in Ok (somes l).

Record phonebook := Phonebook {
  pb_logo : val;
  pb_title : string;
  pb_connect : option string;
  pb_root : bool;
  pb_crumbs : string;
  pb_actions : bool;
  pb_children : list (val * val);
  pb_contacts : list contact_item;
  pb_edit : bool;
  pb_offered : list (val * string)
}.

(** The title: an entity with a parent has a link to it. *)
Definition entity_title (name : val) (parent : option val) : res string :=
  match parent with
  | None => Ok (to_string name)
  | Some p =>
      let? pid := prop p "entity_id" in
      let? pname := prop p "name" in
      Ok (to_string name +:+ " <small>of <a href=" +:+ dq +:+ "?action=phonebook&entity_id=" +:+ to_string pid +:+ dq
          +:+ ">" +:+ to_string pname +:+ "</a></small>")
  end.

(** The length of an array property. *)
Definition array_length (v : val) (k : string) : res val := let? a := prop v k in prop a "length".

Definition child_link (child : val) : res (val * val) :=
  let? i := prop child "entity_id" in let? n := prop child "name" in Ok (i, n).

Section phonebook.
Variable path : string.

Definition loadEntityList (workgroup_id parentEntity : val) (stored : option string) : io phonebook :=
  await entity := getEntities path workgroup_id (default_arg VNull parentEntity) VUndef in
  pure logo := prop entity "logo_url" in
  pure name := prop entity "name" in
  pure entityID := prop entity "entity_id" in
  pure parent := parent_of entity in
  pure title := entity_title name parent in
  pure trail := load_crumbs parent stored in
  pure crumbs := crumbs_html (fst trail) name in
  Act (AStore "phone-crumb" (snd trail))
  (pure interfaces := array_length entity "interfaces" in
  pure kids := prop entity "children" in
  pure children := (let? l := elements_of kids in res_map child_link l) in
  pure _ := array_length entity "contacts" in
  await user := getCurrentUser path in
  await data := get_json (path +:+ "services/entity.cgi?action=get_valid_users&entity_id=" +:+ show entityID) in
  pure valid_users := prop data "results" in
  pure people := prop entity "contacts" in
  pure contacts := elements_of people in
  pure contact_ids := res_map (fun c => prop c "user_id") contacts in
  pure shown := res_map (show_contact user valid_users entity) contacts in
  pure ok := may_edit user valid_users in
  let view offered :=
    Phonebook (if truthy logo then logo else VStr "../media/default_entity.png") title
      (match parent with Some _ => Some ("Create new connection to " +:+ to_string name) | None => None end)
      (loose_eq entityID (VStr "1")) crumbs (js_gt interfaces (VInt 0)) children shown ok offered in
  if ok then
    await users := get_json (path +:+ "services/data.cgi?action=get_users") in
    pure rs := prop users "results" in
    pure l := elements_of rs in
    pure offered := offered_users contact_ids l in
    Ret (view offered)
  else Ret (view [])).

(** A user picked from the list, and the mark next to a contact. *)
Definition user_picked (workgroup_id user_id entityID : val) (stored : option string) : io phonebook :=
  await _ := add_user path user_id entityID in
  loadEntityList workgroup_id entityID stored.

Definition removeUser (workgroup_id user_id entity_id : val) (stored : option string) : io phonebook :=
  await _ := remove_user path user_id entity_id in
  loadEntityList workgroup_id entity_id stored.

Definition showRemoveUserPrompt (workgroup_id user_id entity_id entity_name first_name last_name : val)
    (stored : option string) : io (option phonebook) :=
  Confirm ("Are you sure you want to remove " +:+ to_string first_name +:+ " " +:+ to_string last_name
           +:+ " from " +:+ to_string entity_name +:+ "?")
    (fun ok => if ok then await v := removeUser workgroup_id user_id entity_id stored in Ret (Some v) else Ret None).

(** The connections an entity can be added to, each with its link. *)
Definition connection_row (entity_id conn : val) : res (string * val * val) :=
  let? vrf := prop conn "vrf_id" in
  let? name := prop conn "name" in
  let? by_ := prop conn "created_by" in
  let? email := prop by_ "email" in
  Ok ("?action=modify_cloud&vrf_id=" +:+ to_string vrf +:+ "&prepop_vrf_id=" +:+ to_string entity_id, name, email).

Definition addToConnectionCallback (workgroup_id entity_id : val) : io (list (string * val * val)) :=
  Act (AModal "#add-to-connection-modal" true)
    (await connections := getVRFs path workgroup_id in
     pure l := elements_of connections in
     io_lift (res_map (connection_row entity_id) l)).

(** ** Forms of an entity (entity.js) *)

Definition phonebook_page (entityID : val) : string :=
  path +:+ "index.cgi?action=phonebook&entity_id=" +:+ show entityID.

(** Errors of an addition are only logged; an edit has no handler. *)
Definition add_clicked (description : val) (entityID name desc logo url : val) : io unit :=
  io_try (await _ := add_entity path description entityID name desc logo url in
          Act (AGoto (phonebook_page entityID)) (Ret tt))
    (fun _ => Ret tt).

Definition edit_clicked (entityID name desc logo url : val) : io unit :=
  await _ := edit_entity path entityID name desc logo url in
  Act (AGoto (phonebook_page entityID)) (Ret tt).

Definition cancel_clicked (entityID : val) : io unit := Act (AGoto (phonebook_page entityID)) (Ret tt).

End phonebook.

(** ** The list of users that can be added *)

(** Capital letters of ASCII. *)
Definition upper_char (c : ascii) : ascii :=
  let n := nat_of_ascii c in if (Nat.leb 97 n && Nat.leb n 122) then ascii_of_nat (n - 32) else c.
Fixpoint to_upper (s : string) : string :=
  match s with EmptyString => estr | String c s' => String (upper_char c) (to_upper s') end.

(** [text.indexOf(part) > -1] *)
Fixpoint text_has (part s : string) : bool :=
  starts_with part s || match s with EmptyString => false | String _ s' => text_has part s' end.

(** The entries that stay visible. *)
Definition filterFunction (input : string) (entries : list string) : list (string * bool) :=
  map (fun t => (t, text_has (to_upper input) (to_upper t))) entries.

(** The drop-down list: a click outside of its button and of its search field
    closes it, a click on the button toggles it. *)
Inductive click_target := OnButton | OnSearch | Elsewhere.
Definition document_clicked (shown : bool) (t : click_target) : bool :=
  match t with OnButton | OnSearch => shown | Elsewhere => if shown then false else shown end.
Definition showDropdown (shown : bool) : bool := negb shown.

(** ** The list of connections (welcome.js) *)

Definition up (v : val) : res bool := let? s := prop v "operational_state" in Ok (strict_eq s (VStr "up")).

(** An endpoint is up when it and its peers are. *)
Definition endpoint_up (endpoint : val) : res bool :=
  let? self := up endpoint in
  let? h := has "peers" endpoint in
  if h then
    let? ps := prop endpoint "peers" in
    let? l := elements_of ps in
    let? bs := res_map up l in
    Ok (self && forallb id bs)
  else Ok self.

Definition bandwidth_column (endpoint : val) : res string :=
  let? b := prop endpoint "bandwidth" in
  Ok (if negb (loose_eq b (VInt 0)) then to_string b +:+ " Mbps" else "unlimited").

Record endpoint_line := EndpointLine { el_up : bool; el_node : val; el_interface : val; el_tag : val; el_bandwidth : string }.

Definition show_endpoint (state : val -> res bool) (endpoint : val) : res endpoint_line :=
  let? ok := state endpoint in
  let? bandwidth := bandwidth_column endpoint in
  let? node := prop endpoint "node" in
  let? intf := prop endpoint "interface" in
  let? tag := prop endpoint "tag" in
  Ok (EndpointLine ok node intf tag bandwidth).

(** The panel of a connection: its state, whether the workgroup owns it, the
    arguments of the mark that deletes it, the number of its body, and its
    texts: name, owner, and who created and who changed it last. *)
Record connection_panel := ConnectionPanel {
  cn_up : bool;
  cn_owned : bool;
  cn_delete : option (val * val);
  cn_body : Z;
  cn_lines : list endpoint_line;
  cn_texts : list val
}.

Definition show_connection (state : val -> res bool) (id_key : string) (owner : val -> res val)
    (workgroup_id isAdmin : val) (body : Z) (conn : val) : res connection_panel :=
  let? eps := prop conn "endpoints" in
  let? l := elements_of eps in
  let? lines := res_map (show_endpoint state) l in
  let? wg := owner conn in
  let? cid := prop conn id_key in
  let? description := prop conn "description" in
  let? name := prop conn "name" in
  let? wgo := prop conn "workgroup" in
  let? owner_name := prop wgo "name" in
  let? creator := prop conn "created_by" in
  let? created_by := prop creator "email" in
  let? editor := prop conn "last_modified_by" in
  let? modified_by := prop editor "email" in
  let owned := loose_eq wg workgroup_id in
  Ok (ConnectionPanel (forallb el_up lines) owned
        (if negb owned && negb (truthy isAdmin) then None else Some (cid, description)) body lines
        [name; owner_name; created_by; modified_by]).

Definition vrf_owner (conn : val) : res val := let? w := prop conn "workgroup" in prop w "workgroup_id".
Definition circuit_owner (conn : val) : res val := prop conn "workgroup_id".

(** Layer 3 connections are numbered from 0, layer 2 connections from 100000. *)
Definition show_vrf (workgroup_id isAdmin : val) (i : nat) (conn : val) : res connection_panel :=
  show_connection endpoint_up "vrf_id" vrf_owner workgroup_id isAdmin (Z.of_nat i) conn.
Definition show_circuit (workgroup_id isAdmin : val) (i : nat) (conn : val) : res connection_panel :=
  show_connection up "circuit_id" circuit_owner workgroup_id isAdmin (Z.of_nat i + 100000)%Z conn.

Fixpoint res_imap {A B} (f : nat -> A -> res B) (i : nat) (l : list A) : res (list B) :=
  match l with
  | [] => Ok []
  | x :: l' => let? y := f i x in let? r := res_imap f (S i) l' in Ok (y :: r)
  end.

Section welcome.
Variable path : string.

Variable engine_text : exn -> string.

Definition loadVRFs (workgroup_id isAdmin : val) : io (list connection_panel) :=
  await entities := getVRFs path workgroup_id in
  pure l := elements_of entities in
  io_lift (res_imap (show_vrf workgroup_id isAdmin) 0 l).

Definition loadL2VPNs (workgroup_id isAdmin : val) : io (list connection_panel) :=
  await circuits := getCircuits path workgroup_id in
  pure l := elements_of circuits in
  io_lift (res_imap (show_circuit workgroup_id isAdmin) 0 l).

(** The marks that delete a connection. *)
Definition delete_asked (request : io val) (what : string) (name : val) : io unit :=
  Confirm ("Are you sure you want to delete " +:+ dq +:+ to_string name +:+ dq +:+ "?")
    (fun ok =>
       if ok then
         Act (AModal "#delete-circuit-loading" true)
           (io_try (await _ := request in Act (AGoto "?action=welcome") (Ret tt))
              (fun e => Act (AModal "#delete-circuit-loading" false)
                 (Act (AAlert ("An error occured while deleting a " +:+ what +:+ ":" +:+ String (ascii_of_nat 10) " "
                               +:+ error_text engine_text e)) (Ret tt))))
       else Ret tt).

Definition deleteConnection (workgroup_id id_ name : val) : io unit :=
  delete_asked (deleteVRF path workgroup_id id_) "VRF" name.
Definition deleteL2VPN (workgroup_id id_ name : val) : io unit :=
  delete_asked (deleteCircuit path workgroup_id id_) "circuit" name.

End welcome.

(** The body of a panel and its two arrows: what is displayed. *)
Record body_state := BodyState { bs_body : string; bs_closed : string; bs_opened : string }.
Definition toggleEntityBody (b : body_state) : body_state :=
  if String.eqb (bs_body b) "none" then BodyState "block" "none" estr else BodyState "none" estr "none".

(** ** The list of workgroups (workgroups.js) *)

Definition lower_char (c : ascii) : ascii :=
  let n := nat_of_ascii c in if (Nat.leb 65 n && Nat.leb n 90) then ascii_of_nat (n + 32) else c.
Fixpoint to_lower (s : string) : string :=
  match s with EmptyString => estr | String c s' => String (lower_char c) (to_lower s') end.

(** The comparison of two names: -1, 1 or 0. *)
Definition sortWorkgroups (a b : string) : Z :=
  let nameA := to_lower a in
  let nameB := to_lower b in
  if str_ltb nameA nameB then -1 else if str_ltb nameB nameA then 1 else 0.

(** [Array.prototype.sort], which is stable: an element goes in front of the
    first later one that it does not have to follow. *)
Fixpoint insert_by {A} (cmp : A -> A -> Z) (x : A) (l : list A) : list A :=
  match l with
  | [] => [x]
  | y :: l' => if (cmp x y <=? 0)%Z then x :: l else y :: insert_by cmp x l'
  end.
Definition js_sort {A} (cmp : A -> A -> Z) (l : list A) : list A := foldr (insert_by cmp) [] l.

Definition sorted_workgroups (rows : list (string * val)) : list (string * val) :=
  js_sort (fun a b => sortWorkgroups (fst a) (fst b)) rows.

(** A click on a row: the workgroup becomes the one of the session. *)
Definition workgroup_chosen (b : browser) (data rec : val) : io (val * browser) :=
  pure wid := prop rec "workgroup_id" in
  pure name := prop rec "name" in
  pure wtype := prop rec "type" in
  pure username := prop rec "username" in
  pure d1 := assign_prop data "workgroup_id" wid in
  pure d2 := assign_prop d1 "workgroup_name" name in
  pure d3 := assign_prop d2 "workgroup_type" wtype in
  pure d4 := assign_prop d3 "username" username in
  Act (AGoto "?action=index") (Ret (d4, save b d4)).

(** ** The trail through storage *)

(** A crumb, and an entity of which the page reads the name and the number. *)
Definition crumb (c : string * Z) : val := VObj [("name", VStr (fst c)); ("id", VInt (snd c))].
Definition parent_entity (c : string * Z) : val := VObj [("entity_id", VInt (snd c)); ("name", VStr (fst c))].

(** What the page makes of a trail: the crumb with the name of the parent if
    there is one, else the trail with the parent at its end. *)
Fixpoint crumb_named (n : string) (t : list (string * Z)) : option (string * Z) :=
  match t with
  | [] => None
  | c :: t' => if String.eqb (fst c) n then Some c else crumb_named n t'
  end.
Definition next_trail (t : list (string * Z)) (p : string * Z) : list (string * Z) :=
  match crumb_named (fst p) t with Some c => [c] | None => t ++ [p] end.

(** The text a trail is stored as. *)
Definition stored_trail (t : list (string * Z)) : string := default "undefined" (stringify (VArr (map crumb t))).

(** A sequence of visits, each to a child of an entity: the trail and the
    stored text of one are what the next one starts from. *)
Definition visits (ps : list (string * Z)) : res (list val * string) :=
  foldl (fun r p => let? x := r in load_crumbs (Some (parent_entity p)) (Some (snd x))) (Ok ([], "[]")) ps.

Lemma find_crumb_named n t : find_crumb (VStr n) (map crumb t) = Ok (crumb <$> crumb_named n t).
Proof.
  induction t as [|[m i] t IH]; [done|]. cbn [map find_crumb crumb_named]. unfold crumb at 1.
  cbn [prop obj_get default fst res_bind strict_eq String.eqb]. cbn.
  destruct (String.eqb m n); [done|]. exact IH.
Qed.

Lemma next_crumbs_trail p t : next_crumbs (parent_entity p) (map crumb t) = Ok (map crumb (next_trail t p)).
Proof.
  destruct p as [n i]. unfold next_crumbs, parent_entity. cbn [prop obj_get default fst snd]. cbn [res_bind String.eqb].
  cbn -[find_crumb next_trail]. rewrite find_crumb_named. cbn [res_bind]. unfold next_trail. cbn [fst].
  destruct (crumb_named n t); [done|]. cbn. by rewrite map_app.
Qed.

Lemma trail_parses t : json_parse (stored_trail t) = Some (VArr (map crumb t)).
Proof.
  assert (E : exists s, stringify (VArr (map crumb t)) = Some s) by (by eexists).
  destruct E as [s Hs]. unfold stored_trail. rewrite Hs. cbn [default from_option id].
  assert (Hok : json_ok (VArr (map crumb t)) = true).
  { cbn. rewrite forallb_forall. intros x Hx. apply in_map_iff in Hx as (c & <- & _). done. }
  rewrite (json_parse_stringify _ _ Hok Hs). cbn. f_equal. f_equal. rewrite map_map. by apply map_ext.
Qed.

Lemma stored_trail_nonempty t : exists c s, stored_trail t = String c s.
Proof. unfold stored_trail. cbn. by eexists _, _. Qed.

Lemma load_crumbs_trail p t :
  load_crumbs (Some (parent_entity p)) (Some (stored_trail t)) =
  Ok (map crumb (next_trail t p), stored_trail (next_trail t p)).
Proof.
  unfold load_crumbs. destruct (stored_trail_nonempty t) as (c & s & E). rewrite E, <- E, trail_parses.
  cbn [elements_of res_bind]. rewrite next_crumbs_trail. done.
Qed.

Lemma crumb_named_spec n t :
  match crumb_named n t with Some c => c ∈ t /\ fst c = n | None => n ∉ map fst t end.
Proof.
  induction t as [|[m i] t IH]; [set_solver|]. cbn [crumb_named fst map].
  destruct (String.eqb_spec m n) as [->|Hne]; [set_solver|].
  destruct (crumb_named n t); [set_solver|]. set_solver.
Qed.

Lemma next_trail_ok t p :
  NoDup (map fst t) ->
  NoDup (map fst (next_trail t p)) /\ exists i, list.last (next_trail t p) = Some (fst p, i).
Proof.
  intros Ht. unfold next_trail. pose proof (crumb_named_spec (fst p) t) as C.
  destruct (crumb_named (fst p) t) as [[m i]|].
  - destruct C as [_ E]. cbn in E. subst m. split; [apply list.NoDup_singleton|by exists i].
  - rewrite map_app, last_snoc. split; [|exists (snd p); by destruct p].
    apply list.NoDup_app. split; [done|]. split; [set_solver|apply list.NoDup_singleton].
Qed.

(** The trail of the phonebook survives in the session's storage: through any
    sequence of visits it is read back as it was written, its names are
    distinct, and it ends with the entity whose child is shown.  (When that
    entity is already in the trail the rest of the trail is dropped, the part
    that leads to it included.) *)
Theorem phonebook_trail (ps : list (string * Z)) :
  exists t,
    visits ps = Ok (map crumb t, stored_trail t) /\ t = foldl next_trail [] ps /\
    NoDup (map fst t) /\ fst <$> list.last t = fst <$> list.last ps.
Proof.
  exists (foldl next_trail [] ps).
  assert (H : visits ps = Ok (map crumb (foldl next_trail [] ps), stored_trail (foldl next_trail [] ps)) /\
              NoDup (map fst (foldl next_trail [] ps))).
  { unfold visits. induction ps as [|p ps [IH1 IH2]] using rev_ind; [split; [reflexivity|constructor]|].
    rewrite !foldl_app. cbn [foldl]. rewrite IH1. cbn [res_bind snd].
    split; [apply load_crumbs_trail|by apply next_trail_ok]. }
  destruct H as [H1 H2]. repeat split; [done..|].
  destruct ps as [|p ps _] using rev_ind; [done|]. rewrite last_snoc. cbn [fmap option_fmap option_map].
  rewrite foldl_app in *. cbn [foldl] in *.
  assert (N : NoDup (map fst (foldl next_trail [] ps))).
  { clear. induction ps as [|p ps IH] using rev_ind; [constructor|]. rewrite foldl_app. by apply next_trail_ok. }
  destruct (next_trail_ok _ p N) as [_ [i ->]]. done.
Qed.

(** Going back to an entity of the trail loses the way to it. *)
Example trail_lost :
  foldl next_trail [] [("Network", 2); ("Campus", 3); ("Lab", 4); ("Campus", 3)]%Z = [("Campus", 3%Z)].
Proof. reflexivity. Qed.

(** ** Users offered *)

Lemma res_map_ok {A B} (f : A -> res B) l r :
  res_map f l = Ok r -> Forall2 (fun x y => f x = Ok y) l r.
Proof.
  revert r. induction l as [|x l IH]; intros r H; [by injection H as <-|].
  rewrite res_map_cons in H. apply res_bind_Ok_inv in H as (y & Hy & H).
  apply res_bind_Ok_inv in H as (r' & Hr & H). apply Ok_inj in H as <-. constructor; auto.
Qed.

Lemma offer_user_ok contact_ids u o :
  offer_user contact_ids u = Ok o ->
  exists uid, prop u "user_id" = Ok uid /\
    fst <$> o = if existsb (strict_eq uid) contact_ids then None else Some uid.
Proof.
  unfold offer_user. intros H. apply res_bind_Ok_inv in H as (uid & Hu & H). exists uid. split; [done|].
  destruct (existsb _ _); [by apply Ok_inj in H as <-|].
  apply res_bind_Ok_inv in H as (f & _ & H). apply res_bind_Ok_inv in H as (g & _ & H).
  by apply Ok_inj in H as <-.
Qed.

(** The list offers exactly the users that are not contacts yet. *)
Lemma offered_exactly contact_ids users l uid :
  offered_users contact_ids users = Ok l ->
  uid ∈ map fst l <->
  exists u, u ∈ users /\ prop u "user_id" = Ok uid /\ existsb (strict_eq uid) contact_ids = false.
Proof.
  unfold offered_users. intros H. apply res_bind_Ok_inv in H as (r & Hr & H). apply Ok_inj in H as <-.
  apply res_map_ok in Hr. induction Hr as [|u o users r Ho _ IH]; [set_solver|].
  apply offer_user_ok in Ho as (i & Hi & Ho).
  transitivity ((existsb (strict_eq i) contact_ids = false /\ uid = i) \/ uid ∈ map fst (somes r)).
  - destruct o as [[j t]|]; cbn [fmap option_fmap option_map fst] in Ho; cbn [somes map fst];
      destruct (existsb (strict_eq i) contact_ids); simplify_eq; set_solver.
  - rewrite IH. split.
    + intros [[E ->]|(v & Hv & E)]; [exists u; set_solver|exists v; set_solver].
    + intros (v & Hv & E1 & E2). apply elem_of_cons in Hv as [->|Hv]; [left; split; congruence|eauto].
Qed.

(** ** Panels of connections *)

Definition holds (r : res bool) : Prop := r = Ok true.

Lemma forallb_lines state l lines :
  res_map (show_endpoint state) l = Ok lines -> forallb el_up lines = true <-> Forall (fun e => holds (state e)) l.
Proof.
  intros H. apply res_map_ok in H. induction H as [|e x l lines He _ IH]; [done|].
  cbn [forallb]. rewrite andb_true_iff, IH, list.Forall_cons. f_equiv.
  unfold show_endpoint in He. apply res_bind_Ok_inv in He as (ok & Ho & He).
  repeat (apply res_bind_Ok_inv in He as (? & _ & He)). apply Ok_inj in He as <-. cbn [el_up]. unfold holds.
  rewrite Ho. split; congruence.
Qed.

(** An endpoint counts as up when its state and the states of all its peers are
    the text up. *)
Definition peers_of (e : val) : list val :=
  match e with VObj o => match obj_get "peers" o with Some (VArr l) => l | _ => [] end | _ => [] end.

Lemma endpoint_up_peers e :
  (exists b, endpoint_up e = Ok b) ->
  holds (endpoint_up e) <-> holds (up e) /\ Forall (fun p => holds (up p)) (peers_of e).
Proof.
  intros [b Hb]. unfold holds. rewrite Hb. unfold endpoint_up in Hb. apply res_bind_Ok_inv in Hb as (self & Hs & Hb).
  rewrite Hs. apply res_bind_Ok_inv in Hb as (h & Hh & Hb). destruct e as [| | | | |l|o]; try done.
  { cbn in Hh. injection Hh as <-. cbn in Hb. injection Hb as <-. cbn. naive_solver. }
  cbn [has] in Hh. cbn [peers_of]. destruct (obj_get "peers" o) as [ps|] eqn:Ep; injection Hh as <-.
  - cbn [prop] in Hb. rewrite Ep in Hb. cbn [default from_option id res_bind] in Hb.
    apply res_bind_Ok_inv in Hb as (l & Hl & Hb). destruct ps; try done. injection Hl as ->.
    apply res_bind_Ok_inv in Hb as (bs & Hbs & Hb). injection Hb as <-.
    apply res_map_ok in Hbs.
    assert (E : forallb id bs = true <-> Forall (fun p => up p = Ok true) l).
    { clear -Hbs. induction Hbs as [|p b l bs Hp _ IH]; [done|]. cbn [forallb].
      rewrite andb_true_iff, IH, list.Forall_cons, Hp. unfold id. naive_solver. }
    rewrite <- E. destruct self, (forallb id bs); naive_solver.
  - injection Hb as <-. naive_solver.
Qed.

Lemma lines_defined state l lines :
  res_map (show_endpoint state) l = Ok lines -> Forall (fun e => exists b, state e = Ok b) l.
Proof.
  intros H. apply res_map_ok in H. induction H as [|e x l lines He _ IH]; constructor; [|done].
  unfold show_endpoint in He. apply res_bind_Ok_inv in He as (ok & Ho & _). eauto.
Qed.

Lemma show_connection_ok state key owner wg isAdmin body conn p :
  show_connection state key owner wg isAdmin body conn = Ok p ->
  exists l o, prop conn "endpoints" = Ok (VArr l) /\ owner conn = Ok o /\ cn_body p = body /\
    Forall (fun e => exists b, state e = Ok b) l /\
    (cn_up p = true <-> Forall (fun e => holds (state e)) l) /\
    (cn_delete p = None <-> loose_eq o wg = false /\ truthy isAdmin = false).
Proof.
  intros H. unfold show_connection in H.
  apply res_bind_Ok_inv in H as (eps & He & H). apply res_bind_Ok_inv in H as (l & Hl & H).
  apply res_bind_Ok_inv in H as (lines & Hlines & H). apply res_bind_Ok_inv in H as (o & Ho & H).
  repeat (apply res_bind_Ok_inv in H as (? & _ & H)). apply Ok_inj in H as <-.
  destruct eps; try done. injection Hl as ->. exists l, o. split; [done|]. split; [done|]. split; [done|].
  split; [by eapply lines_defined|]. split; [by apply forallb_lines|].
  cbn [cn_delete]. destruct (loose_eq o wg), (truthy isAdmin); cbn; intuition congruence.
Qed.

(** The welcome page shows a connection as up exactly when every endpoint is
    up, and for layer 3 every peer of every endpoint too; and it offers to
    delete a connection unless it is owned by another workgroup and the user is
    not an administrator. *)
Theorem connection_shown (layer3 : bool) wg isAdmin i conn p :
  (if layer3 then show_vrf else show_circuit) wg isAdmin i conn = Ok p ->
  exists l owner,
    prop conn "endpoints" = Ok (VArr l) /\ (if layer3 then vrf_owner else circuit_owner) conn = Ok owner /\
    (cn_up p = true <->
       Forall (fun e => holds (up e) /\ (layer3 = true -> Forall (fun q => holds (up q)) (peers_of e))) l) /\
    (cn_delete p = None <-> loose_eq owner wg = false /\ truthy isAdmin = false).
Proof.
  intros H. destruct layer3; apply show_connection_ok in H as (l & o & H1 & H2 & _ & Hd & Hu & Hx);
    exists l, o; split; [done| |done|]; (split; [done|]); (split; [|done]); rewrite Hu.
  - clear -Hd. induction Hd as [|e l He _ IH]; [done|]. rewrite !list.Forall_cons, IH, endpoint_up_peers by done.
    intuition.
  - apply list.Forall_proper; [|done]. intros e. intuition discriminate.
Qed.

Definition sample_vrf : val :=
  let by_ := VObj [("email", VStr "noc@example.net")] in
  VObj [("vrf_id", VInt 12); ("name", VStr "net"); ("description", VStr "lab"); ("created_by", by_);
        ("last_modified_by", by_); ("workgroup", VObj [("workgroup_id", VInt 3); ("name", VStr "ops")]);
        ("endpoints", VArr [VObj [("operational_state", VStr "up"); ("bandwidth", VInt 0); ("node", VStr "a");
                                  ("interface", VStr "xe-0"); ("tag", VInt 7);
                                  ("peers", VArr [VObj [("operational_state", VStr "down")]])]])].

Lemma connection_shown_witness :
  exists p l owner,
    show_vrf (VInt 3) (VBool false) 0 sample_vrf = Ok p /\ cn_up p = false /\
    prop sample_vrf "endpoints" = Ok (VArr l) /\ vrf_owner sample_vrf = Ok owner /\
    (cn_up p = true <->
       Forall (fun e => holds (up e) /\ (true = true -> Forall (fun q => holds (up q)) (peers_of e))) l) /\
    (cn_delete p = None <-> loose_eq owner (VInt 3) = false /\ truthy (VBool false) = false).
Proof.
  destruct (show_vrf (VInt 3) (VBool false) 0 sample_vrf) as [p|] eqn:E; [|discriminate E].
  destruct (connection_shown true (VInt 3) (VBool false) 0 sample_vrf p E) as (l & owner & T).
  exists p, l, owner. split; [reflexivity|]. split; [|exact T]. by injection E as <-.
Defined.

(** ** Numbers of the bodies *)

Lemma res_imap_bodies f (g : nat -> Z) (n : nat) (l : list val) (r : list connection_panel) :
  (forall i x p, f i x = Ok p -> cn_body p = g i) -> res_imap f n l = Ok r -> map cn_body r = map g (seq n (length r)).
Proof.
  intros Hf. revert n r. induction l as [|x l IH]; intros n r H; [by injection H as <-|].
  cbn [res_imap] in H. apply res_bind_Ok_inv in H as (y & Hy & H). apply res_bind_Ok_inv in H as (r' & Hr & H).
  apply Ok_inj in H as <-. cbn. rewrite (Hf _ _ _ Hy). f_equal. by apply IH.
Qed.

(** The bodies of the two lists of connections have different numbers exactly
    as long as there are at most 100000 layer 3 connections, or no layer 2
    connection. *)
Theorem body_numbers wg isAdmin vrfs circuits p q :
  res_imap (show_vrf wg isAdmin) 0 vrfs = Ok p -> res_imap (show_circuit wg isAdmin) 0 circuits = Ok q ->
  NoDup (map cn_body p ++ map cn_body q) <-> (Z.of_nat (length p) <= 100000)%Z \/ q = [].
Proof.
  intros Hp Hq.
  rewrite (res_imap_bodies _ Z.of_nat 0 vrfs p) by (try done; intros i x y H; by apply show_connection_ok in H as (? & ? & ? & ? & ? & _)).
  rewrite (res_imap_bodies _ (fun i => Z.of_nat i + 100000)%Z 0 circuits q)
    by (try done; intros i x y H; by apply show_connection_ok in H as (? & ? & ? & ? & ? & _)).
  rewrite list.NoDup_app. split.
  - intros (_ & H & _). destruct q as [|c q]; [by right|]. left.
    destruct (Z.le_gt_cases (Z.of_nat (length p)) 100000); [done|]. exfalso.
    apply (H 100000%Z).
    + apply list_elem_of_fmap. exists (Z.to_nat 100000). split; [by rewrite Z2Nat.id|]. apply elem_of_seq. lia.
    + apply list_elem_of_fmap. exists 0. split; [done|]. apply elem_of_seq. simpl. lia.
  - intros H. split; [apply NoDup_fmap_2; [apply _|apply NoDup_seq]|]. split.
    + intros z Hz%list_elem_of_fmap Hz2%list_elem_of_fmap.
      destruct Hz as (i & -> & Hi%elem_of_seq), Hz2 as (j & E & Hj%elem_of_seq).
      destruct H as [H| ->]; [lia|simpl in Hj; lia].
    + apply NoDup_fmap_2; [intros a b E; lia|apply NoDup_seq].
Qed.

Lemma body_numbers_witness :
  NoDup (map cn_body [ConnectionPanel false true (Some (VInt 12, VStr "lab")) 0
           [EndpointLine false (VStr "a") (VStr "xe-0") (VInt 7) "unlimited"]
           [VStr "net"; VStr "ops"; VStr "noc@example.net"; VStr "noc@example.net"]] ++ map cn_body []) <->
  (1 <= 100000)%Z \/ @nil connection_panel = [].
Proof. exact (body_numbers (VInt 3) (VBool false) [sample_vrf] [] _ [] eq_refl eq_refl). Defined.

(** ** Bodies *)

(** Toggling twice restores a body that is displayed as the page writes it. *)
Lemma toggle_twice b :
  b = BodyState "none" estr "none" \/ b = BodyState "block" "none" estr ->
  toggleEntityBody (toggleEntityBody b) = b.
Proof. by intros [->| ->]. Qed.

(** ** Sorting *)

Lemma insert_by_perm {A} cmp (x : A) l : insert_by cmp x l ≡ₚ x :: l.
Proof.
  induction l as [|y l IH]; [done|]. cbn [insert_by]. destruct (_ <=? _)%Z; [done|]. rewrite IH. constructor.
Qed.

Section sorting.
Context {A : Type} (cmp : A -> A -> Z).
Hypothesis cmp_total : forall a b, (0 < cmp a b -> cmp b a <= 0)%Z.

Lemma insert_by_sorted x l :
  Sorted (fun a b => cmp a b <= 0)%Z l -> Sorted (fun a b => cmp a b <= 0)%Z (insert_by cmp x l).
Proof.
  induction 1 as [|y l Hs IH Hy]; [repeat constructor|]. cbn [insert_by].
  destruct (Z.leb_spec (cmp x y) 0); [repeat constructor; done|].
  constructor; [done|]. destruct Hy as [|z l Hz]; cbn [insert_by].
  - constructor. apply cmp_total. lia.
  - destruct (Z.leb_spec (cmp x z) 0); constructor; [apply cmp_total; lia|done].
Qed.

Lemma js_sort_sorted l : Sorted (fun a b => cmp a b <= 0)%Z (js_sort cmp l).
Proof. induction l; [constructor|]. by apply insert_by_sorted. Qed.

End sorting.

Lemma js_sort_perm {A} cmp (l : list A) : js_sort cmp l ≡ₚ l.
Proof. induction l as [|x l IH]; [done|]. cbn. by rewrite insert_by_perm, IH. Qed.

(** The workgroups are those of the reply, in the order of their names without
    regard to case. *)
Lemma workgroups_sorted rows :
  sorted_workgroups rows ≡ₚ rows /\
  Sorted (fun a b => str_ltb (to_lower (fst b)) (to_lower (fst a)) = false) (sorted_workgroups rows).
Proof.
  split; [apply js_sort_perm|].
  assert (S : Sorted (fun a b => sortWorkgroups (fst a) (fst b) <= 0)%Z (sorted_workgroups rows)).
  { apply js_sort_sorted. intros [a va] [b vb]. unfold sortWorkgroups. cbn [fst].
    unfold str_ltb. rewrite (String.compare_antisym (to_lower b) (to_lower a)).
    destruct (String.compare (to_lower a) (to_lower b)); cbn; lia. }
  clear -S. induction S as [|[a va] l _ IH Ha]; constructor; [done|]. destruct Ha as [|[b vb] l Hab]; constructor.
  unfold sortWorkgroups in Hab. cbn [fst] in *. unfold str_ltb in *.
  rewrite (String.compare_antisym (to_lower b) (to_lower a)) in *.
  destruct (String.compare (to_lower a) (to_lower b)); cbn in *; [done|done|lia].
Qed.
