(* ===== verification/Circuits.v ===== *)
(** * The pages that edit one circuit (js_templates/edit_details.js,
      interdomain.js, circuit_details_box.js, edit_circuit_name.js)

    The details of a circuit before its endpoints are chosen, the endpoints of an
    interdomain circuit, the summary box with its edit button, and the name in
    the header; and the button of utility.js that leads to the next page. *)

From Stdlib Require Import ZArith Lia Ascii String.
From stdpp Require Import base option list sets strings numbers tactics.
From S2P Require Import Prelude JsValue JsJson Fetch Api Provision Pages EndpointModal Session Checks DataSource Tables.

(** ** The button to the next page (utility.js, setNextButton) *)

(** The listeners of the button, one for each call, in order. *)
Definition setNextButton (listeners : list string) (url : string) : list string := listeners ++ [url].

(** A click: every listener runs its check on the state [S] of the page, which
    may alert, and sets the location when the check passes. *)
Section next_button.
Context {S : Type} (verification : S -> S * list string * bool).

Fixpoint next_clicked (listeners : list string) (s : S) (alerts : list string) (location : option string)
    : S * list string * option string :=
  match listeners with
  | [] => (s, alerts, location)
  | url :: l =>
      let '(s', a, ok) := verification s in
      next_clicked l s' (alerts ++ a) (if ok then Some url else location)
  end.

End next_button.

(** ** The details of a circuit (edit_details.js) *)

(** [parseFloat(x)] of a text of digits with an optional fraction, times ten to
    a power. *)
Definition scaled (number : string) (k : nat) : num :=
  match string_to_num number with Fin (Dec m s) => Fin (dec_norm (Dec (m * 10 ^ Z.of_nat k) s)) | NaN => NaN end.

(** [value.match(/(\d+(\.\d+)?)\s*(M|G)?/i)]: the number and the unit of the
    first place that matches. *)
Definition take_number (s : string) : string * string :=
  let '(a, r) := span is_digit s in
  match r with
  | String c r' =>
      if Ascii.eqb c "." then
        match span is_digit r' with
        | (EmptyString, _) => (a, r)
        | (b, r'') => (a +:+ "." +:+ b, r'')
        end
      else (a, r)
  | EmptyString => (a, r)
  end.

Definition unit_of (c : ascii) : option ascii :=
  if (Ascii.eqb c "M" || Ascii.eqb c "m")%char then Some "M"%char
  else if (Ascii.eqb c "G" || Ascii.eqb c "g")%char then Some "G"%char else None.

Fixpoint match_bandwidth (value : string) : option (string * option ascii) :=
  match value with
  | EmptyString => None
  | String c rest =>
      if is_digit c then
        let '(n, r) := take_number value in
        Some (n, match snd (span is_space r) with String u _ => unit_of u | EmptyString => None end)
      else match_bandwidth rest
  end.

(** The bandwidth the slider is set to when a text is typed; without a unit, up
    to ten are gigabits. *)
Definition typed_bandwidth (value : string) : option num :=
  let value' := if String.eqb value estr then "0" else value in
  match match_bandwidth value' with
  | None => None
  | Some (number, units) =>
      let u := match units with
               | Some u => u
               | None => if js_le (VStr number) (VInt 10) then "G"%char else "M"%char
               end in
      Some (if Ascii.eqb u "G" then scaled number 9 else scaled number 6)
  end.

(** [parseFloat]: the longest numeric text at the start; an exponent counts only
    when it has digits. *)
Definition float_exponent (s : string) : Z :=
  match s with
  | String c s' =>
      if (Ascii.eqb c "e" || Ascii.eqb c "E")%char then
        let '(neg, r) := take_sign s' in
        let e := Z.of_N (dec_value (fst (span is_digit r))) in if neg then (- e)%Z else e
      else 0%Z
  | EmptyString => 0%Z
  end.

Definition parse_float (v : val) : num :=
  let '(neg, s) := take_sign (ltrim (to_string v)) in
  let '(ip, r) := span is_digit s in
  let '(fp, r') := match r with String "." r1 => span is_digit r1 | _ => (estr, r) end in
  match ip +:+ fp with
  | EmptyString => NaN
  | ds => signed neg (scale_by (Z.of_N (dec_value ds)) (String.length fp) (float_exponent r'))
  end.

(** The bandwidth slider of YUI: the position after [setValue]. *)
Class Slider := { setValue : Z -> num -> Z }.

(** The slider is made with the range from 0 to 200, takes any position of it,
    and ignores what is not a number. *)
Class SliderLaws `{Slider} := {
  setValue_range p n : (0 <= p <= 200 -> 0 <= setValue p n <= 200)%Z;
  setValue_exact p v : (0 <= v <= 200 -> setValue p (Fin (Dec v 0)) = v)%Z;
  setValue_nan p : setValue p NaN = p
}.

Definition getRealValue (position : Z) : Z := (position * 50000000)%Z.

(** [n / 50000000] *)
Definition position_of (n : num) : num :=
  match n with Fin (Dec m s) => num_shift 8 (Fin (dec_norm (Dec (2 * m) s))) | NaN => NaN end.

Definition setRealValue `{Slider} (position : Z) (input : num) : Z := setValue position (position_of input).

(** What is displayed for a position: the number and its unit. *)
Definition slider_text (position : Z) : string * string :=
  let value := Fin (Dec (getRealValue position) 0) in
  if (1000000000 <=? getRealValue position)%Z
  then (num_to_string (num_shift 9 value), "Gbps")
  else (num_to_string (num_shift 6 value), " Mbps").

(** The position after a text is typed. *)
Definition slider_typed `{Slider} (position : Z) (value : string) : Z :=
  match typed_bandwidth value with Some b => setRealValue position b | None => position end.

(** The form: the labels of its two buttons say whether they are on. *)
Record details := Details {
  dt_description : string;
  dt_position : Z;
  dt_tagging : string;
  dt_interdomain : bool;
  dt_restore : string;
  dt_restore_shown : bool;
  dt_restore_label : string;
  dt_mac_label : string;
  dt_mac_disabled : bool;
  dt_bandwidth_shown : bool
}.

Definition label_of (on : bool) : string := if on then "On" else "Off".

(** The form as it is opened on the session data [data]; the slider starts at 0,
    and the radio buttons are as the page has them when no value matches. *)
Section details_page.
Context `{Slider} (domains : string * string) (first_tagging : string) (first_domain : bool).

Definition chosen_domain (data : val) : res val :=
  let? d := prop data "interdomain" in Ok (js_or d (VStr "0")).

Definition checked_domain (chosen : val) : bool :=
  if loose_eq (VStr (snd domains)) chosen then true
  else if loose_eq (VStr (fst domains)) chosen then false else first_domain.

Definition step2_url (interdomain : bool) : string :=
  if interdomain then "?action=interdomain" else "?action=endpoints".

Definition open_details (data : val) : res (details * list string) :=
  let? b := prop data "bandwidth" in
  let? d := prop data "description" in
  let? r := prop data "restore_to_primary" in
  let? s := prop data "static_mac_routing" in
  let? c := chosen_domain data in
  let restore := to_string (js_or r (VInt 0)) in
  let restore_on := js_lt (VInt 0) (VStr restore) in
  let far := negb (loose_eq c (VInt 0)) in
  let yes := checked_domain c in
  let mac := to_string (js_or s (VInt 0)) in
  Ok (Details (to_string (js_or d (VStr estr))) (setRealValue 0 (parse_float (js_or b (VInt 0)))) first_tagging yes
        restore restore_on (label_of restore_on) (label_of (js_lt (VInt 0) (VStr mac))) far far,
      setNextButton (setNextButton [] (step2_url false)) (step2_url yes)).

(** What the user does on the form. *)
Inductive details_event :=
  | DescriptionTyped (text : string)
  | BandwidthTyped (text : string)
  | RestoreTyped (text : string)
  | RestoreClicked
  | MacClicked
  | DomainClicked (yes : bool).

Definition details_step (p : details * list string) (e : details_event) : details * list string :=
  let '(Details de po ta inter re shown rl ml md bs, listeners) := p in
  match e with
  | DescriptionTyped t => (Details t po ta inter re shown rl ml md bs, listeners)
  | BandwidthTyped t => (Details de (slider_typed po t) ta inter re shown rl ml md bs, listeners)
  | RestoreTyped t => (Details de po ta inter t shown rl ml md bs, listeners)
  | RestoreClicked =>
      (if shown then Details de po ta inter "0" false "Off" ml md bs
       else Details de po ta inter re true "On" ml md bs, listeners)
  | MacClicked =>
      (if md then Details de po ta inter re shown rl ml md bs
       else Details de po ta inter re shown rl (label_of (negb (String.eqb ml "On"))) md bs, listeners)
  | DomainClicked yes => (Details de po ta yes re shown rl ml yes yes, setNextButton listeners (step2_url yes))
  end.

(** [verify_inputs]: the session data that is saved, or [None] with an alert.
    An interdomain circuit has at least 50 megabits. *)
Definition assign_all (data : val) (l : list (string * val)) : res val :=
  res_fold (fun d kv => assign_prop d (fst kv) (snd kv)) data l.

Definition restore_value (text : string) : val :=
  if String.eqb text estr then VInt 0 else VNum (parse_int_str text).

Definition domain_value (f : details) : string := if dt_interdomain f then snd domains else fst domains.

Definition session_bandwidth (f : details) : Z :=
  let bandwidth := getRealValue (dt_position f) in
  if loose_eq (VStr (domain_value f)) (VInt 1) && (bandwidth =? 0)%Z then 50000000%Z else bandwidth.

Definition details_fields (f : details) : list (string * val) :=
  [("description", VStr (dt_description f)); ("restore_to_primary", restore_value (dt_restore f));
   ("static_mac_routing", VInt (if String.eqb (dt_mac_label f) "On" then 1 else 0));
   ("bandwidth", VInt (session_bandwidth f));
   ("tagging", VStr (dt_tagging f)); ("interdomain", VStr (domain_value f))].

Definition verify_details (f : details) (data : val) : val * list string * bool :=
  if String.eqb (dt_description f) estr then (data, ["You must enter a description."], false)
  else match assign_all data (details_fields f) with Ok d => (d, [], true) | Err _ => (data, [], false) end.

End details_page.

(** ** Interdomain endpoints (interdomain.js) *)

(** The entries of the tree: the links of a network, but those with a wildcard. *)
Definition decoded (v : val) : res string :=
  match decodeURIComponent (to_string v) with Some t => Ok t | None => Err EURI end.

Record tree_link := TreeLink { tl_label : string; tl_urn : string; tl_node : string; tl_port : string; tl_range : string }.

Definition link_entry (info : val) : res (option tree_link) :=
  let? n := prop info "node" in let? node := decoded n in
  let? p := prop info "port" in let? port := decoded p in
  let? l := prop info "link" in let? link := decoded l in
  let? u := prop info "urn" in let? urn := decoded u in
  let? r := prop info "vlan_range" in let? range := decoded r in
  if String.eqb node "*" || String.eqb port "*" then Ok None
  else Ok (Some (TreeLink (node +:+ " - " +:+ port +:+ " - " +:+ link) urn node port range)).

Definition network_entries (network : val) : res (string * list tree_link) :=
  let? u := prop network "urn" in let? _ := decoded u in
  let? n := prop network "name" in let? name := decoded n in
  let? ls := prop network "links" in let? l := elements_of ls in
  let? entries := res_map link_entry l in
  Ok (name, somes entries).

(** The row of an endpoint and what the session keeps of a row. *)
Definition endpoint_row (l : tree_link) (tag : val) : val :=
  VObj [("interface", VStr (tl_port l)); ("node", VStr (tl_node l)); ("tag", tag); ("urn", VStr (tl_urn l))].

Definition session_endpoint (row : val) : res val :=
  let? node := prop row "node" in let? intf := prop row "interface" in
  let? tag := prop row "tag" in let? urn := prop row "urn" in
  Ok (VObj [("interface", intf); ("node", node); ("tag", tag); ("urn", urn)]).

Section interdomain.
Context {T : Type} `{DataTable T}.

Definition save_endpoints (data : val) (t : T) : res val :=
  let? l := res_map (fun r => session_endpoint (snd r)) (tb_rows t) in assign_prop data "endpoints" (VArr l).

(** A tag chosen for a link of the tree. *)
Definition link_chosen (data : val) (t : T) (l : tree_link) (tag : val) : res (T * val * list string) :=
  if Nat.eqb (length (tb_rows t)) 2 then Ok (t, data, ["You can only have exactly two endpoints."])
  else
    let t' := addRow (endpoint_row l tag) (length (tb_rows t)) t in
    let? d := save_endpoints data t' in Ok (t', d, []).

Definition endpoint_deleted (data : val) (t : T) (i : nat) : res (T * val) :=
  let t' := deleteRow i t in let? d := save_endpoints data t' in Ok (t', d).

(** What the user does with the endpoints. *)
Inductive far_event :=
  | LinkChosen (l : tree_link) (tag : val)
  | EndpointDeleted (i : nat).

Definition far_step (p : val * T * list string) (e : far_event) : res (val * T * list string) :=
  let '(data, t, alerts) := p in
  match e with
  | LinkChosen l tag =>
      let? r := link_chosen data t l tag in let '(t', d, a) := r in Ok (d, t', alerts ++ a)
  | EndpointDeleted i => let? r := endpoint_deleted data t i in let '(t', d) := r in Ok (d, t', alerts)
  end.

Definition verify_endpoints (data : val) (t : T) : res (option val) :=
  if negb (Nat.eqb (length (tb_rows t)) 2) then Ok None
  else let? d := save_endpoints data t in Ok (Some d).

End interdomain.

(** ** The summary box (circuit_details_box.js) *)

(** What the box shows of the two options of an OpenFlow circuit, [None] when
    they are hidden, and the session values they default. *)
Definition set_summary (circuit_type restore_to_primary static_mac_routing : val)
    : option (string * string) * val * val :=
  if loose_eq circuit_type (VStr "openflow") then
    let r := js_or restore_to_primary (VInt 0) in
    let m := js_or static_mac_routing (VInt 0) in
    (Some (if loose_eq r (VInt 0) then "Off" else to_string r +:+ " minutes",
           if loose_eq m (VInt 0) then "Off" else "On"), r, m)
  else (None, restore_to_primary, static_mac_routing).

Definition control_type (circuit_type : val) : string :=
  if loose_eq circuit_type VUndef then "undefined" else to_string circuit_type.

(** The bandwidth of the box. *)
Definition box_bandwidth (bandwidth : num) : string :=
  if num_ltb bandwidth (Fin (Dec 1000000000 0)) then num_to_string (num_shift 6 bandwidth) +:+ " Mbps"
  else num_to_string (num_shift 9 bandwidth) +:+ " Gbps".

(** Columns of the endpoints. *)
Definition tag_column (data : val) : string :=
  if loose_eq data (VInt (-1)) then "<span style='font-size: 74%;'>Untagged</span>" else to_string data.

Definition macs_column (data : val) : res string :=
  if negb (truthy data) then Ok "None"
  else
    let? l := elements_of data in
    let? ms := res_map (fun m => prop m "mac_address") l in
    Ok (str_concat (map (fun m => to_string m +:+ "<br>") ms)).

(** The edit button of an endpoint: the range is fetched the first time.  The
    panel is opened with the range it was given. *)
Section edit_endpoint.
Context `{DataSource}.

Definition create_panel (range : val) : io (option val) :=
  acts [ACall "window" "makeTagSelectPanel" [range]; call "vlan_panel" "show"; set_disabled "button" false]
    (Ret (Some range)).

Definition range_url (interface_ node workgroup_id : val) : string :=
  "services/data.cgi?method=get_vlan_tag_range&interface=" +:+ encodeURIComponent (to_string interface_)
  +:+ "&node=" +:+ encodeURIComponent (to_string node) +:+ "&workgroup_id=" +:+ to_string workgroup_id.

Definition range_problem : io (option val) := Act (AAlert "Problem fetching vlan tag range.") (Ret None).

(** The result is the range the record remembers, if the panel was opened. *)
Definition edit_endpoint (remembered interface_ node workgroup_id : val) : io (option val) :=
  Act (set_disabled "button" true)
    (if negb (truthy remembered) then
       sendRequest (Schema (fields ["vlan_tag_range"]) ["error"]) (range_url interface_ node workgroup_id)
         (fun r =>
            match r with
            | Failure => range_problem
            | Success results _ =>
                pure range := first_of results "vlan_tag_range" in
                if truthy range then create_panel range
                else if strict_eq range VNull then create_panel (VStr "None Available")
                else range_problem
            end)
     else create_panel remembered).

End edit_endpoint.

(** ** The name in the header (edit_circuit_name.js) *)

(** The name on display, the text typed while it is edited, the label of the
    button and whether the button that applies the change is hidden. *)
Record name_editor := NameEditor {
  ne_name : string;
  ne_input : option string;
  ne_label : string;
  ne_hidden : bool
}.

Inductive name_event :=
  | EditClicked
  | ChangeClicked
  | EnterPressed
  | NameTyped (text : string).

Definition doneEditingName (name : string) : name_editor := NameEditor name None "Edit Name" true.

(** An empty input stands for the name the page was opened with. *)
Definition new_name (default_name : string) (input : string) : string :=
  if String.eqb input estr then default_name else input.

Definition name_step (default_name : string) (e : name_editor) (ev : name_event) : res name_editor :=
  match ev with
  | EditClicked =>
      if String.eqb (js_trim (ne_label e)) "Edit Name"
      then Ok (NameEditor (ne_name e) (Some estr) "Revert" false)
      else Ok (doneEditingName default_name)
  | ChangeClicked =>
      match ne_input e with Some t => Ok (doneEditingName (new_name default_name t)) | None => Err EType end
  | EnterPressed =>
      match ne_input e with Some t => Ok (doneEditingName (new_name default_name t)) | None => Ok e end
  | NameTyped t =>
      match ne_input e with
      | Some _ => Ok (NameEditor (ne_name e) (Some t) (ne_label e) (ne_hidden e))
      | None => Ok e
      end
  end.

(** ** The next button *)

Lemma obj_set_present k v o : array_index k = None -> obj_get k o = Some v -> obj_set k v o = o.
Proof.
  intros Hk. induction o as [|[k' v'] o IH]; simpl; [done|].
  destruct (String.eqb_spec k k') as [->|]; [by intros [= ->]|].
  unfold key_first. rewrite Hk. intros Ho. by rewrite IH.
Qed.

Lemma obj_set_all_present o fs :
  Forall (fun kv => array_index (fst kv) = None /\ obj_get (fst kv) o = Some (snd kv)) fs -> obj_set_all o fs = o.
Proof.
  unfold obj_set_all. induction 1 as [|[k v] fs [Hk Ho] _ IH]; [done|].
  simpl in *. by rewrite obj_set_present.
Qed.

Lemma assign_all_obj o fs : assign_all (VObj o) fs = Ok (VObj (obj_set_all o fs)).
Proof. unfold assign_all, obj_set_all. revert o. by induction fs as [|[k v] fs IH]; intros o; simpl. Qed.

Lemma details_fields_names domains f :
  names (details_fields domains f)
  = ["description"; "restore_to_primary"; "static_mac_routing"; "bandwidth"; "tagging"; "interdomain"].
Proof. done. Qed.

Lemma details_twice domains f o :
  obj_set_all (obj_set_all o (details_fields domains f)) (details_fields domains f)
  = obj_set_all o (details_fields domains f).
Proof.
  apply obj_set_all_present, list.Forall_forall. intros [k v] Hin. split.
  - apply (list_elem_of_fmap_2 fst) in Hin. change (fst <$> details_fields domains f) with (names (details_fields domains f)) in Hin.
    rewrite details_fields_names in Hin. simpl in Hin. set_unfold. naive_solver.
  - apply read_back; [|rewrite details_fields_names; by apply (bool_decide_unpack _)].
    unfold details_fields in Hin |- *. set_unfold. destruct_or!; by simplify_eq/=.
Qed.

Lemma next_clicked_app {S} (check : S -> S * list string * bool) l1 l2 s a u :
  next_clicked check (l1 ++ l2) s a u
  = let '(s', a', u') := next_clicked check l1 s a u in next_clicked check l2 s' a' u'.
Proof.
  revert s a u. induction l1 as [|url l1 IH]; intros s a u; [done|].
  simpl. destruct (check s) as [[s' a'] ok]. apply IH.
Qed.

(** A check that passes and then leaves the state alone: the last page wins. *)
Lemma next_clicked_passes {S} (check : S -> S * list string * bool) s s' l url a u :
  check s = (s', [], true) -> check s' = (s', [], true) ->
  next_clicked check (l ++ [url]) s a u = (s', a, Some url).
Proof.
  intros H1 H2. rewrite next_clicked_app.
  assert (forall l a u, exists u', next_clicked check l s' a u = (s', a, u')) as Hs'.
  { clear -H2. induction l as [|x l IH]; intros a u; [by eexists|]. simpl. rewrite H2, app_nil_r. apply IH. }
  destruct l as [|x l]; simpl; [by rewrite H1, app_nil_r|].
  rewrite H1, app_nil_r. destruct (Hs' l a (Some x)) as (u' & ->). simpl. by rewrite H2, app_nil_r.
Qed.

(** A check that alerts: once for every listener. *)
Lemma next_clicked_refuses {S} (check : S -> S * list string * bool) s msg l a u :
  check s = (s, [msg], false) ->
  next_clicked check l s a u = (s, a ++ replicate (length l) msg, u).
Proof.
  intros Hc. revert a. induction l as [|x l IH]; intros a; simpl; [by rewrite app_nil_r|].
  by rewrite Hc, IH, <- app_assoc.
Qed.

(** Every page of the form: the last listener leads to the page of the radio
    button that is checked. *)
Section details_theorems.
Context `{SliderLaws} (domains : string * string) (first_tagging : string) (first_domain : bool).

Definition domain_clicks (es : list details_event) : nat :=
  sum_list_with (fun e => match e with DomainClicked _ => 1 | _ => 0 end) es.

(** The listeners of a form: the last one is the page of the domain, and the
    slider stays in its range. *)
Definition details_ok (p : details * list string) : Prop :=
  (exists l, snd p = l ++ [step2_url (dt_interdomain (fst p))]) /\ (0 <= dt_position (fst p) <= 200)%Z.

Lemma open_details_ok data p :
  open_details domains first_tagging first_domain data = Ok p -> details_ok p /\ length (snd p) = 2.
Proof.
  unfold open_details. intros Hp. repeat (apply res_bind_Ok_inv in Hp as (? & _ & Hp)).
  injection Hp as <-. split; [|done]. split; [by exists [step2_url false]|].
  apply setValue_range. lia.
Qed.

Lemma details_step_ok p e :
  details_ok p ->
  details_ok (details_step p e) /\ length (snd (details_step p e)) = length (snd p) + domain_clicks [e].
Proof.
  destruct p as [[de po ta inter re shown rl ml md bs] ls]. intros [[l Hl] Hr]. simpl in *. subst ls.
  destruct e; simpl; unfold details_ok; simpl; try (split; [split; [by exists l|done]|by rewrite Nat.add_0_r]).
  - split; [split; [by exists l|]|by rewrite Nat.add_0_r].
    unfold slider_typed, setRealValue. destruct (typed_bandwidth text); [by apply setValue_range|done].
  - destruct shown; simpl; (split; [split; [by exists l|done]|by rewrite Nat.add_0_r]).
  - destruct md; simpl; (split; [split; [by exists l|done]|by rewrite Nat.add_0_r]).
  - unfold setNextButton. split; [split; [by eexists|done]|by rewrite !length_app].
Qed.

Lemma details_steps_ok es p :
  details_ok p ->
  details_ok (foldl details_step p es)
  /\ length (snd (foldl details_step p es)) = length (snd p) + domain_clicks es.
Proof.
  revert p. induction es as [|e es IH]; intros p Hp; simpl; [by rewrite Nat.add_0_r|].
  destruct (details_step_ok p e Hp) as [Hok Hl]. destruct (IH _ Hok) as [Hok' Hl']. split; [done|].
  rewrite Hl', Hl. unfold domain_clicks. simpl. lia.
Qed.

(** The form of a circuit's details, opened on any session and changed by any
    sequence of typing and clicks: the next button goes to the page of the radio
    button that is checked at that moment, the session then holds every field of
    the form, other session fields are untouched and the session is saved the
    same by each listener; without a description nothing is saved, and the alert
    comes up twice and once more for every click on a radio button. *)
Theorem details_next data p0 es o :
  open_details domains first_tagging first_domain data = Ok p0 ->
  let '(f, listeners) := foldl details_step p0 es in
  let '(data', alerts, location) := next_clicked (verify_details domains f) listeners (VObj o) [] None in
  if String.eqb (dt_description f) estr
  then data' = VObj o /\ location = None
       /\ alerts = replicate (2 + domain_clicks es) "You must enter a description."
  else location = Some (step2_url (dt_interdomain f)) /\ alerts = []
       /\ exists o', data' = VObj o'
          /\ Forall (fun kv => obj_get (fst kv) o' = Some (snd kv)) (details_fields domains f)
          /\ forall k, k ∉ names (details_fields domains f) -> obj_get k o' = obj_get k o.
Proof.
  intros Hp. destruct (open_details_ok _ _ Hp) as [Hok Hn].
  destruct (details_steps_ok es p0 Hok) as [[[l Hl] _] Hlen].
  destruct (foldl details_step p0 es) as [f ls]. simpl in *. rewrite Hn in Hlen.
  destruct (String.eqb (dt_description f) estr) eqn:E.
  - rewrite (next_clicked_refuses _ _ "You must enter a description.") by (unfold verify_details; by rewrite E).
    by rewrite Hlen.
  - subst ls. rewrite (next_clicked_passes _ _ (VObj (obj_set_all o (details_fields domains f)))).
    2, 3: unfold verify_details; by rewrite E, assign_all_obj, ?details_twice.
    split_and!; [done..|]. eexists. split_and!; [done| |].
    + apply list.Forall_forall. intros [k v] Hin. apply read_back.
      * unfold details_fields in Hin |- *. set_unfold. destruct_or!; by simplify_eq/=.
      * rewrite details_fields_names. by apply (bool_decide_unpack _).
    + intros k Hk. by apply obj_get_set_all_frame.
Qed.

(** On the form of a circuit's details, opened on any session and changed in
    any way, the bandwidth that would be saved is a multiple of 50 megabits up
    to ten gigabits, and at least 50 megabits for an interdomain circuit. *)
Theorem details_bandwidth data p0 es :
  open_details domains first_tagging first_domain data = Ok p0 ->
  let f := fst (foldl details_step p0 es) in
  (0 <= session_bandwidth domains f <= 10000000000)%Z
  /\ (exists n, session_bandwidth domains f = n * 50000000)%Z
  /\ (loose_eq (VStr (domain_value domains f)) (VInt 1) = true -> (50000000 <= session_bandwidth domains f)%Z).
Proof.
  intros Hp. destruct (open_details_ok _ _ Hp) as [Hok _].
  destruct (details_steps_ok es p0 Hok) as [[_ Hr] _].
  destruct (foldl details_step p0 es) as [f ls]. cbv zeta. cbn [fst] in *. unfold session_bandwidth, getRealValue.
  destruct (loose_eq (VStr (domain_value domains f)) (VInt 1)); cbn [andb].
  - destruct (Z.eqb_spec (dt_position f * 50000000) 0).
    + split_and!; [lia|lia|by exists 1%Z|lia].
    + split_and!; [lia|lia|by eexists|lia].
  - split_and!; [lia|lia|by eexists|done].
Qed.

(** Every position of the slider is displayed as a text that stands for it. *)
Lemma position_text v :
  (0 <= v <= 200)%Z ->
  exists b, typed_bandwidth (fst (slider_text v)) = Some b /\ position_of b = Fin (Dec v 0).
Proof.
  intros Hv. set (ok := fun n : nat =>
    match typed_bandwidth (fst (slider_text (Z.of_nat n))) with
    | Some b => match position_of b with Fin (Dec m 0) => (m =? Z.of_nat n)%Z | _ => false end
    | None => false
    end).
  assert (forallb ok (seq 0 201) = true) as Hall by by vm_compute.
  rewrite forallb_forall in Hall. specialize (Hall (Z.to_nat v)). unfold ok in Hall.
  rewrite Z2Nat.id in Hall by lia. specialize (Hall ltac:(apply in_seq; lia)).
  destruct (typed_bandwidth _) as [b|]; [|done]. exists b. split; [done|].
  destruct (position_of b) as [|[m []]]; [done| |done]. by apply Z.eqb_eq in Hall as ->.
Qed.

(** Typing the number the form displays for a position of the bandwidth
    slider, without its unit, sets the slider back to that position, wherever it
    is by then: the guessed unit is the one that was displayed. *)
Theorem bandwidth_text_roundtrip p v :
  (0 <= v <= 200)%Z -> slider_typed p (fst (slider_text v)) = v.
Proof.
  intros Hv. destruct (position_text v Hv) as (b & Hb & Hp).
  unfold slider_typed, setRealValue. rewrite Hb, Hp. by apply setValue_exact.
Qed.

End details_theorems.

(** A slider that rounds to the nearest position of its range. *)
Module PixelSlider.

#[export] Instance slider : Slider := {
  setValue p n :=
    match n with
    | Fin (Dec m s) => Z.max 0 (Z.min 200 ((2 * m + 10 ^ Z.of_nat s) / (2 * 10 ^ Z.of_nat s)))
    | NaN => p
    end
}.

#[export] Instance laws : SliderLaws.
Proof.
  split; [|intros p v Hv|done].
  - intros p [|[m s]] Hp; simpl; lia.
  - cbn [setValue slider]. change (10 ^ Z.of_nat 0)%Z with 1%Z. Z.to_euclidean_division_equations. lia.
Qed.

End PixelSlider.
Import PixelSlider.

Definition sample_details : val := VObj [("bandwidth", VInt 500000000); ("static_mac_routing", VInt 1)].
Definition far_events : list details_event := [DescriptionTyped "east"; DomainClicked true; BandwidthTyped "0"].

Lemma details_next_witness :
  exists p0, open_details ("0", "1") "ptp" false sample_details = Ok p0
  /\ snd (next_clicked (verify_details ("0", "1") (fst (foldl details_step p0 far_events)))
            (snd (foldl details_step p0 far_events)) (VObj []) [] None)
     = Some "?action=interdomain".
Proof.
  eexists. split; [vm_compute; reflexivity|].
  exact (proj1 (details_next ("0", "1") "ptp" false sample_details _ far_events [] eq_refl)).
Defined.

Lemma details_bandwidth_witness :
  exists p0, open_details ("0", "1") "ptp" false sample_details = Ok p0
  /\ session_bandwidth ("0", "1") (fst (foldl details_step p0 far_events)) = 50000000%Z
  /\ (50000000 <= session_bandwidth ("0", "1") (fst (foldl details_step p0 far_events)))%Z.
Proof.
  eexists. split; [vm_compute; reflexivity|]. split; [vm_compute; reflexivity|].
  exact (proj2 (proj2 (details_bandwidth ("0", "1") "ptp" false sample_details _ far_events eq_refl)) eq_refl).
Defined.

Lemma bandwidth_text_roundtrip_witness :
  fst (slider_text 30) = "1.5" /\ slider_typed 0 (fst (slider_text 30)) = 30%Z.
Proof. split; [vm_compute; reflexivity|apply (bandwidth_text_roundtrip 0 30); lia]. Defined.

(** Static MAC routing was on: the interdomain button disables its button, and
    it is saved all the same. *)
Example static_mac_interdomain :
  match open_details ("0", "1") "ptp" false sample_details with
  | Ok p0 =>
      let f := fst (foldl details_step p0 far_events) in
      dt_mac_disabled f = true
      /\ ("static_mac_routing", VInt 1) ∈ details_fields ("0", "1") f
      /\ ("interdomain", VStr "1") ∈ details_fields ("0", "1") f
  | Err _ => False
  end.
Proof. vm_compute. split_and!; [done|set_solver..]. Qed.

(** ** Interdomain endpoints *)

(** What the session keeps of a row that is an object. *)
Definition kept_row (row : val) : val :=
  let field k := match prop row k with Ok v => v | Err _ => VUndef end in
  VObj [("interface", field "interface"); ("node", field "node"); ("tag", field "tag"); ("urn", field "urn")].

Lemma session_endpoint_kept row : is_obj row = true -> session_endpoint row = Ok (kept_row row).
Proof. by destruct row. Qed.

Section interdomain_theorems.
Context {T : Type} `{DataTableLaws T}.

Definition rows_of (t : T) : list val := map snd (tb_rows t).

(** The page: at most two rows, all of them objects. *)
Definition far_ok (p : val * T * list string) : Prop :=
  let '(data, t, _) := p in
  is_obj data = true /\ length (rows_of t) <= 2 /\ Forall (fun r => is_obj r = true) (rows_of t).

(** The session lists what the table shows. *)
Definition far_saved (data : val) (t : T) : Prop :=
  prop data "endpoints" = Ok (VArr (map kept_row (rows_of t))).

Lemma save_endpoints_ok o t :
  Forall (fun r => is_obj r = true) (rows_of t) ->
  save_endpoints (VObj o) t = Ok (VObj (obj_set "endpoints" (VArr (map kept_row (rows_of t))) o)).
Proof.
  intros Hr. unfold save_endpoints.
  assert (res_map (fun r => session_endpoint (snd r)) (tb_rows t) = Ok (map kept_row (rows_of t))) as ->; [|done].
  unfold rows_of in *. induction (tb_rows t) as [|[id r] l IH]; [done|].
  apply list.Forall_cons in Hr as [Hr Hl]. rewrite res_map_cons. cbn [snd].
  rewrite session_endpoint_kept by done. cbn [res_bind]. by rewrite IH.
Qed.

Lemma rows_added t d : exists id, rows_of (addRow d (length (tb_rows t)) t) = rows_of t ++ [d]
  /\ id ∉ map fst (tb_rows t).
Proof.
  destruct (rows_addRow t d (length (tb_rows t))) as (id & Hid & E); [lia|]. exists id. split; [|done].
  unfold rows_of. rewrite E. unfold insert_at. rewrite firstn_all, skipn_all. by rewrite map_app.
Qed.

Lemma rows_deleted t i : rows_of (deleteRow i t) = splice1 i (rows_of t).
Proof. unfold rows_of. rewrite rows_deleteRow. symmetry. apply splice1_map. Qed.

(** One step: it succeeds, keeps the page in order, and shows the third choice
    an alert instead of a row. *)
Lemma far_step_ok p e :
  far_ok p ->
  exists p', far_step p e = Ok p' /\ far_ok p'
  /\ match e with
     | LinkChosen l tag =>
         let full := Nat.eqb (length (rows_of (snd (fst p)))) 2 in
         (if full then fst p' = fst p else far_saved (fst (fst p')) (snd (fst p')))
         /\ rows_of (snd (fst p')) = rows_of (snd (fst p)) ++ (if full then [] else [endpoint_row l tag])
         /\ snd p' = snd p ++ (if full then ["You can only have exactly two endpoints."] else [])
     | EndpointDeleted i =>
         far_saved (fst (fst p')) (snd (fst p'))
         /\ rows_of (snd (fst p')) = splice1 i (rows_of (snd (fst p))) /\ snd p' = snd p
     end.
Proof.
  destruct p as [[data t] alerts]. destruct data as [| | | | | |o]; try (by intros [? _]). intros (_ & Hn & Hr).
  destruct e as [l tag|i]; simpl.
  - unfold link_chosen. replace (length (tb_rows t)) with (length (rows_of t)) by apply length_map.
    destruct (Nat.eqb_spec (length (rows_of t)) 2) as [E|E]; simpl.
    { eexists. split; [done|]. split; [done|]. by rewrite app_nil_r. }
    destruct (rows_added t (endpoint_row l tag)) as (_ & Ht & _). rewrite <- (length_map snd) in Ht.
    change (map snd (tb_rows t)) with (rows_of t) in Ht at 1.
    assert (Forall (fun r => is_obj r = true) (rows_of (addRow (endpoint_row l tag) (length (rows_of t)) t))) as Hr'.
    { rewrite Ht. apply list.Forall_app. split; [done|by constructor]. }
    rewrite save_endpoints_ok by done. simpl. eexists. split; [done|].
    split; [split_and!; [done|rewrite Ht, length_app; simpl; lia|done]|].
    split; [|by rewrite app_nil_r]. unfold far_saved. simpl. by rewrite obj_get_set_eq.
  - unfold endpoint_deleted.
    assert (Forall (fun r => is_obj r = true) (rows_of (deleteRow i t))) as Hr'.
    { rewrite rows_deleted. unfold splice1. apply list.Forall_app. split; [by apply Forall_take|by apply Forall_drop]. }
    rewrite save_endpoints_ok by done. simpl. eexists. split; [done|]. split.
    + split; [done|]. split; [|done]. rewrite rows_deleted. unfold splice1.
      rewrite length_app, length_take, length_drop. lia.
    + split; [|split; [by apply rows_deleted|done]]. unfold far_saved. simpl. by rewrite obj_get_set_eq.
Qed.

(** The endpoints of an interdomain circuit, from a page with at most two rows:
    any sequence of choices and deletions goes through without an exception,
    never leaves more than two rows, and a session that lists what the table
    shows keeps doing so; the page is left for the next one exactly when there
    are two endpoints. *)
Theorem two_endpoints p es :
  far_ok p -> far_saved (fst (fst p)) (snd (fst p)) ->
  exists data t alerts,
    res_fold far_step p es = Ok (data, t, alerts)
    /\ length (rows_of t) <= 2
    /\ far_saved data t
    /\ exists r, verify_endpoints data t = Ok r /\ (is_Some r <-> length (rows_of t) = 2).
Proof.
  revert p. induction es as [|e es IH]; intros p Hp Hs; simpl.
  - destruct p as [[[| | | | | |o] t] alerts]; try (by destruct Hp). destruct Hp as (_ & Hn & Hr).
    exists (VObj o), t, alerts. split_and!; [done..|]. unfold verify_endpoints.
    replace (length (tb_rows t)) with (length (rows_of t)) by apply length_map.
    destruct (Nat.eqb_spec (length (rows_of t)) 2); simpl.
    + rewrite save_endpoints_ok by done. by eexists.
    + eexists. split; [done|]. split; [by intros []|done].
  - destruct (far_step_ok p e Hp) as (p' & -> & Hp' & He). simpl. apply IH; [done|].
    destruct e as [l tag|i]; [|by destruct He]. destruct He as [He _].
    destruct (Nat.eqb _ 2); [by rewrite He|done].
Qed.

End interdomain_theorems.

Definition sample_link (n : string) : tree_link := TreeLink n ("urn:" +:+ n) n "xe-0/0/0" "1-4095".

Lemma two_endpoints_witness :
  exists data t alerts,
    res_fold far_step (VObj [("endpoints", VArr [])], ([] : list (string * val)), [])
      [LinkChosen (sample_link "a") (VInt 10); LinkChosen (sample_link "b") (VInt 20);
       LinkChosen (sample_link "c") (VInt 30); EndpointDeleted 0] = Ok (data, t, alerts)
    /\ length (rows_of t) <= 2.
Proof.
  destruct (two_endpoints (VObj [("endpoints", VArr [])], ([] : list (string * val)), [])
    [LinkChosen (sample_link "a") (VInt 10); LinkChosen (sample_link "b") (VInt 20);
     LinkChosen (sample_link "c") (VInt 30); EndpointDeleted 0]) as (data & t & alerts & E & Hn & _).
  - split; [reflexivity|]. split; [simpl; lia|constructor].
  - reflexivity.
  - exists data, t, alerts. split; [exact E|exact Hn].
Defined.

(** ** The edit button of an endpoint *)

(** The button is enabled again exactly when the panel opened: every other
    answer leaves it disabled. *)
Lemma edit_endpoint_button `{DataSource} {S} (w : env S) s remembered i n wg :
  value_after (attr_step "button" "disabled") (VBool false) (run_trace w (edit_endpoint remembered i n wg) s)
  = VBool (negb (match run_result w (edit_endpoint remembered i n wg) s with Ok (Some _) => true | _ => false end)).
Proof.
  unfold edit_endpoint, create_panel, range_problem, sendRequest, run_trace, run_result.
  destruct (truthy remembered); [done|]. simpl.
  destruct (server w s _) as [s1 o]. destruct (ds_reply _ o) as [|results meta]; [done|].
  unfold io_lift. destruct (first_of results "vlan_tag_range") as [range|e]; [|done]. simpl.
  destruct (truthy range); [done|]. by destruct (strict_eq range VNull).
Qed.

(** ** The name in the header *)

(** The three parts of the editor agree: the input is there exactly when the
    button reads Revert and the change can be applied. *)
Definition editor_ok (e : name_editor) : Prop :=
  match ne_input e with
  | None => ne_label e = "Edit Name" /\ ne_hidden e = true
  | Some _ => ne_label e = "Revert" /\ ne_hidden e = false
  end.

(** An event the page allows: the hidden button cannot be clicked. *)
Definition allowed (e : name_editor) (ev : name_event) : bool :=
  match ev with ChangeClicked => negb (ne_hidden e) | _ => true end.

Lemma name_step_ok default_name e ev :
  editor_ok e -> allowed e ev = true ->
  exists e', name_step default_name e ev = Ok e' /\ editor_ok e'
  /\ (ne_name e' = ne_name e \/ ne_name e' = default_name
      \/ (ne_name e' <> estr /\ ne_input e = Some (ne_name e'))).
Proof.
  destruct e as [name [t|] label hidden]; unfold editor_ok; simpl; intros [-> ->]; destruct ev; simpl;
    intros Hev; try done; eexists; (split; [done|split; [done|]]); simpl; auto;
    unfold new_name; destruct (String.eqb_spec t estr); auto.
Qed.
