(* ===== verification/MapHistory.v ===== *)
(** * The navigation history of the map (openlayers,
      lib/OpenLayers/Control/NavigationHistory.js)

    The control with its previous and next buttons: two stacks of map states, a
    limit, and the flag that keeps a restored state from being recorded again.
    The map and its states are the parameter: [fires s] lists the states the map
    reports with moveend while it restores [s].  The control implements a bounded
    history with a cursor. *)

From Stdlib Require Import ZArith Lia.
From stdpp Require Import base option list tactics.
From S2P Require Import Prelude.

(** [Array.prototype.shift] and [pop]; [undefined] is [None]. *)
Definition shift {A} (l : list (option A)) : option A * list (option A) :=
  match l with [] => (None, []) | x :: l' => (x, l') end.
Definition pop {A} (l : list A) : list A := take (length l - 1) l.

Section control.
Context {St : Type} (fires : St -> list St).

(** The control: a stack may hold [undefined], and a button is active or not. *)
Record history := History {
  previousStack : list (option St);
  nextStack : list (option St);
  previous_active : bool;
  next_active : bool;
  restoring : bool
}.

(** [a[i]] of a stack. *)
Definition item (i : nat) (l : list (option St)) : option St := default None (l !! i).

Definition defined (s : option St) : bool := match s with Some _ => true | None => false end.

Definition onPreviousChange (state : option St) (h : history) : history :=
  History (previousStack h) (nextStack h)
    (if defined state && negb (previous_active h) then true
     else if negb (defined state) && previous_active h then false else previous_active h)
    (next_active h) (restoring h).

Definition onNextChange (state : option St) (h : history) : history :=
  History (previousStack h) (nextStack h) (previous_active h)
    (if defined state && negb (next_active h) then true
     else if negb (defined state) && next_active h then false else next_active h)
    (restoring h).

Definition set_stacks (p n : list (option St)) (h : history) : history :=
  History p n (previous_active h) (next_active h) (restoring h).
Definition set_restoring (b : bool) (h : history) : history :=
  History (previousStack h) (nextStack h) (previous_active h) (next_active h) b.

(** [this.limit + 1], where the limit may be null. *)
Definition limit_plus_1 (limit : option nat) : nat := match limit with Some n => n + 1 | None => 1 end.

(** The listener of moveend, called with the state of the map. *)
Definition moveend (limit : option nat) (h : history) (state : St) : history :=
  if restoring h then h
  else
    let h1 := set_stacks (Some state :: previousStack h) (nextStack h) h in
    let h2 := if 1 <? length (previousStack h1) then onPreviousChange (item 1 (previousStack h1)) h1 else h1 in
    let h3 := if limit_plus_1 limit <? length (previousStack h2)
              then set_stacks (pop (previousStack h2)) (nextStack h2) h2 else h2 in
    if 0 <? length (nextStack h3) then onNextChange None (set_stacks (previousStack h3) [] h3) else h3.

(** [this.restore(state)] between the two assignments of the flag. *)
Definition restore (limit : option nat) (state : St) (h : history) : history :=
  set_restoring false (foldl (moveend limit) (set_restoring true h) (fires state)).

Definition changed (h : history) : history :=
  let h1 := onNextChange (item 0 (nextStack h)) h in onPreviousChange (item 1 (previousStack h1)) h1.

Definition previousTrigger (limit : option nat) (h : history) : option St * history :=
  let '(current, p1) := shift (previousStack h) in
  let '(state, p2) := shift p1 in
  match state with
  | Some s => (state, changed (restore limit s (set_stacks (Some s :: p2) (current :: nextStack h) h)))
  | None => (state, set_stacks (current :: p2) (nextStack h) h)
  end.

Definition nextTrigger (limit : option nat) (h : history) : option St * history :=
  let '(state, n) := shift (nextStack h) in
  match state with
  | Some s => (state, changed (restore limit s (set_stacks (Some s :: previousStack h) n h)))
  | None => (state, set_stacks (previousStack h) n h)
  end.

Definition clear (h : history) : history := History [] [] false false (restoring h).

(** The control is made, and activated on a map with the given state, if any. *)
Definition initial : history := History [] [] false false false.
Definition activate (limit : option nat) (center : option St) (h : history) : history :=
  match previousStack h, center with
  | [], Some s => moveend limit h s
  | _, _ => h
  end.

(** What happens to the control. *)
Inductive op :=
  | Moved (s : St)
  | Previous
  | Next
  | Clear.

Definition step (limit : option nat) (h : history) (o : op) : option St * history :=
  match o with
  | Moved s => (None, moveend limit h s)
  | Previous => previousTrigger limit h
  | Next => nextTrigger limit h
  | Clear => (None, clear h)
  end.

Fixpoint run (limit : option nat) (h : history) (os : list op) : list (option St) * history :=
  match os with
  | [] => ([], h)
  | o :: os' => let '(r, h1) := step limit h o in let '(rs, h2) := run limit h1 os' in (r :: rs, h2)
  end.

(** ** The abstract history *)

(** Past states, most recent first, the current one and the ones to come. *)
Record timeline := Timeline { past : list St; now : St; future : list St }.

(** What an operation returns and does; the history is empty at first. *)
Definition spec_step (limit : nat) (t : option timeline) (o : op) : option St * option timeline :=
  match o, t with
  | Moved s, None => (None, Some (Timeline [] s []))
  | Moved s, Some (Timeline p c _) => (None, Some (Timeline (take limit (c :: p)) s []))
  | Previous, Some (Timeline (s :: p) c f) => (Some s, Some (Timeline p s (c :: f)))
  | Next, Some (Timeline p c (s :: f)) => (Some s, Some (Timeline (c :: p) s f))
  | Clear, _ => (None, None)
  | _, _ => (None, t)
  end.

Fixpoint spec_run (limit : nat) (t : option timeline) (os : list op) : list (option St) * option timeline :=
  match os with
  | [] => ([], t)
  | o :: os' => let '(r, t1) := spec_step limit t o in let '(rs, t2) := spec_run limit t1 os' in (r :: rs, t2)
  end.

Definition visited (t : option timeline) : list St :=
  match t with Some (Timeline p c _) => c :: p | None => [] end.
Definition to_come (t : option timeline) : list St :=
  match t with Some (Timeline _ _ f) => f | None => [] end.

(** The stacks are those of the abstract history; the previous button on an empty
    history leaves an [undefined] at the bottom. *)
Definition represents (h : history) (t : option timeline) : Prop :=
  (exists junk, (junk = [] \/ junk = [None]) /\ previousStack h = map Some (visited t) ++ junk)
  /\ nextStack h = map Some (to_come t)
  /\ previous_active h = negb (Nat.leb (length (visited t)) 1)
  /\ next_active h = negb (Nat.eqb (length (to_come t)) 0)
  /\ restoring h = false.

(** The abstract history never holds more than the limit besides the current
    state. *)
Definition within_limit (limit : nat) (t : option timeline) : Prop :=
  length (visited t) + length (to_come t) <= limit + 1.

(** ** Lemmas *)

#[local] Arguments restore : simpl never.
#[local] Arguments changed : simpl never.

Lemma moveend_restoring limit h s : restoring h = true -> moveend limit h s = h.
Proof. unfold moveend. by intros ->. Qed.

Lemma restore_stacks limit s h : restoring h = false -> restore limit s h = h.
Proof.
  intros Hr. unfold restore.
  assert (foldl (moveend limit) (set_restoring true h) (fires s) = set_restoring true h) as ->.
  { induction (fires s) as [|x l IH]; [done|]. simpl. by rewrite moveend_restoring. }
  destruct h. simpl in *. by subst.
Qed.

Lemma active_after (d b : bool) : (if d && negb b then true else if negb d && b then false else b) = d.
Proof. by destruct d, b. Qed.

Lemma changed_active h :
  changed h = History (previousStack h) (nextStack h) (defined (item 1 (previousStack h)))
                (defined (item 0 (nextStack h))) (restoring h).
Proof. unfold changed, onNextChange, onPreviousChange. simpl. by rewrite !active_after. Qed.

Lemma item_visited l i (junk : list (option St)) :
  junk = [] \/ junk = [None] -> defined (item i (map Some l ++ junk)) = negb (Nat.leb (length l) i).
Proof.
  intros Hj. unfold item. destruct (decide (i < length l)) as [Hi|Hi].
  - rewrite lookup_app_l by (by rewrite length_map). rewrite list_lookup_fmap.
    destruct (lookup_lt_is_Some_2 l i Hi) as [x ->]. simpl. by rewrite (proj2 (Nat.leb_gt _ _)) by lia.
  - rewrite lookup_app_r by (rewrite length_map; lia). rewrite (proj2 (Nat.leb_le _ _)) by lia.
    destruct Hj as [-> | ->]; [done|]. by destruct (i - length (map Some l)).
Qed.

Lemma pop_snoc {A} (l : list A) x : pop (l ++ [x]) = l.
Proof. unfold pop. rewrite length_app, Nat.add_sub. by rewrite take_app_length. Qed.

Lemma pop_visited (l : list St) n junk :
  junk = [] \/ junk = [None] -> length l + length junk <= n + 1 ->
  exists junk', (junk' = [] \/ junk' = [None])
  /\ (if n <? length (map Some l ++ junk) then pop (map Some l ++ junk) else map Some l ++ junk)
     = map Some (take n l) ++ junk'.
Proof.
  intros Hj Hl. rewrite length_app, length_map.
  destruct (Nat.ltb_spec n (length l + length junk)) as [H|H].
  - exists []. split; [by left|]. rewrite app_nil_r. destruct Hj as [-> | ->]; simpl in *.
    + rewrite app_nil_r. unfold pop. rewrite length_map, firstn_map. do 2 f_equal. lia.
    + rewrite pop_snoc. by rewrite take_ge by lia.
  - exists junk. split; [done|]. by rewrite take_ge by lia.
Qed.

(** The stacks stay within the limit. *)
Definition bounded (limit : nat) (h : history) : Prop :=
  length (previousStack h) + length (nextStack h) <= limit + 1.

Lemma moveend_eq limit h s :
  restoring h = false ->
  moveend (Some limit) h s
  = History (if limit + 1 <? length (Some s :: previousStack h)
             then pop (Some s :: previousStack h) else Some s :: previousStack h)
      []
      (if 0 <? length (previousStack h) then defined (item 0 (previousStack h)) else previous_active h)
      (if 0 <? length (nextStack h) then false else next_active h) false.
Proof.
  intros Hr. unfold moveend. rewrite Hr. unfold set_stacks, onPreviousChange, onNextChange. destruct h as [p n pa na r]; simpl in *; subst r.
  change (item 1 (Some s :: p)) with (item 0 p). change (1 <? S (length p)) with (0 <? length p).
  destruct (0 <? length p); simpl; destruct (limit + 1 <? S (length p)); simpl; rewrite ?active_after;
    (destruct n as [|x n]; simpl; [done|by destruct na]).
Qed.

Lemma moved_represents limit h t s :
  1 <= limit -> represents h t -> bounded limit h ->
  represents (moveend (Some limit) h s) (snd (spec_step limit t (Moved s)))
  /\ bounded limit (moveend (Some limit) h s).
Proof.
  intros Hlim ((junk & Hj & Hp) & Hn & Hpa & Hna & Hr) Hb. rewrite (moveend_eq _ _ _ Hr).
  unfold bounded in *. cbn [previousStack nextStack length]. rewrite Hp, Hn, length_app, !length_map in *.
  assert (visited (snd (spec_step limit t (Moved s))) = take (limit + 1) (s :: visited t)) as Hv.
  { destruct t as [[p c f]|]; simpl; rewrite Nat.add_1_r; [done|by rewrite firstn_cons, take_nil]. }
  assert (to_come (snd (spec_step limit t (Moved s))) = []) as Hf by by destruct t as [[]|].
  destruct (pop_visited (s :: visited t) (limit + 1) junk Hj) as (junk' & Hj' & Hpop); [simpl; lia|].
  simpl in Hpop. rewrite length_app, length_map in Hpop. rewrite Hpop. split.
  - unfold represents. cbn [previousStack nextStack previous_active next_active restoring]. rewrite Hv, Hf. split_and!; [by exists junk'|done| | |done].
    + rewrite item_visited by done. rewrite length_take, Hpa. cbn [length].
      destruct (visited t) as [|v vs]; cbn [length Nat.add].
      * rewrite (proj2 (Nat.leb_le (_ `min` 1) 1)) by lia. by destruct Hj as [-> | ->].
      * by rewrite (proj2 (Nat.leb_gt (_ `min` _) 1)) by lia.
    + destruct (to_come t); simpl in *; [by rewrite Hna|done].
  - rewrite <- Hpop. case_match eqn:E; simpl.
    + unfold pop. rewrite length_take. simpl. rewrite length_app, length_map. lia.
    + apply Nat.ltb_ge in E. rewrite length_app, length_map. lia.
Qed.

Lemma previous_represents limit lim h t :
  represents h t -> bounded limit h ->
  let '(r, h') := previousTrigger lim h in
  let '(r', t') := spec_step limit t Previous in
  r = r' /\ represents h' t' /\ bounded limit h'.
Proof.
  intros ((junk & Hj & Hp) & Hn & Hpa & Hna & Hr) Hb. unfold previousTrigger. unfold bounded in Hb.
  destruct t as [[[|s p] c f]|]; simpl in *; rewrite Hp in *; simpl in *.
  - assert (shift junk = (None, [])) as -> by by destruct Hj as [-> | ->].
    split; [done|]. split; [|unfold bounded; simpl; lia].
    unfold represents. simpl. split_and!; [exists []; split; [by left|done]|done..].
  - split; [done|]. rewrite restore_stacks, changed_active by done. split; [|unfold bounded; simpl; lia].
    unfold represents. simpl. rewrite Hn. split_and!; [by exists junk|done| |done|done].
    by rewrite (item_visited (s :: p) 1 junk Hj : defined (item 1 (Some s :: map Some p ++ junk)) = _).
  - assert (shift junk = (None, [])) as -> by by destruct Hj as [-> | ->]. simpl.
    split; [done|]. split; [|unfold bounded; simpl; rewrite Hn; simpl; lia].
    unfold represents. simpl. split_and!; [exists [None]; split; [by right|done]|done..].
Qed.

Lemma next_represents limit lim h t :
  represents h t -> bounded limit h ->
  let '(r, h') := nextTrigger lim h in
  let '(r', t') := spec_step limit t Next in
  r = r' /\ represents h' t' /\ bounded limit h'.
Proof.
  intros ((junk & Hj & Hp) & Hn & Hpa & Hna & Hr) Hb. unfold nextTrigger. unfold bounded in Hb. rewrite Hn in *.
  destruct t as [[p c [|s f]]|]; simpl in *.
  1, 3: split; [done|]; split; [|done]; unfold represents; simpl; split_and!; [by exists junk|done..].
  split; [done|]. rewrite restore_stacks, changed_active by done. split; [|unfold bounded; simpl; lia].
  unfold represents. simpl. rewrite Hp. split_and!; [by exists junk|done..| |done]. by destruct f.
Qed.

(** Each operation does to the stacks and the buttons what it does to the
    abstract history, and returns the same state. *)
Lemma step_refines limit h t o :
  1 <= limit -> represents h t -> bounded limit h ->
  let '(r, h') := step (Some limit) h o in
  let '(r', t') := spec_step limit t o in
  r = r' /\ represents h' t' /\ bounded limit h'.
Proof.
  intros Hlim Hr Hb. destruct o as [s| | |].
  - destruct (moved_represents limit h t s Hlim Hr Hb) as [Hr' Hb']. cbn [step].
    destruct (spec_step limit t (Moved s)) as [r t'] eqn:E. split; [|done].
    by destruct t as [[]|]; injection E as <- _.
  - by apply previous_represents.
  - by apply next_represents.
  - destruct t; (split; [done|]; split; [|unfold bounded; simpl; lia]);
      destruct Hr as (_ & _ & _ & _ & Hr); unfold represents; simpl; split_and!; try done; exists []; by split; [left|].
Qed.

(** C29 The navigation history implements a bounded history with a cursor: from
    the control as it is made, after any sequence of map moves, clicks on the
    previous and next buttons and clearings, with a limit of at least one, every
    click returns the state the abstract history restores, the two stacks hold
    the abstract past, present and future, each button is active exactly when
    there is a state to go to, restored states are not recorded again, and the
    stacks never hold more than the limit and the current state. *)
Theorem history_refines limit os :
  1 <= limit ->
  let '(rs, h) := run (Some limit) initial os in
  let '(rs', t) := spec_run limit None os in
  rs = rs' /\ represents h t /\ length (previousStack h) + length (nextStack h) <= limit + 1.
Proof.
  intros Hlim.
  assert (represents initial None) as Hr by (unfold represents; simpl; split_and!; try done; exists []; by split; [left|]).
  assert (bounded limit initial) as Hb by (unfold bounded; simpl; lia).
  fold (bounded limit (snd (run (Some limit) initial os))).
  revert Hr Hb. generalize initial, (@None timeline). induction os as [|o os IH]; intros h t Hr Hb; simpl; [done|].
  pose proof (step_refines limit h t o Hlim Hr Hb) as Hs.
  destruct (step (Some limit) h o) as [r h1], (spec_step limit t o) as [r' t1]. destruct Hs as (-> & Hr1 & Hb1).
  specialize (IH h1 t1 Hr1 Hb1). destruct (run (Some limit) h1 os) as [rs h2], (spec_run limit t1 os) as [rs' t2].
  destruct IH as (-> & ? & ?). done.
Qed.

End control.

(** Four moves and three clicks with a limit of two. *)
Definition sample_moves : list (@op Z) := [Moved 1; Moved 2; Moved 3; Moved 4; Previous; Previous; Next]%Z.

Lemma history_refines_witness :
  1 <= 2
  /\ let '(rs, h) := run (fun s : Z => [s]) (Some 2) initial sample_moves in
     let '(rs', t) := spec_run 2 None sample_moves in
     rs = rs' /\ represents h t /\ length (previousStack h) + length (nextStack h) <= 2 + 1.
Proof. split; [lia|]. apply (history_refines (fun s : Z => [s]) 2 sample_moves). lia. Defined.

(** Without a limit the history keeps the current state only, and its previous
    button is active with nothing to go back to. *)
Example no_limit :
  let '(rs, h) := run (fun s : Z => []) None initial [Moved 1; Moved 2; Previous]%Z in
  rs = [None; None; None] /\ previousStack h = [Some 2%Z] /\ previous_active h = true.
Proof. vm_compute. split_and!; reflexivity. Qed.

(** The previous button on an empty history leaves an undefined state, and the
    control then does not record the state of the map it is activated on. *)
Example previous_on_empty :
  let h := snd (previousTrigger (fun s : Z => []) (Some 50) initial) in
  previousStack h = [None] /\ activate (Some 50) (Some 1%Z) h = h
  /\ previousStack (activate (Some 50) (Some 1%Z) initial) = [Some 1%Z].
Proof. vm_compute. split_and!; reflexivity. Qed.
