(* ===== verification/MapIndex.v ===== *)
(** * The drawing order of the map (openlayers, lib/OpenLayers/Renderer/Elements.js)

    The class ElementsIndexer: the identifiers of the drawn elements in drawing
    order, found by a binary search on the z-indices and, with y-ordering, on the
    bottoms of the elements.  The nodes live in a store by identifier, as
    [document.getElementById] finds them.  The search ends within a logarithmic
    number of rounds and places an element where a linear scan would. *)

From Stdlib Require Import ZArith QArith Lia Lqa String.
From stdpp Require Import base option list gmap strings numbers tactics sorting.
From S2P Require Import Prelude.

Local Open Scope nat_scope.

(** ** Nodes and their comparison *)

(** A node: its z-index, which may be null, and [_boundsBottom]. *)
Record node := Node { graphicZIndex : option Z; boundsBottom : Q }.

Notation document := (gmap string node).

(** [getZIndex], as a number; null is zero in a subtraction. *)
Definition getZIndex (n : node) : Z := default 0%Z (graphicZIndex n).

Definition Z_ORDER (newNode : node) (nextNode : option node) : Q :=
  match nextNode with
  | Some nextNode => inject_Z (getZIndex newNode - getZIndex nextNode)
  | None => 0
  end.

Definition Z_ORDER_DRAWING_ORDER (newNode : node) (nextNode : option node) : Q :=
  let returnVal := Z_ORDER newNode nextNode in
  match nextNode with
  | Some _ => if Qeq_bool returnVal 0 then 1 else returnVal
  | None => returnVal
  end.

Definition Z_ORDER_Y_ORDER (newNode : node) (nextNode : option node) : Q :=
  let returnVal := Z_ORDER newNode nextNode in
  match nextNode with
  | Some next =>
      if Qeq_bool returnVal 0 then
        let result := (boundsBottom next - boundsBottom newNode)%Q in
        if Qeq_bool result 0 then 1 else result
      else returnVal
  | None => returnVal
  end.

Definition compare_nodes (yOrdering : bool) : node -> option node -> Q :=
  if yOrdering then Z_ORDER_Y_ORDER else Z_ORDER_DRAWING_ORDER.

(** [placement > 0] *)
Definition positive (q : Q) : bool := negb (Qle_bool q 0).

(** ** The indexer *)

Record indexer := Indexer { order : list string; indices : gmap string Z; maxZIndex : Z }.

Definition initial : indexer := Indexer [] ∅ 0.
Definition clear (x : indexer) : indexer := Indexer [] ∅ 0.

Definition exists_ (x : indexer) (id : string) : bool := bool_decide (is_Some (indices x !! id)).

Definition indexOf (l : list string) (id : string) : option nat := fst <$> list_find (eq id) l.

Definition remove (x : indexer) (id : string) : indexer :=
  match indexOf (order x) id with
  | None => x
  | Some arrayIndex =>
      let order' := splice1 arrayIndex (order x) in
      let indices' := delete id (indices x) in
      Indexer order' indices'
        match list.last order' with Some lastId => default 0%Z (indices' !! lastId) | None => 0%Z end
  end.

(** The node with its z-index, and the new maximum. *)
Definition determineZIndex (x : indexer) (n : node) : node * Z :=
  match graphicZIndex n with
  | None => (Node (Some (maxZIndex x)) (boundsBottom n), maxZIndex x)
  | Some z => (n, if (maxZIndex x <? z)%Z then z else maxZIndex x)
  end.

(** The loop of [insert]: [after m] is the test on the element at index [m];
    [None] when the rounds run out. *)
Fixpoint search (after : nat -> bool) (rounds : nat) (leftIndex rightIndex : Z) : option Z :=
  match rounds with
  | O => None
  | S rounds' =>
      if (1 <? rightIndex - leftIndex)%Z then
        let middle := ((leftIndex + rightIndex) ÷ 2)%Z in
        if after (Z.to_nat middle) then search after rounds' middle rightIndex
        else search after rounds' leftIndex middle
      else Some rightIndex
  end.

Definition rounds_for (n : nat) : nat := S (Nat.log2_up (n + 1)).

Fixpoint getNextElement (d : document) (rest : list string) : option string :=
  match rest with
  | [] => None
  | id :: rest' => if d !! id is Some _ then Some id else getNextElement d rest'
  end.

(** [insert]: the store, the indexer, and the element to insert before.  The
    result is [None] when the loop does not end. *)
Definition insert (yOrdering : bool) (d : document) (x : indexer) (id : string) (n : node)
    : option (document * indexer * option string) :=
  let x1 := if exists_ x id then remove x id else x in
  let '(n', max) := determineZIndex x1 n in
  let d' := <[id := n']> d in
  let after m := positive (compare_nodes yOrdering n' (order x1 !! m ≫= fun i => d' !! i)) in
  match search after (rounds_for (length (order x1))) (-1) (Z.of_nat (length (order x1))) with
  | None => None
  | Some rightIndex =>
      let order' := insert_at (Z.to_nat rightIndex) id (order x1) in
      Some (d', Indexer order' (<[id := getZIndex n']> (indices x1)) max,
            getNextElement d' (drop (S (Z.to_nat rightIndex)) order'))
  end.

(** What happens to the indexer of a renderer, with the store of nodes. *)
Inductive op :=
  | Insert (id : string) (n : node)
  | Remove (id : string)
  | Clear.

Definition step (yOrdering : bool) (s : document * indexer) (o : op) : option (document * indexer) :=
  let '(d, x) := s in
  match o with
  | Insert id n => fst <$> insert yOrdering d x id n
  | Remove id => Some (d, remove x id)
  | Clear => Some (d, clear x)
  end.

Fixpoint run (yOrdering : bool) (s : document * indexer) (os : list op) : option (document * indexer) :=
  match os with
  | [] => Some s
  | o :: os' => match step yOrdering s o with Some s' => run yOrdering s' os' | None => None end
  end.

(** ** The search *)

Lemma search_S after rounds l r :
  search after (S rounds) l r
  = if (1 <? r - l)%Z then
      let middle := ((l + r) ÷ 2)%Z in
      if after (Z.to_nat middle) then search after rounds middle r else search after rounds l middle
    else Some r.
Proof. done. Qed.

Lemma search_spec after k : forall l r,
  (-1 <= l)%Z -> (l < r)%Z -> (r - l <= 2 ^ Z.of_nat k)%Z ->
  exists p, search after (S k) l r = Some p /\ (l < p <= r)%Z
  /\ (p = r \/ after (Z.to_nat p) = false) /\ (p = (l + 1)%Z \/ after (Z.to_nat (p - 1)) = true).
Proof.
  induction k as [|k IH]; intros l r Hl Hlr Hk.
  { change (2 ^ Z.of_nat 0)%Z with 1%Z in Hk. rewrite search_S. rewrite (proj2 (Z.ltb_ge _ _)) by lia.
    exists r. split; [done|]. split; [lia|]. split; [by left|left; lia]. }
  rewrite Nat2Z.inj_succ, Z.pow_succ_r in Hk by lia. rewrite search_S. cbv zeta.
  destruct (Z.ltb_spec 1 (r - l)) as [H|H].
  2: { exists r. split; [done|]. split; [lia|]. split; [by left|left; lia]. }
  rewrite Z.quot_div_nonneg by lia. set (m := ((l + r) / 2)%Z).
  assert (2 * m <= l + r < 2 * m + 2)%Z as Hm by (unfold m; Z.to_euclidean_division_equations; lia).
  destruct (after (Z.to_nat m)) eqn:E.
  - destruct (IH m r) as (p & -> & Hp & H1 & H2); [lia..|]. exists p. split; [done|]. split; [lia|]. split; [done|].
    right. destruct H2 as [-> | ?]; [|done]. by rewrite Z.add_simpl_r.
  - destruct (IH l m) as (p & -> & Hp & H1 & H2); [lia..|]. exists p. split; [done|]. split; [lia|]. split; [|done].
    right. by destruct H1 as [-> | ?].
Qed.

Lemma rounds_enough n : (Z.of_nat n - -1 <= 2 ^ Z.of_nat (Nat.log2_up (n + 1)))%Z.
Proof.
  assert (n + 1 <= 2 ^ Nat.log2_up (n + 1)) as H.
  { destruct n as [|n]; [done|]. apply Nat.log2_up_spec. lia. }
  apply Nat2Z.inj_le in H. rewrite Nat2Z.inj_pow in H. change (Z.of_nat 2) with 2%Z in H. lia.
Qed.

Lemma search_ends after n :
  exists p, search after (rounds_for n) (-1) (Z.of_nat n) = Some (Z.of_nat p) /\ p <= n
  /\ (p = n \/ after p = false) /\ (p = 0 \/ after (p - 1) = true).
Proof.
  destruct (search_spec after _ (-1) (Z.of_nat n) ltac:(lia) ltac:(lia) (rounds_enough n)) as (p & E & Hp & H1 & H2).
  exists (Z.to_nat p). unfold rounds_for. rewrite E, Z2Nat.id by lia. split; [done|]. split; [lia|].
  split; [destruct H1; [left; lia|by right]|]. destruct H2 as [H2|H2]; [left; lia|right].
  by rewrite Z2Nat.inj_sub in H2 by lia.
Qed.

Lemma rounds_log n : rounds_for n <= Nat.log2 (n + 1) + 2.
Proof. unfold rounds_for. pose proof (Nat.le_log2_up_succ_log2 (n + 1)). lia. Qed.

Lemma remove_length x id : length (order (remove x id)) <= length (order x).
Proof.
  unfold remove. destruct (indexOf _ _) as [i|]; [|done]. simpl. unfold splice1.
  rewrite length_app, length_take, length_drop. lia.
Qed.

(** Inserting an element into the drawing order always ends: on any indexer,
    whatever the comparisons say, the binary search needs at most two rounds
    more than the logarithm of the number of elements. *)
Theorem insert_terminates yOrdering d x id n :
  rounds_for (length (order (if exists_ x id then remove x id else x))) <= Nat.log2 (length (order x) + 1) + 2
  /\ is_Some (insert yOrdering d x id n).
Proof.
  split.
  - etransitivity; [apply rounds_log|]. apply Nat.add_le_mono_r, Nat.log2_le_mono, Nat.add_le_mono_r.
    destruct (exists_ x id); [apply remove_length|done].
  - unfold insert. destruct (determineZIndex _ n) as [n' m].
    match goal with |- is_Some match search ?a _ _ (Z.of_nat ?n) with _ => _ end =>
      destruct (search_ends a n) as (p & -> & _) end.
    by eexists.
Qed.

(** ** The order *)

(** [a] is drawn before [b]: a smaller z-index or, with y-ordering, the same one
    and a bottom that is not lower. *)
Definition drawn_before (yOrdering : bool) (a b : node) : bool :=
  (getZIndex a <? getZIndex b)%Z
  || ((getZIndex a =? getZIndex b)%Z && (negb yOrdering || Qle_bool (boundsBottom b) (boundsBottom a))).

Lemma positive_spec q : positive q = true <-> (0 < q)%Q.
Proof. unfold positive. rewrite negb_true_iff, <- not_true_iff_false, Qle_bool_iff. split; lra. Qed.

Lemma drawn_before_spec y a b :
  drawn_before y a b = true <->
  (getZIndex a < getZIndex b)%Z
  \/ (getZIndex a = getZIndex b /\ (y = false \/ (boundsBottom b <= boundsBottom a)%Q)).
Proof.
  unfold drawn_before. rewrite orb_true_iff, andb_true_iff, orb_true_iff, Z.ltb_lt, Z.eqb_eq, Qle_bool_iff, negb_true_iff.
  done.
Qed.

(** The comparison of the code is positive on what is drawn before. *)
Lemma positive_compare y newNode next :
  positive (compare_nodes y newNode (Some next)) = drawn_before y next newNode.
Proof.
  apply Bool.eq_iff_eq_true. rewrite positive_spec, drawn_before_spec.
  assert (Qeq_bool (inject_Z (getZIndex newNode - getZIndex next)) 0 = (getZIndex newNode =? getZIndex next)%Z) as Hz.
  { apply Bool.eq_iff_eq_true. rewrite Qeq_bool_iff, Z.eqb_eq. unfold Qeq, inject_Z. simpl. lia. }
  assert ((0 < inject_Z (getZIndex newNode - getZIndex next))%Q <-> (getZIndex next < getZIndex newNode)%Z) as Hp.
  { unfold Qlt, inject_Z. simpl. lia. }
  destruct y; simpl; unfold Z_ORDER_Y_ORDER, Z_ORDER_DRAWING_ORDER, Z_ORDER; rewrite Hz;
    destruct (Z.eqb_spec (getZIndex newNode) (getZIndex next)) as [E|E].
  - destruct (Qeq_bool (boundsBottom next - boundsBottom newNode) 0) eqn:Eb.
    + apply Qeq_bool_iff in Eb. split; [intros _; right; split; [done|right; lra]|intros _; lra].
    + apply Qeq_bool_neq in Eb. split; [intros; right; split; [done|right; lra]|].
      intros [?|[_ [?|?]]]; [lia|done|].
      destruct (Qlt_le_dec 0 (boundsBottom next - boundsBottom newNode)); [done|]. exfalso. apply Eb. lra.
  - rewrite Hp. naive_solver lia.
  - split; [intros _; right; split; [done|by left]|intros _; lra].
  - rewrite Hp. naive_solver lia.
Qed.

Lemma drawn_before_trans y a b c : drawn_before y a b = true -> drawn_before y b c = true -> drawn_before y a c = true.
Proof.
  rewrite !drawn_before_spec. intros [?|[? [?|?]]] [?|[? [?|?]]]; try (left; lia); right; (split; [lia|]);
    try (by left); right; lra.
Qed.

Lemma drawn_before_total y a b : drawn_before y a b = false -> drawn_before y b a = true.
Proof.
  rewrite <- not_true_iff_false, !drawn_before_spec. intros Hn.
  destruct (Ztrichotomy (getZIndex a) (getZIndex b)) as [H|[H|H]].
  - destruct Hn. by left.
  - right. split; [done|]. destruct y; [|by left]. right.
    destruct (Qlt_le_dec (boundsBottom b) (boundsBottom a)); [|done].
    destruct Hn. right. split; [done|]. right. lra.
  - left. lia.
Qed.

Lemma drawn_before_z y a b : drawn_before y a b = true -> (getZIndex a <= getZIndex b)%Z.
Proof. rewrite drawn_before_spec. lia. Qed.

(** The node with an identifier. *)
Definition node_of (d : document) (id : string) : node := default (Node None 0) (d !! id).

(** The identifiers are in drawing order. *)
Definition in_order (y : bool) (d : document) (l : list string) : Prop :=
  StronglySorted (fun a b => drawn_before y (node_of d a) (node_of d b) = true) l.

(** The indexer agrees with the store. *)
Record indexed (y : bool) (d : document) (x : indexer) : Prop := {
  ix_nodup : NoDup (order x);
  ix_exists id : is_Some (indices x !! id) <-> id ∈ order x;
  ix_node id : id ∈ order x -> exists n z, d !! id = Some n /\ graphicZIndex n = Some z /\ indices x !! id = Some z;
  ix_max id : id ∈ order x -> (getZIndex (node_of d id) <= maxZIndex x)%Z;
  ix_sorted : in_order y d (order x)
}.

(** ** Removing an element *)

Section filters.
Context {A : Type} (P : A -> Prop) `{forall a, Decision (P a)}.

Lemma filter_keep l : Forall P l -> filter P l = l.
Proof. induction 1 as [|a l Ha _ IH]; [done|]. by rewrite filter_cons_True, IH. Qed.

Lemma filter_none l : Forall (fun a => ~ P a) l -> filter P l = [].
Proof. induction 1 as [|a l Ha _ IH]; [done|]. by rewrite filter_cons_False. Qed.

Lemma StronglySorted_filter (R : A -> A -> Prop) l : StronglySorted R l -> StronglySorted R (filter P l).
Proof.
  induction 1 as [|a l Hs IH Ha]; [constructor|]. rewrite filter_cons. case_decide; [|done].
  apply StronglySorted_cons. split; [|done]. apply list.Forall_forall. intros b Hb.
  apply list_elem_of_filter in Hb as [_ Hb]. by apply (proj1 (list.Forall_forall _ _) Ha).
Qed.

End filters.

Lemma indexOf_splice l id i :
  NoDup l -> indexOf l id = Some i -> splice1 i l = filter (fun j => j <> id) l /\ id ∈ l.
Proof.
  unfold indexOf. intros Hn H. apply fmap_Some in H as ([j s] & H & ->). apply list_find_Some in H as (Hj & <- & Hlt).
  simpl. split; [|by eapply list_elem_of_lookup_2]. unfold splice1.
  pose proof (take_drop_middle l j id Hj) as E. rewrite <- E in Hn.
  apply list.NoDup_app in Hn as (_ & H1 & Hd). apply list.NoDup_cons in Hd as [H2 _].
  rewrite <- E at 3. rewrite filter_app, filter_cons_False by (by intros []).
  f_equal; symmetry; apply filter_keep, list.Forall_forall; intros k Hk ->; [|done].
  apply (H1 _ Hk). by left.
Qed.

Lemma indexOf_None l id : indexOf l id = None -> id ∉ l.
Proof.
  unfold indexOf. rewrite fmap_None, list_find_None. intros H Hin.
  rewrite list.Forall_forall in H. by apply (H id Hin).
Qed.

Lemma remove_order y d x id : indexed y d x -> order (remove x id) = filter (fun j => j <> id) (order x).
Proof.
  intros Hx. unfold remove. destruct (indexOf (order x) id) as [i|] eqn:E.
  - simpl. by apply (indexOf_splice _ _ _ (ix_nodup _ _ _ Hx)).
  - apply indexOf_None in E. symmetry. apply filter_keep, list.Forall_forall. by intros j Hj ->.
Qed.

Lemma in_order_last y d l last id :
  in_order y d l -> list.last l = Some last -> id ∈ l -> (getZIndex (node_of d id) <= getZIndex (node_of d last))%Z.
Proof.
  intros Hs Hl Hin. apply last_Some in Hl as [l' ->]. apply elem_of_app in Hin as [Hin|Hin].
  - eapply drawn_before_z, (StronglySorted_app_1_elem_of _ _ _ id last Hs); [done|by left].
  - apply list_elem_of_singleton in Hin as ->. done.
Qed.

Lemma remove_indexed y d x id : indexed y d x -> indexed y d (remove x id).
Proof.
  intros Hx. pose proof (remove_order y d x id Hx) as Ho. revert Ho. unfold remove.
  destruct (indexOf (order x) id) as [i|] eqn:E; [|done]. simpl. intros Ho. rewrite Ho.
  assert (in_order y d (filter (fun j => j <> id) (order x))) as Hs by (by apply StronglySorted_filter, (ix_sorted _ _ _ Hx)).
  split; simpl; try done.
  - by apply NoDup_filter, (ix_nodup _ _ _ Hx).
  - intros j. rewrite list_elem_of_filter, lookup_delete_is_Some, (ix_exists _ _ _ Hx). naive_solver.
  - intros j Hj. apply list_elem_of_filter in Hj as [Hne Hj]. rewrite lookup_delete_ne by done.
    by apply (ix_node _ _ _ Hx).
  - intros j Hj. destruct (list.last _) as [k|] eqn:El; [|by apply last_None in El; rewrite El in Hj; apply not_elem_of_nil in Hj].
    etransitivity; [by eapply in_order_last|].
    assert (k ∈ filter (fun j => j <> id) (order x)) as Hk by (apply last_Some in El as [l' ->]; set_solver).
    apply list_elem_of_filter in Hk as [Hne Hk]. destruct (ix_node _ _ _ Hx k Hk) as (n & z & Hd & Hz & Hi).
    rewrite lookup_delete_ne by done. unfold node_of. rewrite Hd, Hi. simpl. unfold getZIndex. by rewrite Hz.
Qed.

(** ** Inserting an element *)

(** Where a scan puts a node [n]: after every element drawn before it. *)
Definition behind (y : bool) (d : document) (n : node) (l : list string) : list string :=
  filter (fun i => drawn_before y (node_of d i) n = true) l.
Definition in_front (y : bool) (d : document) (n : node) (l : list string) : list string :=
  filter (fun i => drawn_before y (node_of d i) n <> true) l.

Lemma in_order_lookup y d l i j a b :
  in_order y d l -> i < j -> l !! i = Some a -> l !! j = Some b -> drawn_before y (node_of d a) (node_of d b) = true.
Proof.
  intros Hs Hij Ha Hb. rewrite <- (take_drop j l) in Hs.
  apply (StronglySorted_app_1_elem_of _ _ _ a b Hs).
  - apply list_elem_of_lookup. exists i. by rewrite lookup_take_lt.
  - apply list_elem_of_lookup. exists 0. by rewrite lookup_drop, Nat.add_0_r.
Qed.

(** A place with nothing to move on either side splits an ordered list. *)
Lemma place_splits y d n l p :
  in_order y d l -> p <= length l ->
  (forall a, l !! p = Some a -> drawn_before y (node_of d a) n = false) ->
  (forall a, p <> 0 -> l !! (p - 1) = Some a -> drawn_before y (node_of d a) n = true) ->
  take p l = behind y d n l /\ drop p l = in_front y d n l.
Proof.
  intros Hs Hp H0 H1.
  assert (Forall (fun i => drawn_before y (node_of d i) n = true) (take p l)) as Ht.
  { apply Forall_lookup. intros i a Ha. apply lookup_take_Some in Ha as [Ha Hi].
    destruct (decide (i = p - 1)) as [->|Hne]; [apply (H1 a); [lia|done]|].
    destruct (lookup_lt_is_Some_2 l (p - 1) ltac:(lia)) as [b Hb].
    apply (drawn_before_trans _ _ (node_of d b)); [|apply H1; [lia|done]].
    apply (in_order_lookup y d l i (p - 1)); [done|lia|done..]. }
  assert (Forall (fun i => drawn_before y (node_of d i) n <> true) (drop p l)) as Hd.
  { apply Forall_lookup. intros i a Ha. rewrite lookup_drop in Ha. destruct i as [|i].
    { rewrite Nat.add_0_r in Ha. rewrite (H0 a Ha). done. }
    destruct (lookup_lt_is_Some_2 l p) as [b Hb]; [apply lookup_lt_Some in Ha; lia|].
    intros Hn. pose proof (in_order_lookup y d l p (p + S i) b a Hs ltac:(lia) Hb Ha) as Hba.
    specialize (H0 b Hb). by rewrite (drawn_before_trans y _ _ _ Hba Hn) in H0. }
  unfold behind, in_front. split.
  - rewrite <- (take_drop p l) at 2. rewrite filter_app, (filter_keep _ _ Ht), (filter_none _ _ Hd). by rewrite app_nil_r.
  - rewrite <- (take_drop p l) at 2. rewrite filter_app, (filter_keep _ (drop p l) Hd), filter_none; [done|].
    eapply list.Forall_impl; [exact Ht|]. simpl. auto.
Qed.

(** The element is known to the indexer, or the indexer does not change. *)
Lemma forget_indexed y d x id :
  indexed y d x ->
  let x1 := if exists_ x id then remove x id else x in
  indexed y d x1 /\ order x1 = filter (fun j => j <> id) (order x).
Proof.
  intros Hx. unfold exists_. case_bool_decide as E; simpl.
  - split; [by apply remove_indexed|by eapply remove_order].
  - split; [done|]. rewrite (ix_exists _ _ _ Hx) in E. symmetry. apply filter_keep, list.Forall_forall. by intros j Hj ->.
Qed.

(** [insert] on an indexer that agrees with the store. *)
Lemma insert_result y d x id n :
  indexed y d x ->
  let x1 := if exists_ x id then remove x id else x in
  let n' := fst (determineZIndex x1 n) in
  let others := filter (fun j => j <> id) (order x) in
  insert y d x id n
  = Some (<[id := n']> d,
          Indexer (behind y d n' others ++ id :: in_front y d n' others)
            (<[id := getZIndex n']> (indices x1)) (snd (determineZIndex x1 n)),
          head (in_front y d n' others)).
Proof.
  intros Hx. cbv zeta. destruct (forget_indexed y d x id Hx) as [Hx1 Ho]. revert Hx1 Ho. unfold insert.
  generalize (if exists_ x id then remove x id else x). clear Hx. intros x1 Hx1 Ho. rewrite <- Ho.
  destruct (determineZIndex x1 n) as [n' max]. cbn [fst snd].
  assert (forall i a, order x1 !! i = Some a -> <[id := n']> d !! a = Some (node_of d a)) as Hd.
  { intros i a Ha. apply list_elem_of_lookup_2 in Ha. rewrite lookup_insert_ne.
    2: { intros ->. rewrite Ho in Ha. by apply list_elem_of_filter in Ha as [[] _]. }
    destruct (ix_node _ _ _ Hx1 a Ha) as (m & z & Hm & _). unfold node_of. by rewrite Hm. }
  match goal with |- context [search ?a _ _ _] => set (after := a) end.
  destruct (search_ends after (length (order x1))) as (p & -> & Hp & H0 & H1). rewrite Nat2Z.id.
  destruct (place_splits y d n' (order x1) p (ix_sorted _ _ _ Hx1) Hp) as [Ht Hf].
  - intros a Ha. destruct H0 as [-> | H0]; [by rewrite lookup_ge_None_2 in Ha|].
    unfold after in H0. rewrite Ha in H0. cbn [mbind option_bind] in H0. by rewrite (Hd _ _ Ha), positive_compare in H0.
  - intros a Hne Ha. destruct H1 as [-> | H1]; [done|].
    unfold after in H1. rewrite Ha in H1. cbn [mbind option_bind] in H1. by rewrite (Hd _ _ Ha), positive_compare in H1.
  - unfold insert_at. rewrite Ht, Hf. do 2 f_equal.
    assert (drop (S p) (behind y d n' (order x1) ++ id :: in_front y d n' (order x1)) = in_front y d n' (order x1)) as ->.
    { assert (length (behind y d n' (order x1)) = p) as Hl by (rewrite <- Ht, length_take; lia).
      rewrite drop_app_ge, Hl, Nat.sub_succ_l, Nat.sub_diag by lia. done. }
    assert (forall i, i ∈ in_front y d n' (order x1) -> is_Some (<[id := n']> d !! i)) as Hsome.
    { intros i Hi. apply list_elem_of_filter in Hi as [_ Hi]. apply list_elem_of_lookup in Hi as [k Hk].
      by rewrite (Hd _ _ Hk). }
    destruct (in_front y d n' (order x1)) as [|a l]; [done|]. simpl.
    by destruct (Hsome a ltac:(by left)) as [m ->].
Qed.

Lemma in_order_ext y d d' l :
  (forall i, i ∈ l -> node_of d i = node_of d' i) -> in_order y d l -> in_order y d' l.
Proof.
  intros He. induction 1 as [|a l Hs IH Ha]; [constructor|]. apply StronglySorted_cons. split; [|apply IH; set_solver].
  apply list.Forall_forall. intros b Hb. rewrite <- !He by set_solver. by apply (proj1 (list.Forall_forall _ _) Ha).
Qed.

Lemma determined x n :
  exists z, graphicZIndex (fst (determineZIndex x n)) = Some z
  /\ (maxZIndex x <= snd (determineZIndex x n))%Z /\ (z <= snd (determineZIndex x n))%Z.
Proof.
  unfold determineZIndex. destruct (graphicZIndex n) as [z|] eqn:E; simpl.
  - exists z. split; [done|]. destruct (Z.ltb_spec (maxZIndex x) z); lia.
  - exists (maxZIndex x). split; [done|lia].
Qed.

Lemma place_indexed y d x id n z max :
  indexed y d x -> id ∉ order x -> graphicZIndex n = Some z -> (maxZIndex x <= max)%Z -> (z <= max)%Z ->
  indexed y (<[id := n]> d)
    (Indexer (behind y d n (order x) ++ id :: in_front y d n (order x)) (<[id := getZIndex n]> (indices x)) max).
Proof.
  intros Hx Hid Hz Hmax Hzm. set (o := behind y d n (order x) ++ id :: in_front y d n (order x)).
  assert (o ≡ₚ id :: order x) as Hperm.
  { unfold o. rewrite <- Permutation_middle. apply Permutation_skip. apply filter_app_complement. }
  assert (forall i, i ∈ order x -> node_of d i = node_of (<[id := n]> d) i) as Hsame.
  { intros i Hi. unfold node_of. by rewrite lookup_insert_ne by (intros ->; done). }
  assert (node_of (<[id := n]> d) id = n) as Hnew by (unfold node_of; by rewrite lookup_insert_eq).
  assert (forall i, i ∈ o <-> i = id \/ i ∈ order x) as Ho by (intros i; rewrite Hperm; set_solver).
  split; cbn [order indices maxZIndex].
  - rewrite Hperm. apply list.NoDup_cons. split; [done|by apply (ix_nodup _ _ _ Hx)].
  - intros i. rewrite lookup_insert_is_Some, Ho, (ix_exists _ _ _ Hx). destruct (decide (i = id)); naive_solver.
  - intros i Hi. apply Ho in Hi as [-> | Hi].
    + exists n, z. rewrite !lookup_insert_eq. unfold getZIndex. by rewrite Hz.
    + rewrite !lookup_insert_ne by (intros ->; done). by apply (ix_node _ _ _ Hx).
  - intros i Hi. apply Ho in Hi as [-> | Hi].
    + rewrite Hnew. unfold getZIndex. by rewrite Hz.
    + rewrite <- Hsame by done. etransitivity; [by apply (ix_max _ _ _ Hx)|done].
  - apply StronglySorted_app. split_and!.
    + intros a b Ha Hb. apply list_elem_of_filter in Ha as [Ha Hain]. rewrite <- (Hsame a) by done.
      apply elem_of_cons in Hb as [-> | Hb]; [by rewrite Hnew|].
      apply list_elem_of_filter in Hb as [Hb Hbin]. rewrite <- (Hsame b) by done.
      apply (drawn_before_trans _ _ n); [done|]. apply drawn_before_total. by apply not_true_is_false.
    + apply (in_order_ext y d); [|by apply StronglySorted_filter, (ix_sorted _ _ _ Hx)].
      intros i Hi. apply list_elem_of_filter in Hi as [_ Hi]. auto.
    + apply StronglySorted_cons. split.
      * apply list.Forall_forall. intros b Hb. apply list_elem_of_filter in Hb as [Hb Hbin].
        rewrite Hnew, <- Hsame by done. apply drawn_before_total. by apply not_true_is_false.
      * apply (in_order_ext y d); [|by apply StronglySorted_filter, (ix_sorted _ _ _ Hx)].
        intros i Hi. apply list_elem_of_filter in Hi as [_ Hi]. auto.
Qed.

Lemma initial_indexed y d : indexed y d initial.
Proof.
  split; simpl; [constructor|..|constructor]; intros id.
  - rewrite lookup_empty. split; [by intros []|by intros ?%not_elem_of_nil].
  - by intros ?%not_elem_of_nil.
  - by intros ?%not_elem_of_nil.
Qed.

Lemma step_indexed y d x o :
  indexed y d x -> exists d' x', step y (d, x) o = Some (d', x') /\ indexed y d' x'.
Proof.
  intros Hx. destruct o as [id n|id|]; cbn [step].
  - rewrite insert_result by done. cbn [fmap option_fmap option_map fst]. do 2 eexists. split; [done|].
    destruct (forget_indexed y d x id Hx) as [Hx1 Ho]. cbv zeta in Hx1, Ho. rewrite <- Ho.
    destruct (determined (if exists_ x id then remove x id else x) n) as (z & Hz & Hm & Hzm).
    apply (place_indexed _ _ _ _ _ z); [done| |done..]. rewrite Ho. intros [[] _]%list_elem_of_filter. done.
  - do 2 eexists. split; [done|]. by apply remove_indexed.
  - do 2 eexists. split; [done|]. apply initial_indexed.
Qed.

Lemma run_indexed y os : forall d x,
  indexed y d x -> exists d' x', run y (d, x) os = Some (d', x') /\ indexed y d' x'.
Proof.
  induction os as [|o os IH]; intros d x Hx; simpl; [by eauto|].
  destruct (step_indexed y d x o Hx) as (d1 & x1 & E & H1). simpl in E. rewrite E. auto.
Qed.

(** C31 After any insertions, removals and clearings on a new indexer, the order
    has no repetition and is sorted by z-index (with y-ordering, by bottoms
    among equal ones), and the recorded maximum is no less than any z-index in
    it.  The binary search puts the next element where a scan of the others
    would: behind it what is drawn before it, in front of it the rest, in the
    old order; and the node it returns to insert before is the next in order. *)
Theorem insert_places y os id n :
  exists d x, run y (∅, initial) os = Some (d, x)
  /\ NoDup (order x) /\ in_order y d (order x)
  /\ (forall i, i ∈ order x -> (getZIndex (node_of d i) <= maxZIndex x)%Z)
  /\ exists n' x' next,
       insert y d x id n = Some (<[id := n']> d, x', next)
       /\ boundsBottom n' = boundsBottom n
       /\ (forall z, graphicZIndex n = Some z -> n' = n)
       /\ let others := filter (fun j => j <> id) (order x) in
          order x' = behind y d n' others ++ id :: in_front y d n' others
          /\ next = head (in_front y d n' others)
          /\ (graphicZIndex n = None -> y = false -> in_front y d n' others = []).
Proof.
  destruct (run_indexed y os ∅ initial (initial_indexed y ∅)) as (d & x & Hr & Hx). exists d, x.
  split; [done|]. split; [apply Hx|]. split; [apply Hx|]. split; [apply Hx|].
  destruct (forget_indexed y d x id Hx) as [Hx1 Ho]. cbv zeta in Hx1, Ho. rewrite insert_result by done. revert Hx1 Ho.
  generalize (if exists_ x id then remove x id else x). intros x1 Hx1 Ho.
  exists (fst (determineZIndex x1 n)). do 2 eexists. split; [done|]. cbn [order].
  unfold determineZIndex. destruct (graphicZIndex n) as [z|] eqn:Ez; cbn [fst boundsBottom];
    (split; [done|]; split; [done|]; split; [done|]; split; [done|]); intros [=] Hy.
  apply filter_none, list.Forall_forall. rewrite <- Ho. intros i Hi Hn. apply Hn. rewrite drawn_before_spec, Hy.
  pose proof (ix_max _ _ _ Hx1 i Hi) as Hm. unfold getZIndex at 2 4. simpl.
  destruct (Z.eq_dec (getZIndex (node_of d i)) (maxZIndex x1)); [right; by split; [|left]|left; lia].
Qed.

(** With y-ordering, an element without a z-index can end up behind another: it
    gets the largest z-index there is, not a larger one. *)
Example unindexed_behind :
  (run true (∅, initial) [Insert "low" (Node (Some 3%Z) 10); Insert "new" (Node None 20)] ≫= fun s => Some (order (snd s)))
  = Some ["new"; "low"].
Proof. vm_compute. reflexivity. Qed.
