(* ===== verification/MapGrid.v ===== *)
(** * The tiles of a map layer (openlayers, lib/OpenLayers/Layer/Grid.js)

    A layer keeps its tiles in rows; the tiles are drawn in a spiral, rows and
    columns are moved from one side to the other as the map is dragged, and
    excess tiles are destroyed.  Pixel positions are integers; coordinates are
    rationals, computed exactly.  A tile is its identifier, its bounds and its
    position. *)

From Stdlib Require Import ZArith QArith Qround Lia Lqa.
From stdpp Require Import base option list gmap numbers tactics.
From S2P Require Import Prelude.

Local Open Scope nat_scope.

Record bounds := Bounds { left : Q; bottom : Q; right : Q; top : Q }.

Record tile := Tile { tile_id : nat; tile_bounds : bounds; px : Z; py : Z }.

Notation grid := (list (list tile)).

(** ** Drawing in a spiral (spiralTileLoad) *)

(** The variables of the loop: the queue holds tiles, and a tile in it is marked. *)
Record spiral := Spiral { tileQueue : list nat; iRow : Z; iCell : Z; direction : nat; directionsTried : nat }.

(** The tile at grid coordinates, when they are within the bounds of the grid. *)
Definition tile_at (g : grid) (r c : Z) : option nat :=
  if (r <? Z.of_nat (length g))%Z && (0 <=? r)%Z
     && (c <? Z.of_nat (length (default [] (head g))))%Z && (0 <=? c)%Z
  then tile_id <$> (g !! Z.to_nat r ≫= fun row => row !! Z.to_nat c)
  else None.

(** The coordinates one step in a direction: right, down, left, up. *)
Definition towards (d : nat) (r c : Z) : Z * Z :=
  match d with
  | 0 => (r, (c + 1)%Z)
  | 1 => ((r + 1)%Z, c)
  | 2 => (r, (c - 1)%Z)
  | _ => ((r - 1)%Z, c)
  end.

Definition spiral_step (g : grid) (s : spiral) : spiral :=
  let '(testRow, testCell) := towards (direction s) (iRow s) (iCell s) in
  let turn := Spiral (tileQueue s) (iRow s) (iCell s) ((direction s + 1) mod 4) (directionsTried s + 1) in
  match tile_at g testRow testCell with
  | Some t => if bool_decide (t ∈ tileQueue s) then turn else Spiral (t :: tileQueue s) testRow testCell (direction s) 0
  | None => turn
  end.

Fixpoint spiral_loop (fuel : nat) (g : grid) (s : spiral) : option (list nat) :=
  match fuel with
  | O => None
  | S fuel' => if directionsTried s <? 4 then spiral_loop fuel' g (spiral_step g s) else Some (tileQueue s)
  end.

Definition spiral_fuel (g : grid) : nat := 5 * length (concat g) + 5.

(** The tiles in the order they are drawn. *)
Definition spiralTileLoad (g : grid) : option (list nat) :=
  spiral_loop (spiral_fuel g) g (Spiral [] 0 (-1) 0 0).

(** ** Moving rows and columns *)

Section layer.
Context (w h : Z) (resolution : Q).

Definition shifted (dlon dlat : Q) (dx dy : Z) (model t : tile) : tile :=
  let b := tile_bounds model in
  Tile (tile_id t) (Bounds (left b + dlon) (bottom b + dlat) (right b + dlon) (top b + dlat))
    (px model + dx) (py model + dy).

(** [None] is an exception: a row or a tile that is not there. *)
Fixpoint move_row (dlat : Q) (dy : Z) (model row : list tile) : option (list tile) :=
  match model, row with
  | [], _ => Some row
  | m :: model', t :: row' => cons (shifted 0 dlat 0 dy m t) <$> move_row dlat dy model' row'
  | _ :: _, [] => None
  end.

Definition shiftRow (prepend : bool) (g : grid) : option grid :=
  let deltaY := if prepend then (- h)%Z else h in
  let deltaLat := (resolution * inject_Z (- deltaY))%Q in
  match head g, list.last g with
  | Some first, Some final =>
      let model := if prepend then first else final in
      let row := if prepend then final else first in
      let rest := if prepend then take (length g - 1) g else tail g in
      row' ← move_row deltaLat deltaY model row;
      Some (if prepend then row' :: rest else rest ++ [row'])
  | _, _ => None
  end.

Definition shift_in_row (prepend : bool) (row : list tile) : option (list tile) :=
  let deltaX := if prepend then (- w)%Z else w in
  let deltaLon := (resolution * inject_Z deltaX)%Q in
  match head row, list.last row with
  | Some first, Some final =>
      let model := if prepend then first else final in
      let t := if prepend then final else first in
      let rest := if prepend then take (length row - 1) row else tail row in
      let t' := shifted deltaLon 0 deltaX 0 model t in
      Some (if prepend then t' :: rest else rest ++ [t'])
  | _, _ => None
  end.

Definition shiftColumn (prepend : bool) (g : grid) : option grid := mapM (shift_in_row prepend) g.

(** [moveGriddedTiles], on a map whose layers are at the offset [dX], [dY]; the
    loop returns when the first tile is in place. *)
Definition first_tile (g : grid) : option tile := head g ≫= head.

Fixpoint moveGriddedTiles (fuel : nat) (buffer dX dY : Z) (g : grid) : option grid :=
  match fuel with
  | O => None
  | S fuel' =>
      t ← first_tile g;
      let x := (px t + dX)%Z in
      let y := (py t + dY)%Z in
      if (- w * (buffer - 1) <? x)%Z then shiftColumn true g ≫= moveGriddedTiles fuel' buffer dX dY
      else if (x <? - w * buffer)%Z then shiftColumn false g ≫= moveGriddedTiles fuel' buffer dX dY
      else if (- h * (buffer - 1) <? y)%Z then shiftRow true g ≫= moveGriddedTiles fuel' buffer dX dY
      else if (y <? - h * buffer)%Z then shiftRow false g ≫= moveGriddedTiles fuel' buffer dX dY
      else Some g
  end.

End layer.

(** [this.buffer || 1] *)
Definition buffer_or_1 (buffer : Z) : Z := if (buffer =? 0)%Z then 1%Z else buffer.

(** ** Removing excess tiles *)

(** The rows that stay and the tiles that are destroyed; [None] is an exception. *)
Fixpoint pop_rows (fuel rows : nat) (g : grid) (destroyed : list tile) : option (grid * list tile) :=
  match fuel with
  | O => None
  | S fuel' =>
      if rows <? length g then
        pop_rows fuel' rows (take (length g - 1) g) (destroyed ++ default [] (list.last g))
      else Some (g, destroyed)
  end.

Definition pop_column (g : grid) (destroyed : list tile) : option (grid * list tile) :=
  lasts ← mapM list.last g;
  Some (map (fun row => take (length row - 1) row) g, destroyed ++ lasts).

Fixpoint pop_columns (fuel columns : nat) (g : grid) (destroyed : list tile) : option (grid * list tile) :=
  match fuel with
  | O => None
  | S fuel' =>
      first ← head g;
      if columns <? length first
      then pop_column g destroyed ≫= fun '(g', d) => pop_columns fuel' columns g' d
      else Some (g, destroyed)
  end.

Definition removeExcessTiles (rows columns : nat) (g : grid) : option (grid * list tile) :=
  '(g1, d1) ← pop_rows (S (length g)) rows g [];
  pop_columns (S (length (default [] (head g1)))) columns g1 d1.

(** ** Tiling the viewport *)

Record layout := Layout {
  tilelon : Q; tilelat : Q;
  tileoffsetlon : Q; tileoffsetlat : Q;
  tileoffsetx : Q; tileoffsety : Q
}.

Definition calculateGridLayout (w h buffer : Z) (b extent : bounds) (resolution : Q) : layout :=
  let tilelon := (resolution * inject_Z w)%Q in
  let tilelat := (resolution * inject_Z h)%Q in
  let offsetlon := (left b - left extent)%Q in
  let tilecol := (Qfloor (offsetlon / tilelon) - buffer)%Z in
  let tilecolremain := (offsetlon / tilelon - inject_Z tilecol)%Q in
  let offsetlat := (top b - (bottom extent + tilelat))%Q in
  let tilerow := (Qceiling (offsetlat / tilelat) + buffer)%Z in
  let tilerowremain := (inject_Z tilerow - offsetlat / tilelat)%Q in
  Layout tilelon tilelat
    (left extent + inject_Z tilecol * tilelon) (bottom extent + inject_Z tilerow * tilelat)
    (- tilecolremain * inject_Z w) (- tilerowremain * inject_Z h).

(** [Math.round] *)
Definition round (q : Q) : Z := Qfloor (q + (1 # 2)).

Section tiling.
Context (w h buffer : Z) (b : bounds) (tilelon tilelat : Q) (divLeft divTop : Z).

(** The inner loop, from the tile at index [colidx] of a row of which [old] is
    left: the row, the next free identifier and the number of columns.  A tile
    that is there is moved, a missing one is made. *)
Fixpoint fill_row (fuel minCols : nat) (old : list tile) (colidx : nat) (lon lat : Q) (x y : Z) (next : nat)
    : option (list tile * nat * nat) :=
  match fuel with
  | O => None
  | S fuel' =>
      let tileBounds := Bounds lon lat (lon + tilelon) (lat + tilelat) in
      let t := Tile (match old with o :: _ => tile_id o | [] => next end) tileBounds (x - divLeft) (y - divTop) in
      let next' := match old with _ :: _ => next | [] => S next end in
      if Qle_bool (lon + tilelon) (right b + tilelon * inject_Z buffer) || (S colidx <? minCols)
      then '(row, n, c) ← fill_row fuel' minCols (tail old) (S colidx) (lon + tilelon) lat (x + w) y next';
           Some (t :: row, n, c)
      else Some (t :: tail old, next', S colidx)
  end.

(** The outer loop: the rows, the next free identifier, and the final values of
    [rowidx] and [colidx]. *)
Fixpoint fill_rows (fuel colFuel minRows minCols : nat) (old : grid) (rowidx : nat) (lon lat : Q) (x y : Z) (next : nat)
    : option (grid * nat * nat * nat) :=
  match fuel with
  | O => None
  | S fuel' =>
      '(row, next', colidx) ← fill_row colFuel minCols (default [] (head old)) 0 lon lat x y next;
      if Qle_bool (bottom b - tilelat * inject_Z buffer) (lat - tilelat) || (S rowidx <? minRows)
      then '(g, n, r, c) ← fill_rows fuel' colFuel minRows minCols (tail old) (S rowidx) lon (lat - tilelat) x (y + h) next';
           Some (row :: g, n, r, c)
      else Some (row :: tail old, next', S rowidx, colidx)
  end.

End tiling.

(** The rounds that are enough for a loop that goes [size] further each time. *)
Definition rounds_to (from to size : Q) (least : nat) : nat := Z.to_nat (Qfloor ((to - from) / size)) + least + 2.

(** [initGriddedTiles], up to the drawing: the new grid, the tiles destroyed and
    the next free identifier. *)
Definition initGriddedTiles (w h buffer viewW viewH divLeft divTop : Z) (b extent : bounds) (resolution : Q)
    (g : grid) (next : nat) : option (grid * list tile * nat) :=
  let minRows := Z.to_nat (Qceiling (inject_Z viewH / inject_Z h) + Z.max 1 (2 * buffer)) in
  let minCols := Z.to_nat (Qceiling (inject_Z viewW / inject_Z w) + Z.max 1 (2 * buffer)) in
  let l := calculateGridLayout w h buffer b extent resolution in
  let x := round (tileoffsetx l) in
  let y := round (tileoffsety l) in
  '(g1, next', rowidx, colidx) ←
    fill_rows w h buffer b (tilelon l) (tilelat l) divLeft divTop
      (rounds_to (bottom b - tilelat l * inject_Z buffer) (tileoffsetlat l) (tilelat l) minRows)
      (rounds_to (tileoffsetlon l) (right b + tilelon l * inject_Z buffer) (tilelon l) minCols)
      minRows minCols g 0 (tileoffsetlon l) (tileoffsetlat l) x y next;
  '(g2, destroyed) ← removeExcessTiles rowidx colidx g1;
  Some (g2, destroyed, next').

(** ** Loading *)

(** The tiles that are loading, and the events of the layer. *)
Inductive layer_event := LoadStart | TileLoaded | LoadEnd.

Definition onLoadStart (numLoadingTiles : Z) : Z * list layer_event :=
  ((numLoadingTiles + 1)%Z, if (numLoadingTiles =? 0)%Z then [LoadStart] else []).

Definition onLoadEnd (numLoadingTiles : Z) : Z * list layer_event :=
  let n := (numLoadingTiles - 1)%Z in (n, TileLoaded :: if (n =? 0)%Z then [LoadEnd] else []).

(** The bounds of all tiles. *)
Definition getTilesBounds (g : grid) : option bounds :=
  first ← head g; final ← list.last g;
  bottomLeft ← head final; topRight ← list.last first;
  Some (Bounds (left (tile_bounds bottomLeft)) (bottom (tile_bounds bottomLeft))
          (right (tile_bounds topRight)) (top (tile_bounds topRight))).

(** ** The spiral ends *)

Lemma tile_at_lookup g r c t :
  tile_at g r c = Some t ->
  (0 <= r < Z.of_nat (length g))%Z /\ (0 <= c)%Z
  /\ exists row tl, g !! Z.to_nat r = Some row /\ row !! Z.to_nat c = Some tl /\ tile_id tl = t.
Proof.
  unfold tile_at. destruct (_ && _) eqn:E; [|done]. intros H.
  apply fmap_Some in H as (tl & H & ->). apply bind_Some in H as (row & Hr & Hc).
  rewrite !andb_true_iff, !Z.ltb_lt, !Z.leb_le in E. split; [lia|]. split; [lia|]. by exists row, tl.
Qed.

Lemma tile_at_concat g r c t : tile_at g r c = Some t -> exists tl, tl ∈ concat g /\ tile_id tl = t.
Proof.
  intros (_ & _ & row & tl & Hr & Hc & E)%tile_at_lookup. exists tl. split; [|done].
  apply list_elem_of_In, in_concat. exists row.
  split; apply list_elem_of_In; by eapply list_elem_of_lookup_2.
Qed.

(** The tiles that are not queued yet. *)
Definition waiting (g : grid) (q : list nat) : list tile := filter (fun tl => tile_id tl ∉ q) (concat g).

Lemma waiting_cons g q tl :
  tl ∈ concat g -> tile_id tl ∉ q -> length (waiting g (tile_id tl :: q)) < length (waiting g q).
Proof.
  unfold waiting. intros Hin Hq. induction (concat g) as [|x l IH]; [by apply not_elem_of_nil in Hin|].
  assert (forall l : list tile,
    length (filter (fun tl' => tile_id tl' ∉ tile_id tl :: q) l) <= length (filter (fun tl' => tile_id tl' ∉ q) l)) as Hle.
  { clear. intros l. induction l as [|x l IH]; [done|]. rewrite !filter_cons. repeat case_decide; simpl; try lia. set_solver. }
  rewrite !filter_cons. apply elem_of_cons in Hin as [-> | Hin].
  - rewrite decide_False by set_solver. rewrite decide_True by done. simpl. specialize (Hle l). lia.
  - specialize (IH Hin). repeat case_decide; simpl; try lia. set_solver.
Qed.

Definition measure (g : grid) (s : spiral) : nat := 5 * length (waiting g (tileQueue s)) + (4 - directionsTried s).

Lemma spiral_step_measure g s : directionsTried s < 4 -> measure g (spiral_step g s) < measure g s.
Proof.
  intros Hd. unfold spiral_step, measure. destruct (towards _ _ _) as [r c].
  destruct (tile_at g r c) as [t|] eqn:E; [|simpl; lia].
  case_bool_decide as Hq; [simpl; lia|]. cbn [tileQueue directionsTried].
  destruct (tile_at_concat _ _ _ _ E) as (tl & Hin & <-). pose proof (waiting_cons g _ tl Hin Hq). lia.
Qed.

Lemma spiral_loop_ends g fuel s : measure g s < fuel -> is_Some (spiral_loop fuel g s).
Proof.
  revert s. induction fuel as [|fuel IH]; intros s Hm; [lia|]. simpl.
  destruct (Nat.ltb_spec (directionsTried s) 4) as [Hd|Hd]; [|by eexists].
  apply IH. pose proof (spiral_step_measure g s Hd). lia.
Qed.

Lemma spiral_terminates g : is_Some (spiralTileLoad g).
Proof.
  apply spiral_loop_ends. unfold measure, spiral_fuel. cbn [tileQueue directionsTried].
  assert (length (waiting g []) <= length (concat g)) by apply length_filter. lia.
Qed.

(** ** The spiral draws every tile once *)

(** A grid of [R] rows of [C] tiles, all of them different. *)
Definition rectangular (C : nat) (g : grid) : Prop := Forall (fun row => length row = C) g.
Definition ids (g : grid) : list nat := map tile_id (concat g).

Section drawing.
Context (g : grid) (C : nat) (Hrect : rectangular C g) (Hids : NoDup (ids g)).

Notation rows := (Z.of_nat (length g)).
Notation cols := (Z.of_nat C).

Definition inside (r c : Z) : Prop := (0 <= r < rows)%Z /\ (0 <= c < cols)%Z.

Lemma head_length : g <> [] -> length (default [] (head g)) = C.
Proof. destruct g as [|row g']; [done|]. intros _. by apply list.Forall_cons in Hrect as [? _]. Qed.

Lemma tile_at_inside r c : inside r c <-> is_Some (tile_at g r c).
Proof.
  split.
  - intros [Hr Hc]. unfold tile_at. rewrite head_length by (intros E; rewrite E in Hr; simpl in Hr; lia).
    rewrite !(proj2 (Z.ltb_lt _ _)), !(proj2 (Z.leb_le _ _)) by lia. simpl.
    destruct (lookup_lt_is_Some_2 g (Z.to_nat r)) as [row E]; [lia|]. rewrite E. simpl.
    pose proof (proj1 (Forall_lookup _ _) Hrect _ _ E) as Hl. simpl in Hl.
    destruct (lookup_lt_is_Some_2 row (Z.to_nat c)) as [tl ->]; [lia|]. by eexists.
  - intros [t H]. apply tile_at_lookup in H as (Hr & Hc & row & tl & E & Et & _). split; [done|].
    pose proof (proj1 (Forall_lookup _ _) Hrect _ _ E) as Hl. simpl in Hl.
    apply lookup_lt_Some in Et. lia.
Qed.

Lemma NoDup_concat_rows {A} (l : list (list A)) i j a b x :
  NoDup (concat l) -> l !! i = Some a -> l !! j = Some b -> x ∈ a -> x ∈ b -> i = j /\ NoDup a.
Proof.
  revert i j. induction l as [|r l IH]; intros i j Hn Hi Hj Hx Hy; [done|].
  simpl in Hn. apply list.NoDup_app in Hn as (Hr & Hd & Hn).
  assert (forall k c, l !! k = Some c -> x ∈ c -> x ∈ concat l) as Hc.
  { intros k c Hk Hxc. apply list_elem_of_In, in_concat. exists c.
    split; apply list_elem_of_In; [by eapply list_elem_of_lookup_2|done]. }
  destruct i as [|i], j as [|j]; simpl in *; simplify_eq.
  - done.
  - destruct (Hd x); eauto.
  - destruct (Hd x); eauto.
  - destruct (IH i j Hn Hi Hj Hx Hy) as [-> ?]. done.
Qed.

Lemma tile_at_inj r c r' c' t : tile_at g r c = Some t -> tile_at g r' c' = Some t -> r = r' /\ c = c'.
Proof.
  intros H1 H2. apply tile_at_lookup in H1 as (Hr & Hc & row & tl & E & Et & Hid).
  apply tile_at_lookup in H2 as (Hr' & Hc' & row' & tl' & E' & Et' & Hid').
  assert (map (map tile_id) g !! Z.to_nat r = Some (map tile_id row)) as F by (rewrite list_lookup_fmap; by rewrite E).
  assert (map (map tile_id) g !! Z.to_nat r' = Some (map tile_id row')) as F' by (rewrite list_lookup_fmap; by rewrite E').
  assert (map tile_id row !! Z.to_nat c = Some t) as G by (rewrite list_lookup_fmap, Et; simpl; by rewrite Hid).
  assert (map tile_id row' !! Z.to_nat c' = Some t) as G' by (rewrite list_lookup_fmap, Et'; simpl; by rewrite Hid').
  unfold ids in Hids. rewrite concat_map in Hids.
  destruct (NoDup_concat_rows _ _ _ _ _ t Hids F F') as [Err Hn]; [by eapply list_elem_of_lookup_2..|].
  assert (r = r') as -> by lia. split; [done|]. rewrite E in E'. injection E' as <-.
  pose proof (NoDup_lookup _ _ _ _ Hn G G'). lia.
Qed.

(** A position that is still to be queued. *)
Definition open_at (q : list nat) (r c : Z) : Prop := inside r c /\ forall t, tile_at g r c = Some t -> t ∉ q.

(** The positions still open while a side of the rectangle of rows [r0, r1) and
    columns [c0, c1) is walked: from (r, c) to the end of the side, and the rest
    of the rectangle. *)
Definition side (d : nat) (r0 r1 c0 c1 r c r' c' : Z) : Prop :=
  (match d with
   | 0%nat => (r' = r0 /\ c < c' < c1) \/ (r0 < r' < r1 /\ c0 <= c' < c1)
   | 1%nat => (c' = c1 - 1 /\ r < r' < r1) \/ (r0 <= r' < r1 /\ c0 <= c' < c1 - 1)
   | 2%nat => (r' = r1 - 1 /\ c0 <= c' < c) \/ (r0 <= r' < r1 - 1 /\ c0 <= c' < c1)
   | _ => (c' = c0 /\ r0 <= r' < r) \/ (r0 <= r' < r1 /\ c0 < c' < c1)
   end)%Z.

(** The place on the side, and whether it is still in front of it. *)
Definition on_side (d : nat) (r0 r1 c0 c1 r c : Z) : Prop :=
  (match d with
   | 0%nat => r = r0 /\ c0 - 1 <= c < c1
   | 1%nat => c = c1 - 1 /\ r0 - 1 <= r < r1
   | 2%nat => r = r1 - 1 /\ c0 <= c <= c1
   | _ => c = c0 /\ r0 <= r <= r1
   end)%Z.
Definition at_start (d : nat) (r0 r1 c0 c1 r c : Z) : Prop :=
  (match d with 0%nat => c = c0 - 1 | 1%nat => r = r0 - 1 | 2%nat => c = c1 | _ => r = r1 end)%Z.

Definition walking (s : spiral) : Prop :=
  direction s < 4 /\ directionsTried s <= 1
  /\ exists r0 r1 c0 c1, (0 <= r0 < r1)%Z /\ (r1 <= rows)%Z /\ (0 <= c0 < c1)%Z /\ (c1 <= cols)%Z
     /\ on_side (direction s) r0 r1 c0 c1 (iRow s) (iCell s)
     /\ (directionsTried s = 1 -> at_start (direction s) r0 r1 c0 c1 (iRow s) (iCell s))
     /\ forall r c, open_at (tileQueue s) r c <-> side (direction s) r0 r1 c0 c1 (iRow s) (iCell s) r c.

(** The invariant of the loop: nothing is open, or a side is being walked. *)
Definition spiral_ok (s : spiral) : Prop :=
  NoDup (tileQueue s) /\ (forall t, t ∈ tileQueue s -> t ∈ ids g)
  /\ ((forall r c, ~ open_at (tileQueue s) r c) \/ walking s).

Lemma open_at_cons q r c t r' c' :
  tile_at g r c = Some t -> open_at (t :: q) r' c' <-> open_at q r' c' /\ ~ (r' = r /\ c' = c).
Proof.
  intros Ht. unfold open_at. split.
  - intros [Hin Ho]. split.
    + split; [done|]. intros u Hu. specialize (Ho u Hu). set_solver.
    + intros [-> ->]. specialize (Ho t Ht). set_solver.
  - intros [[Hin Ho] Hne]. split; [done|]. intros u Hu Hq. apply elem_of_cons in Hq as [-> | Hq].
    + apply Hne. by eapply tile_at_inj.
    + by apply (Ho u Hu).
Qed.

(** The next position is open exactly when the step goes there. *)
Lemma spiral_step_open s :
  let '(r, c) := towards (direction s) (iRow s) (iCell s) in
  (open_at (tileQueue s) r c
   /\ exists t, tile_at g r c = Some t /\ t ∉ tileQueue s
      /\ spiral_step g s = Spiral (t :: tileQueue s) r c (direction s) 0)
  \/ (~ open_at (tileQueue s) r c
      /\ spiral_step g s = Spiral (tileQueue s) (iRow s) (iCell s) ((direction s + 1) mod 4) (directionsTried s + 1)).
Proof.
  unfold spiral_step. destruct (towards _ _ _) as [r c] eqn:E.
  destruct (tile_at g r c) as [t|] eqn:Et.
  - case_bool_decide as Hq.
    + right. split; [|done]. intros [_ Ho]. by apply (Ho t).
    + left. split; [|by exists t]. split; [apply tile_at_inside; by eexists|]. intros u Hu. congruence.
  - right. split; [|done]. intros [Hin _]. apply tile_at_inside in Hin as [u Hu]. congruence.
Qed.

(** A step along a side keeps walking it. *)
Lemma walk_on s r c t :
  walking s -> towards (direction s) (iRow s) (iCell s) = (r, c) -> open_at (tileQueue s) r c ->
  tile_at g r c = Some t -> walking (Spiral (t :: tileQueue s) r c (direction s) 0).
Proof.
  intros (Hd & _ & r0 & r1 & c0 & c1 & Hr & Hr1 & Hc & Hc1 & Hon & _ & Hopen) Ht Ho Et.
  split; [done|]. split; [simpl; lia|]. exists r0, r1, c0, c1. apply Hopen in Ho. cbn [tileQueue iRow iCell direction directionsTried].
  do 4 (split; [done|]). split; [|split; [done|]].
  - destruct (direction s) as [|[|[|[|]]]]; simpl in *; simplify_eq; lia.
  - intros r' c'. rewrite (open_at_cons _ r c) by done. rewrite Hopen.
    destruct (direction s) as [|[|[|[|]]]]; simpl in *; simplify_eq; lia.
Qed.

(** At the end of a side the rest of the rectangle is walked from its next side,
    if there is any. *)
Lemma walk_turn s r c :
  walking s -> towards (direction s) (iRow s) (iCell s) = (r, c) -> ~ open_at (tileQueue s) r c ->
  let s' := Spiral (tileQueue s) (iRow s) (iCell s) ((direction s + 1) mod 4) (directionsTried s + 1) in
  (forall r c, ~ open_at (tileQueue s) r c) \/ walking s'.
Proof.
  intros (Hd & Htr & r0 & r1 & c0 & c1 & Hr & Hr1 & Hc & Hc1 & Hon & Hst & Hopen) Ht Ho. cbv zeta. rewrite Hopen in Ho.
  assert (directionsTried s = 0) as H0.
  { destruct (decide (directionsTried s = 1)) as [E|]; [|lia]. specialize (Hst E). exfalso. apply Ho.
    destruct (direction s) as [|[|[|[|]]]]; simpl in *; simplify_eq; lia. }
  assert (forall r' c', open_at (tileQueue s) r' c' <->
    match direction s with
    | 0%nat => r0 + 1 <= r' < r1 /\ c0 <= c' < c1 | 1%nat => r0 <= r' < r1 /\ c0 <= c' < c1 - 1
    | 2%nat => r0 <= r' < r1 - 1 /\ c0 <= c' < c1 | _ => r0 <= r' < r1 /\ c0 + 1 <= c' < c1
    end%Z) as Hrest.
  { intros r' c'. rewrite Hopen. destruct (direction s) as [|[|[|[|]]]]; simpl in *; simplify_eq; lia. }
  set (q0 := if decide (direction s = 0) then (r0 + 1)%Z else r0).
  set (q1 := if decide (direction s = 2) then (r1 - 1)%Z else r1).
  set (p0 := if decide (direction s = 3) then (c0 + 1)%Z else c0).
  set (p1 := if decide (direction s = 1) then (c1 - 1)%Z else c1).
  destruct (decide (q0 < q1 /\ p0 < p1)%Z) as [[Hq Hp]|Hne].
  - right. split; [by apply Nat.mod_upper_bound|]. split; [simpl; lia|]. exists q0, q1, p0, p1.
    cbn [tileQueue iRow iCell direction directionsTried]. subst q0 q1 p0 p1.
    destruct (direction s) as [|[|[|[|]]]]; simpl in *; simplify_eq; split_and!; try lia;
      intros r' c'; rewrite Hrest; lia.
  - left. intros r' c'. rewrite Hrest. subst q0 q1 p0 p1.
    destruct (direction s) as [|[|[|[|]]]]; simpl in *; simplify_eq; lia.
Qed.

Lemma spiral_step_ok s : spiral_ok s -> spiral_ok (spiral_step g s).
Proof.
  intros (Hn & Hsub & Hs). pose proof (spiral_step_open s) as H.
  destruct (towards (direction s) (iRow s) (iCell s)) as [r c] eqn:E.
  destruct H as [(Ho & t & Et & Hq & ->)|[Ho ->]]; unfold spiral_ok; cbn [tileQueue].
  - split; [by apply list.NoDup_cons|]. split.
    + intros u [-> | Hu]%elem_of_cons; [|auto]. destruct (tile_at_concat _ _ _ _ Et) as (tl & Hin & <-).
      by apply list_elem_of_fmap_2.
    + right. destruct Hs as [Hs|Hs]; [by destruct (Hs r c)|]. by eapply walk_on.
  - split; [done|]. split; [done|]. destruct Hs as [Hs|Hs]; [by left|]. by eapply walk_turn.
Qed.

Lemma spiral_loop_ok fuel s q :
  spiral_ok s -> spiral_loop fuel g s = Some q -> NoDup q /\ forall t, t ∈ q <-> t ∈ ids g.
Proof.
  revert s. induction fuel as [|fuel IH]; intros s Hs E; [done|]. simpl in E.
  destruct (Nat.ltb_spec (directionsTried s) 4) as [Hd|Hd]; [by eapply IH; [apply spiral_step_ok|]|].
  injection E as <-. destruct Hs as (Hn & Hsub & Hs). split; [done|].
  assert (forall r c, ~ open_at (tileQueue s) r c) as Hnone by (destruct Hs as [|(_ & ? & _)]; [done|lia]).
  intros t. split; [auto|]. intros Ht. apply list_elem_of_fmap in Ht as (tl & -> & Hin).
  apply list_elem_of_In, in_concat in Hin as (row & Hrow & Htl). apply list_elem_of_In, list_elem_of_lookup in Hrow as [i Hi].
  apply list_elem_of_In, list_elem_of_lookup in Htl as [j Hj].
  assert (inside (Z.of_nat i) (Z.of_nat j)) as Hij.
  { pose proof (proj1 (Forall_lookup _ _) Hrect _ _ Hi) as Hl. simpl in Hl.
    apply lookup_lt_Some in Hi, Hj. unfold inside. lia. }
  destruct (proj1 (tile_at_inside _ _) Hij) as [u Hu].
  assert (u = tile_id tl) as ->.
  { apply tile_at_lookup in Hu as (_ & _ & row' & tl' & E1 & E2 & <-). rewrite Nat2Z.id in *. by simplify_eq. }
  destruct (decide (tile_id tl ∈ tileQueue s)) as [|Hnq]; [done|].
  destruct (Hnone (Z.of_nat i) (Z.of_nat j)). split; [done|]. intros v Hv. congruence.
Qed.

End drawing.

Lemma spiral_all g C :
  rectangular C g -> NoDup (ids g) -> exists q, spiralTileLoad g = Some q /\ q ≡ₚ ids g.
Proof.
  intros Hr Hn. destruct (spiral_terminates g) as [q Hq]. exists q. split; [done|].
  assert (spiral_ok g C (Spiral [] 0 (-1) 0 0)) as H0.
  { split; [constructor|]. split; [by intros t ?%not_elem_of_nil|].
    destruct (decide (g = [] \/ C = 0)) as [He|He].
    - left. intros r c [[H1 H2] _]. destruct He as [-> | ->]; simpl in *; lia.
    - right. split; [simpl; lia|]. split; [simpl; lia|]. exists 0%Z, (Z.of_nat (length g)), 0%Z, (Z.of_nat C).
      assert (length g <> 0) by (destruct g; naive_solver). split_and!; simpl; try lia.
      intros r c. unfold open_at, inside. split; [intros [? _]; lia|].
      intros Hrc. split; [lia|]. by intros t _ ?%not_elem_of_nil. }
  destruct (spiral_loop_ok g C Hr Hn _ _ _ H0 Hq) as [Hnq Hiff]. by apply NoDup_Permutation.
Qed.

(** Drawing a layer, on a grid of equal rows of different tiles: the spiral
    ends, and the queue it draws holds every tile of the grid exactly once. *)
Theorem spiral_draws_all g C :
  rectangular C g -> NoDup (ids g) -> exists q, spiralTileLoad g = Some q /\ q ≡ₚ ids g.
Proof. apply spiral_all. Qed.

Definition tiles (R C : nat) : grid :=
  map (fun i => map (fun j => Tile (i * C + j) (Bounds 0 0 0 0) (Z.of_nat j) (Z.of_nat i)) (seq 0 C)) (seq 0 R).

Lemma spiral_draws_all_witness :
  spiralTileLoad (tiles 3 3) = Some [4; 3; 6; 7; 8; 5; 2; 1; 0]
  /\ exists q, spiralTileLoad (tiles 3 3) = Some q /\ q ≡ₚ ids (tiles 3 3).
Proof.
  split; [vm_compute; reflexivity|]. apply (spiral_draws_all (tiles 3 3) 3).
  - repeat constructor.
  - apply (bool_decide_unpack _). vm_compute. exact I.
Defined.

(** ** Moving rows and columns *)

Section moving.
Context (w h : Z) (resolution : Q).

(** The pixel position and the bounds of the first tile. *)
Record origin := Origin { ox : Z; oy : Z; olon : Q; olat : Q }.

(** The tile at row [i] and column [j] of a grid that starts at [o]. *)
Definition tile_placed (o : origin) (i j : nat) (t : tile) : Prop :=
  px t = (ox o + Z.of_nat j * w)%Z /\ py t = (oy o + Z.of_nat i * h)%Z
  /\ (left (tile_bounds t) == olon o + inject_Z (Z.of_nat j * w) * resolution)%Q
  /\ (right (tile_bounds t) == left (tile_bounds t) + inject_Z w * resolution)%Q
  /\ (bottom (tile_bounds t) == olat o - inject_Z (Z.of_nat i * h) * resolution)%Q
  /\ (top (tile_bounds t) == bottom (tile_bounds t) + inject_Z h * resolution)%Q.

Definition row_placed (o : origin) (i : nat) (row : list tile) : Prop :=
  forall j t, row !! j = Some t -> tile_placed o i j t.
Definition grid_placed (o : origin) (g : grid) : Prop :=
  forall i row, g !! i = Some row -> row_placed o i row.

(** The origin [dx] columns and [dy] rows further. *)
Definition origin_moved (o : origin) (dx dy : Z) : origin :=
  Origin (ox o + dx * w) (oy o + dy * h)
    (olon o + inject_Z (dx * w) * resolution) (olat o - inject_Z (dy * h) * resolution).

(** A tile of the moved grid: one place further in the old one. *)
Lemma tile_placed_moved o dx dy i j i' j' t :
  (Z.of_nat j' = Z.of_nat j + dx)%Z -> (Z.of_nat i' = Z.of_nat i + dy)%Z ->
  tile_placed o i' j' t -> tile_placed (origin_moved o dx dy) i j t.
Proof.
  intros Hj Hi (H1 & H2 & H3 & H4 & H5 & H6). unfold tile_placed, origin_moved. cbn [ox oy olon olat].
  rewrite Hj, Z.mul_add_distr_r, inject_Z_plus in *. rewrite Hi, (Z.mul_add_distr_r _ _ h), inject_Z_plus in *.
  split; [lia|]. split; [lia|]. split; [lra|]. split; [lra|]. split; lra.
Qed.

(** The tile a model is copied to, [dj] columns and [di] rows from it. *)
Lemma shifted_placed o i j dj di dlon dlat ddx ddy model t dx dy i' j' :
  tile_placed o i j model ->
  (dlon == resolution * inject_Z (dj * w))%Q -> (dlat == resolution * inject_Z (- (di * h)))%Q ->
  ddx = (dj * w)%Z -> ddy = (di * h)%Z ->
  (dj + Z.of_nat j = Z.of_nat j' + dx)%Z -> (di + Z.of_nat i = Z.of_nat i' + dy)%Z ->
  tile_placed (origin_moved o dx dy) i' j' (shifted dlon dlat ddx ddy model t).
Proof.
  intros (H1 & H2 & H3 & H4 & H5 & H6) Hlon Hlat -> -> Hj Hi. unfold tile_placed, origin_moved, shifted.
  cbn [ox oy olon olat px py tile_bounds left right bottom top].
  assert (Z.of_nat j' * w + dx * w = dj * w + Z.of_nat j * w)%Z as Ej by nia.
  assert (Z.of_nat i' * h + dy * h = di * h + Z.of_nat i * h)%Z as Ei by nia.
  split; [lia|]. split; [lia|].
  apply (f_equal inject_Z) in Ej, Ei. rewrite !inject_Z_plus in Ej, Ei. rewrite inject_Z_opp in Hlat.
  assert (inject_Z (Z.of_nat j' * w) == inject_Z (dj * w) + inject_Z (Z.of_nat j * w) - inject_Z (dx * w))%Q as Fj by (rewrite <- Ej; ring).
  assert (inject_Z (Z.of_nat i' * h) == inject_Z (di * h) + inject_Z (Z.of_nat i * h) - inject_Z (dy * h))%Q as Fi by (rewrite <- Ei; ring).
  split; [rewrite Fj; lra|]. split; [lra|]. split; [rewrite Fi; lra|lra].
Qed.

(** +1 or -1: where the row or column that is moved goes. *)
Definition sense (prepend : bool) : Z := if prepend then (-1)%Z else 1%Z.

Lemma head_last_row {A} (l : list A) :
  l <> [] -> exists a b, head l = Some a /\ list.last l = Some b
  /\ l !! 0 = Some a /\ l !! (length l - 1) = Some b
  /\ l = a :: tail l /\ l = take (length l - 1) l ++ [b].
Proof.
  intros Hl. destruct (list.last l) as [b|] eqn:E; [|by apply last_None in E].
  destruct l as [|a l']; [done|]. exists a, b. apply last_Some in E as [l1 E].
  split; [done|]. split; [done|]. split; [done|].
  assert (length (a :: l') - 1 = length l1) as -> by (rewrite E, length_app; simpl; lia).
  rewrite E. split; [by rewrite lookup_app_r, Nat.sub_diag by lia|]. rewrite <- E. split; [done|].
  by rewrite E, take_app_length.
Qed.

(** A row whose last tile goes first, or whose first tile goes last. *)
Lemma shift_in_row_placed prepend o i row :
  row <> [] -> row_placed o i row ->
  exists row', shift_in_row w resolution prepend row = Some row'
  /\ length row' = length row /\ row_placed (origin_moved o (sense prepend) 0) i row'
  /\ map tile_id row' ≡ₚ map tile_id row.
Proof.
  intros Hne Hrow. destruct (head_last_row row Hne) as (a & b & Ha & Hb & La & Lb & Eh & El).
  assert (0 < length row) as Hlen by (destruct row; simpl in *; [done|lia]).
  unfold shift_in_row. rewrite Ha, Hb. destruct prepend; eexists; (split; [done|]); cbn [sense].
  - split; [simpl; rewrite length_take; lia|]. split.
    + intros [|j] t Ht; simpl in Ht.
      * injection Ht as <-. apply (shifted_placed o i 0 (-1) 0); [by apply Hrow|..]; try lia.
        -- by replace (-1 * w)%Z with (- w)%Z by lia.
        -- rewrite Z.mul_0_l. change (inject_Z (- 0)) with 0%Q. lra.
      * apply lookup_take_Some in Ht as [Ht Hj]. apply (tile_placed_moved o _ _ i (S j) i j); [lia|lia|by apply Hrow].
    + rewrite (f_equal (map tile_id) El), map_app. simpl. apply Permutation_cons_append.
  - split; [rewrite length_app; destruct row; simpl in *; lia|]. split.
    + intros j t Ht. apply lookup_app_Some in Ht as [Ht|[Hj Ht]].
      * apply (tile_placed_moved o _ _ i j i (S j)); [lia|lia|]. apply Hrow. by destruct row.
      * assert (length (tail row) = length row - 1) as Htl by (destruct row; simpl; lia).
        destruct (j - length (tail row)) as [|k] eqn:Ek; [|done]. injection Ht as <-.
        apply (shifted_placed o i (length row - 1) 1 0); [by apply Hrow|..]; try lia.
        -- by rewrite Z.mul_1_l.
        -- rewrite Z.mul_0_l. change (inject_Z (- 0)) with 0%Q. lra.
    + rewrite map_app, (f_equal (map tile_id) Eh). simpl. symmetry. apply Permutation_cons_append.
Qed.

(** What a shift keeps of a grid: its shape and its tiles. *)
Definition same_tiles (C : nat) (g g' : grid) : Prop :=
  length g' = length g /\ rectangular C g' /\ ids g' ≡ₚ ids g.

Lemma ids_cons row g : ids (row :: g) = map tile_id row ++ ids g.
Proof. unfold ids. simpl. by rewrite map_app. Qed.

Lemma ids_app g1 g2 : ids (g1 ++ g2) = ids g1 ++ ids g2.
Proof. unfold ids. by rewrite concat_app, map_app. Qed.

Lemma shiftColumn_placed prepend C o g :
  0 < C -> rectangular C g -> grid_placed o g ->
  exists g', shiftColumn w resolution prepend g = Some g' /\ same_tiles C g g'
  /\ grid_placed (origin_moved o (sense prepend) 0) g'.
Proof.
  intros HC Hrect Hg.
  assert (forall k, (forall i row, g !! i = Some row -> row_placed o (k + i) row) ->
    exists g', mapM (shift_in_row w resolution prepend) g = Some g' /\ same_tiles C g g'
    /\ forall i row, g' !! i = Some row -> row_placed (origin_moved o (sense prepend) 0) (k + i) row) as H.
  { clear Hg. induction Hrect as [|row g Hl _ IH]; intros k Hk.
    { exists []. split; [done|]. split; [split; [done|]; split; [constructor|done]|by intros i row ?]. }
    destruct (shift_in_row_placed prepend o (k + 0) row) as (row' & E & Hl' & Hp & Hids).
    { destruct row; simpl in *; [lia|done]. }
    { by apply Hk. }
    destruct (IH (S k)) as (g' & E' & (Hlen & Hr & Hids') & Hp').
    { intros i r Hi. replace (S k + i) with (k + S i) by lia. by apply Hk. }
    exists (row' :: g'). split; [simpl; by rewrite E, E'|]. split.
    - split; [simpl; lia|]. split; [constructor; [lia|done]|]. by rewrite !ids_cons, Hids, Hids'.
    - intros [|i] r Hi; simpl in Hi; [by injection Hi as <-|].
      replace (k + S i) with (S k + i) by lia. by apply Hp'. }
  apply (H 0). exact Hg.
Qed.

Lemma move_row_placed dlat ddy di dy o i i' model row :
  length model = length row -> row_placed o i model ->
  (dlat == resolution * inject_Z (- (di * h)))%Q -> ddy = (di * h)%Z -> (di + Z.of_nat i = Z.of_nat i' + dy)%Z ->
  exists row', move_row dlat ddy model row = Some row' /\ length row' = length row
  /\ row_placed (origin_moved o 0 dy) i' row' /\ map tile_id row' = map tile_id row.
Proof.
  intros Hl Hm Hlat Hdy Hi.
  assert (forall k, (forall j t, model !! j = Some t -> tile_placed o i (k + j) t) ->
    exists row', move_row dlat ddy model row = Some row' /\ length row' = length row
    /\ (forall j t, row' !! j = Some t -> tile_placed (origin_moved o 0 dy) i' (k + j) t)
    /\ map tile_id row' = map tile_id row) as H.
  { clear Hm. revert row Hl. induction model as [|m model IH]; intros [|t row] Hl k Hk; try done.
    { by exists []. }
    destruct (IH row ltac:(simpl in Hl; lia) (S k)) as (row' & E & Hl' & Hp & Hids).
    { intros j u Hj. replace (S k + j) with (k + S j) by lia. by apply Hk. }
    exists (shifted 0 dlat 0 ddy m t :: row'). split; [simpl; by rewrite E|]. split; [simpl; lia|]. split.
    - intros [|j] u Hj; simpl in Hj.
      + injection Hj as <-. apply (shifted_placed o i (k + 0) 0 di); [by apply Hk|..]; try done; try lia.
        rewrite Z.mul_0_l. change (inject_Z 0) with 0%Q. lra.
      + replace (k + S j) with (S k + j) by lia. by apply Hp.
    - simpl. by rewrite Hids. }
  apply (H 0). exact Hm.
Qed.

Lemma shiftRow_placed prepend C o g :
  g <> [] -> rectangular C g -> grid_placed o g ->
  exists g', shiftRow h resolution prepend g = Some g' /\ same_tiles C g g'
  /\ grid_placed (origin_moved o 0 (sense prepend)) g'.
Proof.
  intros Hne Hrect Hg. destruct (head_last_row g Hne) as (a & b & Ha & Hb & La & Lb & Eh & El).
  assert (0 < length g) as Hlen by (destruct g; simpl in *; [done|lia]).
  pose proof (proj1 (Forall_lookup _ _) Hrect _ _ La) as Hla. pose proof (proj1 (Forall_lookup _ _) Hrect _ _ Lb) as Hlb.
  simpl in Hla, Hlb. unfold shiftRow. rewrite Ha, Hb. destruct prepend; cbn [sense].
  - destruct (move_row_placed (resolution * inject_Z (- - h)) (- h) (-1) (-1) o 0 0 a b) as (row' & E & Hl' & Hp & Hids);
      [congruence|by apply Hg|by replace (-1 * h)%Z with (- h)%Z by lia|lia|lia|].
    rewrite E. simpl. eexists. split; [done|]. split; [split; [|split]|].
    + simpl. rewrite length_take. lia.
    + constructor; [congruence|by apply Forall_take].
    + rewrite ids_cons, Hids, (f_equal ids El), ids_app, ids_cons, app_nil_r. apply Permutation_app_comm.
    + intros [|i] row Hi; simpl in Hi; [by injection Hi as <-|]. apply lookup_take_Some in Hi as [Hi Hlt].
      intros j t Ht. apply (tile_placed_moved o _ _ (S i) j i j); [lia|lia|]. by apply (Hg i row).
  - destruct (move_row_placed (resolution * inject_Z (- h)) h 1 1 o (length g - 1) (length g - 1) b a) as (row' & E & Hl' & Hp & Hids);
      [congruence|by apply Hg|by rewrite Z.mul_1_l|lia|lia|].
    assert (length (tail g) = length g - 1) as Htl by (destruct g; simpl; lia).
    rewrite E. simpl. eexists. split; [done|]. split; [split; [|split]|].
    + rewrite length_app. simpl. lia.
    + apply list.Forall_app. split; [|constructor; [congruence|constructor]].
      rewrite Eh in Hrect. by apply list.Forall_cons in Hrect as [_ ?].
    + rewrite ids_app, ids_cons, Hids, (f_equal ids Eh), ids_cons, app_nil_r. apply Permutation_app_comm.
    + intros i row Hi. apply lookup_app_Some in Hi as [Hi|[Hge Hi]].
      * intros j t Ht. apply (tile_placed_moved o _ _ i j (S i) j); [lia|lia|].
        apply (Hg (S i) row); [|done]. rewrite Eh. done.
      * destruct (i - length (tail g)) as [|k] eqn:Ek; [|done]. injection Hi as <-.
        replace i with (length g - 1) by lia. done.
Qed.

(** Two origins of the same plane: their distances in pixels and in coordinates
    agree. *)
Definition same_plane (o o' : origin) : Prop :=
  (olon o' == olon o + inject_Z (ox o' - ox o) * resolution)%Q
  /\ (olat o' == olat o - inject_Z (oy o' - oy o) * resolution)%Q.

Lemma same_plane_moved o o' dx dy : same_plane o o' -> same_plane o (origin_moved o' dx dy).
Proof.
  intros [H1 H2]. unfold same_plane, origin_moved. cbn [ox oy olon olat].
  replace (ox o' + dx * w - ox o)%Z with (dx * w + (ox o' - ox o))%Z by lia.
  replace (oy o' + dy * h - oy o)%Z with (dy * h + (oy o' - oy o))%Z by lia.
  rewrite !inject_Z_plus. split; lra.
Qed.

(** How far a position is from the interval [-s * b, -s * (b - 1)]. *)
Definition off_place (s b x : Z) : Z := Z.max 0 (Z.max (x + s * (b - 1)) (- (x + s * b))).

Lemma first_tile_placed o C g :
  0 < C -> rectangular C g -> g <> [] -> grid_placed o g ->
  exists t, first_tile g = Some t /\ px t = ox o /\ py t = oy o.
Proof.
  intros HC Hr Hne Hg. destruct g as [|row g]; [done|]. apply list.Forall_cons in Hr as [Hl _].
  destruct row as [|t row]; [simpl in *; lia|]. exists t. split; [done|].
  destruct (Hg 0 (t :: row) eq_refl 0 t eq_refl) as (H1 & H2 & _). split; lia.
Qed.

Lemma same_tiles_trans C g g1 g2 : same_tiles C g g1 -> same_tiles C g1 g2 -> same_tiles C g g2.
Proof. intros (H1 & _ & H3) (K1 & K2 & K3). split; [congruence|]. split; [done|]. by rewrite K3. Qed.

(** The loop that moves the tiles of a grid. *)
Lemma moveGriddedTiles_loop b dX dY C o0 fuel : (0 < w)%Z -> (0 < h)%Z -> 0 < C -> forall o g,
  g <> [] -> rectangular C g -> grid_placed o g -> same_plane o0 o ->
  (off_place w b (ox o + dX) + off_place h b (oy o + dY) < Z.of_nat fuel)%Z ->
  exists g' o', moveGriddedTiles w h resolution fuel b dX dY g = Some g' /\ same_tiles C g g'
  /\ grid_placed o' g' /\ same_plane o0 o'
  /\ (- w * b <= ox o' + dX <= - w * (b - 1))%Z /\ (- h * b <= oy o' + dY <= - h * (b - 1))%Z.
Proof.
  intros Hw Hh HC. induction fuel as [|fuel IH]; intros o g Hne Hr Hg Hp Hf; [unfold off_place in Hf; lia|].
  destruct (first_tile_placed o C g HC Hr Hne Hg) as (t & Et & Hx & Hy).
  cbn [moveGriddedTiles]. rewrite Et. cbn [mbind option_bind]. rewrite Hx, Hy. clear Et Hx Hy t.
  assert (forall dx dy g1, same_tiles C g g1 -> grid_placed (origin_moved o dx dy) g1 ->
    (off_place w b (ox o + dx * w + dX) + off_place h b (oy o + dy * h + dY)
     < off_place w b (ox o + dX) + off_place h b (oy o + dY))%Z ->
    exists g' o', moveGriddedTiles w h resolution fuel b dX dY g1 = Some g' /\ same_tiles C g g'
    /\ grid_placed o' g' /\ same_plane o0 o'
    /\ (- w * b <= ox o' + dX <= - w * (b - 1))%Z /\ (- h * b <= oy o' + dY <= - h * (b - 1))%Z) as Hnext.
  { intros dx dy g1 Hs Hg1 Hlt. destruct Hs as (Hl & Hr1 & Hi).
    destruct (IH (origin_moved o dx dy) g1) as (g' & o' & E & Hs' & Hg' & Hp' & Hin); [|done|done|by apply same_plane_moved|simpl; lia|].
    { intros ->. by destruct g. }
    exists g', o'. split; [done|]. split; [by eapply same_tiles_trans|done]. }
  unfold off_place in Hnext.
  destruct (Z.ltb_spec (- w * (b - 1)) (ox o + dX)).
  { destruct (shiftColumn_placed true C o g HC Hr Hg) as (g1 & -> & Hs & Hg1). apply (Hnext (-1)%Z 0%Z); [done..|nia]. }
  destruct (Z.ltb_spec (ox o + dX) (- w * b)).
  { destruct (shiftColumn_placed false C o g HC Hr Hg) as (g1 & -> & Hs & Hg1). apply (Hnext 1%Z 0%Z); [done..|nia]. }
  destruct (Z.ltb_spec (- h * (b - 1)) (oy o + dY)).
  { destruct (shiftRow_placed true C o g Hne Hr Hg) as (g1 & -> & Hs & Hg1). apply (Hnext 0%Z (-1)%Z); [done..|nia]. }
  destruct (Z.ltb_spec (oy o + dY) (- h * b)).
  { destruct (shiftRow_placed false C o g Hne Hr Hg) as (g1 & -> & Hs & Hg1). apply (Hnext 0%Z 1%Z); [done..|nia]. }
  exists g, o. split; [done|]. by split; [split_and!|].
Qed.

End moving.

(** C32 Dragging a layer, on a grid of equal rows whose tiles lie side by side: the
    loop that moves rows and columns ends, without an exception, after at most
    as many rounds as the first tile is pixels away from its place; it leaves
    the first tile at most one tile, plus the buffer, before the corner of the
    viewport, the tiles side by side again, in pixels and in coordinates, and
    every tile of the grid in the grid. *)
Theorem tiles_follow w h resolution buffer dX dY C o g fuel :
  (0 < w)%Z -> (0 < h)%Z -> 0 < C -> g <> [] -> rectangular C g -> grid_placed w h resolution o g ->
  let b := buffer_or_1 buffer in
  (off_place w b (ox o + dX) + off_place h b (oy o + dY) < Z.of_nat fuel)%Z ->
  exists g' o', moveGriddedTiles w h resolution fuel b dX dY g = Some g'
  /\ length g' = length g /\ rectangular C g' /\ ids g' ≡ₚ ids g
  /\ grid_placed w h resolution o' g' /\ same_plane resolution o o'
  /\ (- w * b <= ox o' + dX <= - w * (b - 1))%Z /\ (- h * b <= oy o' + dY <= - h * (b - 1))%Z.
Proof.
  intros Hw Hh HC Hne Hr Hg b Hf.
  destruct (moveGriddedTiles_loop w h resolution b dX dY C o fuel Hw Hh HC o g Hne Hr Hg) as
    (g' & o' & E & (Hl & Hr' & Hi) & Hrest); [|done|].
  - unfold same_plane. rewrite !Z.sub_diag. change (inject_Z 0) with 0%Q. split; lra.
  - by exists g', o'.
Qed.

(** A grid of tiles side by side. *)
Definition laid_out (w h : Z) (resolution : Q) (o : origin) (R C : nat) : grid :=
  map (fun i => map (fun j =>
    let lon := (olon o + inject_Z (Z.of_nat j * w) * resolution)%Q in
    let lat := (olat o - inject_Z (Z.of_nat i * h) * resolution)%Q in
    Tile (i * C + j) (Bounds lon lat (lon + inject_Z w * resolution) (lat + inject_Z h * resolution))
      (ox o + Z.of_nat j * w) (oy o + Z.of_nat i * h)) (seq 0 C)) (seq 0 R).

Lemma laid_out_placed w h resolution o R C : grid_placed w h resolution o (laid_out w h resolution o R C).
Proof.
  intros i row Hi. unfold laid_out in Hi. rewrite list_lookup_fmap in Hi. apply fmap_Some in Hi as (i' & Hi & ->).
  apply lookup_seq in Hi as [-> _]. intros j t Hj. rewrite list_lookup_fmap in Hj. apply fmap_Some in Hj as (j' & Hj & ->).
  apply lookup_seq in Hj as [-> _]. unfold tile_placed. simpl. split; [done|]. split; [done|]. split; [lra|]. split; [lra|]. split; lra.
Qed.

Lemma laid_out_rectangular w h resolution o R C : rectangular C (laid_out w h resolution o R C).
Proof. apply Forall_fmap, list.Forall_forall. intros i _. simpl. by rewrite length_map, length_seq. Qed.

(** A map dragged by 300 pixels to the right. *)
Lemma tiles_follow_witness :
  exists g' o', moveGriddedTiles 256 256 1 201 1 300 0 (laid_out 256 256 1 (Origin (-100) (-100) 0 0) 2 3) = Some g'
  /\ grid_placed 256 256 1 o' g' /\ (-256 <= ox o' + 300 <= 0)%Z.
Proof.
  destruct (tiles_follow 256 256 1 0 300 0 3 (Origin (-100) (-100) 0 0)
    (laid_out 256 256 1 (Origin (-100) (-100) 0 0) 2 3) 201) as (g' & o' & E & _ & _ & _ & Hg & _ & Hx & _).
  - lia.
  - lia.
  - lia.
  - discriminate.
  - apply laid_out_rectangular.
  - apply laid_out_placed.
  - reflexivity.
  - exists g', o'. split; [exact E|]. split; [exact Hg|]. exact Hx.
Defined.

(** ** Tiling the viewport *)

Section filling.
Context (w h buffer : Z) (b : bounds) (resolution : Q) (divLeft divTop : Z).

Notation tlon := (resolution * inject_Z w)%Q.
Notation tlat := (resolution * inject_Z h)%Q.
Notation row_loop := (fill_row w buffer b tlon tlat divLeft divTop).
Notation grid_loop := (fill_rows w h buffer b tlon tlat divLeft divTop).

(** The tile at column [j] of a row that starts at [lon], [x]. *)
Definition tile_made (lon lat : Q) (x y : Z) (j : nat) (t : tile) : Prop :=
  px t = (x + Z.of_nat j * w - divLeft)%Z /\ py t = (y - divTop)%Z
  /\ (left (tile_bounds t) == lon + inject_Z (Z.of_nat j * w) * resolution)%Q
  /\ (right (tile_bounds t) == left (tile_bounds t) + inject_Z w * resolution)%Q
  /\ (bottom (tile_bounds t) == lat)%Q
  /\ (top (tile_bounds t) == bottom (tile_bounds t) + inject_Z h * resolution)%Q.

Lemma tile_made_S lon lat x y j t : tile_made (lon + tlon) lat (x + w) y j t -> tile_made lon lat x y (S j) t.
Proof.
  intros (H1 & H2 & H3 & H4 & H5 & H6). split; [lia|]. split; [done|]. split; [|done].
  replace (Z.of_nat (S j) * w)%Z with (w + Z.of_nat j * w)%Z by lia. rewrite inject_Z_plus. lra.
Qed.

Lemma Qle_bool_false p q : Qle_bool p q = false -> (q < p)%Q.
Proof.
  intros H. destruct (Qlt_le_dec q p) as [|Hle]; [done|]. apply Qle_bool_iff in Hle. congruence.
Qed.

(** [N] steps of a positive size pass the end, and one step less from the next
    place. *)
Lemma passes_next (N : nat) (from to size : Q) :
  (0 < size)%Q -> (to < from + inject_Z (Z.of_nat N) * size)%Q ->
  (to < from + size + inject_Z (Z.of_nat (N - 1)) * size)%Q.
Proof.
  intros Hs Hn. destruct N as [|N]; simpl.
  - change (inject_Z (Z.of_nat 0)) with 0%Q in *. lra.
  - rewrite Nat.sub_0_r. rewrite Nat2Z.inj_succ in Hn. unfold Z.succ in Hn. rewrite inject_Z_plus in Hn.
    change (inject_Z 1) with 1%Q in Hn. lra.
Qed.

Lemma counted {A} (r : A) (n n' c c' : nat) : n = n' -> c = c' -> Some (r, n, c) = Some (r, n', c').
Proof. by intros -> ->. Qed.

(** A row of no more than the least number of tiles: the loop ends, the row then
    has as many tiles as columns were counted, at least the least number, all of
    them in place; the tiles that were there are kept, the others are new. *)
Lemma fill_row_spec minCols fuel : forall N old colidx lon lat x y next,
  (0 < tlon)%Q -> (right b + tlon * inject_Z buffer < lon + inject_Z (Z.of_nat N) * tlon)%Q ->
  N + (minCols - colidx) < fuel -> length old <= minCols - colidx ->
  exists row k, row_loop fuel minCols old colidx lon lat x y next = Some (row, next + (k - length old), colidx + k)
  /\ 0 < k /\ minCols <= colidx + k /\ length row = k
  /\ (forall j t, row !! j = Some t -> tile_made lon lat x y j t)
  /\ map tile_id row = map tile_id old ++ seq next (k - length old).
Proof.
  induction fuel as [|fuel IH]; intros N old colidx lon lat x y next Hp HN Hf Hl; [lia|]. cbn [fill_row].
  set (t := Tile _ _ _ _).
  assert (tile_made lon lat x y 0 t) as Ht.
  { unfold tile_made, t. cbn [px py tile_bounds left right top bottom]. replace (Z.of_nat 0 * w)%Z with 0%Z by lia.
    change (inject_Z 0) with 0%Q. split; [lia|]. split; [done|]. split; [lra|]. split; [lra|]. split; lra. }
  destruct (_ || _) eqn:E.
  - destruct (IH (N - 1) (tail old) (S colidx) (lon + tlon)%Q lat (x + w)%Z y
                (match old with _ :: _ => next | [] => S next end)) as (row & k & -> & Hk & Hm & Hlen & Hrow & Hids).
    + done.
    + by apply passes_next.
    + apply orb_true_iff in E as [E|E].
      * apply Qle_bool_iff in E. assert (N <> 0); [|lia]. intros ->. change (inject_Z (Z.of_nat 0)) with 0%Q in HN. lra.
      * apply Nat.ltb_lt in E. lia.
    + destruct old; simpl in *; lia.
    + exists (t :: row), (S k). simpl. split; [apply counted; destruct old; simpl in *; lia|].
      split; [lia|]. split; [lia|]. split; [lia|]. split.
      * intros [|j] u Hj; simpl in Hj; [by injection Hj as <-|]. by apply tile_made_S, Hrow.
      * rewrite Hids. unfold t. destruct old; simpl; [by rewrite Nat.sub_0_r|done].
  - apply orb_false_iff in E as [_ E]. apply Nat.ltb_ge in E.
    assert (length old <= 1) by lia. exists (t :: tail old), 1. split; [apply counted; destruct old; simpl in *; lia|].
    split; [lia|]. split; [lia|]. split; [destruct old as [|? []]; simpl in *; lia|]. split.
    + intros [|j] u Hj; simpl in Hj; [by injection Hj as <-|]. destruct old as [|? []]; simpl in *; [done..|lia].
    + destruct old as [|? []]; simpl in *; [done..|lia].
Qed.

(** The number of columns does not depend on the tiles that are there. *)
Lemma fill_row_cols minCols fuel : forall old old' colidx lon lat lat' x x' y y' next next' row row' n n' c c',
  row_loop fuel minCols old colidx lon lat x y next = Some (row, n, c) ->
  row_loop fuel minCols old' colidx lon lat' x' y' next' = Some (row', n', c') -> c = c'.
Proof.
  induction fuel as [|fuel IH]; intros; [done|]. cbn [fill_row] in *. destruct (_ || _); [|congruence].
  repeat match goal with
  | E : (row_loop fuel _ _ _ _ _ _ _ _ ≫= _) = Some _ |- _ =>
      let p := fresh in apply bind_Some in E as ([[? ?] ?] & ? & E); injection E as <- <- <-
  end.
  by eapply IH.
Qed.

(** A whole row, of [K] columns. *)
Definition row_filled (K : nat) (colFuel minCols : nat) (lon : Q) (x : Z) : Prop :=
  forall old lat y next, length old <= minCols ->
  exists row, row_loop colFuel minCols old 0 lon lat x y next = Some (row, next + (K - length old), K)
  /\ length row = K
  /\ (forall j t, row !! j = Some t -> tile_made lon lat x y j t)
  /\ map tile_id row = map tile_id old ++ seq next (K - length old).

Lemma rows_filled colFuel minCols N lon x :
  (0 < tlon)%Q -> (right b + tlon * inject_Z buffer < lon + inject_Z (Z.of_nat N) * tlon)%Q ->
  N + minCols < colFuel ->
  exists K, 0 < K /\ minCols <= K /\ row_filled K colFuel minCols lon x.
Proof.
  intros Hp HN Hf.
  destruct (fill_row_spec minCols colFuel N [] 0 lon 0 x 0 0 Hp HN) as (row0 & K & E0 & HK & Hm & _); [lia|simpl; lia|].
  exists K. split; [done|]. split; [done|]. intros old lat y next Hl.
  destruct (fill_row_spec minCols colFuel N old 0 lon lat x y next Hp HN) as (row & k & E & _ & _ & Hlen & Hrow & Hids); [lia|lia|].
  assert (k = K) as -> by by eapply fill_row_cols. by exists row.
Qed.

(** The identifiers of a row that keeps the tiles of the first old row. *)
Lemma row_ids old (row : list tile) next m :
  map tile_id row = map tile_id (default [] (head old)) ++ seq next m ->
  Forall (fun i => i < next) (ids old) -> NoDup (ids old) ->
  Forall (fun i => i < next) (ids (tail old)) /\ NoDup (ids (tail old)) /\ NoDup (map tile_id row)
  /\ Forall (fun i => i < next + m /\ (i ∈ ids old /\ i ∉ ids (tail old) \/ next <= i)) (map tile_id row).
Proof.
  intros -> Hlt Hnd. destruct old as [|r old]; simpl in *.
  - split; [constructor|]. split; [constructor|]. split; [apply NoDup_seq|].
    apply list.Forall_forall. intros i Hi%elem_of_seq. split; [lia|right; lia].
  - rewrite ids_cons in *. apply list.Forall_app in Hlt as [Hlt1 Hlt2]. apply list.NoDup_app in Hnd as (Hn1 & Hd & Hn2).
    rewrite list.Forall_forall in Hlt1. split; [done|]. split; [done|]. split.
    + apply list.NoDup_app. split; [done|]. split; [|apply NoDup_seq].
      intros i Hi Hs%elem_of_seq. specialize (Hlt1 i Hi). simpl in Hlt1. lia.
    + apply list.Forall_app. split; apply list.Forall_forall; intros i Hi.
      * specialize (Hlt1 i Hi). simpl in Hlt1. split; [lia|left]. split; [set_solver|by apply Hd].
      * apply elem_of_seq in Hi. split; [lia|right; lia].
Qed.

(** The identifiers of all rows, with one more in front. *)
Lemma rows_ids old (row : list tile) rows next m next' :
  map tile_id row = map tile_id (default [] (head old)) ++ seq next m ->
  (Forall (fun i => i < next + m) (ids (tail old)) -> NoDup (ids (tail old)) ->
   next + m <= next' /\ NoDup (ids rows)
   /\ Forall (fun i => i < next' /\ (i ∈ ids (tail old) \/ next + m <= i)) (ids rows)) ->
  Forall (fun i => i < next) (ids old) -> NoDup (ids old) ->
  next <= next' /\ NoDup (ids (row :: rows))
  /\ Forall (fun i => i < next' /\ (i ∈ ids old \/ next <= i)) (ids (row :: rows)).
Proof.
  intros Hrow Hrows Hlt Hnd. destruct (row_ids old row next m Hrow Hlt Hnd) as (Hlt' & Hnd' & Hn & Hi).
  destruct Hrows as (Hle & Hnr & Hir); [|done|].
  { eapply list.Forall_impl; [exact Hlt'|]. simpl. lia. }
  assert (forall i, i ∈ ids (tail old) -> i ∈ ids old) as Hsub.
  { intros i. destruct old; [done|]. rewrite ids_cons. set_solver. }
  assert (Forall (fun i => i < next) (ids (tail old))) as Hlt2 by done. rewrite list.Forall_forall in Hi, Hir, Hlt2.
  split; [lia|]. rewrite ids_cons. split.
  - apply list.NoDup_app. split; [done|]. split; [|done]. intros i H1 H2. specialize (Hi i H1). specialize (Hir i H2).
    simpl in Hi, Hir. destruct Hi as [? [[_ ?]|?]], Hir as [? [Ht|?]]; [done|lia| |lia].
    specialize (Hlt2 i Ht). simpl in Hlt2. lia.
  - apply list.Forall_app. split; apply list.Forall_forall; intros i H1.
    + specialize (Hi i H1). simpl in Hi. split; [lia|]. destruct Hi as [_ [[? _]|?]]; auto.
    + specialize (Hir i H1). simpl in Hir. split; [lia|]. destruct Hir as [_ [?|?]]; [auto|right; lia].
Qed.

Lemma tile_made_below lon lat x y i j t :
  tile_made lon (lat - tlat - inject_Z (Z.of_nat i * h) * resolution) x (y + h + Z.of_nat i * h) j t ->
  tile_made lon (lat - inject_Z (Z.of_nat (S i) * h) * resolution) x (y + Z.of_nat (S i) * h) j t.
Proof.
  intros (H1 & H2 & H3 & H4 & H5 & H6). split; [done|]. split; [lia|]. split; [done|]. split; [done|]. split; [|done].
  replace (Z.of_nat (S i) * h)%Z with (h + Z.of_nat i * h)%Z by lia. rewrite inject_Z_plus. lra.
Qed.

Lemma tile_made_first lon lat x y j t :
  tile_made lon lat x y j t ->
  tile_made lon (lat - inject_Z (Z.of_nat 0 * h) * resolution) x (y + Z.of_nat 0 * h) j t.
Proof.
  intros (H1 & H2 & H3 & H4 & H5 & H6). replace (Z.of_nat 0 * h)%Z with 0%Z by lia. change (inject_Z 0) with 0%Q.
  split; [done|]. split; [lia|]. split; [done|]. split; [done|]. split; [lra|done].
Qed.

Lemma fill_rows_spec colFuel minRows minCols K lon x fuel : row_filled K colFuel minCols lon x ->
  forall N old rowidx lat y next,
  (0 < tlat)%Q ->
  (- (bottom b - tlat * inject_Z buffer) < - lat + inject_Z (Z.of_nat N) * tlat)%Q ->
  N + (minRows - rowidx) < fuel -> Forall (fun row => length row <= minCols) old ->
  exists rows next', grid_loop fuel colFuel minRows minCols old rowidx lon lat x y next
    = Some (rows ++ drop (length rows) old, next', rowidx + length rows, K)
  /\ 0 < length rows /\ minRows <= rowidx + length rows /\ rectangular K rows
  /\ (forall i row, rows !! i = Some row -> forall j t, row !! j = Some t ->
      tile_made lon (lat - inject_Z (Z.of_nat i * h) * resolution) x (y + Z.of_nat i * h) j t)
  /\ (Forall (fun i => i < next) (ids old) -> NoDup (ids old) ->
      next <= next' /\ NoDup (ids rows) /\ Forall (fun i => i < next' /\ (i ∈ ids old \/ next <= i)) (ids rows)).
Proof.
  intros Hfill. induction fuel as [|fuel IH]; intros N old rowidx lat y next Hp HN Hf Hl; [lia|]. cbn [fill_rows].
  destruct (Hfill (default [] (head old)) lat y next) as (row & E & Hlen & Hrow & Hids).
  { destruct Hl; simpl; [lia|done]. }
  rewrite E. cbn [mbind option_bind]. set (m := K - length (default [] (head old))) in *.
  destruct (_ || _) eqn:Ec.
  - destruct (IH (N - 1) (tail old) (S rowidx) (lat - tlat)%Q (y + h)%Z (next + m))
      as (rows & next' & -> & Hr & Hm & Hrect & Hrows & Hfresh); [done|..].
    + pose proof (passes_next N _ _ _ Hp HN). lra.
    + apply orb_true_iff in Ec as [Ec|Ec].
      * apply Qle_bool_iff in Ec. assert (N <> 0); [|lia]. intros ->. change (inject_Z (Z.of_nat 0)) with 0%Q in HN. lra.
      * apply Nat.ltb_lt in Ec. lia.
    + destruct Hl; simpl; [constructor|done].
    + exists (row :: rows), next'. split; [simpl; rewrite Nat.add_succ_r; destruct old; simpl; by rewrite ?drop_nil|].
      split; [simpl; lia|]. split; [simpl; lia|]. split; [by constructor|]. split; [|by eapply rows_ids].
      intros [|i] r Hi j t Hj; simpl in Hi; [injection Hi as <-; by apply tile_made_first, Hrow|].
      by apply tile_made_below, (Hrows i r).
  - apply orb_false_iff in Ec as [_ Ec]. apply Nat.ltb_ge in Ec.
    exists [row], (next + m). split; [simpl; rewrite Nat.add_1_r; by destruct old|].
    split; [simpl; lia|]. split; [simpl; lia|]. split; [by constructor|]. split.
    + intros [|i] r Hi j t Hj; simpl in Hi; [injection Hi as <-; by apply tile_made_first, Hrow|done].
    + apply (rows_ids old row [] next m); [done|]. intros _ _. split; [lia|]. split; constructor.
Qed.
End filling.

(** ** Removing excess tiles *)

Lemma pop_rows_spec rows fuel : forall g d,
  length g < fuel -> exists d', pop_rows fuel rows g d = Some (take rows g, d').
Proof.
  induction fuel as [|fuel IH]; intros g d Hf; [lia|]. simpl.
  destruct (Nat.ltb_spec rows (length g)) as [H|H]; [|exists d; by rewrite take_ge].
  destruct (IH (take (length g - 1) g) (d ++ default [] (list.last g))) as (d' & ->); [rewrite length_take; lia|].
  exists d'. by rewrite take_take, Nat.min_l by lia.
Qed.

(** The rows that were filled stay when none of them is too long. *)
Lemma removeExcess_rows K rows rest :
  rows <> [] -> rectangular K rows -> exists d, removeExcessTiles (length rows) K (rows ++ rest) = Some (rows, d).
Proof.
  intros Hne Hr. unfold removeExcessTiles.
  destruct (pop_rows_spec (length rows) (S (length (rows ++ rest))) (rows ++ rest) []) as (d & ->); [lia|].
  rewrite take_app_length. cbn [mbind option_bind]. exists d. destruct rows as [|row rows]; [done|].
  apply list.Forall_cons in Hr as [Hl _]. simpl. by rewrite Hl, Nat.ltb_irrefl.
Qed.

(** ** The viewport is covered *)

Lemma rounds_suffice from to size least :
  (0 < size)%Q ->
  exists N, N + least < rounds_to from to size least /\ (to < from + inject_Z (Z.of_nat N) * size)%Q.
Proof.
  intros Hs. set (q := ((to - from) / size)%Q). exists (Z.to_nat (Qfloor q) + 1). unfold rounds_to. fold q. split; [lia|].
  assert (q * size == to - from)%Q as Hq by (unfold q; field; lra).
  pose proof (Qlt_floor q) as Hf.
  assert (inject_Z (Qfloor q + 1) <= inject_Z (Z.of_nat (Z.to_nat (Qfloor q) + 1)))%Q as Hz by (rewrite <- Zle_Qle; lia).
  assert (q * size < inject_Z (Z.of_nat (Z.to_nat (Qfloor q) + 1)) * size)%Q as Hlt.
  { apply Qmult_lt_compat_r; [done|]. lra. }
  lra.
Qed.

(** The first tile is [buffer] whole tiles, and less than one more, before the
    left of the viewport, and above its top. *)
Lemma layout_lon w h buffer b extent resolution :
  (0 < resolution * inject_Z w)%Q ->
  let l := calculateGridLayout w h buffer b extent resolution in
  (tileoffsetlon l + inject_Z buffer * tilelon l <= left b)%Q
  /\ (left b < tileoffsetlon l + (inject_Z buffer + 1) * tilelon l)%Q.
Proof.
  intros Ht. unfold calculateGridLayout. cbn [tileoffsetlon tilelon tileoffsetlat tilelat]. set (t := (resolution * inject_Z w)%Q) in *. set (q := ((left b - left extent) / t)%Q).
  assert (q * t == left b - left extent)%Q as Hq by (unfold q; field; lra).
  pose proof (Qfloor_le q) as Hle. pose proof (Qlt_floor q) as Hlt. rewrite inject_Z_plus in Hlt.
  apply (fun H => Qmult_le_compat_r _ _ t H (Qlt_le_weak _ _ Ht)) in Hle.
  apply (Qmult_lt_compat_r _ _ t Ht) in Hlt. change (inject_Z 1) with 1%Q in Hlt.
  unfold Z.sub. rewrite inject_Z_plus, inject_Z_opp. split; lra.
Qed.

Lemma layout_lat w h buffer b extent resolution :
  (0 < resolution * inject_Z h)%Q ->
  let l := calculateGridLayout w h buffer b extent resolution in
  (top b <= tileoffsetlat l + tilelat l - inject_Z buffer * tilelat l)%Q
  /\ (tileoffsetlat l - inject_Z buffer * tilelat l < top b)%Q.
Proof.
  intros Ht. unfold calculateGridLayout. cbn [tileoffsetlon tilelon tileoffsetlat tilelat]. set (t := (resolution * inject_Z h)%Q) in *. set (q := ((top b - (bottom extent + t)) / t)%Q).
  assert (q * t == top b - (bottom extent + t))%Q as Hq by (unfold q; field; lra).
  pose proof (Qle_ceiling q) as Hle. pose proof (Qceiling_lt q) as Hlt.
  unfold Z.sub in Hlt. rewrite inject_Z_plus in Hlt. change (inject_Z (- (1))) with (-1)%Q in Hlt.
  apply (fun H => Qmult_le_compat_r _ _ t H (Qlt_le_weak _ _ Ht)) in Hle.
  apply (Qmult_lt_compat_r _ _ t Ht) in Hlt. rewrite inject_Z_plus. split; lra.
Qed.

(** A grid in place, and the bounds of its tiles. *)
Lemma placed_bounds w h resolution o C g :
  g <> [] -> 0 < C -> rectangular C g -> grid_placed w h resolution o g ->
  exists bb, getTilesBounds g = Some bb
  /\ (left bb == olon o)%Q /\ (right bb == olon o + inject_Z (Z.of_nat C * w) * resolution)%Q
  /\ (top bb == olat o + inject_Z h * resolution)%Q
  /\ (bottom bb == olat o + inject_Z h * resolution - inject_Z (Z.of_nat (length g) * h) * resolution)%Q.
Proof.
  intros Hne HC Hr Hg. destruct (head_last_row g Hne) as (a & z & Ha & Hz & La & Lz & _ & _).
  assert (0 < length g) as Hlen by (destruct g; simpl; [done|lia]).
  pose proof (proj1 (Forall_lookup _ _) Hr _ _ La) as Hla. pose proof (proj1 (Forall_lookup _ _) Hr _ _ Lz) as Hlz. simpl in Hla, Hlz.
  destruct (head_last_row a) as (_ & tr & _ & Htr & _ & Ltr & _ & _); [by intros ->; simpl in *; lia|].
  destruct (head_last_row z) as (bl & _ & Hbl & _ & Lbl & _ & _ & _); [by intros ->; simpl in *; lia|].
  unfold getTilesBounds. rewrite Ha, Hz. cbn [mbind option_bind]. rewrite Hbl, Htr. cbn [mbind option_bind].
  eexists. split; [done|]. cbn [left right top bottom].
  destruct (Hg _ _ Lz _ _ Lbl) as (_ & _ & B3 & B4 & B5 & B6). destruct (Hg _ _ La _ _ Ltr) as (_ & _ & T3 & T4 & T5 & T6).
  rewrite Hla in T3.
  assert (Z.of_nat C * w = Z.of_nat (C - 1) * w + w)%Z as -> by (rewrite Nat2Z.inj_sub by lia; lia).
  assert (Z.of_nat (length g) * h = Z.of_nat (length g - 1) * h + h)%Z as -> by (rewrite Nat2Z.inj_sub by lia; lia).
  rewrite !inject_Z_plus.
  change (inject_Z (Z.of_nat 0 * w)) with 0%Q in *. change (inject_Z (Z.of_nat 0 * h)) with 0%Q in *.
  split; [lra|]. split; [lra|]. split; lra.
Qed.

(** As many tiles as the code asks for are enough for the size of the viewport. *)
Lemma least_enough (size view buffer : Z) (resolution : Q) (n : nat) :
  (0 < size)%Z -> (0 <= buffer)%Z -> (0 < resolution)%Q ->
  Z.to_nat (Qceiling (inject_Z view / inject_Z size) + Z.max 1 (2 * buffer)) <= n ->
  (inject_Z view * resolution + (inject_Z buffer + 1) * (resolution * inject_Z size)
   <= inject_Z (Z.of_nat n * size) * resolution)%Q.
Proof.
  intros Hs Hb Hr Hn. set (q := (inject_Z view / inject_Z size)%Q) in *.
  assert (0 < inject_Z size)%Q as Hsq by (change 0%Q with (inject_Z 0); by rewrite <- Zlt_Qlt).
  assert (q * inject_Z size == inject_Z view)%Q as Hq by (unfold q; field; lra).
  pose proof (Qle_ceiling q) as Hc.
  assert (inject_Z (Qceiling q + (buffer + 1)) <= inject_Z (Z.of_nat n))%Q as Hz by (rewrite <- Zle_Qle; lia).
  rewrite !inject_Z_plus in Hz. change (inject_Z 1) with 1%Q in Hz.
  assert (q + inject_Z buffer + 1 <= inject_Z (Z.of_nat n))%Q as Hq' by lra.
  apply (fun H => Qmult_le_compat_r _ _ (inject_Z size * resolution) H) in Hq'.
  - rewrite inject_Z_mult. rewrite <- Hq. lra.
  - apply Qmult_le_0_compat; lra.
Qed.

(** C30 Tiling a layer anew, on a viewport whose size in coordinates is its size in
    pixels at the resolution, and with old rows no longer than the least number
    of columns: the nested loops end; the tiles, old and new, are all different,
    lie side by side in equal rows, and their bounds contain the viewport; and
    drawing them in a spiral draws each of them once. *)
Theorem viewport_covered w h buffer viewW viewH divLeft divTop b extent resolution g next :
  (0 < w)%Z -> (0 < h)%Z -> (0 <= buffer)%Z -> (0 < resolution)%Q ->
  (right b - left b == inject_Z viewW * resolution)%Q -> (top b - bottom b == inject_Z viewH * resolution)%Q ->
  Forall (fun row => length row <= Z.to_nat (Qceiling (inject_Z viewW / inject_Z w) + Z.max 1 (2 * buffer))) g ->
  NoDup (ids g) -> Forall (fun i => i < next) (ids g) ->
  exists g' destroyed next' C o bb,
    initGriddedTiles w h buffer viewW viewH divLeft divTop b extent resolution g next = Some (g', destroyed, next')
    /\ rectangular C g' /\ grid_placed w h resolution o g'
    /\ NoDup (ids g') /\ Forall (fun i => i < next') (ids g')
    /\ getTilesBounds g' = Some bb
    /\ (left bb <= left b)%Q /\ (right b <= right bb)%Q /\ (bottom bb <= bottom b)%Q /\ (top b <= top bb)%Q
    /\ exists q, spiralTileLoad g' = Some q /\ q ≡ₚ ids g'.
Proof.
  intros Hw Hh Hb Hr Hvw Hvh Hold Hnd Hlt. unfold initGriddedTiles.
  set (minRows := Z.to_nat (Qceiling (inject_Z viewH / inject_Z h) + Z.max 1 (2 * buffer))).
  set (minCols := Z.to_nat (Qceiling (inject_Z viewW / inject_Z w) + Z.max 1 (2 * buffer))) in *.
  assert (0 < resolution * inject_Z w)%Q as Htw by (apply Qmult_lt_0_compat; [done|change 0%Q with (inject_Z 0); by rewrite <- Zlt_Qlt]).
  assert (0 < resolution * inject_Z h)%Q as Hth by (apply Qmult_lt_0_compat; [done|change 0%Q with (inject_Z 0); by rewrite <- Zlt_Qlt]).
  destruct (layout_lon w h buffer b extent resolution Htw) as [Hlon1 Hlon2].
  destruct (layout_lat w h buffer b extent resolution Hth) as [Hlat1 Hlat2].
  set (l := calculateGridLayout w h buffer b extent resolution) in *. cbv zeta in *.
  change (tilelon l) with (resolution * inject_Z w)%Q in *. change (tilelat l) with (resolution * inject_Z h)%Q in *.
  destruct (rounds_suffice (tileoffsetlon l) (right b + resolution * inject_Z w * inject_Z buffer) _ minCols Htw) as (N & HNf & HN).
  destruct (rows_filled w h buffer b resolution divLeft divTop _ minCols N (tileoffsetlon l) (round (tileoffsetx l)) Htw HN HNf)
    as (K & HK & HmK & Hfill).
  destruct (rounds_suffice (bottom b - resolution * inject_Z h * inject_Z buffer) (tileoffsetlat l) _ minRows Hth) as (M & HMf & HM).
  destruct (fill_rows_spec w h buffer b resolution divLeft divTop _ minRows minCols K _ _
              (rounds_to (bottom b - resolution * inject_Z h * inject_Z buffer) (tileoffsetlat l) (resolution * inject_Z h) minRows)
              Hfill M g 0 (tileoffsetlat l) (round (tileoffsety l)) next Hth)
    as (rows & next' & -> & Hr0 & Hmr & Hrect & Hmade & Hids); [lra|lia|done|].
  destruct (Hids Hlt Hnd) as (_ & Hnd' & Hlt'). cbn [mbind option_bind]. rewrite Nat.add_0_l.
  assert (rows <> []) as Hne by (intros ->; simpl in Hr0; lia).
  destruct (removeExcess_rows K rows (drop (length rows) g) Hne Hrect) as (d & ->). cbn [mbind option_bind].
  set (o := Origin (round (tileoffsetx l) - divLeft) (round (tileoffsety l) - divTop) (tileoffsetlon l) (tileoffsetlat l)).
  assert (grid_placed w h resolution o rows) as Hplaced.
  { intros i row Hi j t Hj. destruct (Hmade i row Hi j t Hj) as (H1 & H2 & H3). unfold tile_placed, o. cbn [ox oy olon olat].
    split; [lia|]. split; [lia|done]. }
  destruct (placed_bounds w h resolution o K rows Hne HK Hrect Hplaced) as (bb & Ebb & B1 & B2 & B3 & B4).
  pose proof (least_enough w viewW buffer resolution K Hw Hb Hr HmK) as Hcols.
  pose proof (least_enough h viewH buffer resolution (length rows) Hh Hb Hr Hmr) as Hrows.
  assert (0 <= inject_Z buffer * (resolution * inject_Z w))%Q as Hbw.
  { apply Qmult_le_0_compat; [change 0%Q with (inject_Z 0); by rewrite <- Zle_Qle|lra]. }
  assert (0 <= inject_Z buffer * (resolution * inject_Z h))%Q as Hbh.
  { apply Qmult_le_0_compat; [change 0%Q with (inject_Z 0); by rewrite <- Zle_Qle|lra]. }
  exists rows, d, next', K, o, bb. cbn [ox oy olon olat o] in B1, B2, B3, B4.
  split; [done|]. split; [done|]. split; [done|]. split; [done|].
  split; [eapply list.Forall_impl; [exact Hlt'|]; simpl; tauto|]. split; [done|].
  split; [lra|]. split; [lra|]. split; [lra|]. split; [lra|]. by eapply spiral_all.
Qed.

Definition sample_extent : bounds := Bounds 0 0 100000 100000.
Definition view (l bt width height : Z) : bounds :=
  Bounds (inject_Z l) (inject_Z bt) (inject_Z (l + width)) (inject_Z (bt + height)).

(** A viewport of 800 by 600 pixels, on an empty layer. *)
Lemma viewport_covered_witness :
  exists g' destroyed next' C o bb,
    initGriddedTiles 256 256 2 800 600 0 0 (view 240 168 800 600) sample_extent 1 [] 0 = Some (g', destroyed, next')
    /\ rectangular C g' /\ grid_placed 256 256 1 o g' /\ getTilesBounds g' = Some bb
    /\ (left bb <= 240)%Q /\ (1040 <= right bb)%Q.
Proof.
  destruct (viewport_covered 256 256 2 800 600 0 0 (view 240 168 800 600) sample_extent 1 [] 0)
    as (g' & d & n & C & o & bb & E & Hr & Hg & _ & _ & Hbb & Hl & Hrt & _).
  - lia.
  - lia.
  - lia.
  - reflexivity.
  - reflexivity.
  - reflexivity.
  - constructor.
  - constructor.
  - constructor.
  - exists g', d, n, C, o, bb. split; [exact E|]. split; [exact Hr|]. split; [exact Hg|]. split; [exact Hbb|].
    split; [exact Hl|exact Hrt].
Defined.

(** A higher viewport that needs a column less: the excess tile of the first row
    makes every row lose one, also the new row, which had none to lose. *)
Example lost_tile :
  (initGriddedTiles 256 256 2 800 600 0 0 (view 240 168 800 600) sample_extent 1 [] 0 ≫= fun '(g, _, n) =>
   initGriddedTiles 256 256 2 800 800 0 0 (view 0 168 800 800) sample_extent 1 g n ≫= fun '(g', _, _) =>
   Some (map length g, map length g'))
  = Some ([9; 9; 9; 9; 9; 9; 9], [8; 8; 8; 8; 8; 8; 8; 7]).
Proof. vm_compute. reflexivity. Qed.
