(* ===== verification/AdminForms.v ===== *)
(** * The forms, lists and tables of the administration pages (new/admin_new/src)

    The controlled forms for nodes, interfaces, workgroups and users, the two
    forms that choose an interface of a node, the dialog that approves a node's
    pending changes, the completing input, the paged table, and the pages that
    delete or review an entry.  A form keeps the values of its inputs by name;
    what the service delivered stays as it is until it is edited. *)

From Stdlib Require Import ZArith Lia Ascii String.
From stdpp Require Import base option list sets strings numbers tactics.
From S2P Require Import Prelude JsValue JsJson Fetch Api Provision EndpointModal Checks AdminApi AdminPages Home.

(** ** Forms *)

(** The values of a form's state, by name. *)
Notation form := (list (string * val)).

Definition form_value (f : form) (k : string) : val := default VUndef (obj_get k f).

(** [setX(text)] of a state that exists. *)
Fixpoint form_set (k : string) (v : val) (f : form) : form :=
  match f with
  | [] => []
  | (k', v') :: f' => if String.eqb k k' then (k, v) :: f' else (k', v') :: form_set k v f'
  end.

(** An initial state: its name, the property it is read from and the default of
    [useState(x.k || dflt)]. *)
Record state_init := StateInit { si_name : string; si_key : string; si_default : val }.

(** An input: typed text, or one of the options of a select or radio button. *)
Inductive form_input :=
  | Typed (name : string)
  | Choice (name : string) (options : list string).


(** The events of a form whose inputs depend on its state. *)
Definition offers (inputs : form -> list form_input) (f : form) (k text : string) : bool :=
  existsb (fun i => match i with
                    | Typed n => String.eqb k n
                    | Choice n options => String.eqb k n && existsb (String.eqb text) options
                    end) (inputs f).

Definition form_event (inputs : form -> list form_input) (f : form) (e : string * string) : form :=
  let '(k, text) := e in if offers inputs f k text then form_set k (VStr text) f else f.

(** The object that is submitted: some of the states, by their names. *)
Definition form_submit (names : list string) (f : form) : val := VObj (map (fun n => (n, form_value f n)) names).


(** [(x && x.k) ? x.k : dflt] *)
Definition form_open_if (inits : list state_init) (x : val) : res form :=
  res_map (fun i => if truthy x then let? v := prop x (si_key i) in Ok (si_name i, js_or v (si_default i))
                    else Ok (si_name i, si_default i)) inits.

(** ** Nodes (NodeForm.jsx) *)





(** ** Workgroups (WorkgroupForm.jsx) *)

Definition workgroup_states : list state_init :=
  [StateInit "name" "name" (VStr estr); StateInit "description" "description" (VStr estr);
   StateInit "externalId" "external_id" (VStr estr); StateInit "type" "type" (VStr "normal");
   StateInit "workgroupId" "workgroup_id" (VInt 0)].
Definition workgroup_inputs (f : form) : list form_input :=
  [Typed "name"; Typed "description"; Typed "externalId"; Choice "type" ["normal"; "admin"]].
Definition open_workgroup_form : val -> res form := form_open_if workgroup_states.
Definition workgroup_event : form -> string * string -> form := form_event workgroup_inputs.
Definition submit_workgroup : form -> val :=
  form_submit ["name"; "description"; "externalId"; "type"; "workgroupId"].

(** ** Users (UserForm.jsx) *)

Definition user_states : list state_init :=
  [StateInit "email" "email" (VStr estr); StateInit "firstName" "first_name" (VStr estr);
   StateInit "lastName" "last_name" (VStr estr); StateInit "userId" "user_id" (VInt 0)].
Definition user_inputs (f : form) : list form_input :=
  [Typed "firstName"; Typed "lastName"; Typed "email"; Typed "usernames"].

(** [usernames.join(', ')] of an array. *)
Definition joined (names : val) : res string :=
  match names with VArr l => Ok (str_join ", " (map to_string l)) | _ => Err EType end.

Definition open_user_form (user : val) : res form :=
  let? f := form_open_if user_states user in
  let? names := (if truthy user then prop user "usernames" else Ok VUndef) in
  let? text := (if truthy names then joined names else Ok estr) in
  Ok (f ++ [("usernames", VStr text)]).

Definition user_event : form -> string * string -> form := form_event user_inputs.

(** [replaceAll(/^[, ]*|[, ]*$/g, '')] *)
Definition comma_or_space (c : ascii) : bool := Ascii.eqb c "," || Ascii.eqb c " ".

Fixpoint drop_trailing (p : ascii -> bool) (s : string) : string :=
  match s with
  | EmptyString => estr
  | String c s' =>
      match drop_trailing p s' with
      | EmptyString => if p c then estr else String c estr
      | r => String c r
      end
  end.

Definition clean_up (s : string) : string := drop_trailing comma_or_space (snd (span comma_or_space s)).

(** The names of the text. *)
Definition usernames_array (text : string) : list string := map js_trim (split_on "," (clean_up text)).

Definition submit_user (f : form) : val :=
  VObj [("userId", form_value f "userId"); ("email", form_value f "email");
        ("firstName", form_value f "firstName"); ("lastName", form_value f "lastName");
        ("usernames", VArr (map VStr (usernames_array (to_string (form_value f "usernames")))))].

(** ** Interfaces (InterfaceForm.jsx) *)

(** [s.replaceAll(/^\s*|\s*$/g, '')] is [trim]; the test of one range. *)
Definition range_form (s : string) : bool :=
  match span is_digit s with
  | (String _ _, String c r) =>
      Ascii.eqb c "-" && negb (String.eqb r estr) && str_forall is_digit r
  | _ => false
  end.

Definition part (l : list string) (i : nat) : val := match l !! i with Some s => VStr s | None => VUndef end.

(** [parseInt] of a part; of [undefined] it is NaN. *)
Definition part_int (v : val) : num := match v with VStr s => parse_int_str s | _ => NaN end.

Definition range_bounds_bad (s : string) : bool :=
  let parts := split_on "-" s in
  js_lt (part parts 0) (VInt 1) || js_gt (part parts 0) (VInt 4095)
  || js_lt (part parts 1) (VInt 1) || js_gt (part parts 1) (VInt 4095)
  || num_ltb (part_int (part parts 1)) (part_int (part parts 0)).

Definition range_items (text : string) : list string :=
  filter (fun s => s <> estr) (map js_trim (split_on "," (clean_up text))).

(** The custom validity of the input: the empty text when it is valid. *)
Definition validateVlanRange (text : string) : string :=
  if existsb (fun s => negb (range_form s) || range_bounds_bad s) (range_items text)
  then "Input must be a comma separated list of VLAN ranges. Ex 1-4095" else estr.

Definition interface_states : list state_init :=
  [StateInit "name" "name" (VStr estr); StateInit "description" "description" (VStr estr);
   StateInit "mplsVlanTagRange" "mpls_vlan_tag_range" (VStr "1-4095");
   StateInit "cloudInterconnectType" "cloud_interconnect_type" (VStr estr);
   StateInit "cloudInterconnectId" "cloud_interconnect_id" (VStr estr);
   StateInit "interfaceId" "interface_id" (VInt (-1))].

(** [parseInt] of a workgroup, which the service sends as a text or a number. *)
Definition to_int (v : val) : num := parse_int_str (to_string v).

Definition open_interface_form (intf : val) : res form :=
  let? f := form_open_if interface_states intf in
  let? w := (if truthy intf then prop intf "workgroup_id" else Ok VUndef) in
  Ok (f ++ [("workgroupId", if truthy w then VNum (to_int w) else VInt (-1))]).

(** A trunk interface keeps its ranges and its interconnect. *)
Definition trunk (intf : val) : res bool :=
  if truthy intf then let? r := prop intf "role" in Ok (loose_eq r (VStr "trunk")) else Ok false.

Definition interface_inputs (is_trunk : bool) (f : form) : list form_input :=
  (if is_trunk then []
   else [Typed "mplsVlanTagRange";
         Choice "cloudInterconnectType"
           [estr; "azure-express-route"; "aws-hosted-connection"; "gcp-partner-interconnect"; "oracle-fast-connect"]])
  ++ (if strict_eq (form_value f "cloudInterconnectType") (VStr estr) then [] else [Typed "cloudInterconnectId"]).

Definition interface_event (is_trunk : bool) : form -> string * string -> form := form_event (interface_inputs is_trunk).

(** The connector is chosen among the workgroups. *)
Definition connector_chosen (workgroup : val) (f : form) : form := form_set "workgroupId" workgroup f.

Definition submit_interface : form -> val :=
  form_submit ["name"; "description"; "mplsVlanTagRange"; "workgroupId"; "cloudInterconnectType";
               "cloudInterconnectId"; "interfaceId"].

(** ** Adding a user to a workgroup (AddWorkgroupUserForm.jsx) *)

(** The suggestions of the users; each must have a name. *)
Definition user_suggestion (user : val) : res (val * num) :=
  let? ns := prop user "usernames" in let? n := index ns 0 in
  let? i := prop user "user_id" in Ok (n, to_int i).

(** What is submitted: the name is that of the first user with the chosen id. *)
Definition submit_member (users : list val) (role workgroupId userId : val) : res val :=
  let? found := res_filter (fun u => let? i := prop u "user_id" in Ok (loose_eq i userId)) users in
  match found with
  | [] => Err EType
  | u :: _ =>
      let? ns := prop u "usernames" in let? n := index ns 0 in
      Ok (VObj [("role", role); ("userId", userId); ("workgroupId", workgroupId); ("username", n)])
  end.

(** ** Choosing an interface of a node (MigrateInterfaceForm.jsx,
       AddWorkgroupInterfaceForm.jsx) *)

Record intf_choice := IntfChoice { ch_node : val; ch_interfaces : list val; ch_interface : val }.

Definition no_choice : intf_choice := IntfChoice (VInt (-1)) [] (VInt (-1)).

(** What happens: a node is chosen, the interfaces of a node that was asked for
    arrive, the request fails, an interface is chosen.  The handler of a failed
    request is not reached: only the call itself is guarded. *)
Inductive choice_event :=
  | NodeChosen (node : val)
  | InterfacesLoaded (interfaces : list val)
  | InterfacesFailed
  | InterfaceChosen (interface_ : val).

Definition choice_step (c : intf_choice) (e : choice_event) : intf_choice :=
  match e with
  | NodeChosen n => IntfChoice n (ch_interfaces c) (ch_interface c)
  | InterfacesLoaded l => IntfChoice (ch_node c) l (VInt (-1))
  | InterfacesFailed => c
  | InterfaceChosen i => IntfChoice (ch_node c) (ch_interfaces c) i
  end.

Definition submit_migration (source : val) (c : intf_choice) : val :=
  VObj [("srcInterfaceId", VNum (to_int source)); ("dstInterfaceId", ch_interface c)].
Definition submit_added (c : intf_choice) : val := VObj [("interfaceId", ch_interface c)].

(** ** Approving the pending changes of a node (DiffApprovalForm.jsx, Nodes.jsx) *)

Record diff_form := DiffForm { df_node : val; df_text : val; df_error : option exn; df_loading : bool }.

(** The effect that runs when the node of the form changes. *)
Definition diff_opened (node : val) (d : diff_form) : diff_form :=
  if strict_eq node (df_node d) then d else DiffForm node (df_text d) None true.

(** The reply to a request, whichever node it was sent for. *)
Definition diff_reply (r : res val) (d : diff_form) : diff_form :=
  match r with
  | Ok text => DiffForm (df_node d) text (df_error d) false
  | Err e => DiffForm (df_node d) (df_text d) (Some e) false
  end.

(** Whether the button that approves is disabled, and what is shown. *)
Inductive diff_content :=
  | Spinner
  | ErrorShown (e : exn)
  | NothingPending
  | DiffShown (text : val).

Definition diff_view (d : diff_form) : diff_content * bool :=
  if df_loading d then (Spinner, true)
  else match df_error d with
       | Some e => (ErrorShown e, true)
       | None => if strict_eq (df_text d) (VStr estr) then (NothingPending, true) else (DiffShown (df_text d), false)
       end.

(** ** The completing input (AutoComplete.jsx) *)

Record suggestion := Suggestion { sg_name : val; sg_value : val }.

(** The text of the input for a value. *)
Fixpoint input_text_of (value : val) (l : list suggestion) : val :=
  match l with
  | [] => VStr estr
  | s :: l' => if loose_eq (sg_value s) value then sg_name s else input_text_of value l'
  end.

Section searching.
Context `{SearchExpr}.

(** The suggestions offered for a text; a text that is no expression throws, if
    there is anything to test. *)
Definition suggestions_for (text : string) (l : list suggestion) : res (list suggestion) :=
  match l, search_expr text with
  | [], _ => Ok []
  | _, None => Err ESyntax
  | _, Some test => Ok (filter (fun s => test (to_string (sg_name s)) || test (to_string (sg_value s)) = true) l)
  end.

(** ** The paged table (CustomTable.jsx) *)

(** The rows the search keeps; without a search text or columns, all of them. *)
Definition matching_rows (filter_text : string) (columns : option (list string)) (rows : list val) : res (list val) :=
  match columns with
  | Some cs =>
      if String.eqb filter_text estr then Ok rows
      else
        res_filter (fun d =>
          match cs, search_expr filter_text with
          | [], _ => Ok false
          | _, None => Err ESyntax
          | _, Some test => row_matches test cs d
          end) rows
  | None => Ok rows
  end.

End searching.

(** The rows of a page: those from [size * page] up to the next page. *)
Fixpoint page_rows_from {A} (i start end_ : nat) (rows : list A) : list A :=
  match rows with
  | [] => []
  | d :: rows' =>
      if Nat.leb start i && Nat.ltb i end_ then d :: page_rows_from (S i) start end_ rows'
      else page_rows_from (S i) start end_ rows'
  end.

Definition page_rows {A} (size : option nat) (page : nat) (rows : list A) : list A :=
  match size with
  | None => rows
  | Some n => page_rows_from 0 (n * page) (n * page + n) rows
  end.

(** The numbers of the pages that can be selected: [Math.ceil(items / size)]. *)
Definition page_count (items size : nat) : nat := items / size + (if Nat.eqb (items mod size) 0 then 0 else 1).

(** The state of a table, and what changes it. *)
Record table_state := TableState { tb_page : nat; tb_filter : string }.

Definition page_selected (i : nat) (t : table_state) : table_state := TableState i (tb_filter t).
Definition filter_typed (text : string) (t : table_state) : table_state := TableState 0 text.

(** ** Pages that delete or review entries *)

(** A list page: its rows and the status line. *)
Record list_page := ListPage { lp_rows : list val; lp_status : status }.

Section pages.
Variable base : string.

(** [this.setState({rows: rows.filter(r => r.k == id ? false : true)})] *)
Definition drop_row (key : string) (id : val) (rows : list val) : res (list val) :=
  res_filter (fun r => let? i := prop r key in Ok (negb (loose_eq i id))) rows.

(** Confirm, send, show the outcome and drop the row. *)
Definition confirm_delete (question message key : string) (id : val) (m : io val) (p : list_page) : io list_page :=
  Confirm question (fun ok =>
    if ok then
      io_try
        (await _ := m in
         pure rows := drop_row key id (lp_rows p) in
         Ret (ListPage rows (Success message)))
        (fun e => Ret (ListPage (lp_rows p) (Failure e)))
    else Ret p).

(** [user.usernames[0]] *)
Definition first_username (user : val) : res val := let? ns := prop user "usernames" in index ns 0.

Definition users_delete (user : val) (p : list_page) : io list_page :=
  pure n := first_username user in
  pure id := prop user "user_id" in
  confirm_delete ("Delete user '" +:+ show n +:+ "'?") ("User '" +:+ show n +:+ "' was successfully deleted.")
    "user_id" id (Admin.deleteUser base id) p.

Definition workgroups_delete (wg : val) (p : list_page) : io list_page :=
  pure n := prop wg "name" in
  pure id := prop wg "workgroup_id" in
  confirm_delete ("Delete workgroup '" +:+ show n +:+ "'?") ("Workgroup '" +:+ show n +:+ "' was successfully deleted.")
    "workgroup_id" id (Admin.deleteWorkgroup base id) p.

Definition nodes_delete (node : val) (p : list_page) : io list_page :=
  pure n := prop node "name" in
  pure id := prop node "node_id" in
  confirm_delete ("Delete node '" +:+ show n +:+ "'?") ("Node '" +:+ show n +:+ "' was successfully deleted.")
    "node_id" id (Admin.deleteNode base id) p.

Definition members_remove (workgroup user : val) (p : list_page) : io list_page :=
  pure n := first_username user in
  pure id := prop user "user_id" in
  confirm_delete ("Remove '" +:+ show n +:+ "' from workgroup?") (show n +:+ " successfully removed from workgroup.")
    "user_id" id (Admin.removeWorkgroupUser base workgroup id) p.

(** [modifyWorkgroupUserHandler]: the status of the page. *)
Definition members_modify (workgroup user role : val) (p : list_page) : io list_page :=
  io_try
    (pure id := prop user "user_id" in
     await _ := Admin.modifyWorkgroupUser base workgroup id role in
     pure n := first_username user in
     Ret (ListPage (lp_rows p) (Success (show n +:+ "'s role was successfully set to '" +:+ show role +:+ "'."))))
    (fun e => Ret (ListPage (lp_rows p) (Failure e))).

(** [onApprovalHandler] of Cloud.jsx: the endpoints are read again whatever the
    outcome, and stay as they are when that fails. *)
Definition cloud_review (approve circuitEpId vrfEpId : val) (p : list_page) : io list_page :=
  Confirm (if truthy approve then "Are you sure you want to 'approve' this endpoint?"
           else "Are you sure you want to 'deny' this endpoint?") (fun ok =>
    if ok then
      await st := io_try (await _ := Admin.reviewEndpoint base approve circuitEpId vrfEpId in
                          Ret (Success ("Endpoint was successfully "
                                        +:+ (if truthy approve then "approved" else "denied") +:+ ".")))
                    (fun e => Ret (Failure e)) in
      io_try (await l := Admin.getEndpointsInReview base in
              pure rows := elements_of l in Ret (ListPage rows st))
        (fun _ => Ret (ListPage (lp_rows p) st))
    else Ret p).

(** The interfaces of a workgroup: what is sent to add and to remove one. *)
Definition added_interface (interfaceId workgroup : val) : val :=
  VObj [("interfaceId", interfaceId); ("workgroupId", workgroup)].
Definition removed_interface (data : val) : res val :=
  let? i := prop data "interface_id" in Ok (VObj [("interfaceId", i); ("workgroupId", VInt (-1))]).

(** The pages around the forms: the page is left whatever the reply is, or only
    after a success.  The message is built after the reply. *)
Definition submit_and_leave (m : io val) (message : res string) (leave : string) : io status :=
  await st := io_try (await _ := m in pure t := message in Ret (Success t)) (fun e => Ret (Failure e)) in
  Act (AGoto leave) (Ret st).
Definition submit_leave_if_ok (m : io val) (message : res string) (leave : string) : io status :=
  io_try (await _ := m in pure t := message in Act (AGoto leave) (Ret (Success t))) (fun e => Ret (Failure e)).

Definition done_message (what : string) (name : res val) (done : string) : res string :=
  let? n := name in Ok (what +:+ " '" +:+ show n +:+ "' was successfully " +:+ done +:+ ".").

Definition edit_node_page (node : val) : io status :=
  submit_and_leave (Admin.editNode base node) (done_message "Node" (prop node "name") "edited") "back".
Definition edit_workgroup_page (wg : val) : io status :=
  submit_leave_if_ok (Admin.editWorkgroup base wg) (done_message "Workgroup" (prop wg "name") "edited") "/workgroups".
Definition edit_interface_page (intf : val) : io status :=
  submit_leave_if_ok (Admin.editInterface base intf) (done_message "Interface" (prop intf "name") "edited") "back".
Definition edit_user_page (user : val) : io status :=
  submit_and_leave (Admin.editUser base user) (done_message "User" (first_username user) "edited") "/users".
Definition create_user_page (user : val) : io status :=
  submit_and_leave (Admin.createUser base user) (done_message "User" (first_username user) "created") "/users".

End pages.

(** ** Forms keep their types *)































(** ** The names of a user *)

Lemma span_length p s : String.length (snd (span p s)) <= String.length s.
Proof.
  induction s as [|c s IH]; [done|]. simpl. destruct (p c); [|done]. destruct (span p s) as [a b]. simpl in *. lia.
Qed.

Lemma rtrim_length s : String.length (rtrim s) <= String.length s.
Proof.
  induction s as [|c s IH]; [done|]. simpl. destruct (rtrim s) as [|d r]; simpl in *; [destruct (is_space c); simpl|]; lia.
Qed.

(** A text that [trim] leaves alone has no space at either end. *)
Lemma trimmed_ends s : js_trim s = s -> ltrim s = s /\ rtrim s = s.
Proof.
  intros Hs. assert (ltrim s = s) as Hl.
  { destruct s as [|c s]; [done|]. unfold ltrim. simpl. destruct (is_space c) eqn:E; [|done].
    apply (f_equal String.length) in Hs. unfold js_trim, ltrim in Hs. simpl in Hs. rewrite E in Hs.
    destruct (span is_space s) as [a r] eqn:Er. simpl in Hs. pose proof (span_length is_space s) as H1. rewrite Er in H1.
    pose proof (rtrim_length r) as H2. simpl in *. lia. }
  split; [done|]. unfold js_trim in Hs. by rewrite Hl in Hs.
Qed.

Definition no_comma (s : string) : bool := str_forall (fun c => negb (Ascii.eqb c ",")) s.

Lemma rtrimmed_clean s : rtrim s = s -> no_comma s = true -> drop_trailing comma_or_space s = s.
Proof.
  unfold no_comma. induction s as [|c s IH]; [done|]. simpl. intros Hr Hc. apply andb_true_iff in Hc as [Hc Hs].
  destruct (rtrim s) as [|d r] eqn:E.
  - destruct (is_space c) eqn:Es; [done|]. injection Hr as <-. simpl. unfold comma_or_space.
    rewrite negb_true_iff in Hc. rewrite Hc. simpl.
    destruct (Ascii.eqb_spec c " ") as [->|]; done.
  - injection Hr as <-. by rewrite IH.
Qed.

Lemma drop_trailing_app p a n : n <> estr -> drop_trailing p n = n -> drop_trailing p (a +:+ n) = a +:+ n.
Proof.
  intros Hn Hd. induction a as [|c a IH]; [done|]. cbn [String.append drop_trailing]. rewrite IH.
  destruct (a +:+ n) eqn:E; [|done]. destruct a; simpl in E; [by destruct n|done].
Qed.

Lemma str_join_last sep l n : exists a, str_join sep (l ++ [n]) = a +:+ n.
Proof.
  induction l as [|x l [a IH]]; [by exists estr|]. rewrite <- app_comm_cons.
  destruct (l ++ [n]) as [|y l'] eqn:E; [by destruct l|].
  exists (x +:+ sep +:+ a). rewrite str_join_cons, IH. by rewrite !str_app_assoc.
Qed.

Lemma str_join_first sep n l : exists r, str_join sep (n :: l) = n +:+ r.
Proof. destruct l as [|m l]; [exists estr; by rewrite str_app_nil_r|]. rewrite str_join_cons. by eexists. Qed.

(** A name of a user: not empty, no commas, no spaces around it. *)
Definition name_ok (n : string) : Prop := n <> estr /\ no_comma n = true /\ js_trim n = n.

Lemma name_start n r : name_ok n -> snd (span comma_or_space (n +:+ r)) = n +:+ r.
Proof.
  intros (Hn & Hc & Ht). destruct (trimmed_ends n Ht) as [Hl _]. destruct n as [|c n]; [done|].
  unfold no_comma in Hc. simpl in *. apply andb_true_iff in Hc as [Hc _]. rewrite negb_true_iff in Hc.
  unfold comma_or_space. rewrite Hc. simpl. destruct (Ascii.eqb_spec c " ") as [->|]; [|done]. exfalso.
  unfold ltrim in Hl. cbn in Hl. pose proof (span_length is_space n) as Hq.
  destruct (span is_space n) as [b q]. apply (f_equal String.length) in Hl. simpl in *. lia.
Qed.

Lemma clean_join ns : ns <> [] -> Forall name_ok ns -> clean_up (str_join ", " ns) = str_join ", " ns.
Proof.
  intros Hne Hns. unfold clean_up.
  assert (snd (span comma_or_space (str_join ", " ns)) = str_join ", " ns) as ->.
  { destruct Hns as [|n l Hn _]; [done|]. destruct (str_join_first ", " n l) as [r ->]. by apply name_start. }
  destruct (exists_last Hne) as (l & n & ->). apply list.Forall_app in Hns as [_ Hn].
  apply list.Forall_singleton in Hn as (Hn0 & Hnc & Hnt). destruct (str_join_last ", " l n) as [a ->].
  apply drop_trailing_app; [done|]. apply rtrimmed_clean; [by apply trimmed_ends|done].
Qed.

Lemma str_join_spaced n l : str_join ", " (n :: l) = str_join "," (n :: map (String " ") l).
Proof.
  revert n. induction l as [|m l IH]; intros n; [done|]. change (map (String " ") (m :: l)) with (String " " m :: map (String " ") l).
  rewrite str_join_cons. rewrite (str_join_cons ","). rewrite IH.
  destruct l as [|k l]; [done|]. simpl map. rewrite !str_join_cons. done.
Qed.

Lemma names_split ns : ns <> [] -> Forall name_ok ns -> usernames_array (str_join ", " ns) = ns.
Proof.
  intros Hne Hns. unfold usernames_array. rewrite clean_join by done.
  destruct ns as [|n l]; [done|]. rewrite str_join_spaced, split_on_of_join; [|done|].
  - apply list.Forall_cons in Hns as [(_ & _ & Hn) Hl]. simpl. f_equal; [done|]. clear -Hl.
    induction Hl as [|m l (_ & _ & Hm) _ IH]; [done|]. simpl. rewrite IH. f_equal.
    unfold js_trim, ltrim in *. simpl. by destruct (span is_space m).
  - apply list.Forall_cons in Hns as [(_ & Hc & _) Hl]. constructor; [done|]. clear -Hl.
    induction Hl as [|m l (_ & Hm & _) _ IH]; [constructor|]. simpl. constructor; [exact Hm|done].
Qed.

(** The names of a user survive the form: joined for the input and taken apart
    when the form is submitted, they are the same names, for any list of at
    least one name without commas and without spaces around it. *)
Theorem usernames_roundtrip ns :
  ns <> [] -> Forall name_ok ns -> usernames_array (str_join ", " ns) = ns.
Proof. apply names_split. Qed.

Lemma usernames_roundtrip_witness : usernames_array (str_join ", " ["aragusa"; "j doe"]) = ["aragusa"; "j doe"].
Proof.
  apply (usernames_roundtrip ["aragusa"; "j doe"]); [discriminate|].
  repeat constructor; try discriminate.
Defined.

(** A user without names is saved with one empty name. *)
Example no_usernames : usernames_array (str_join ", " []) = [estr].
Proof. reflexivity. Qed.

(** ** The VLAN ranges of an interface *)

Definition range_text (r : N * N) : string := string_of_N (fst r) +:+ "-" +:+ string_of_N (snd r).

Lemma digits_not (p : ascii -> bool) n :
  (forall c, is_digit c = true -> p c = true) -> str_forall p (string_of_N n) = true.
Proof. intros Hp. eapply str_forall_weaken; [exact Hp|apply string_of_N_digits]. Qed.

Lemma range_chars p r : (forall c, is_digit c = true -> p c = true) -> p "-"%char = true -> str_forall p (range_text r) = true.
Proof. intros Hp Hm. unfold range_text. rewrite !str_forall_app. simpl. by rewrite !digits_not, Hm. Qed.

Lemma digit_not c d : is_digit d = false -> is_digit c = true -> negb (Ascii.eqb c d) = true.
Proof. intros Hd Hc. destruct (Ascii.eqb_spec c d) as [->|]; [congruence|done]. Qed.

Lemma digit_not_space c : is_digit c = true -> negb (is_space c) = true.
Proof.
  unfold is_digit, is_space. intros H. apply andb_true_iff in H as [H1 H2]. apply Nat.leb_le in H1, H2.
  apply negb_true_iff, orb_false_iff. split; [apply Nat.eqb_neq; simpl in *; lia|].
  apply andb_false_iff. right. apply Nat.leb_gt. simpl in *. lia.
Qed.

Lemma range_name_ok r : name_ok (range_text r).
Proof.
  split; [|split].
  - unfold range_text. destruct (string_of_N_cons (fst r)) as (c & s & -> & _). done.
  - apply range_chars; [|done]. intros c. by apply digit_not.
  - apply is_digit_no_trim, range_chars; [apply digit_not_space|done].
Qed.

Lemma range_items_text l : l <> [] -> range_items (str_join ", " (map range_text l)) = map range_text l.
Proof.
  intros Hne. unfold range_items. change (map js_trim (split_on "," (clean_up ?t))) with (usernames_array t).
  rewrite names_split.
  - clear Hne. induction l as [|x k IH]; [done|]. simpl. rewrite filter_cons_True by apply range_name_ok. by rewrite IH.
  - by destruct l.
  - apply Forall_fmap, list.Forall_forall. intros r _. apply range_name_ok.
Qed.

Lemma range_form_text r : range_form (range_text r) = true.
Proof.
  unfold range_form, range_text. destruct (string_of_N_cons (fst r)) as (c & s & E & _).
  rewrite span_app; [|apply string_of_N_digits|done]. rewrite E. simpl.
  destruct (string_of_N_cons (snd r)) as (c' & s' & E' & _). rewrite string_of_N_digits. by rewrite E'.
Qed.

Lemma range_bounds_text a b :
  range_bounds_bad (range_text (a, b)) = negb ((1 <=? a)%N && (a <=? b)%N && (b <=? 4095)%N).
Proof.
  unfold range_bounds_bad, range_text. cbn [fst snd].
  assert (split_on "-" (string_of_N a +:+ "-" +:+ string_of_N b) = [string_of_N a; string_of_N b]) as ->.
  { assert (forall n, str_forall (fun c => negb (Ascii.eqb c "-")) (string_of_N n) = true) as Hd.
    { intros n. apply digits_not. intros c. by apply digit_not. }
    change ("-" +:+ string_of_N b) with (String "-" (string_of_N b)). rewrite split_on_app, split_on_none by apply Hd. done. }
  unfold part. cbn [lookup list_lookup]. unfold js_gt, js_lt. cbn [text_operands to_number part_int].
  rewrite !string_to_num_N, !parse_int_string_of_N, !num_ltb_int.
  destruct (N.leb_spec 1 a), (N.leb_spec a b), (N.leb_spec b 4095); cbn [andb negb];
    repeat match goal with |- context [(?x <? ?y)%Z] => destruct (Z.ltb_spec x y) end; try done; lia.
Qed.

(** The VLAN ranges of an interface: a text of ranges of two numbers, separated
    by commas and blanks, is accepted exactly when every range lies within 1 to
    4095 with its first number no larger than its second. *)
Theorem vlan_ranges_checked l :
  l <> [] ->
  validateVlanRange (str_join ", " (map range_text l)) = estr
  <-> Forall (fun r => 1 <= fst r /\ fst r <= snd r /\ snd r <= 4095)%N l.
Proof.
  intros Hne. unfold validateVlanRange. rewrite range_items_text by done. clear Hne.
  assert (existsb (fun s => negb (range_form s) || range_bounds_bad s) (map range_text l) = false
          <-> Forall (fun r => 1 <= fst r /\ fst r <= snd r /\ snd r <= 4095)%N l) as <-; [|by destruct (existsb _ _)].
  induction l as [|[a b] l IH]; [by split; [constructor|]|]. simpl.
  rewrite range_form_text, range_bounds_text, list.Forall_cons, orb_false_iff, IH. simpl.
  rewrite negb_false_iff, !andb_true_iff, !N.leb_le. tauto.
Qed.

Lemma vlan_ranges_checked_witness :
  validateVlanRange (str_join ", " (map range_text [(1, 99); (200, 4095)]%N)) = estr.
Proof.
  apply (vlan_ranges_checked [(1, 99); (200, 4095)]%N); [discriminate|].
  repeat constructor; vm_compute; discriminate.
Defined.

(** ** Pages of a table *)

Lemma page_rows_from_spec {A} (rows : list A) : forall i start end_,
  page_rows_from i start end_ rows = take (end_ - (i `max` start)) (drop (start - i) rows).
Proof.
  induction rows as [|d rows IH]; intros i start end_; simpl; [by rewrite drop_nil, take_nil|].
  rewrite IH. destruct (Nat.leb_spec start i); simpl.
  - replace (start - i) with 0 by lia. replace (start - S i) with 0 by lia.
    rewrite (Nat.max_l i start), (Nat.max_l (S i) start) by lia. simpl.
    destruct (Nat.ltb_spec i end_).
    + replace (end_ - i) with (S (end_ - S i)) by lia. done.
    + replace (end_ - i) with 0 by lia. by replace (end_ - S i) with 0 by lia.
  - rewrite (Nat.max_r i start), (Nat.max_r (S i) start) by lia.
    by replace (start - i) with (S (start - S i)) by lia.
Qed.

Lemma page_rows_spec {A} n p (rows : list A) : page_rows (Some n) p rows = take n (drop (n * p) rows).
Proof. unfold page_rows. rewrite page_rows_from_spec. rewrite Nat.max_0_l, Nat.sub_0_r. f_equal. lia. Qed.

Lemma page_count_bounds items n : 0 < n -> items <= n * page_count items n /\ n * (page_count items n) < items + n.
Proof.
  intros Hn. unfold page_count. pose proof (Nat.div_mod items n ltac:(lia)) as Hd.
  pose proof (Nat.mod_upper_bound items n ltac:(lia)) as Hm.
  destruct (Nat.eqb_spec (items mod n) 0); nia.
Qed.

Lemma pages_take {A} n (rows : list A) k :
  concat (map (fun p => page_rows (Some n) p rows) (seq 0 k)) = take (n * k) rows.
Proof.
  induction k as [|k IH]; [by rewrite Nat.mul_0_r|]. rewrite seq_S, map_app, concat_app, IH. cbn [map concat Nat.add].
  rewrite app_nil_r, page_rows_spec, Nat.mul_succ_r. by rewrite take_take_drop.
Qed.

(** The pages of a table, with any page size: the pages that can be selected
    show every row that matches the search exactly once, in order; each of them
    shows at least one row and no more than its size; any other page is empty. *)
Theorem pages_partition {A} n (rows : list A) :
  0 < n ->
  concat (map (fun p => page_rows (Some n) p rows) (seq 0 (page_count (length rows) n))) = rows
  /\ forall p, length (page_rows (Some n) p rows) <= n
     /\ (page_rows (Some n) p rows <> [] <-> p < page_count (length rows) n).
Proof.
  intros Hn. destruct (page_count_bounds (length rows) n Hn) as [H1 H2]. split; [rewrite pages_take, take_ge; [done|lia]|].
  intros p. rewrite page_rows_spec, length_take, length_drop. split; [lia|].
  rewrite <- length_zero_iff_nil, length_take, length_drop. split; intros H; nia.
Qed.

Lemma pages_partition_witness :
  0 < 15 /\ concat (map (fun p => page_rows (Some 15) p (seq 0 31)) (seq 0 (page_count (length (seq 0 31)) 15))) = seq 0 31.
Proof. split; [lia|]. apply (pages_partition 15 (seq 0 31)). lia. Defined.

(** Deleting the only row of the last page leaves the table on a page that is no
    longer there: it shows no rows, though there are some. *)
Example page_left_behind :
  page_rows (Some 15) 1 (seq 0 16) = [15] /\ page_rows (Some 15) 1 (seq 0 15) = [] /\ page_count 15 15 = 1.
Proof. vm_compute. split_and!; reflexivity. Qed.

(** ** Deleting an entry *)

Lemma drop_row_objects key id rows :
  Forall (fun r => is_obj r = true) rows ->
  drop_row key id rows
  = Ok (filter (fun r => loose_eq (match prop r key with Ok i => i | Err _ => VUndef end) id <> true) rows).
Proof.
  unfold drop_row. induction 1 as [|r rows Hr _ IH]; [done|]. destruct r as [| | | | | |o]; try done.
  cbn [res_filter]. rewrite IH, filter_cons, prop_obj. cbn [res_bind].
  destruct (loose_eq (default VUndef (obj_get key o)) id); cbn [negb]; by case_decide.
Qed.

(** What a list page does when an entry is deleted through the request [req] to
    [url]. *)
Definition delete_outcome {S} (w : env S) (m : list_page -> io list_page) (req : io val) (url question message key : string)
    (id : val) (p : list_page) (s : S) : Prop :=
  let '(s', t, r) := run w (m p) s in
  if answer w question then
    requests t = [Req false url []]
    /\ match run_result w req s with
       | Ok _ => exists rows, r = Ok (ListPage rows (Success message))
                 /\ rows = filter (fun x => loose_eq (match prop x key with Ok i => i | Err _ => VUndef end) id <> true) (lp_rows p)
       | Err e => r = Ok (ListPage (lp_rows p) (Failure e))
       end
  else requests t = [] /\ r = Ok p /\ s' = s.

Lemma confirm_delete_outcome {S} (w : env S) question message key id url part p s :
  Forall (fun r => is_obj r = true) (lp_rows p) ->
  delete_outcome w (confirm_delete question message key id (Admin.call url part)) (Admin.call url part)
    url question message key id p s.
Proof.
  intros Hrows. unfold delete_outcome, confirm_delete. cbn [run]. destruct (answer w question); [|by split_and!].
  rewrite run_try, run_bind. unfold run_result. rewrite call_run. destruct (server w s (Req false url [])) as [s1 o].
  destruct (let? data := outcome_data o in let? _ := throw_error_text data in part data) as [v|e]; cbn [snd].
  - rewrite drop_row_objects by done. cbn. split; [done|]. by eexists.
  - cbn. done.
Qed.

(** C40 Deleting a user, a workgroup, a node or a member of a workgroup from its list
    page: without confirmation nothing is sent and nothing changes; otherwise one
    request is sent, and after a reply without an error the page shows every other
    row in the old order and a success, and after any failure the same rows and
    the error. *)
Theorem entry_deleted {S} (w : env S) base user group node n id gname gid nname nid p s :
  Forall (fun r => is_obj r = true) (lp_rows p) ->
  first_username user = Ok n -> prop user "user_id" = Ok id ->
  prop group "name" = Ok gname -> prop group "workgroup_id" = Ok gid ->
  prop node "name" = Ok nname -> prop node "node_id" = Ok nid ->
  delete_outcome w (users_delete base user) (Admin.deleteUser base id)
    (Admin.svc base "user.cgi" "delete_user" [("user_id", show id)])
    ("Delete user '" +:+ show n +:+ "'?") ("User '" +:+ show n +:+ "' was successfully deleted.") "user_id" id p s
  /\ delete_outcome w (workgroups_delete base group) (Admin.deleteWorkgroup base gid)
    (Admin.workgroup_call base "delete_workgroup" gid [])
    ("Delete workgroup '" +:+ show gname +:+ "'?") ("Workgroup '" +:+ show gname +:+ "' was successfully deleted.")
    "workgroup_id" gid p s
  /\ delete_outcome w (nodes_delete base node) (Admin.deleteNode base nid) (Admin.node_call base "delete_node" nid)
    ("Delete node '" +:+ show nname +:+ "'?") ("Node '" +:+ show nname +:+ "' was successfully deleted.") "node_id" nid p s
  /\ delete_outcome w (members_remove base gid user) (Admin.removeWorkgroupUser base gid id)
    (Admin.workgroup_call base "remove_workgroup_user" gid [("user_id", show id)])
    ("Remove '" +:+ show n +:+ "' from workgroup?") (show n +:+ " successfully removed from workgroup.") "user_id" id p s.
Proof.
  intros Hrows Hn Hid Hgn Hgid Hnn Hnid.
  split_and!; unfold delete_outcome, users_delete, workgroups_delete, nodes_delete, members_remove;
    rewrite ?Hn, ?Hid, ?Hgn, ?Hgid, ?Hnn, ?Hnid; by apply confirm_delete_outcome.
Qed.

Definition sample_rows : list val := [VObj [("user_id", VInt 1)]; VObj [("user_id", VInt 2)]].
Definition deleted_reply : outcome := OJson (VObj [("results", VArr [VObj [("success", VInt 1)]])]).

Lemma entry_deleted_witness :
  exists rows,
    run_result (const_server deleted_reply)
      (users_delete "https://host" (VObj [("user_id", VStr "2"); ("usernames", VArr [VStr "jdoe"])])
         (ListPage sample_rows NoStatus)) tt
    = Ok (ListPage rows (Success "User 'jdoe' was successfully deleted."))
    /\ rows = filter (fun x => loose_eq (match prop x "user_id" with Ok i => i | Err _ => VUndef end) (VStr "2") <> true) sample_rows.
Proof.
  exact (proj2 (proj1 (entry_deleted (const_server deleted_reply) "https://host"
    (VObj [("user_id", VStr "2"); ("usernames", VArr [VStr "jdoe"])])
    (VObj [("name", VStr "lab"); ("workgroup_id", VInt 3)]) (VObj [("name", VStr "sw1"); ("node_id", VInt 4)])
    (VStr "jdoe") (VStr "2") (VStr "lab") (VInt 3) (VStr "sw1") (VInt 4)
    (ListPage sample_rows NoStatus) tt ltac:(repeat constructor) eq_refl eq_refl eq_refl eq_refl eq_refl eq_refl))).
Defined.

(** ** Replies that come late or not at all *)

(** The dialog of a second node is open when the reply for the first arrives: it
    shows the first node's changes, and approving them is possible. *)
Example diff_of_another_node :
  let d := diff_reply (Ok (VStr "diff of 1")) (diff_opened (VInt 2) (diff_opened (VInt 1) (DiffForm (VInt (-1)) (VStr estr) None false))) in
  df_node d = VInt 2 /\ diff_view d = (DiffShown (VStr "diff of 1"), false).
Proof. split; reflexivity. Qed.

(** Opening the dialog of the same node again does not read its changes again. *)
Example diff_not_read_again :
  let d := diff_reply (Ok (VStr "diff of 1")) (diff_opened (VInt 1) (DiffForm (VInt (-1)) (VStr estr) None false)) in
  diff_opened (VInt 1) d = d.
Proof. reflexivity. Qed.

(** The interfaces of the second node cannot be read: those of the first stay on
    offer. *)
Example interfaces_of_another_node :
  foldl choice_step no_choice
    [NodeChosen (VInt 1); InterfacesLoaded [VStr "xe-0/0/0 of 1"]; NodeChosen (VInt 2); InterfacesFailed]
  = IntfChoice (VInt 2) [VStr "xe-0/0/0 of 1"] (VInt (-1)).
Proof. reflexivity. Qed.

(** Submitting before a user is chosen throws. *)
Example member_not_chosen :
  submit_member [VObj [("user_id", VInt 1); ("usernames", VArr [VStr "jdoe"])]] (VStr "read-only") (VInt 3) VNull = Err EType.
Proof. reflexivity. Qed.
