(* ===== verification/NetworkMap.v ===== *)
(** * The network map (js_templates/maps.js)

    The object [NDDIMap] every page with a map makes: the cache of networks the
    service returned, the features drawn on the vector layer (a point for a
    node, a sandwich of five lines for a link), the table of links that share
    their two ends, and the operations that draw, remove, select and colour
    them.

    Features are shared objects: a line, its halo and the lines above it refer
    to one another, and the table of overlapping links refers to features of
    the layer.  The store maps an identity to a feature, the layer is the list of
    the identities drawn, in drawing order.  [showNode], [showNodeLinks] and
    [_drawLink] call one another; the recursion takes fuel, and running out of
    it is the error a JavaScript engine raises on a stack that grows too deep.

    Positions are those of the service; the projection and the viewport are
    arguments. *)

From Stdlib Require Import ZArith QArith Qround Lia Ascii String.
From stdpp Require Import base option list sets strings numbers gmap tactics.
From S2P Require Import Prelude JsValue JsJson Fetch Api Provision Pages Checks DataSource Console Circuits.

(** ** Images, colours and widths *)

Definition MAINT_IMAGE : string := "media/teal-circle.png".
Definition UNSELECTED_IMAGE : string := "media/blue-circle.png".
Definition SELECTED_IMAGE : string := "media/orange-circle.png".
Definition ACTIVE_IMAGE : string := "media/yellow-circle.png".
Definition NON_IMPORTANT_IMAGE : string := "media/gray-circle.png".
Definition LINK_COUNT_IMAGE : string := "media/gray-square.png".
Definition LOOPED_IMAGE : string := "media/purple-circle.png".

Definition LINK_UP : string := "#3158a7".
Definition LINK_DOWN : string := "#b46253".
Definition LINK_LOOPED : string := "#9c1cb4".
Definition MAJORITY_LINK_UP : string := "#CCD20F".
Definition MAJORITY_LINK_DOWN : string := "#E59916".
Definition LINK_PRIMARY : string := "#b7f33b".
Definition LINK_SECONDARY : string := "#557416".
Definition LINK_TERTIARY : string := "#00FF00".
Definition LINK_MAINT : string := "#00ABA9".

Definition ACTIVE_HALO_COLOR : string := "#f47e20".
Definition INACTIVE_HALO_COLOR : string := "#666666".

Definition ACTIVE_LINK_WIDTH : num := Fin (Dec 55 1).
Definition INACTIVE_LINK_WIDTH : num := Fin (Dec 3 0).
Definition OPAQUE : val := VInt 1.
Definition TRANSPARENT : val := VInt 0.

(** ** Data *)

(** A link of the service, under the node it starts from. *)
Record link_data := LinkData {
  to_node : string; link_name : string; link_state : val; capacity : val; link_id : val; maint_epoch : val
}.

(** A network of the service: its nodes by name, its links by starting node and
    its meta data. *)
Record network := Network {
  nodes : list (string * val); links : list (string * list link_data); network_name : val; local : val
}.

(** A link drawn, as the table of overlapping links keeps it. *)
Record drawn_link := DrawnLink {
  dl_from : string; dl_to : string; dl_name : string; dl_state : val; dl_capacity : val;
  dl_id : val; dl_maint : val; dl_options : val
}.

(** The [element_name] of a geometry: none, a name, or the label of several
    links, one division for each, with its colour. *)
Inductive ename :=
  | ENone
  | EName (s : string)
  | ELabel (rows : list (option string * string)).

Record geometry := Geometry {
  is_line : bool; element_name : ename; oess_point_type : option string;
  g_state : val; g_capacity : val; g_id : val; g_maint : val; g_links : list drawn_link;
  g_attrs : list (string * val)
}.

Record feature := Feature {
  geo : geometry; style : list (string * val); ftype : option string; popup_html : option string;
  halo_feature : option nat; secondary_path_feature : option nat; tertiary_path_feature : option nat;
  primary_feature : option nat
}.

(** The map: features by identity, the layer, the next identity, the overlapping
    links by their two ends, the looped node, the extents shown. *)
Record nddi := NDDI {
  store : gmap nat feature; layer : list nat; fresh : nat;
  linkOverlapList : gmap (string * string) (list nat * list drawn_link);
  name_of_loop : option string; zooms : list (list (num * num))
}.

(** What the session says of the map. *)
Record map_session := MapSession {
  endpoints : list string; s_links : list string; backup_links : list string;
  active_path : string; loop_node : val
}.

(** ** Names *)

Definition label_row (r : option string * string) : string :=
  match fst r with
  | Some c => "<div style='text-shadow: 1px 1px 1px #FFF;color: " +:+ c +:+ ";'>"
  | None => "<div>"
  end +:+ snd r +:+ "</div>".

(** The text of a name; a missing one reads [undefined]. *)
Definition ename_text (e : ename) : string :=
  match e with
  | ENone => "undefined"
  | EName s => s
  | ELabel rows => "<div class='oess-multilink-map-label'>" +:+ str_concat (map label_row rows) +:+ "</div>"
  end.

(** [element_name == name] *)
Definition named (name : string) (e : ename) : bool :=
  match e with ENone => false | _ => String.eqb (ename_text e) name end.

(** [&], [<] and [>] as [innerHTML] writes them. *)
Fixpoint escape_text (s : string) : string :=
  match s with
  | EmptyString => estr
  | String c s' =>
      (if Ascii.eqb c "&" then "&amp;" else if Ascii.eqb c "<" then "&lt;" else if Ascii.eqb c ">" then "&gt;"
       else String c estr) +:+ escape_text s'
  end.

(** Whether two characters begin a tag or a character reference, or are the space
    [innerHTML] writes as a reference. *)
Definition begins_markup (c d : ascii) : bool :=
  let n := N_of_ascii d in
  let letter := ((65 <=? n) && (n <=? 90) || (97 <=? n) && (n <=? 122))%N in
  Ascii.eqb c "<" && (letter || Ascii.eqb d "/" || Ascii.eqb d "!" || Ascii.eqb d "?")
  || Ascii.eqb c "&" && (letter || is_digit d || Ascii.eqb d "#")
  || Ascii.eqb c "194" && Ascii.eqb d "160".

(** A text without markup. *)
Fixpoint inert (s : string) : bool :=
  match s with
  | EmptyString => true
  | String c s' =>
      (32 <=? N_of_ascii c)%N && match s' with String d _ => negb (begins_markup c d) | EmptyString => true end && inert s'
  end.

(** [$(label)] and the [innerHTML] of the divisions it makes of a label: parsed and
    written again, a text without markup is escaped. *)
Class LabelMarkup := {
  division_texts : list (option string * string) -> list string;
  division_texts_inert rows : forallb (fun r => inert (snd r)) rows = true ->
    division_texts rows = map (fun r => escape_text (snd r)) rows
}.

(** The texts of a label are those of its divisions; the name of a link does not contain
    the class of the labels. *)
Definition compare_link_names `{LabelMarkup} (feature_link : ename) (other_link : string) : bool :=
  match feature_link with
  | ELabel rows => existsb (fun t => String.eqb t other_link) (division_texts rows)
  | _ => named other_link feature_link
  end.

Definition sorted_pair (a b : string) : string * string := if str_ltb b a then (b, a) else (a, b).

(** ** The cache *)

Definition findNode (cache : list network) (node_name : string) : option (val * network) :=
  foldr (fun n r => match obj_get node_name (nodes n) with Some v => Some (v, n) | None => r end) None cache.

Definition getNodeLinks (cache : list network) (node_name : string) : list link_data :=
  flat_map (fun n => flat_map (fun e : string * list link_data =>
    filter (fun l => String.eqb (fst e) node_name || String.eqb (to_node l) node_name) (snd e)) (links n)) cache.

(** ** The layer *)

Definition set_store (s : gmap nat feature) (m : nddi) : nddi :=
  NDDI s (layer m) (fresh m) (linkOverlapList m) (name_of_loop m) (zooms m).
Definition set_layer (l : list nat) (m : nddi) : nddi :=
  NDDI (store m) l (fresh m) (linkOverlapList m) (name_of_loop m) (zooms m).
Definition set_overlaps (o : gmap (string * string) (list nat * list drawn_link)) (m : nddi) : nddi :=
  NDDI (store m) (layer m) (fresh m) o (name_of_loop m) (zooms m).
Definition set_loop (n : option string) (m : nddi) : nddi :=
  NDDI (store m) (layer m) (fresh m) (linkOverlapList m) n (zooms m).
Definition add_zoom (z : list (num * num)) (m : nddi) : nddi :=
  NDDI (store m) (layer m) (fresh m) (linkOverlapList m) (name_of_loop m) (zooms m ++ [z]).

(** The features of the layer with their identities. *)
Definition drawn (m : nddi) : list (nat * feature) :=
  omap (fun i => (fun f => (i, f)) <$> store m !! i) (layer m).

(** New features, with consecutive identities, at the end of the layer. *)
Definition addFeatures (fs : list feature) (m : nddi) : nddi :=
  let ids := seq (fresh m) (length fs) in
  NDDI (list_to_map (zip ids fs) ∪ store m) (layer m ++ ids) (fresh m + length fs)
    (linkOverlapList m) (name_of_loop m) (zooms m).

Definition removeFeature (i : nat) (m : nddi) : nddi :=
  set_layer (filter (fun j => negb (Nat.eqb i j)) (layer m)) m.

Definition isFeatureDrawn (feature_name : string) (m : nddi) : bool :=
  existsb (fun p : nat * feature => named feature_name (element_name (geo (snd p)))) (drawn m).

Definition with_style (f : feature) (s : list (string * val)) : feature :=
  Feature (geo f) s (ftype f) (popup_html f) (halo_feature f) (secondary_path_feature f)
    (tertiary_path_feature f) (primary_feature f).

(** [feature.style[key] = value] and the drawing of the feature; reading the
    style of [undefined] raises. *)
Definition updateFeature (i : option nat) (key : string) (value : val) (m : nddi) : res nddi :=
  match i with
  | None => Err EType
  | Some j => Ok (set_store (alter (fun f => with_style f (obj_set key value (style f))) j (store m)) m)
  end.

Definition changeLinkOpacity (link : option nat) (opacity : val) : nddi -> res nddi :=
  updateFeature link "strokeOpacity" opacity.
Definition changeLinkColor (link : option nat) (color : string) : nddi -> res nddi :=
  updateFeature link "strokeColor" (VStr color).
Definition changeNodeImage (node : option nat) (image : string) : nddi -> res nddi :=
  updateFeature node "externalGraphic" (VStr image).
Definition changeLinkDash (node : option nat) (dash : string) : nddi -> res nddi :=
  updateFeature node "strokeDashstyle" (VStr dash).

(** A feature by its reference. *)
Definition deref (m : nddi) (i : option nat) : option feature := i ≫= (fun j => store m !! j).

Definition num_max (a b : num) : num :=
  match a, b with
  | NaN, _ | _, NaN => NaN
  | _, _ => if num_ltb a b then b else a
  end.

Definition is_down (f : feature) : bool := loose_eq (g_state (geo f)) (VStr "down").

(** The width of a line and of the halo below it, and of the halo of the halo,
    if there were one. *)
Fixpoint changeLinkWidth (fuel : nat) (link : option nat) (width : num) (m : nddi) : res nddi :=
  match fuel, deref m link with
  | S n, Some f =>
      let width := if is_down f then INACTIVE_LINK_WIDTH else width in
      let? m := updateFeature link "strokeWidth" (VNum width) m in
      match halo_feature f with
      | Some h => changeLinkWidth n (Some h) (num_max (Fin (Dec 1 0)) (num_add width (num_opp (Fin (Dec 3 0))))) m
      | None => Ok m
      end
  | _, _ => Err EType
  end.

(** No halo has a halo: the calls nest twice. *)
Definition setLinkWidth : option nat -> num -> nddi -> res nddi := changeLinkWidth 2.

Definition showHalo (link : option nat) (color : string) (m : nddi) : res nddi :=
  match deref m link with
  | None => Err EType
  | Some f =>
      if is_down f then Ok m
      else let? m := changeLinkColor (halo_feature f) color m in changeLinkOpacity (halo_feature f) OPAQUE m
  end.

Definition hideHalo (link : option nat) (m : nddi) : res nddi :=
  match deref m link with
  | None => Err EType
  | Some f => changeLinkOpacity (halo_feature f) TRANSPARENT m
  end.

(** ** Links between the same nodes *)

Definition row_of (node_label_status : bool) (l : drawn_link) : option string * string :=
  (if node_label_status then
     Some (if loose_eq (dl_state l) (VStr "up") then LINK_UP
           else if loose_eq (dl_state l) (VStr "looped") then LINK_LOOPED else LINK_DOWN)
   else None, dl_name l).

Definition link_up_count (node_label_status : bool) (ls : list drawn_link) : nat :=
  if node_label_status then length (filter (fun l => loose_eq (dl_state l) (VStr "up")) ls) else 0.

(** [percent_up = (up / total) * 100] and the comparisons made of it. *)
Definition majority_state (up total : nat) : string :=
  if Nat.eqb up total then "up"
  else if Nat.leb total (2 * up) then "majority_up"
  else if Nat.eqb up 0 then "down" else "majority_down".

Definition with_geo (f : feature) (g : geometry) : feature :=
  Feature g (style f) (ftype f) (popup_html f) (halo_feature f) (secondary_path_feature f)
    (tertiary_path_feature f) (primary_feature f).

(** The line of several links: its links, its label, its state; its colour is a
    variable nothing assigned. *)
Definition merge_links (node_label_status : bool) (ls : list drawn_link) (f : feature) : feature :=
  let g := geo f in
  Feature (Geometry (is_line g) (ELabel (map (row_of node_label_status) ls)) (oess_point_type g)
             (VStr (majority_state (link_up_count node_label_status ls) (length ls)))
             (g_capacity g) (g_id g) (g_maint g) ls (g_attrs g))
    (obj_set "strokeDashstyle" (VStr "solid") (obj_set "strokeColor" VUndef (style f)))
    (ftype f) (Some (str_concat (map (fun l => "<div>" +:+ dl_name l +:+ "</div>") ls)))
    (halo_feature f) (secondary_path_feature f) (tertiary_path_feature f) (primary_feature f).

Definition bump_label (f : feature) : feature :=
  with_style f (obj_set "label" (VNum (num_add (parseInt (default VUndef (obj_get "label" (style f)))) (Fin (Dec 1 0))))
                  (style f)).

(** The default style of a vector feature (OpenLayers/Feature/Vector.js). *)
Definition default_style : list (string * val) :=
  [("fillColor", VStr "#ee9900"); ("fillOpacity", VNum (Fin (Dec 4 1))); ("hoverFillColor", VStr "white");
   ("hoverFillOpacity", VNum (Fin (Dec 8 1))); ("strokeColor", VStr "#ee9900"); ("strokeOpacity", VInt 1);
   ("strokeWidth", VInt 1); ("strokeLinecap", VStr "round"); ("strokeDashstyle", VStr "solid");
   ("hoverStrokeColor", VStr "red"); ("hoverStrokeOpacity", VInt 1); ("hoverStrokeWidth", VNum (Fin (Dec 2 1)));
   ("pointRadius", VInt 6); ("hoverPointRadius", VInt 1); ("hoverPointUnit", VStr "%");
   ("pointerEvents", VStr "visiblePainted"); ("cursor", VStr "inherit")].

(** The square with the count of links in the middle of the line; the comparison
    in place of an assignment leaves it without a type. *)
Definition link_count_feature : feature :=
  Feature (Geometry false ENone None VUndef VUndef VUndef VUndef [] [])
    (obj_set_all default_style
       [("strokeColor", VStr "#00FF00"); ("fontColor", VStr "#FFFFFF"); ("fontSize", VInt 8);
        ("fillOpacity", VInt 1); ("strokeWidth", VInt 2); ("pointRadius", VInt 5);
        ("strokeDashstyle", VStr "solid"); ("cursor", VStr "hand");
        ("externalGraphic", VStr LINK_COUNT_IMAGE); ("graphicName", VStr "square");
        ("graphicZIndex", VInt 10); ("label", VInt 2)])
    None None None None None None.

(** Adds a link to the line already drawn between its ends; [None] when there is
    none. *)
Definition linkOverlaps (node_label_status : bool) (l : drawn_link) (m : nddi) : option nddi :=
  let ends := sorted_pair (dl_from l) (dl_to l) in
  match linkOverlapList m !! ends with
  | None => None
  | Some (fs, ls) =>
      let ls := ls ++ [l] in
      let '(fs, m) :=
        match fs !! 4 with
        | None => (fs ++ [fresh m], addFeatures [link_count_feature] m)
        | Some c => (fs, set_store (alter bump_label c (store m)) m)
        end in
      let m := match fs !! 0 with
               | Some i => set_store (alter (merge_links node_label_status ls) i (store m)) m
               | None => m
               end in
      Some (set_overlaps (<[ends := (fs, ls)]> (linkOverlapList m)) m)
  end.

(** ** Drawing *)

(** The attributes a node of the service has on the map, and the names they have
    there. *)
Definition kept_attrs : list string :=
  ["vlan_range"; "default_drop"; "default_forward"; "tx_delay_ms"; "max_flows"; "openflow"; "mpls"; "mgmt_addr";
   "tcp_port"; "vendor"; "model"; "short_name"; "sw_version"; "controller"; "barrier_bulk";
   "max_static_mac_flows"; "dpid"; "end_epoch"].

Definition get (o : val) (k : string) : val := match prop o k with Ok v => v | Err _ => VUndef end.

Definition node_attrs (node_info : val) : list (string * val) :=
  ("element_lat", VNum (parse_float (get node_info "node_lat")))
  :: ("element_lon", VNum (parse_float (get node_info "node_long")))
  :: ("element_id", VNum (parseInt (js_or (get node_info "node_id") (VInt (-1)))))
  :: ("available_endpoints", get node_info "number_available_endpoints")
  :: map (fun k => (k, get node_info k)) kept_attrs.

Definition no_endpoints (avail : val) : bool := js_lt avail (VInt 1) || strict_eq avail VUndef.

Definition node_style (node_info : val) : list (string * val) :=
  obj_set_all default_style
    ([("strokeColor", VStr "#00FF00"); ("fillColor", VStr "#00FF00"); ("fillOpacity", VNum (Fin (Dec 9 1)));
      ("strokeWidth", VInt 2); ("pointRadius", VInt 6); ("strokeDashstyle", VStr "solid"); ("cursor", VStr "hand");
      ("externalGraphic",
        VStr (if loose_eq (get node_info "in_maint") (VStr "no") then UNSELECTED_IMAGE else MAINT_IMAGE));
      ("graphicZIndex", VInt 10)]
     ++ (if no_endpoints (get node_info "number_available_endpoints")
         then [("strokeColor", VStr "#C0C0C0"); ("fillColor", VStr "#C0C0C0"); ("cursor", VStr estr);
               ("externalGraphic", VStr NON_IMPORTANT_IMAGE)]
         else [])).

Definition node_feature (node_name : string) (node_info : val) : feature :=
  Feature (Geometry false (EName node_name) (Some "node") VUndef VUndef VUndef VUndef [] (node_attrs node_info))
    (node_style node_info) None None None None None None.

Definition is_node (f : feature) : bool :=
  match oess_point_type (geo f) with Some t => String.eqb t "node" | None => false end.

Definition attr (k : string) (f : feature) : val := default VUndef (obj_get k (g_attrs (geo f))).

Definition link_color (state maint : val) : string :=
  if loose_eq state (VStr "down") then LINK_DOWN
  else if loose_eq state (VStr "looped") then LINK_LOOPED
  else if loose_eq maint (VInt (-1)) then LINK_MAINT else LINK_UP.

(** The five lines of a link: the line, its halo, the secondary and tertiary
    paths above it and a wide transparent line for the mouse, the first of them
    with identity [i]. *)
Definition sandwich (i : nat) (l : drawn_link) : list feature :=
  let line name state cap id maint := Geometry true (EName name) None state cap id maint [] [] in
  let width := VNum (Fin (Dec 35 1)) in
  let path color :=
    Feature (line (dl_name l) (dl_state l) (dl_capacity l) VUndef VUndef)
      [("strokeWidth", width); ("strokeOpacity", TRANSPARENT); ("strokeDashstyle", VStr "dash");
       ("strokeColor", VStr color); ("graphicZIndex", VInt 6)]
      (Some "secondary") None (Some (S i)) None None (Some i) in
  [ Feature (line (dl_name l) (dl_state l) (dl_capacity l) (dl_id l) (dl_maint l))
      [("strokeColor", VStr (link_color (dl_state l) (dl_maint l))); ("strokeOpacity", OPAQUE);
       ("strokeDashstyle", VStr "solid"); ("strokeWidth", width); ("cursor", VStr "hand"); ("graphicZIndex", VInt 5)]
      None None (Some (S i)) (Some (2 + i)) (Some (3 + i)) None;
    Feature (line "halo_line" (VStr "na") (VInt 0) VUndef VUndef)
      [("strokeWidth", VNum (Fin (Dec 45 1))); ("strokeOpacity", TRANSPARENT);
       ("strokeColor", VStr INACTIVE_HALO_COLOR); ("graphicZIndex", VInt 5)]
      None None None None None (Some i);
    path LINK_SECONDARY;
    path LINK_TERTIARY;
    Feature (line "fat_line" (VStr "na") (VInt 0) VUndef VUndef)
      [("strokeWidth", VNum (Fin (Dec 135 1))); ("strokeOpacity", TRANSPARENT); ("graphicZIndex", VInt 5)]
      None None None None None (Some i) ].

(** The line of an active link. *)
Definition activate (i : option nat) (m : nddi) : res nddi :=
  let? m := changeLinkColor i LINK_PRIMARY m in
  let? m := showHalo i ACTIVE_HALO_COLOR m in
  let? m := changeLinkOpacity i OPAQUE m in
  setLinkWidth i ACTIVE_LINK_WIDTH m.

(** The recursion of a call that draws too deeply. *)
Definition too_deep : exn := EVal (VStr "RangeError").

Section drawing.
Context (cache : list network) (node_label_status : bool) (session_loop : val).
Context (in_view : list (list (num * num)) -> list (num * num) -> bool).

(** [_drawLink], its call of [showNode] given. *)
Definition drawLink (show : string -> nddi -> res nddi) (l : drawn_link) (m : nddi) : res nddi :=
  let options := js_or (dl_options l) (VObj []) in
  let l := DrawnLink (dl_from l) (dl_to l) (dl_name l) (dl_state l) (dl_capacity l) (dl_id l) (dl_maint l) options in
  if isFeatureDrawn (dl_name l) m then Ok m
  else
    match findNode cache (dl_from l), findNode cache (dl_to l) with
    | Some _, Some (_, other) =>
        let? network := prop options "network" in
        let hidden := negb (isFeatureDrawn (dl_to l) m) in
        if hidden && negb (loose_eq network (network_name other)) then Ok m
        else
          let? m := if hidden then show (dl_to l) m else Ok m in
          match linkOverlaps node_label_status l m with
          | Some m => Ok m
          | None =>
              let i := fresh m in
              let m := addFeatures (sandwich i l) m in
              let? active := prop options "active" in
              let? m := if truthy active then activate (Some i) m else Ok m in
              Ok (set_overlaps (<[sorted_pair (dl_from l) (dl_to l) := (seq i 5, [l])]> (linkOverlapList m)) m)
          end
    | _, _ => Ok m
    end.

Definition showNodeLinks (show : string -> nddi -> res nddi) (node_name : string) (draw_other_data : val)
    (m : nddi) : res nddi :=
  if isFeatureDrawn node_name m then
    res_fold (fun m d =>
      if String.eqb node_name (to_node d) then Ok m
      else drawLink show (DrawnLink node_name (to_node d) (link_name d) (link_state d) (capacity d) (link_id d)
                            (maint_epoch d) draw_other_data) m)
      m (getNodeLinks cache node_name)
  else Ok m.

(** The positions of the nodes drawn. *)
Definition num_of (v : val) : num := match v with VNum n => n | _ => NaN end.
Definition node_points (m : nddi) : list (num * num) :=
  map (fun p : nat * feature => (num_of (attr "element_lon" (snd p)), num_of (attr "element_lat" (snd p))))
    (filter (fun p : nat * feature => is_node (snd p)) (drawn m)).

Fixpoint showNode (fuel : nat) (node_name : string) (draw_other_data node_info : val) (keep_map_position : bool)
    (m : nddi) : res nddi :=
  match fuel with
  | O => Err too_deep
  | S n =>
      if isFeatureDrawn node_name m then Ok m
      else
        let info := if truthy node_info then Some node_info else fst <$> findNode cache node_name in
        match info with
        | None => Ok m
        | Some info =>
            if negb (truthy info) then Ok m
            else
              let m := if loose_eq session_loop (VNum (num_of (attr "element_id" (node_feature node_name info))))
                       then set_loop (Some node_name) m else m in
              let m := addFeatures [node_feature node_name info] m in
              let? m := showNodeLinks (fun name => showNode n name VUndef VUndef false) node_name draw_other_data m in
              let points := node_points m in
              Ok (if negb keep_map_position && negb (in_view (zooms m) points) then add_zoom points m else m)
        end
  end.

(** Links between all the nodes given, whether or not there are such links. *)
Definition pair_name (a z : string) : string :=
  if str_ltb a z then a +:+ " <=> " +:+ z else z +:+ " <=> " +:+ a.

Definition connectEndpoints (fuel : nat) (names : list string) (m : nddi) : res nddi :=
  res_fold (fun m (p : string * string) =>
    drawLink (fun name => showNode fuel name VUndef VUndef false)
      (DrawnLink (fst p) (snd p) (pair_name (fst p) (snd p)) (VStr "up") (VInt 0) (VInt (-1)) VNull
         (VObj [("active", VBool true)])) m)
    m (flat_map (fun a => map (fun z => (a, z)) names) names).

Definition connectSessionEndpoints (fuel : nat) (s : map_session) : nddi -> res nddi :=
  connectEndpoints fuel (endpoints s).

End drawing.

(** ** Removing *)

(** [for (i = features.length - 1; i > -1; i--)], the features read as they are
    at each turn; a position the removals left empty reads [undefined]. *)
Fixpoint backward (f : nat -> feature -> nddi -> res nddi) (n : nat) (m : nddi) : res nddi :=
  match n with
  | O => Ok m
  | S k =>
      match deref m (layer m !! k), layer m !! k with
      | Some x, Some i => let? m := f i x m in backward f k m
      | _, _ => Err EType
      end
  end.

Definition primary_name (m : nddi) (f : feature) : option ename :=
  (fun p => element_name (geo p)) <$> deref m (primary_feature f).

Definition opt_test {A} (p : A -> bool) (o : option A) : bool :=
  match o with Some a => p a | None => false end.

Definition remove_link_step (name : string) (i : nat) (f : feature) (m : nddi) : res nddi :=
  Ok (if named name (element_name (geo f)) || opt_test (named name) (primary_name m f)
      then removeFeature i m else m).

Definition removeNodeLinks (cache : list network) (node_name : string) (m : nddi) : res nddi :=
  res_fold (fun m d => backward (remove_link_step (link_name d)) (length (layer m)) m)
    m (getNodeLinks cache node_name).

(** [new RegExp(text).test]: [None] for a text that is not an expression. *)
Class NameExpr := { name_expr : string -> option (string -> bool) }.

Definition remove_node_step `{NameExpr} (cache : list network) (node_name : string) (i : nat) (f : feature) (m : nddi)
    : res nddi :=
  let el := element_name (geo f) in
  let? m := if named node_name el then removeNodeLinks cache node_name (removeFeature i m) else Ok m in
  match name_expr (node_name +:+ " <=>"), name_expr ("<=> " +:+ node_name) with
  | Some re, Some re2 =>
      let test e := re (ename_text e) || re2 (ename_text e) in
      Ok (if test el || opt_test test (primary_name m f) then removeFeature i m else m)
  | _, _ => Err ESyntax
  end.

Definition removeNode `{NameExpr} (cache : list network) (node_name : string) (m : nddi) : res nddi :=
  if isFeatureDrawn node_name m then backward (remove_node_step cache node_name) (length (layer m)) m else Ok m.

(** ** Selecting *)

(** A loop over the features of the layer that does not change the layer. *)
Definition each_feature (f : nat -> feature -> nddi -> res nddi) (m : nddi) : res nddi :=
  res_fold (fun m i => match store m !! i with Some x => f i x m | None => Ok m end) m (layer m).

Definition is_type (t : string) (f : feature) : bool := opt_test (String.eqb t) (ftype f).

Definition clear_step (i : nat) (f : feature) (m : nddi) : res nddi :=
  let g := geo f in
  if named "halo_line" (element_name g) || is_type "secondary" f || is_type "tertiary" f then Ok m
  else if is_node f then
    changeNodeImage (Some i) (if loose_eq (attr "end_epoch" f) (VInt (-1)) then MAINT_IMAGE else UNSELECTED_IMAGE) m
  else
    let? m := changeLinkColor (Some i) (if loose_eq (g_maint g) (VInt (-1)) then LINK_MAINT else LINK_UP) m in
    changeLinkDash (Some i) "solid" m.

Definition clearAllSelected : nddi -> res nddi := each_feature clear_step.

(** One link of the list against a line: the halo is shown for the link of its
    name, which ends the loop, and hidden for any other. *)
Fixpoint active_loop `{LabelMarkup} (i : nat) (f : feature) (active : list string) (m : nddi) : res nddi :=
  match active with
  | [] => Ok m
  | link :: rest =>
      if compare_link_names (element_name (geo f)) link then
        let? m := showHalo (Some i) ACTIVE_HALO_COLOR m in
        let? m := updateFeature (halo_feature f) "strokeOpacity" OPAQUE m in
        updateFeature (halo_feature f) "strokeColor" (VStr ACTIVE_HALO_COLOR) m
      else
        let? m := hideHalo (Some i) m in
        let? m := updateFeature (halo_feature f) "strokeOpacity" TRANSPARENT m in
        active_loop i f rest m
  end.

Definition setActiveLinks `{LabelMarkup} (active : list string) : nddi -> res nddi :=
  each_feature (fun i f m =>
    let g := geo f in
    if negb (is_line g) || named "fat_line" (element_name g) || named "halo_line" (element_name g) then Ok m
    else active_loop i f active m).

(** The image of a node. *)
Definition paint_node (s : map_session) (discolor_nodes : bool) (i : nat) (f : feature) (m : nddi) : res nddi :=
  let el := element_name (geo f) in
  let selected := existsb (fun n => named n el) (endpoints s) in
  let? m := if selected then changeNodeImage (Some i) SELECTED_IMAGE m else Ok m in
  let looped := match name_of_loop m with Some n => truthy (VStr n) && named n el | None => false end in
  let? m := if looped then changeNodeImage (Some i) LOOPED_IMAGE m else Ok m in
  if selected || looped then Ok m
  else
    changeNodeImage (Some i)
      (if discolor_nodes || js_lt (attr "available_endpoints" f) (VInt 1) then NON_IMPORTANT_IMAGE
       else if loose_eq (attr "end_epoch" f) (VInt (-1)) then MAINT_IMAGE else UNSELECTED_IMAGE) m.

(** A line of a path the circuit has: its colour, and its halo, opacity and width
    according to the path in use. *)
Definition paint_path (color path : string) (active : string) (i : nat) (m : nddi) : res nddi :=
  let? m := changeLinkColor (Some i) color m in
  if String.eqb active path then
    let? m := showHalo (Some i) ACTIVE_HALO_COLOR m in
    let? m := changeLinkOpacity (Some i) OPAQUE m in setLinkWidth (Some i) ACTIVE_LINK_WIDTH m
  else
    let? m := if String.eqb active "none" then Ok m else hideHalo (Some i) m in
    let? m := changeLinkOpacity (Some i) OPAQUE m in setLinkWidth (Some i) INACTIVE_LINK_WIDTH m.

(** One backup link of the line's name: the line is also on the primary path (or
    was met before), or it is a line of the backup path alone. *)
Definition paint_backup (active : string) (i : nat) (f : feature) (st : bool * bool * nddi) : res (bool * bool * nddi) :=
  let '(was_selected, dual, m) := st in
  if was_selected then
    let? m := match secondary_path_feature f with
              | Some p => let? m := changeLinkOpacity (Some p) OPAQUE m in setLinkWidth (Some i) ACTIVE_LINK_WIDTH m
              | None => Ok m
              end in Ok (true, true, m)
  else let? m := paint_path LINK_SECONDARY "backup" active i m in Ok (true, dual, m).

(** The colour of a line of neither path. *)
Definition idle_color (f : feature) : string :=
  let state := g_state (geo f) in
  if loose_eq state (VStr "down") then LINK_DOWN
  else if loose_eq state (VStr "majority_down") then MAJORITY_LINK_DOWN
  else if loose_eq state (VStr "majority_up") then MAJORITY_LINK_UP
  else if loose_eq (g_maint (geo f)) (VInt (-1)) then LINK_MAINT else LINK_UP.

Definition paint_link `{LabelMarkup} (s : map_session) (i : nat) (f : feature) (m : nddi) : res nddi :=
  let hit l := compare_link_names (element_name (geo f)) l in
  let primary := existsb hit (s_links s) in
  let? m := if primary then paint_path LINK_PRIMARY "primary" (active_path s) i m else Ok m in
  let? st := res_fold (fun st l => if hit l then paint_backup (active_path s) i f st else Ok st)
               (primary, false, m) (backup_links s) in
  let '(was_selected, dual, m) := st in
  let? m := if was_selected && negb dual then
              match secondary_path_feature f with Some p => changeLinkOpacity (Some p) TRANSPARENT m | None => Ok m end
            else Ok m in
  if was_selected then Ok m
  else
    let? m := changeLinkColor (Some i) (idle_color f) m in
    match tertiary_path_feature f with Some p => changeLinkOpacity (Some p) TRANSPARENT m | None => Ok m end.

Definition paint_step `{LabelMarkup} (s : map_session) (discolor_nodes : bool) (i : nat) (f : feature) (m : nddi) : res nddi :=
  let el := element_name (geo f) in
  if named "halo_line" el || named "fat_line" el || is_type "secondary" f || is_type "tertiary" f then Ok m
  else if is_node f then paint_node s discolor_nodes i f m
  else if is_line (geo f) then paint_link s i f m else Ok m.

Definition updateMapFromSession `{LabelMarkup} (cache : list network) (node_label_status : bool)
    (in_view : list (list (num * num)) -> list (num * num) -> bool) (fuel : nat)
    (s : map_session) (discolor_nodes keep_map_position : bool) (m : nddi) : res nddi :=
  let? m := res_fold (fun m n => showNode cache node_label_status (loop_node s) in_view fuel n (VInt 0) (VInt 0)
                                   keep_map_position m)
              (set_overlaps ∅ m) (endpoints s) in
  each_feature (paint_step s discolor_nodes) m.

(** ** Loading *)

(** What a click on a feature fires: the event and its argument; a feature of a
    sandwich stands for its line. *)
Inductive click :=
  | ClickNode (args : list (string * val))
  | ClickLink (name : ename) (state capacity link_id : val) (links : list drawn_link).

Definition click_attrs : list string :=
  ["vlan_range"; "default_forward"; "default_drop"; "max_flows"; "tx_delay_ms"; "barrier_bulk";
   "max_static_mac_flows"; "dpid"; "openflow"; "mpls"; "mgmt_addr"; "tcp_port"; "vendor"; "model"; "short_name";
   "sw_version"; "controller"].

Definition featureselected (m : nddi) (f : feature) : click :=
  let f := default f (deref m (primary_feature f)) in
  let g := geo f in
  if is_node f then
    ClickNode (("name", VStr (ename_text (element_name g))) :: ("lat", attr "element_lat" f)
               :: ("lon", attr "element_lon" f) :: ("node_id", attr "element_id" f)
               :: map (fun k => (k, attr k f)) click_attrs)
  else ClickLink (element_name g) (g_state g) (g_capacity g) (g_id g) (g_links g).

(** The text of the popup over a feature; none without a name. *)
Definition featurehighlighted (m : nddi) (f : feature) : option string :=
  let f := default f (deref m (primary_feature f)) in
  match element_name (geo f) with
  | ENone => None
  | e => if truthy (VStr (ename_text e))
         then Some ("<div style='text-align: center;white-space:nowrap;'><b>" +:+ ename_text e +:+ "</b></div>") else None
  end.

Definition get_maps_url (workgroup_id circuit_type : val) (option_type : val) : string :=
  "services/data.cgi?method=get_maps"
  +:+ (if truthy workgroup_id then "&workgroup_id=" +:+ to_string workgroup_id else estr)
  +:+ (if strict_eq option_type VUndef && truthy circuit_type then "&link_type=" +:+ to_string circuit_type
       else if negb (strict_eq option_type VUndef) && negb (strict_eq option_type VNull)
            then "&link_type=" +:+ to_string option_type else estr).

(** The fields of the answer; the key of its meta fields is misspelt, so there
    are none. *)
Definition maps_schema : schema :=
  {| sc_fields := [("nodes", false); ("links", false); ("meta", false)]; sc_meta := [] |}.

Definition link_of (v : val) : link_data :=
  LinkData (to_string (get v "to")) (to_string (get v "link_name")) (get v "link_state") (get v "capacity")
    (get v "link_id") (get v "maint_epoch").

Definition entries (v : val) : list (string * val) := match v with VObj o => o | _ => [] end.
Definition items (v : val) : list val := match v with VArr l => l | _ => [] end.

(** A network of the answer.  One without meta data, without the list of links of a node
    or with a link that is missing raises: in interdomain mode only when it is read to
    draw a node, which is not kept apart here. *)
Definition network_of (v : val) : res network :=
  let? meta := prop v "meta" in
  let? name := prop meta "network_name" in
  let? loc := prop meta "local" in
  let? ls := res_map (fun e : string * val =>
               let? _ := prop (snd e) "length" in
               let? ls := res_map (fun l => let? _ := prop l "to" in Ok (link_of l)) (items (snd e)) in
               Ok (fst e, ls)) (entries (get v "links")) in
  Ok (Network (entries (get v "nodes")) ls name loc).

Definition empty_map : nddi := NDDI ∅ [] 0 ∅ None [].

Section loading.
Context (node_label_status : bool) (session_loop : val).
Context (in_view : list (list (num * num)) -> list (num * num) -> bool).

(** The networks drawn when the answer arrives: in interdomain mode none, else
    the nodes of all that are not foreign. *)
Definition draw_networks (interdomain_mode : bool) (fuel : nat) (cache : list network) (m : nddi) : res nddi :=
  if interdomain_mode then Ok m
  else
    res_fold (fun m n =>
      if loose_eq (local n) (VInt 0) then Ok m
      else res_fold (fun m (e : string * val) =>
             showNode cache node_label_status session_loop in_view fuel (fst e) VUndef VUndef false m) m (nodes n))
      m cache.

(** The points of the extent shown at first: 200 km around the nodes. *)
Context (project : num * num -> num * num).
Definition shifted (d : Z) (p : num * num) : num * num :=
  (num_add (fst p) (Fin (Dec d 0)), num_add (snd p) (Fin (Dec d 0))).
Definition showDefault (m : nddi) : nddi :=
  add_zoom (flat_map (fun p => [shifted (-200000) (project p); shifted 200000 (project p)]) (node_points m)) m.

(** The interdomain path of a circuit: both ends of every hop, and a link between
    them. *)
Definition show_hop (cache : list network) (fuel : nat) (hop : val) (m : nddi) : res nddi :=
  let name k := to_string (get hop k) in
  let at_ lat lon := VObj [("node_lat", VNum (parse_float (get hop lat)));
                           ("node_long", VNum (parse_float (get hop lon)))] in
  if loose_eq (get hop "from_node") (get hop "to_node") then Ok m
  else
    let show n info m := showNode cache node_label_status session_loop in_view fuel n VNull info false m in
    let? m := show (name "from_node") (at_ "from_lat" "from_lon") m in
    let? m := show (name "to_node") (at_ "to_lat" "to_lon") m in
    connectEndpoints cache node_label_status session_loop in_view fuel [name "from_node"; name "to_node"] m.

Definition getInterDomainPath (cache : list network) (fuel : nat) (path : list val) (m : nddi) : res nddi :=
  res_fold (fun m hop => show_hop cache fuel hop m) m path.

(** The request for the networks and what its answer does: the layer is new, the
    networks are drawn, the subscribers of [loaded] run, and the first time the
    default extent is shown. *)
Definition getMapData `{DataSource} (url : string) (interdomain_mode initialized : bool) (fuel : nat)
    (loaded : list network -> nddi -> res nddi) (m : nddi) : io (option (list network * nddi)) :=
  sendRequest maps_schema url (fun r =>
    match r with
    | Failure => Ret None
    | Success rows meta =>
        if truthy (meta_of meta "error") then
          Act (AAlert ("Error - " +:+ to_string (meta_of meta "error"))) (Ret None)
        else
          pure cache := res_map network_of rows in
          pure m := draw_networks interdomain_mode fuel cache (set_layer [] (set_overlaps ∅ m)) in
          pure m := loaded cache m in
          Ret (Some (cache, if initialized then m else showDefault m))
    end).

End loading.

(** ** Tiles of the background *)

(** [Math.max(2, parseInt(width / 182, 10) + 1)] *)
Definition calculateZoomLevel (width : Z) : Z := Z.max 2 (Z.quot width 182 + 1).

(** [Math.round] *)
Definition js_round (q : Q) : Z := Qfloor (q + (1 # 2))%Q.

(** The address of the tile whose lower left corner is [(left, bottom)], for tiles of
    [w] by [h] pixels at a resolution and a zoom. *)
Definition getURL (origin_x origin_y res w h : Q) (z : Z) (left bottom : Q) : string :=
  let x := js_round ((left - origin_x) / (res * w))%Q in
  let y := js_round ((bottom - origin_y) / (res * h))%Q in
  if (0 <=? x)%Z && (0 <=? y)%Z then
    let y := if (z <=? 2)%Z && (4 <=? y)%Z then (y - 1)%Z else y in
    let x := if (z <=? 2)%Z && (4 <=? x)%Z then (x - 1)%Z else x in
    "tiles/1.0.0/OESS_background/" +:+ string_of_Z z +:+ "/" +:+ string_of_Z x +:+ "/" +:+ string_of_Z y +:+ ".png"
  else "media/none.png".

(** ** The legend (map_legend.js) *)

(** What the legend does to the elements of a class. *)
Inductive legend_entry :=
  | Image (cls src : string)
  | Caption (cls text : string)
  | Hidden (cls : string)
  | Background (cls color : string).

Definition legend_init (include_active use_non_important include_looped include_maint : bool) : list legend_entry :=
  [Image "legend_node_selected" SELECTED_IMAGE]
  ++ (if use_non_important
      then [Image "legend_node_unselected" NON_IMPORTANT_IMAGE; Caption "legend_node_unselected_text" "Unused Endpoint"]
      else [Image "legend_node_unselected" UNSELECTED_IMAGE; Caption "legend_node_unselected_text" "Available Endpoint"])
  ++ [if include_active then Image "legend_node_active" ACTIVE_IMAGE else Hidden "legend_node_active";
      if include_looped then Image "legend_node_looped" LOOPED_IMAGE else Hidden "legend_node_looped";
      if include_maint then Image "legend_node_maint" MAINT_IMAGE else Hidden "legend_node_maint";
      Background "legend_link_primary" LINK_PRIMARY; Background "legend_link_secondary" LINK_SECONDARY;
      Background "legend_link_unselected" LINK_UP; Background "legend_link_down" LINK_DOWN;
      Background "legend_link_majority_up" MAJORITY_LINK_UP; Background "legend_link_majority_down" MAJORITY_LINK_DOWN;
      Background "legend_link_maint" LINK_MAINT].

(** The images a node gets and the colours a link gets in a legend. *)
Definition legend_images (l : list legend_entry) : list string :=
  omap (fun e => match e with Image _ s => Some s | _ => None end) l.
Definition legend_colors (l : list legend_entry) : list string :=
  omap (fun e => match e with Background _ c => Some c | _ => None end) l.
