(* ===== verification/NetworkMapProofs.v ===== *)
(** * The network map: its invariant and what it shows

    The shape of the features (a node stands alone; the five lines of a link
    refer to one another, and to nothing else) is an invariant of every operation of
    [NetworkMap]; drawing ends, whatever the links of the cache are, because a
    call only nests to draw a node that was not drawn; and the images and colours
    after [updateMapFromSession] are those the session asks for. *)

From Stdlib Require Import ZArith Lia Ascii String.
From stdpp Require Import base option list sets strings numbers gmap tactics.
From S2P Require Import Prelude JsValue JsJson Fetch Api Provision Pages Checks DataSource Console Circuits NetworkMap.

(** ** Shapes *)

Definition skeleton (f : feature) :=
  (is_line (geo f), oess_point_type (geo f), ftype f,
   (halo_feature f, secondary_path_feature f, tertiary_path_feature f, primary_feature f)).

Definition node_skel : bool * option string * option string * (option nat * option nat * option nat * option nat) :=
  (false, Some "node", None, (None, None, None, None)).

(** The [k]-th line of the link whose first line has identity [i]. *)
Definition line_skel (i k : nat) : bool * option string * option string * (option nat * option nat * option nat * option nat) :=
  match k with
  | 0 => (true, None, None, (Some (S i), Some (2 + i), Some (3 + i), None))
  | 2 | 3 => (true, None, Some "secondary", (Some (S i), None, None, Some i))
  | _ => (true, None, None, (None, None, None, Some i))
  end.

(** The halo and the wide line have reserved names. *)
Definition extra_name (k : nat) (e : ename) : Prop :=
  (k = 1 -> e = EName "halo_line") /\ (k = 4 -> e = EName "fat_line").

Inductive shape (s : gmap nat feature) (i : nat) (f : feature) : Prop :=
  | shape_node n : skeleton f = node_skel -> element_name (geo f) = EName n -> shape s i f
  | shape_line :
      skeleton f = line_skel i 0 ->
      (forall k, 1 <= k <= 4 -> skeleton <$> s !! (i + k) = Some (line_skel i k)) -> shape s i f
  | shape_extra j k :
      1 <= k <= 4 -> i = j + k -> skeleton f = line_skel j k -> extra_name k (element_name (geo f)) -> shape s i f.

(** The names of the nodes drawn. *)
Definition node_names (m : nddi) : list string :=
  map (fun p : nat * feature => ename_text (element_name (geo (snd p))))
    (filter (fun p : nat * feature => is_node (snd p)) (drawn m)).

Record wf (m : nddi) : Prop := Wf {
  wf_layer i : i ∈ layer m -> is_Some (store m !! i);
  wf_fresh i : is_Some (store m !! i) -> i < fresh m;
  wf_nodup : NoDup (layer m);
  wf_shape i f : store m !! i = Some f -> shape (store m) i f;
  wf_overlaps ends fs ls : linkOverlapList m !! ends = Some (fs, ls) ->
    exists i, fs = seq i 5 /\ skeleton <$> store m !! i = Some (line_skel i 0);
  wf_nodes : NoDup (node_names m)
}.

(** [m'] shows what [m] shows, and more: drawing appends to the layer and leaves
    the nodes drawn as they are. *)
Record grows (m m' : nddi) : Prop := Grows {
  grows_layer : exists l, layer m' = layer m ++ l;
  grows_fresh : fresh m <= fresh m';
  grows_nodes i f : store m !! i = Some f -> is_node f = true -> store m' !! i = Some f;
  grows_skel i f : store m !! i = Some f -> skeleton <$> store m' !! i = Some (skeleton f)
}.

#[export] Instance grows_preorder : PreOrder grows.
Proof.
  split.
  - intros m. split; [exists []; by rewrite app_nil_r|lia|done|by intros i f ->].
  - intros m1 m2 m3 [[l1 H1] F1 N1 S1] [[l2 H2] F2 N2 S2]. split.
    + exists (l1 ++ l2). by rewrite H2, H1, app_assoc.
    + lia.
    + eauto.
    + intros i f Hf. specialize (S1 _ _ Hf). destruct (store m2 !! i) as [g|] eqn:Hg; [|done].
      apply (inj Some) in S1. by rewrite (S2 _ _ Hg), S1.
Qed.

(** ** Loops *)

(** A loop keeps an invariant its body keeps, and ends without an error. *)
Lemma res_fold_inv {A B} (f : A -> B -> res A) (I : A -> Prop) (l : list B) :
  (forall a x, x ∈ l -> I a -> exists a', f a x = Ok a' /\ I a') ->
  forall a, I a -> exists a', res_fold f a l = Ok a' /\ I a'.
Proof.
  induction l as [|x l IH]; intros Hf a Ha; simpl; [eauto|].
  destruct (Hf a x) as (a1 & -> & H1); [left|done|]. simpl. apply IH; [|done].
  intros a' y Hy. apply Hf. by right.
Qed.

Lemma res_fold_app {A B} (f : A -> B -> res A) a (l k : list B) :
  res_fold f a (l ++ k) = let? a' := res_fold f a l in res_fold f a' k.
Proof. revert a. induction l as [|x l IH]; intros a; simpl; [done|]. by destruct (f a x); simpl. Qed.

(** ** Changing features in place *)

(** Features of the same shape; only a line may change its name. *)
Definition alike (f g : feature) : Prop :=
  skeleton g = skeleton f /\
  (is_node f = true \/ primary_feature f <> None -> element_name (geo g) = element_name (geo f)).

Record similar (m m' : nddi) : Prop := Similar {
  similar_layer : layer m' = layer m;
  similar_fresh : fresh m' = fresh m;
  similar_overlaps : linkOverlapList m' = linkOverlapList m;
  similar_store i : option_Forall2 alike (store m !! i) (store m' !! i)
}.

Lemma is_node_skel f g : skeleton f = skeleton g -> is_node f = is_node g.
Proof. unfold skeleton, is_node. intros [= _ -> _]. done. Qed.

Lemma alike_skel (a b : option feature) : option_Forall2 alike a b -> skeleton <$> b = skeleton <$> a.
Proof. intros H. inversion H as [f g [Hs _]|]; simpl; by rewrite ?Hs. Qed.

Lemma alike_some (a b : option feature) : option_Forall2 alike a b -> is_Some b <-> is_Some a.
Proof. intros H. inversion H; subst; [|done]. split; eauto. Qed.

Lemma shape_similar m m' i f :
  similar m m' -> (forall g, store m !! i = Some g -> shape (store m) i g) ->
  store m' !! i = Some f -> shape (store m') i f.
Proof.
  intros [_ _ _ Hs] Hg Hf. pose proof (Hs i) as Hi. rewrite Hf in Hi.
  inversion Hi as [g g' [E En] Eg|]; subst.
  destruct (Hg g) as [n Ek Em|Ek El|j' k Hk -> Ek Ee]; [done|..].
  - eapply shape_node; [by rewrite E|]. rewrite En, Em; [done|]. left.
    revert Ek. unfold skeleton, is_node. by intros [= _ -> _].
  - apply shape_line; [by rewrite E|]. intros k Hk. rewrite (alike_skel _ _ (Hs _)). by apply El.
  - apply (shape_extra _ _ _ j' k); [done..|by rewrite E|]. rewrite En; [done|]. right.
    revert Ek. unfold skeleton. destruct k as [|[|[|[|[|k]]]]]; [lia|..|lia]; by intros [= _ _ _ _ _ _ ->].
Qed.

Lemma node_names_similar m m' : similar m m' -> node_names m' = node_names m.
Proof.
  intros [El _ _ Hs]. unfold node_names, drawn. rewrite El. clear El.
  induction (layer m) as [|i l IH]; [done|]. specialize (Hs i). cbn [omap list_omap] in *.
  destruct Hs as [f g [E En]|]; simpl; [|done].
  rewrite !filter_cons. simpl. rewrite (is_node_skel _ _ E).
  destruct (is_node f) eqn:Ef; simpl; [|done]. rewrite En by by left. f_equal. apply IH.
Qed.

(** Changing features without changing their shapes keeps the invariant. *)
Lemma wf_similar m m' : similar m m' -> wf m -> wf m'.
Proof.
  intros H [Hl Hf Hd Hs Ho Hn]. pose proof H as [El Ef Eo Es]. split.
  - intros j Hj. apply (alike_some _ _ (Es j)), Hl. by rewrite <-El.
  - intros j Hj. rewrite Ef. by apply Hf, (alike_some _ _ (Es j)).
  - by rewrite El.
  - intros j f. apply (shape_similar m); [done|]. intros g. apply Hs.
  - intros ends fs ls. rewrite Eo. intros E. destruct (Ho _ _ _ E) as (j & -> & Ej). exists j.
    by rewrite (alike_skel _ _ (Es j)).
  - by rewrite (node_names_similar m).
Qed.

#[export] Instance alike_refl : Reflexive alike.
Proof. done. Qed.

Lemma similar_alter m u i :
  (forall f, store m !! i = Some f -> alike f (u f)) -> similar m (set_store (alter u i (store m)) m).
Proof.
  intros Hu. split; [done..|]. intros j. simpl. destruct (decide (i = j)) as [<-|Hne].
  - rewrite lookup_alter_eq. destruct (store m !! i) as [f|] eqn:Hf; constructor. by apply Hu.
  - rewrite lookup_alter_ne by done. by destruct (store m !! j); constructor.
Qed.

(** [m'] is [m] with other styles for features in [S], and nothing else. *)
Record restyled (S : nat -> Prop) (m m' : nddi) : Prop := Restyled {
  rs_layer : layer m' = layer m;
  rs_fresh : fresh m' = fresh m;
  rs_overlaps : linkOverlapList m' = linkOverlapList m;
  rs_loop : name_of_loop m' = name_of_loop m;
  rs_store i : option_Forall2 (fun f g => (exists s, g = with_style f s) /\ (~ S i -> g = f)) (store m !! i) (store m' !! i)
}.

Lemma restyled_similar S m m' : restyled S m m' -> similar m m'.
Proof.
  intros [? ? ? ? Hs]. split; [done..|]. intros i. destruct (Hs i) as [f g [[s ->] _]|]; by constructor.
Qed.

Lemma wf_restyled S m m' : restyled S m m' -> wf m -> wf m'.
Proof. intros H. eapply wf_similar, restyled_similar, H. Qed.

Lemma restyled_refl S m : restyled S m m.
Proof.
  split; [done..|]. intros i. destruct (store m !! i) as [f|]; constructor. split; [|done]. exists (style f). by destruct f.
Qed.

Lemma restyled_trans S m1 m2 m3 : restyled S m1 m2 -> restyled S m2 m3 -> restyled S m1 m3.
Proof.
  intros [? ? ? ? H1] [? ? ? ? H2]. split; [congruence..|]. intros i. specialize (H1 i). specialize (H2 i).
  destruct H1 as [f g [[s1 ->] E1]|]; inversion H2 as [g' h [[s2 ->] E2]|]; subst; constructor.
  split; [by exists s2|]. intros Hn. rewrite E2 by done. by apply E1.
Qed.

Lemma restyled_mono (S T : nat -> Prop) m m' : (forall i, S i -> T i) -> restyled S m m' -> restyled T m m'.
Proof.
  intros HST [? ? ? ? Hs]. split; [done..|]. intros i. destruct (Hs i) as [f g [He Hn]|]; constructor.
  split; [done|]. intros HT. apply Hn. auto.
Qed.

Lemma restyled_at S m m' i : restyled S m m' -> ~ S i -> store m' !! i = store m !! i.
Proof. intros [_ _ _ _ Hs] Hi. destruct (Hs i) as [f g [_ E]|]; [|done]. by rewrite E. Qed.

Lemma update_restyles (S : nat -> Prop) i k v m :
  S i -> exists m', updateFeature (Some i) k v m = Ok m' /\ restyled S m m' /\
    obj_get k ∘ style <$> store m' !! i = (fun _ => Some v) <$> store m !! i /\
    (forall k', k <> k' -> obj_get k' ∘ style <$> store m' !! i = obj_get k' ∘ style <$> store m !! i).
Proof.
  intros Hi. eexists. split; [done|]. split; [split; [done..|]|]; simpl.
  - intros j. destruct (decide (i = j)) as [<-|Hne].
    + rewrite lookup_alter_eq. destruct (store m !! i) as [f|]; constructor. split; [by eexists|done].
    + rewrite lookup_alter_ne by done. destruct (store m !! j) as [f|]; constructor. split; [|done].
      exists (style f). by destruct f.
  - rewrite lookup_alter_eq. destruct (store m !! i) as [f|]; simpl; [|done].
    rewrite obj_get_set_eq. split; [done|]. intros k' Hk. by rewrite obj_get_set_ne.
Qed.

(** ** Lines *)

(** An entry of the style of a feature. *)
Definition look (m : nddi) (i : nat) (k : string) : option val := store m !! i ≫= (fun f => obj_get k (style f)).

(** The five lines of a link. *)
Definition block (i j : nat) : Prop := i <= j <= i + 4.

Definition line_at (m : nddi) (i : nat) : Prop :=
  forall k, k <= 4 -> skeleton <$> store m !! (i + k) = Some (line_skel i k).

Lemma line_at_similar m m' i : similar m m' -> line_at m i -> line_at m' i.
Proof. intros [_ _ _ Hs] Hl k Hk. rewrite (alike_skel _ _ (Hs _)). by apply Hl. Qed.

Lemma line_at_restyled S m m' i : restyled S m m' -> line_at m i -> line_at m' i.
Proof. intros H. eapply line_at_similar, restyled_similar, H. Qed.

Lemma line_at_lookup m i : line_at m i ->
  exists f, store m !! i = Some f /\ halo_feature f = Some (S i) /\ secondary_path_feature f = Some (2 + i) /\
            tertiary_path_feature f = Some (3 + i).
Proof.
  intros Hl. specialize (Hl 0 ltac:(lia)). rewrite Nat.add_0_r in Hl.
  destruct (store m !! i) as [f|]; [|done]. exists f. unfold skeleton, line_skel in Hl. simpl in Hl. by simplify_eq.
Qed.

Lemma halo_lookup m i : line_at m i -> exists f, store m !! S i = Some f /\ halo_feature f = None.
Proof.
  intros Hl. specialize (Hl 1 ltac:(lia)). rewrite Nat.add_1_r in Hl.
  destruct (store m !! S i) as [f|]; [|done]. exists f. unfold skeleton, line_skel in Hl. simpl in Hl. by simplify_eq.
Qed.

Lemma update_look S i k v m :
  S i -> exists m', updateFeature (Some i) k v m = Ok m' /\ restyled S m m' /\
    (forall f, store m !! i = Some f -> look m' i k = Some v) /\
    (forall j k', (i, k) <> (j, k') -> look m' j k' = look m j k').
Proof.
  intros Hi. destruct (update_restyles S i k v m Hi) as (m' & E & H & Hk & Hk'). exists m'.
  split; [done|]. split; [done|]. split.
  - intros f Hf. unfold look. rewrite Hf in Hk. simpl in Hk. destruct (store m' !! i) as [g|]; [|done].
    simpl in *. by simplify_eq.
  - intros j k' Hne. unfold look. destruct (decide (i = j)) as [<-|Hij].
    + assert (k <> k') as Hkk by congruence. specialize (Hk' _ Hkk). revert Hk'.
      destruct (store m' !! i), (store m !! i); simpl; by intros; simplify_eq.
    + injection E as <-. simpl. by rewrite lookup_alter_ne.
Qed.

Lemma deref_some m i : deref m (Some i) = store m !! i.
Proof. done. Qed.

(** What an operation on the line [i] may do: it ends, it changes the styles of the
    lines of the link only, and it leaves the colour of the line itself. *)
Definition styles_line (i : nat) (op : nddi -> res nddi) : Prop :=
  forall m, line_at m i -> exists m', op m = Ok m' /\ restyled (block i) m m' /\
    look m' i "strokeColor" = look m i "strokeColor".

Lemma styles_skip i : styles_line i Ok.
Proof. intros m _. exists m. split; [done|]. split; [apply restyled_refl|done]. Qed.

Lemma styles_seq i p q :
  styles_line i p -> styles_line i q -> styles_line i (fun m => let? m := p m in q m).
Proof.
  intros Hp Hq m Hm. destruct (Hp m Hm) as (m1 & -> & R1 & C1). cbn [res_bind].
  destruct (Hq m1) as (m2 & -> & R2 & C2); [by eapply line_at_restyled|].
  exists m2. split; [done|]. split; [by eapply restyled_trans|congruence].
Qed.

Lemma styles_update i j k v : block i j -> (i, "strokeColor") <> (j, k) -> styles_line i (updateFeature (Some j) k v).
Proof.
  intros Hj Hne m Hm. destruct (update_look (block i) j k v m Hj) as (m' & E & R & _ & Hk).
  exists m'. split; [done|]. split; [done|]. apply Hk. congruence.
Qed.

Lemma styles_opacity i j v : block i j -> styles_line i (changeLinkOpacity (Some j) v).
Proof. intros Hj. apply styles_update; [done|congruence]. Qed.

Lemma block_halo i : block i (S i).
Proof. unfold block. lia. Qed.

Lemma styles_halo i : styles_line i (showHalo (Some i) ACTIVE_HALO_COLOR).
Proof.
  intros m Hm. destruct (line_at_lookup m i Hm) as (f & Hf & Hh & _). unfold showHalo. simpl. rewrite Hf.
  destruct (is_down f); [by apply styles_skip|]. rewrite Hh. revert m Hm Hf. intros m Hm _. revert m Hm.
  apply (styles_seq i (changeLinkColor _ _)); [|apply styles_opacity, block_halo].
  apply styles_update; [apply block_halo|]. intros [=]. lia.
Qed.

Lemma styles_hide i : styles_line i (hideHalo (Some i)).
Proof.
  intros m Hm. destruct (line_at_lookup m i Hm) as (f & Hf & Hh & _). unfold hideHalo. simpl. rewrite Hf, Hh.
  by apply styles_opacity; [apply block_halo|].
Qed.

Lemma styles_width i w : styles_line i (setLinkWidth (Some i) w).
Proof.
  intros m Hm. destruct (line_at_lookup m i Hm) as (f & Hf & Hh & _).
  unfold setLinkWidth. cbn [changeLinkWidth]. rewrite (deref_some m i), Hf, Hh.
  set (w1 := if is_down f then _ else _).
  destruct (styles_update i i "strokeWidth" (VNum w1) ltac:(unfold block; lia) ltac:(congruence) m Hm)
    as (m1 & -> & R1 & C1). cbn [res_bind].
  pose proof (line_at_restyled _ _ _ _ R1 Hm) as Hm1.
  destruct (halo_lookup m1 i Hm1) as (h & Hhl & Hhh). rewrite deref_some, Hhl, Hhh.
  set (w2 := if is_down h then _ else _).
  destruct (styles_update i (S i) "strokeWidth" (VNum w2) (block_halo i) ltac:(intros [=]) m1 Hm1)
    as (m2 & -> & R2 & C2). cbn [res_bind].
  exists m2. split; [done|]. split; [by eapply restyled_trans|congruence].
Qed.

(** ** Adding features *)

Lemma lookup_numbered (fs : list feature) n i :
  (list_to_map (zip (seq n (length fs)) fs) : gmap nat feature) !! i
  = if decide (n <= i) then fs !! (i - n) else None.
Proof.
  revert n. induction fs as [|f fs IH]; intros n; [by destruct (decide _)|].
  cbn [length seq zip zip_with list_to_map foldr]. rewrite lookup_insert. cbn [fst snd]. destruct (decide (n = i)) as [<-|Hne].
  - rewrite decide_True, Nat.sub_diag by lia. done.
  - rewrite IH. destruct (decide (n <= i)), (decide (S n <= i)); try done; try lia.
    replace (i - n) with (S (i - S n)) by lia. done.
Qed.

Lemma omap_numbered (s : gmap nat feature) fs n :
  (forall k, s !! (n + k) = fs !! k) ->
  omap (fun i => (fun f => (i, f)) <$> s !! i) (seq n (length fs)) = zip (seq n (length fs)) fs.
Proof.
  revert n. induction fs as [|f fs IH]; intros n Hs; [done|]. cbn [length seq zip zip_with omap list_omap].
  pose proof (Hs 0) as H0. rewrite Nat.add_0_r in H0. rewrite H0. simpl. f_equal. apply IH.
  intros k. specialize (Hs (S k)). by rewrite <-Nat.add_succ_comm in Hs.
Qed.

Section adding.
Context (m : nddi) (fs : list feature) (Hm : wf m).

Lemma lookup_old i : i < fresh m -> store (addFeatures fs m) !! i = store m !! i.
Proof.
  intros Hi. simpl. rewrite lookup_union_r; [done|]. rewrite lookup_numbered, decide_False by lia. done.
Qed.

Lemma lookup_old_some i f : store m !! i = Some f -> store (addFeatures fs m) !! i = Some f.
Proof. intros Hf. rewrite lookup_old; [done|]. eapply wf_fresh; eauto. Qed.

Lemma lookup_new k : store (addFeatures fs m) !! (fresh m + k) = fs !! k.
Proof.
  simpl. assert (store m !! (fresh m + k) = None) as Hn.
  { apply eq_None_not_Some. intros H. apply (wf_fresh _ Hm) in H. lia. }
  rewrite lookup_union_l by done. rewrite lookup_numbered, decide_True by lia. f_equal. lia.
Qed.

Lemma lookup_added i f :
  store (addFeatures fs m) !! i = Some f ->
  store m !! i = Some f \/ exists k, i = fresh m + k /\ fs !! k = Some f.
Proof.
  intros Hf. destruct (decide (i < fresh m)) as [Hi|Hi]; [left; by rewrite <-lookup_old|].
  right. exists (i - fresh m). rewrite <-lookup_new. replace (fresh m + (i - fresh m)) with i by lia. done.
Qed.

Lemma drawn_add : drawn (addFeatures fs m) = drawn m ++ zip (seq (fresh m) (length fs)) fs.
Proof.
  unfold drawn. cbn [layer addFeatures]. rewrite omap_app. f_equal.
  - apply list_omap_ext, Forall_Forall2_diag, list.Forall_forall. intros i Hi.
    destruct (wf_layer _ Hm i Hi) as [f Hf]. by rewrite (lookup_old_some _ _ Hf), Hf.
  - apply omap_numbered. intros k. apply lookup_new.
Qed.

Lemma grows_add : grows m (addFeatures fs m).
Proof.
  split; [by eexists|simpl; lia|..]; intros i f Hf; [intros _|]; rewrite (lookup_old_some i f Hf); done.
Qed.

(** Features whose shapes are right, added together, keep the invariant. *)
Lemma wf_add :
  (forall k f, fs !! k = Some f -> shape (store (addFeatures fs m)) (fresh m + k) f) ->
  NoDup (node_names (addFeatures fs m)) -> wf (addFeatures fs m).
Proof.
  intros Hs Hn. split; [..|done].
  - simpl. intros i [Hi|Hi]%elem_of_app.
    + destruct (wf_layer _ Hm i Hi) as [f Hf]. exists f. by apply lookup_old_some.
    + apply elem_of_seq in Hi. replace i with (fresh m + (i - fresh m)) by lia.
      change (is_Some (store (addFeatures fs m) !! (fresh m + (i - fresh m)))).
      rewrite lookup_new. apply lookup_lt_is_Some. lia.
  - intros i [f Hf]. simpl. destruct (lookup_added _ _ Hf) as [Ho|(k & -> & Hk)].
    + pose proof (wf_fresh _ Hm i (ex_intro _ _ Ho)). lia.
    + apply lookup_lt_Some in Hk. lia.
  - simpl. apply list.NoDup_app. split; [apply (wf_nodup _ Hm)|]. split; [|apply NoDup_seq].
    intros i Hi Hi'. apply elem_of_seq in Hi'. pose proof (wf_fresh _ Hm i (wf_layer _ Hm i Hi)). lia.
  - intros i f Hf. destruct (lookup_added _ _ Hf) as [Ho|(k & -> & Hk)]; [|by apply Hs].
    destruct (wf_shape _ Hm _ _ Ho) as [n En|Ek El|j k Hk -> Ek Ee]; [by eapply shape_node| |by eapply shape_extra].
    apply shape_line; [done|]. intros k Hk. specialize (El k Hk).
    destruct (store m !! (i + k)) as [g|] eqn:Hg; [|done]. by rewrite (lookup_old_some _ _ Hg).
  - intros ends gs ls H. destruct (wf_overlaps _ Hm _ _ _ H) as (i & -> & E). exists i. split; [done|].
    destruct (store m !! i) as [g|] eqn:Hg; [|done]. by rewrite (lookup_old_some _ _ Hg).
Qed.

Lemma node_names_add :
  node_names (addFeatures fs m)
  = node_names m ++ map (fun f => ename_text (element_name (geo f))) (filter (fun f => is_node f) fs).
Proof.
  unfold node_names. rewrite drawn_add, list.filter_app, map_app. f_equal.
  generalize (fresh m). induction fs as [|f l IH]; intros n; [done|].
  cbn [length seq zip zip_with]. rewrite !filter_cons. cbn [snd]. destruct (decide (is_node f)); simpl; [|apply IH].
  f_equal. apply IH.
Qed.
End adding.

Lemma drawn_lookup m p : p ∈ drawn m <-> p.1 ∈ layer m /\ store m !! p.1 = Some p.2.
Proof.
  destruct p as [i f]. unfold drawn. rewrite list_elem_of_omap. simpl. split.
  - intros (j & Hj & E). destruct (store m !! j) as [g|] eqn:Hg; simpl in E; by simplify_eq.
  - intros [Hi Hf]. exists i. by rewrite Hf.
Qed.

Lemma named_text n e : e <> ENone -> named n e = String.eqb (ename_text e) n.
Proof. by destruct e. Qed.

Lemma line_not_node i k f : skeleton f = line_skel i k -> is_node f = false.
Proof. unfold skeleton, is_node. destruct k as [|[|[|[|k]]]]; by intros [= _ -> _]. Qed.

Lemma node_is_node f : skeleton f = node_skel -> is_node f = true.
Proof. unfold skeleton, is_node. by intros [= _ -> _]. Qed.

Lemma shape_is_node s i f : shape s i f -> is_node f = true -> exists n, element_name (geo f) = EName n.
Proof.
  intros [n _ En|Es _|j k _ _ Es _] Hn; [by exists n|..]; by rewrite (line_not_node _ _ _ Es) in Hn.
Qed.

(** A node that is drawn has its name on the layer. *)
Lemma node_drawn_feature n m : wf m -> n ∈ node_names m -> isFeatureDrawn n m = true.
Proof.
  intros Hm. unfold node_names, isFeatureDrawn. rewrite list_elem_of_fmap. intros ([i f] & -> & Hp).
  apply list_elem_of_filter in Hp as [Hn Hp]. apply existsb_exists. exists (i, f).
  split; [by apply list_elem_of_In|]. simpl in *.
  destruct (element_name (geo f)) as [|s|rows] eqn:E; simpl; [|by rewrite String.eqb_refl..].
  apply drawn_lookup in Hp as [_ Hf]. destruct (shape_is_node _ _ _ (wf_shape _ Hm _ _ Hf)); [by apply Is_true_eq_true|].
  simpl in *. congruence.
Qed.

(** ** Drawing *)

Lemma node_names_lookup n m :
  n ∈ node_names m <-> exists i f, i ∈ layer m /\ store m !! i = Some f /\ is_node f = true /\
                                   n = ename_text (element_name (geo f)).
Proof.
  unfold node_names. rewrite list_elem_of_fmap. split.
  - intros ([i f] & -> & [Hn Hp]%list_elem_of_filter). apply drawn_lookup in Hp as [Hi Hf].
    exists i, f. split; [done|]. split; [done|]. by apply Is_true_eq_true in Hn.
  - intros (i & f & Hi & Hf & Hn & ->). exists (i, f). split; [done|]. apply list_elem_of_filter.
    split; [by apply Is_true_eq_left|]. by apply drawn_lookup.
Qed.

Lemma grows_node_names m m' n : grows m m' -> n ∈ node_names m -> n ∈ node_names m'.
Proof.
  intros [[l El] _ Hn _]. rewrite !node_names_lookup. intros (i & f & Hi & Hf & Hd & ->).
  exists i, f. rewrite El. split; [by apply elem_of_app; left|]. split; [by apply Hn|done].
Qed.

Lemma grows_restyled m m' i : line_at m i -> restyled (block i) m m' -> grows m m'.
Proof.
  intros Hl Hr. pose proof (restyled_similar _ _ _ Hr) as [El Ef _ Es]. split.
  - exists []. by rewrite app_nil_r.
  - lia.
  - intros j f Hf Hn. rewrite (restyled_at _ _ _ _ Hr); [done|]. intros [H1 H2].
    specialize (Hl (j - i) ltac:(lia)). replace (i + (j - i)) with j in Hl by lia. rewrite Hf in Hl.
    apply (inj Some), line_not_node in Hl. congruence.
  - intros j f Hf. rewrite (alike_skel _ _ (Es j)). by rewrite Hf.
Qed.

Lemma wf_loop n m : wf m -> wf (set_loop n m).
Proof. intros [? ? ? ? ? ?]. by split. Qed.

Lemma wf_zoom z m : wf m -> wf (add_zoom z m).
Proof. intros [? ? ? ? ? ?]. by split. Qed.

Lemma grows_loop n m : grows m (set_loop n m).
Proof. split; [by exists []; rewrite app_nil_r|done|done|]. intros i f Hf. simpl. by rewrite Hf. Qed.

Lemma grows_zoom z m : grows m (add_zoom z m).
Proof. split; [by exists []; rewrite app_nil_r|done|done|]. intros i f Hf. simpl. by rewrite Hf. Qed.

Lemma wf_node n info m :
  wf m -> isFeatureDrawn n m = false -> wf (addFeatures [node_feature n info] m).
Proof.
  intros Hm Hd. apply wf_add; [done|..].
  - intros [|k] f Hf; [|done]. injection Hf as <-. by eapply shape_node.
  - rewrite node_names_add by done. simpl. apply list.NoDup_app. split; [by apply wf_nodes|].
    split; [|apply NoDup_singleton]. intros n' Hn ->%list_elem_of_singleton.
    by rewrite (node_drawn_feature _ _ Hm Hn) in Hd.
Qed.

Lemma node_names_node n info m :
  wf m -> node_names (addFeatures [node_feature n info] m) = node_names m ++ [n].
Proof. intros Hm. by rewrite node_names_add. Qed.

Lemma sandwich_skel i l k f : sandwich i l !! k = Some f -> skeleton f = line_skel i k /\ extra_name k (element_name (geo f)).
Proof.
  destruct k as [|[|[|[|[|k]]]]]; simpl; intros [= <-]; (split; [reflexivity|split; intros; by simplify_eq]).
Qed.

Lemma line_at_sandwich l m : wf m -> line_at (addFeatures (sandwich (fresh m) l) m) (fresh m).
Proof.
  intros Hm k Hk. rewrite lookup_new by done.
  destruct (lookup_lt_is_Some_2 (sandwich (fresh m) l) k) as [f Hf]; [simpl; lia|].
  rewrite Hf. simpl. f_equal. by eapply sandwich_skel.
Qed.

Lemma wf_sandwich l m : wf m -> wf (addFeatures (sandwich (fresh m) l) m).
Proof.
  intros Hm. apply wf_add; [done|..].
  - intros k f Hf. pose proof (sandwich_skel _ _ _ _ Hf) as [Hs He].
    destruct (decide (k = 0)) as [->|Hk].
    + rewrite Nat.add_0_r. apply shape_line; [done|]. intros k Hk. apply line_at_sandwich; [done|lia].
    + apply lookup_lt_Some in Hf. simpl in Hf. eapply shape_extra; [|done..]. lia.
  - rewrite node_names_add by done. simpl. rewrite app_nil_r. by apply wf_nodes.
Qed.

Lemma wf_set_overlaps m ends i ls :
  wf m -> line_at m i -> wf (set_overlaps (<[ends := (seq i 5, ls)]> (linkOverlapList m)) m).
Proof.
  intros [Hl Hf Hd Hs Ho Hn] Hi. split; [done..| |done].
  intros e fs ks. simpl. rewrite lookup_insert. destruct (decide (ends = e)) as [<-|Hne]; [|apply Ho].
  intros [= <- <-]. exists i. split; [done|]. rewrite <-(Nat.add_0_r i) at 1. apply Hi. lia.
Qed.

Lemma grows_set_overlaps m o : grows m (set_overlaps o m).
Proof. split; [by exists []; rewrite app_nil_r|done|done|]. intros i f Hf. simpl. by rewrite Hf. Qed.

Lemma wf_line_at m i : wf m -> skeleton <$> store m !! i = Some (line_skel i 0) -> line_at m i.
Proof.
  intros Hm E. destruct (store m !! i) as [f|] eqn:Hf; [|done]. apply (inj Some) in E.
  intros k Hk. destruct (decide (k = 0)) as [->|Hk0]; [by rewrite Nat.add_0_r, Hf; simpl; rewrite E|].
  destruct (wf_shape _ Hm _ _ Hf) as [n En _|_ El|j k' Hk' -> Es _].
  - by rewrite E in En.
  - apply El. lia.
  - rewrite E in Es. by destruct k' as [|[|[|[|[|k']]]]]; [lia|..|lia].
Qed.

Lemma line_lookup m i k : line_at m i -> k <= 4 -> exists f, store m !! (i + k) = Some f /\ skeleton f = line_skel i k.
Proof. intros Hl Hk. specialize (Hl k Hk). destruct (store m !! (i + k)) as [f|]; [|done]. exists f.
  split; [done|]. by apply (inj Some) in Hl.
Qed.

Lemma grows_alter m u i k :
  line_at m i -> k <= 4 -> (forall f, skeleton (u f) = skeleton f) ->
  grows m (set_store (alter u (i + k) (store m)) m).
Proof.
  intros Hl Hk Hu. destruct (line_lookup m i k Hl Hk) as (f & Hf & Ef). split; simpl.
  - exists []. by rewrite app_nil_r.
  - done.
  - intros j g Hg Hn. rewrite lookup_alter_ne; [done|]. intros <-.
    rewrite Hf in Hg. injection Hg as <-. by rewrite (line_not_node _ _ _ Ef) in Hn.
  - intros j g Hg. destruct (decide (i + k = j)) as [<-|Hne].
    + rewrite lookup_alter_eq, Hg. simpl. by rewrite Hu.
    + by rewrite lookup_alter_ne, Hg.
Qed.

Lemma alike_merge st ls i f : skeleton f = line_skel i 0 -> alike f (merge_links st ls f).
Proof.
  intros Es. split; [done|]. intros [Hn|Hp]; [by rewrite (line_not_node _ _ _ Es) in Hn|].
  exfalso. apply Hp. revert Es. unfold skeleton. by intros [= _ _ _ _ _ _ ->].
Qed.

(** Adding a link to a line already drawn. *)
Lemma linkOverlaps_ok st l m m' : wf m -> linkOverlaps st l m = Some m' -> wf m' /\ grows m m'.
Proof.
  intros Hm. unfold linkOverlaps.
  destruct (linkOverlapList m !! sorted_pair (dl_from l) (dl_to l)) as [[fs ls]|] eqn:E; [|done].
  destruct (wf_overlaps _ Hm _ _ _ E) as (i & -> & Ei). pose proof (wf_line_at _ _ Hm Ei) as Hl.
  assert (seq i 5 !! 4 = Some (i + 4)) as -> by (simpl; f_equal; lia).
  change (seq i 5 !! 0) with (Some i). intros E'. apply (inj Some) in E' as <-.
  set (m1 := set_store (alter bump_label (i + 4) (store m)) m).
  assert (wf m1) as Hm1 by (by eapply wf_similar; [apply similar_alter|]).
  assert (line_at m1 i) as Hl1 by (by eapply line_at_similar; [apply similar_alter|]).
  destruct (line_lookup m1 i 0 Hl1) as (f & Hf & Ef); [lia|]. rewrite Nat.add_0_r in Hf.
  set (m2 := set_store (alter (merge_links st (ls ++ [l])) i (store m1)) m1).
  assert (similar m1 m2) as Hs.
  { apply similar_alter. intros g Hg. rewrite Hf in Hg. injection Hg as <-. by eapply alike_merge. }
  split.
  - apply (wf_set_overlaps m2 _ i); [by eapply wf_similar|by eapply line_at_similar].
  - transitivity m1; [by apply grows_alter|]. transitivity m2; [|apply grows_set_overlaps].
    unfold m2. rewrite <-(Nat.add_0_r i). apply grows_alter; [done|lia|done].
Qed.

Lemma activate_ok m i : line_at m i -> exists m', activate (Some i) m = Ok m' /\ restyled (block i) m m'.
Proof.
  intros Hm. unfold activate, changeLinkColor.
  destruct (update_restyles (block i) i "strokeColor" (VStr LINK_PRIMARY) m) as (m1 & -> & R1 & _); [unfold block; lia|].
  cbn [res_bind].
  destruct (styles_seq i _ _ (styles_halo i) (styles_seq i _ _ (styles_opacity i i OPAQUE ltac:(unfold block; lia))
    (styles_width i ACTIVE_LINK_WIDTH)) m1) as (m2 & -> & R2 & _); [by eapply line_at_restyled|].
  exists m2. split; [done|]. by eapply restyled_trans.
Qed.

Lemma prop_ok v k : truthy v = true -> exists u, prop v k = Ok u.
Proof. destruct v; simpl; try done; intros _; try (by eexists); by destruct (String.eqb _ _); eexists. Qed.

Lemma options_prop v k : exists u, prop (js_or v (VObj [])) k = Ok u.
Proof. unfold js_or. destruct (truthy v) eqn:E; [by apply prop_ok|by eexists]. Qed.

Section drawing.
Context (cache : list network) (st : bool) (loop : val) (in_view : list (list (num * num)) -> list (num * num) -> bool).

Definition cached_names : list string := flat_map (fun n => names (nodes n)) cache.

(** The cached nodes not drawn yet, which bound the nesting of the calls. *)
Definition undrawn (m : nddi) : nat := length (filter (fun n => n ∉ node_names m) cached_names).

Lemma filter_grows l m m' :
  grows m m' -> length (filter (fun n => n ∉ node_names m') l) <= length (filter (fun n => n ∉ node_names m) l).
Proof.
  intros Hg. induction l as [|n l IH]; [done|]. rewrite !filter_cons.
  destruct (decide (n ∉ node_names m')), (decide (n ∉ node_names m)) as [|H]; simpl; try lia.
  destruct H. intros H. eauto using grows_node_names.
Qed.

Lemma undrawn_grows m m' : grows m m' -> undrawn m' <= undrawn m.
Proof. apply filter_grows. Qed.

Lemma undrawn_node m m' n : grows m m' -> n ∈ cached_names -> n ∉ node_names m -> n ∈ node_names m' -> undrawn m' < undrawn m.
Proof.
  intros Hg. unfold undrawn. induction cached_names as [|x l IH]; [by intros ?%not_elem_of_nil|].
  rewrite elem_of_cons, !filter_cons. intros Hx Hn Hn'.
  pose proof (filter_grows l _ _ Hg) as Hle.
  destruct (decide (x ∉ node_names m')) as [Hx'|Hx'], (decide (x ∉ node_names m)) as [Hxm|Hxm]; simpl.
  - destruct Hx as [->|Hx]; [done|]. specialize (IH Hx Hn Hn'). lia.
  - destruct Hxm. intros H. eauto using grows_node_names.
  - lia.
  - destruct Hx as [->|Hx]; [done|]. by apply IH.
Qed.

Lemma findNode_cached n p : findNode cache n = Some p -> n ∈ cached_names.
Proof.
  unfold findNode, cached_names. induction cache as [|net c IH]; [done|]. simpl.
  destruct (obj_get n (nodes net)) as [v|] eqn:E; intros H; apply elem_of_app; [left|right; eauto].
  clear -E. induction (nodes net) as [|[k u] l IH]; [done|]. simpl in *.
  destruct (String.eqb_spec n k) as [->|]; [left|right; eauto].
Qed.

(** An operation that draws, from a state with fewer than [n] cached nodes to
    draw. *)
Definition draws (n : nat) (op : nddi -> res nddi) : Prop :=
  forall m, wf m -> undrawn m < n -> exists m', op m = Ok m' /\ wf m' /\ grows m m'.

Lemma drawLink_ok n show l m :
  (forall name, draws n (show name)) -> wf m -> (findNode cache (dl_from l) <> None -> undrawn m < n) ->
  exists m', drawLink cache st show l m = Ok m' /\ wf m' /\ grows m m'.
Proof.
  intros Hshow Hm Hn. unfold drawLink. cbn [dl_name dl_from dl_to].
  destruct (isFeatureDrawn (dl_name l) m); [by exists m|].
  destruct (findNode cache (dl_from l)) as [p|] eqn:Ef; [|by exists m].
  destruct (findNode cache (dl_to l)) as [[v other]|] eqn:Et; [|by exists m].
  destruct (options_prop (dl_options l) "network") as [net ->]. cbn [res_bind].
  set (hidden := negb _). destruct (hidden && negb _); [by exists m|].
  assert (exists m1, (if hidden then show (dl_to l) m else Ok m) = Ok m1 /\ wf m1 /\ grows m m1) as (m1 & -> & Hm1 & G1).
  { destruct hidden; [by apply Hshow; [|apply Hn]|by exists m]. }
  cbn [res_bind]. set (l' := DrawnLink _ _ _ _ _ _ _ _).
  destruct (linkOverlaps st l' m1) as [m2|] eqn:E.
  { destruct (linkOverlaps_ok _ _ _ _ Hm1 E) as [Hm2 G2]. exists m2. split; [done|]. split; [done|]. by transitivity m1. }
  destruct (options_prop (dl_options l) "active") as [act ->]. cbn [res_bind].
  set (m2 := addFeatures _ _). set (i := fresh m1) in *.
  assert (wf m2) as Hm2 by by apply wf_sandwich. assert (line_at m2 i) as Hi by by apply line_at_sandwich.
  assert (grows m1 m2) as G2 by by apply grows_add.
  assert (exists m3, (if truthy act then activate (Some i) m2 else Ok m2) = Ok m3 /\ restyled (block i) m2 m3)
    as (m3 & -> & R3).
  { destruct (truthy act); [by apply activate_ok|]. exists m2. split; [done|apply restyled_refl]. }
  cbn [res_bind]. eexists. split; [done|]. split.
  - apply wf_set_overlaps; [by eapply wf_restyled|by eapply line_at_restyled].
  - rewrite G1, G2, (grows_restyled _ _ _ Hi R3). apply grows_set_overlaps.
Qed.

Lemma showNodeLinks_ok n show name other m :
  (forall name, draws n (show name)) -> wf m -> (findNode cache name <> None -> undrawn m < n) ->
  exists m', showNodeLinks cache st show name other m = Ok m' /\ wf m' /\ grows m m'.
Proof.
  intros Hshow Hm Hn. unfold showNodeLinks. destruct (isFeatureDrawn name m); [|by exists m].
  apply (res_fold_inv _ (fun m' => wf m' /\ grows m m')); [|done].
  intros m1 d _ [Hm1 G1]. destruct (String.eqb name (to_node d)); [by exists m1|].
  edestruct drawLink_ok as (m2 & -> & Hm2 & G2); [done..| |].
  - intros Hf. pose proof (undrawn_grows _ _ G1). specialize (Hn Hf). lia.
  - exists m2. split; [done|]. split; [done|]. by transitivity m1.
Qed.

(** What is known of a node, when it is drawn. *)
Definition node_info (name : string) (info : val) : val :=
  default VUndef (if truthy info then Some info else fst <$> findNode cache name).

(** Drawing a node ends when the calls may nest once more than there are cached
    nodes to draw; the node is drawn when something is known of it. *)
Lemma showNode_ok n name other info keep m :
  wf m -> undrawn m < n ->
  exists m', showNode cache st loop in_view n name other info keep m = Ok m' /\ wf m' /\ grows m m' /\
    (isFeatureDrawn name m = false -> truthy (node_info name info) = true ->
     exists i, i ∈ layer m' /\ store m' !! i = Some (node_feature name (node_info name info))).
Proof.
  revert name other info keep m. induction n as [|n IH]; intros name other info keep m Hm Hn; [lia|].
  cbn [showNode]. destruct (isFeatureDrawn name m) eqn:Hd; [by exists m|]. unfold node_info.
  destruct (if truthy info then Some info else fst <$> findNode cache name) as [v|] eqn:Ev; [|by exists m].
  change (default VUndef (Some v)) with v. destruct (truthy v); cbn [negb]; [|by exists m].
  set (m1 := if loose_eq _ _ then _ else m).
  assert (wf m1 /\ grows m m1 /\ isFeatureDrawn name m1 = false) as (Hm1 & G1 & Hd1).
  { unfold m1. destruct (loose_eq _ _); [|done]. by split; [apply wf_loop|split; [apply grows_loop|]]. }
  set (m2 := addFeatures _ _). assert (wf m2) as Hm2 by by apply wf_node.
  assert (grows m m2) as G2. { rewrite G1. by apply grows_add. }
  assert (name ∈ node_names m2) as Hin.
  { unfold m2. rewrite node_names_node by done. apply elem_of_app. right. by left. }
  edestruct (showNodeLinks_ok n) as (m3 & -> & Hm3 & G3); [|done|..].
  { intros name' m' Hm' Hn'. destruct (IH name' VUndef VUndef false m' Hm' Hn') as (m4 & E & ? & ? & _). by exists m4. }
  { intros Hf. enough (undrawn m2 < undrawn m) by lia. destruct (findNode cache name) as [p|] eqn:Hp; [|done].
    eapply (undrawn_node _ _ name); [done|by eapply findNode_cached| |done].
    intros Hin'. by rewrite (node_drawn_feature _ _ Hm Hin') in Hd. }
  cbn [res_bind]. set (m4 := if negb keep && _ then _ else m3). assert (wf m4 /\ grows m3 m4) as [Hm4 G4].
  { unfold m4. destruct (negb keep && _); [|done]. split; [by apply wf_zoom|apply grows_zoom]. }
  exists m4. split; [done|]. split; [done|]. split; [by rewrite G2, G3|]. intros _ _. exists (fresh m1).
  assert (grows m2 m4) as [[l ->] _ Hkeep _] by by rewrite G3. split.
  - apply elem_of_app. left. unfold m2. simpl. apply elem_of_app. right. by left.
  - apply Hkeep; [|done]. unfold m2. rewrite <-(Nat.add_0_r (fresh m1)). by rewrite lookup_new.
Qed.
End drawing.

(** ** What the session asks for *)

Lemma state_other {A} t (a b c d : A) : t <> "down" -> t <> "majority_down" -> t <> "majority_up" ->
  match t with "down" => a | "majority_down" => b | "majority_up" => c | _ => d end = d.
Proof. intros H1 H2 H3. repeat case_match; subst; done. Qed.

Section session.
Context `{LM : LabelMarkup}.

(** The image of a node: looped, an endpoint, or neither. *)
Definition node_image (s : map_session) (discolor : bool) (loop : option string) (f : feature) : string :=
  let el := element_name (geo f) in
  if match loop with Some n => truthy (VStr n) && named n el | None => false end then "media/purple-circle.png"
  else if existsb (fun n => named n el) (endpoints s) then "media/orange-circle.png"
  else if discolor || js_lt (attr "available_endpoints" f) (VInt 1) then "media/gray-circle.png"
  else if loose_eq (attr "end_epoch" f) (VInt (-1)) then "media/teal-circle.png" else "media/blue-circle.png".

(** One of the links is the one the line stands for, or one of those it stands for: then
    its name is compared as the label shows it. *)
Definition on_path (ls : list string) (f : feature) : bool :=
  match element_name (geo f) with
  | ENone => false
  | EName n => bool_decide (n ∈ ls)
  | ELabel rows => bool_decide (Exists (fun r => escape_text (snd r) ∈ ls) rows)
  end.

(** The colour of a line: of the primary path, of the backup path only, or, idle, of its
    state and its maintenance. *)
Definition line_color (s : map_session) (f : feature) : string :=
  if on_path (s_links s) f then "#b7f33b"
  else if on_path (backup_links s) f then "#557416"
  else match to_string (g_state (geo f)) with
       | "down" => "#b46253"
       | "majority_down" => "#E59916"
       | "majority_up" => "#CCD20F"
       | _ => if loose_eq (g_maint (geo f)) (VInt (-1)) then "#00ABA9" else "#3158a7"
       end.

(** The lines whose labels have no markup, and whose states are texts (or missing). *)
Definition legible (f : feature) : bool :=
  match element_name (geo f) with ELabel rows => forallb (fun r => inert (snd r)) rows | _ => true end &&
  match g_state (geo f) with VStr _ | VUndef | VNull => true | _ => false end.

(** The colour the code gives a line. *)
Definition given_color (s : map_session) (f : feature) : string :=
  let hit := compare_link_names (element_name (geo f)) in
  if existsb hit (s_links s) then LINK_PRIMARY
  else if existsb hit (backup_links s) then LINK_SECONDARY else idle_color f.

Lemma hit_on_path f ls : legible f = true -> existsb (compare_link_names (element_name (geo f))) ls = on_path ls f.
Proof.
  unfold legible, on_path. intros [Hn _]%andb_true_iff. apply eq_bool_prop_intro. rewrite existb_True, list.Exists_exists.
  destruct (element_name (geo f)) as [|n|rows]; cbn [compare_link_names named ename_text].
  - split; [|done]. by intros (? & _ & ?).
  - rewrite bool_decide_spec. split.
    + intros (l & Hl & ->%Is_true_true%String.eqb_eq). done.
    + intros Hl. exists n. split; [done|]. apply Is_true_true, String.eqb_refl.
  - rewrite (division_texts_inert rows Hn), bool_decide_spec, list.Exists_exists. split.
    + intros (l & Hl & He). apply Is_true_true, existsb_exists in He as (t & Ht & ->%String.eqb_eq).
      apply in_map_iff in Ht as (r & <- & Hr%list_elem_of_In). by exists r.
    + intros (r & Hr & Hl). exists (escape_text (snd r)). split; [done|]. apply Is_true_true, existsb_exists.
      exists (escape_text (snd r)). split; [|apply String.eqb_refl]. apply in_map_iff. exists r. split; [done|]. by apply list_elem_of_In.
Qed.

Lemma given_line_color s f : legible f = true -> given_color s f = line_color s f.
Proof.
  intros Hf. unfold given_color, line_color. rewrite !hit_on_path by done. destruct (on_path (s_links s) f); [done|].
  destruct (on_path (backup_links s) f); [done|]. unfold legible in Hf. apply andb_true_iff in Hf as [_ Hs]. unfold idle_color.
  destruct (g_state (geo f)) as [| | | |t| |]; try done. cbn [loose_eq to_string]. unfold LINK_DOWN, MAJORITY_LINK_DOWN, MAJORITY_LINK_UP, LINK_MAINT, LINK_UP.
  destruct (String.eqb_spec t "down") as [->|Hd]; [done|]. destruct (String.eqb_spec t "majority_down") as [->|Hm]; [done|].
  destruct (String.eqb_spec t "majority_up") as [->|Hu]; [done|]. symmetry. by apply state_other.
Qed.

Definition reserved (f : feature) : bool :=
  named "halo_line" (element_name (geo f)) || named "fat_line" (element_name (geo f)).

(** A feature that looks as the session asks. *)
Definition painted (s : map_session) (discolor : bool) (m : nddi) (i : nat) : Prop :=
  forall f, store m !! i = Some f -> reserved f = false ->
  (is_node f = true -> look m i "externalGraphic" = Some (VStr (node_image s discolor (name_of_loop m) f))) /\
  (skeleton f = line_skel i 0 -> legible f = true -> look m i "strokeColor" = Some (VStr (line_color s f))).

Lemma block_self i : block i i.
Proof. unfold block. lia. Qed.

(** Colouring a line, then doing something else to it. *)
Lemma color_then i c op m :
  line_at m i -> styles_line i op ->
  exists m', (let? m := changeLinkColor (Some i) c m in op m) = Ok m' /\ restyled (block i) m m' /\
    look m' i "strokeColor" = Some (VStr c).
Proof.
  intros Hm Hop. unfold changeLinkColor.
  destruct (update_look (block i) i "strokeColor" (VStr c) m (block_self i)) as (m1 & -> & R1 & C1 & _). cbn [res_bind].
  destruct (Hop m1) as (m2 & -> & R2 & C2); [by eapply line_at_restyled|].
  destruct (line_at_lookup m i Hm) as (f & Hf & _). exists m2. split; [done|].
  split; [by eapply restyled_trans|]. rewrite C2. by eapply C1.
Qed.

Lemma paint_path_ok c path active i m :
  line_at m i -> exists m', paint_path c path active i m = Ok m' /\ restyled (block i) m m' /\
    look m' i "strokeColor" = Some (VStr c).
Proof.
  intros Hm. apply (color_then i c); [done|].
  assert (H : forall w, styles_line i (fun m => let? m := changeLinkOpacity (Some i) OPAQUE m in setLinkWidth (Some i) w m)).
  { intros w. apply (styles_seq i _ _); [apply styles_opacity, block_self|apply styles_width]. }
  destruct (String.eqb active path); [apply (styles_seq i _ _); [apply styles_halo|apply H]|].
  apply (styles_seq i (fun m => if String.eqb active "none" then Ok m else hideHalo (Some i) m)); [|apply H].
  destruct (String.eqb active "none"); [apply styles_skip|apply styles_hide].
Qed.

Lemma backups_ok active i f (hit : string -> bool) l : forall w d m,
  line_at m i -> secondary_path_feature f = Some (2 + i) ->
  exists w' d' m', res_fold (fun st l => if hit l then paint_backup active i f st else Ok st) (w, d, m) l = Ok (w', d', m') /\
    restyled (block i) m m' /\ w' = w || existsb hit l /\
    look m' i "strokeColor" = if w || negb (existsb hit l) then look m i "strokeColor" else Some (VStr LINK_SECONDARY).
Proof.
  induction l as [|x l IH]; intros w d m Hm Hs; cbn [res_fold existsb].
  { exists w, d, m. split; [done|]. split; [apply restyled_refl|]. by destruct w. }
  destruct (hit x); cbn [orb]; [|by apply IH].
  assert (exists d1 m1, paint_backup active i f (w, d, m) = Ok (true, d1, m1) /\ restyled (block i) m m1 /\
    look m1 i "strokeColor" = if w then look m i "strokeColor" else Some (VStr LINK_SECONDARY)) as (d1 & m1 & -> & R1 & C1).
  { unfold paint_backup. destruct w.
    - rewrite Hs. destruct (styles_seq i _ _ (styles_opacity i (2 + i) OPAQUE ltac:(unfold block; lia))
        (styles_width i ACTIVE_LINK_WIDTH) m Hm) as (m1 & -> & R1 & C1). by exists true, m1.
    - destruct (paint_path_ok LINK_SECONDARY "backup" active i m Hm) as (m1 & -> & R1 & C1). by exists d, m1. }
  cbn [res_bind]. destruct (IH true d1 m1) as (w2 & d2 & m2 & E & R2 & -> & C2); [by eapply line_at_restyled|done|].
  exists true, d2, m2. split; [done|]. split; [by eapply restyled_trans|]. rewrite C2, C1. by destruct w.
Qed.

Lemma paint_link_ok s i f m :
  line_at m i -> store m !! i = Some f ->
  exists m', paint_link s i f m = Ok m' /\ restyled (block i) m m' /\ look m' i "strokeColor" = Some (VStr (given_color s f)).
Proof.
  intros Hm Hf. destruct (line_at_lookup m i Hm) as (f' & Hf' & _ & Hs & Ht). rewrite Hf in Hf'. injection Hf' as <-.
  unfold paint_link, given_color. rewrite Hs, Ht. set (hit := compare_link_names _). set (p := existsb _ _).
  assert (exists m1, (if p then paint_path LINK_PRIMARY "primary" (active_path s) i m else Ok m) = Ok m1 /\
    restyled (block i) m m1 /\ (p = true -> look m1 i "strokeColor" = Some (VStr LINK_PRIMARY))) as (m1 & -> & R1 & C1).
  { destruct p; [|by exists m; split; [|split; [apply restyled_refl|]]].
    destruct (paint_path_ok LINK_PRIMARY "primary" (active_path s) i m Hm) as (m1 & -> & R1 & C1). by exists m1. }
  cbn [res_bind]. pose proof (line_at_restyled _ _ _ _ R1 Hm) as Hm1.
  destruct (backups_ok (active_path s) i f hit (backup_links s) p false m1 Hm1 Hs) as (w & d & m2 & -> & R2 & -> & C2).
  cbn [res_bind]. change (existsb (fun l => hit l) (s_links s)) with p.
  assert (line_at m2 i) as Hm2 by by eapply line_at_restyled.
  set (w := p || existsb hit (backup_links s)) in *.
  assert (styles_line i (fun m => if w && negb d then changeLinkOpacity (Some (2 + i)) TRANSPARENT m else Ok m)) as Hop.
  { destruct (w && negb d); [apply styles_opacity; unfold block; lia|apply styles_skip]. }
  destruct (Hop m2 Hm2) as (m3 & -> & R3 & C3). cbn [res_bind].
  assert (restyled (block i) m m3) as R by by eapply restyled_trans, restyled_trans.
  destruct w eqn:Ew.
  - exists m3. split; [done|]. split; [done|]. rewrite C3, C2. unfold w in Ew.
    destruct p; [by apply C1|]. simpl in Ew. by rewrite Ew.
  - destruct (color_then i (idle_color f) (changeLinkOpacity (Some (3 + i)) TRANSPARENT) m3) as (m4 & -> & R4 & C4).
    + by eapply line_at_restyled.
    + apply styles_opacity. unfold block. lia.
    + exists m4. split; [done|]. split; [by eapply restyled_trans|]. rewrite C4. unfold w in Ew.
      apply orb_false_iff in Ew as [-> ->]. done.
Qed.

Lemma image_ok i img m f :
  store m !! i = Some f -> exists m', changeNodeImage (Some i) img m = Ok m' /\ restyled (eq i) m m' /\
    look m' i "externalGraphic" = Some (VStr img).
Proof.
  intros Hf. destruct (update_look (eq i) i "externalGraphic" (VStr img) m eq_refl) as (m' & E & R & C & _). eauto 6.
Qed.

Lemma paint_node_ok s d i f m :
  store m !! i = Some f ->
  exists m', paint_node s d i f m = Ok m' /\ restyled (eq i) m m' /\
    look m' i "externalGraphic" = Some (VStr (node_image s d (name_of_loop m) f)).
Proof.
  intros Hf. unfold paint_node, node_image. set (sel := existsb _ _).
  assert (exists m1, (if sel then changeNodeImage (Some i) SELECTED_IMAGE m else Ok m) = Ok m1 /\ restyled (eq i) m m1 /\
    (sel = true -> look m1 i "externalGraphic" = Some (VStr SELECTED_IMAGE))) as (m1 & -> & R1 & C1).
  { destruct sel; [|by exists m; split; [|split; [apply restyled_refl|]]].
    destruct (image_ok i SELECTED_IMAGE m f Hf) as (m1 & -> & R1 & C1). by exists m1. }
  cbn [res_bind]. rewrite (rs_loop _ _ _ R1). set (lp := match name_of_loop m with Some _ => _ | None => _ end).
  assert (exists g, store m1 !! i = Some g) as [g Hg].
  { pose proof (rs_store _ _ _ R1 i) as H. rewrite Hf in H. inversion H. eauto. }
  destruct lp; [|destruct sel eqn:E]; cbn [res_bind orb].
  - destruct (image_ok i LOOPED_IMAGE m1 g Hg) as (m2 & -> & R2 & C2). rewrite orb_true_r. cbn [res_bind].
    exists m2. split; [done|]. split; [by eapply restyled_trans|done].
  - exists m1. split; [done|]. split; [done|]. by apply C1.
  - match goal with |- context [changeNodeImage _ ?img _] => destruct (image_ok i img m1 g Hg) as (m2 & -> & R2 & C2) end.
    exists m2. split; [done|]. split; [by eapply restyled_trans|done].
Qed.

(** A restyling leaves what a feature is. *)
Lemma restyled_lookup S m m' i g : restyled S m m' -> store m' !! i = Some g ->
  exists f s, store m !! i = Some f /\ g = with_style f s.
Proof.
  intros H Hg. pose proof (rs_store _ _ _ H i) as Hi. rewrite Hg in Hi. inversion Hi as [f g' [[s ->] _] Hf|]; subst. eauto.
Qed.

Lemma painted_frame s d (S : nat -> Prop) m m' j : restyled S m m' -> ~ S j -> painted s d m j -> painted s d m' j.
Proof.
  intros R Hj Hp f. unfold look. rewrite (restyled_at _ _ _ _ R Hj), (rs_loop _ _ _ R). intros Hf Hr.
  specialize (Hp f Hf Hr). unfold look in Hp. by rewrite Hf in *.
Qed.

(** The lines above and below a line have no colour of their own to get. *)
Lemma painted_extra s d m i j f k :
  store m !! j = Some f -> skeleton f = line_skel i k -> 1 <= k <= 4 -> painted s d m j.
Proof.
  intros Hf Es Hk g Hg _. rewrite Hf in Hg. injection Hg as <-. split; [by rewrite (line_not_node _ _ _ Es)|].
  rewrite Es. destruct k as [|[|[|[|[|k]]]]]; try lia; by intros [=].
Qed.

(** The visit of a feature paints it, and leaves the others painted. *)
Definition visits (s : map_session) (d : bool) (m : nddi) (i : nat) (r : res nddi) : Prop :=
  exists m', r = Ok m' /\ restyled (fun _ => True) m m' /\ painted s d m' i /\
    (forall j, painted s d m j -> painted s d m' j).

Lemma visit_skip s d m i : painted s d m i -> visits s d m i (Ok m).
Proof. intros Hp. exists m. split; [done|]. split; [apply restyled_refl|done]. Qed.

Lemma visit_node s d m i f : store m !! i = Some f -> skeleton f = node_skel -> visits s d m i (paint_node s d i f m).
Proof.
  intros Hf Es. destruct (paint_node_ok s d i f m Hf) as (m' & -> & R & C).
  exists m'. split; [done|]. split; [by eapply restyled_mono|].
  assert (painted s d m' i) as Hp.
  { intros g Hg _. destruct (restyled_lookup _ _ _ _ _ R Hg) as (f' & st & Hf' & ->). rewrite Hf in Hf'. injection Hf' as <-.
    rewrite (rs_loop _ _ _ R). split; [intros _; by rewrite C|]. change (skeleton (with_style f st)) with (skeleton f).
    by rewrite Es. }
  split; [done|]. intros j Hj. destruct (decide (j = i)) as [->|Hne]; [done|].
  eapply painted_frame; [done| |done]. congruence.
Qed.

Lemma visit_line s d m i f : line_at m i -> store m !! i = Some f -> visits s d m i (paint_link s i f m).
Proof.
  intros Hl Hf. destruct (paint_link_ok s i f m Hl Hf) as (m' & -> & R & C).
  assert (skeleton f = line_skel i 0) as Es.
  { specialize (Hl 0 ltac:(lia)). rewrite Nat.add_0_r, Hf in Hl. by apply (inj Some) in Hl. }
  exists m'. split; [done|]. split; [by eapply restyled_mono|].
  assert (painted s d m' i) as Hp.
  { intros g Hg _. destruct (restyled_lookup _ _ _ _ _ R Hg) as (f' & st & Hf' & ->). rewrite Hf in Hf'. injection Hf' as <-.
    split; [|intros _ Hv; rewrite C; do 2 f_equal; by apply (given_line_color s (with_style f st))]. change (is_node (with_style f st)) with (is_node f).
    by rewrite (line_not_node _ _ _ Es). }
  split; [done|]. intros j Hj. destruct (decide (j = i)) as [->|Hne]; [done|].
  destruct (decide (i <= j <= i + 4)) as [Hb|Hb]; [|by eapply painted_frame].
  destruct (line_lookup m' i (j - i)) as (g & Hg & Eg); [by eapply line_at_restyled|lia|].
  replace (i + (j - i)) with j in Hg by lia. eapply painted_extra; [done..|lia].
Qed.

Lemma visit_reserved s d m i f : store m !! i = Some f -> reserved f = true -> visits s d m i (Ok m).
Proof. intros Hf Hr. apply visit_skip. intros g Hg. rewrite Hf in Hg. injection Hg as <-. by rewrite Hr. Qed.

Lemma paint_step_ok s d i f m : wf m -> store m !! i = Some f -> visits s d m i (paint_step s d i f m).
Proof.
  intros Hm Hf. unfold paint_step. fold (reserved f). destruct (wf_shape _ Hm _ _ Hf) as [n Es En|Es El|j k Hk -> Es Ee].
  - assert (is_type "secondary" f = false /\ is_type "tertiary" f = false) as [-> ->].
    { revert Es. unfold skeleton, is_type. by intros [= _ _ -> _]. }
    rewrite !orb_false_r, (node_is_node _ Es). destruct (reserved f) eqn:Er; [by eapply visit_reserved|by apply visit_node].
  - assert (is_type "secondary" f = false /\ is_type "tertiary" f = false /\ is_line (geo f) = true) as (-> & -> & ->).
    { revert Es. unfold skeleton, is_type. by intros [= -> _ -> _]. }
    rewrite !orb_false_r, (line_not_node _ _ _ Es). destruct (reserved f) eqn:Er; [by eapply visit_reserved|].
    apply visit_line; [|done]. apply wf_line_at; [done|]. rewrite Hf. simpl. by rewrite Es.
  - assert (reserved f || is_type "secondary" f = true) as ->.
    { destruct Ee as [E1 E4]. revert Es. unfold skeleton, is_type, reserved.
      destruct k as [|[|[|[|[|k]]]]]; [lia|..|lia]; intros [= _ _ -> _]; rewrite ?E1, ?E4 by done; simpl;
        rewrite ?orb_true_r; done. }
    by eapply visit_skip, painted_extra.
Qed.

(** The loop over the layer paints every feature of it. *)
Lemma each_painted s d l : forall m,
  wf m -> exists m', res_fold (fun m i => match store m !! i with Some x => paint_step s d i x m | None => Ok m end) m l = Ok m' /\
    restyled (fun _ => True) m m' /\ (forall i, i ∈ l \/ painted s d m i -> painted s d m' i).
Proof.
  induction l as [|i l IH]; intros m Hm; cbn [res_fold].
  { exists m. split; [done|]. split; [apply restyled_refl|]. intros i [Hi|Hi]; [by apply not_elem_of_nil in Hi|done]. }
  assert (visits s d m i (match store m !! i with Some x => paint_step s d i x m | None => Ok m end)) as (m1 & -> & R1 & P1 & F1).
  { destruct (store m !! i) as [f|] eqn:Hf; [by apply paint_step_ok|]. apply visit_skip. intros f Hf'. congruence. }
  cbn [res_bind]. destruct (IH m1) as (m2 & -> & R2 & P2); [by eapply wf_restyled|].
  exists m2. split; [done|]. split; [by eapply restyled_trans|].
  intros j [[->|Hj]%elem_of_cons|Hj]; apply P2; auto.
Qed.

Lemma wf_no_overlaps m : wf m -> wf (set_overlaps ∅ m).
Proof. intros [? ? ? ? ? ?]. by split. Qed.

Lemma restyled_node_names S m m' : restyled S m m' -> node_names m' = node_names m.
Proof. intros H. eapply node_names_similar, restyled_similar, H. Qed.

(** C11 After [updateMapFromSession] the map shows the session, whatever was drawn
    before: drawing the endpoints ends without throwing, the invariant of the map holds,
    and every node of the layer has the image of its role: purple when it is looped, else
    orange when it is an endpoint, else gray when it is unavailable, teal in
    maintenance, blue otherwise.  Every link has the colour of the primary path when it
    is on it, else that of the backup path when it is on that, else of its state (down,
    mostly down, mostly up, in maintenance, up).  A line that stands for one link is on a
    path with its name; one that stands for several is when one of their names, with
    [&], [<] and [>] escaped, is in the path: names with other markup, links
    whose state is not a text, and features with one of the two reserved
    names are left out. *)
Theorem session_shown cache st in_view fuel s discolor keep m :
  wf m -> undrawn cache m < fuel ->
  exists m', updateMapFromSession cache st in_view fuel s discolor keep m = Ok m' /\ wf m' /\
    (forall n, n ∈ node_names m -> n ∈ node_names m') /\
    forall i, i ∈ layer m' -> painted s discolor m' i.
Proof.
  intros Hm Hn. unfold updateMapFromSession.
  edestruct (res_fold_inv (fun m n => showNode cache st (loop_node s) in_view fuel n (VInt 0) (VInt 0) keep m)
    (fun m' => wf m' /\ grows m m')) as (m1 & -> & Hm1 & G1).
  2: { split; [by apply wf_no_overlaps|apply grows_set_overlaps]. }
  { intros a n _ [Ha Ga]. pose proof (undrawn_grows cache _ _ Ga).
    destruct (showNode_ok cache st (loop_node s) in_view fuel n (VInt 0) (VInt 0) keep a) as (a' & -> & Ha' & Ga' & _);
      [done|lia|]. exists a'. split; [done|]. split; [done|]. by rewrite Ga. }
  cbn [res_bind]. unfold each_feature.
  destruct (each_painted s discolor (layer m1) m1 Hm1) as (m2 & -> & R2 & P2).
  exists m2. split; [done|]. split; [by eapply wf_restyled|]. split.
  - intros n Hin. rewrite (restyled_node_names _ _ _ R2). by eapply grows_node_names.
  - intros i Hi. apply P2. left. by rewrite <-(rs_layer _ _ _ R2).
Qed.

End session.

(** ** Removing *)

Lemma node_names_sublist l m : sublist l (layer m) -> sublist (node_names (set_layer l m)) (node_names m).
Proof.
  unfold node_names, drawn. simpl. induction 1 as [|i l k Hs IH|i l k Hs IH]; [done|..]; cbn [omap list_omap].
  - destruct (store m !! i) as [f|]; simpl; [|done]. rewrite !filter_cons. simpl.
    destruct (decide (is_node f)); simpl; [|done]. by constructor.
  - destruct (store m !! i) as [f|]; simpl; [|done]. rewrite !filter_cons. simpl.
    destruct (decide (is_node f)); simpl; [|done]. by constructor.
Qed.

Lemma sublist_NoDup {A} (l k : list A) : sublist l k -> NoDup k -> NoDup l.
Proof.
  induction 1 as [|x l k Hs IH|x l k Hs IH]; [done|..]; rewrite !list.NoDup_cons; [|by intros [_ ?]; auto].
  intros [Hx Hk]. split; [|auto]. intros Hin. apply Hx. by eapply elem_of_sublist.
Qed.

Lemma wf_sublist l m : sublist l (layer m) -> wf m -> wf (set_layer l m).
Proof.
  intros Hs [Hl Hf Hd Hsh Ho Hn]. split; simpl; try done.
  - intros i Hi. apply Hl. by eapply elem_of_sublist.
  - by eapply sublist_NoDup.
  - eapply sublist_NoDup; [by apply node_names_sublist|done].
Qed.

(** Whether a feature, or the line it belongs to, has a name. *)
Definition matched (p : ename -> bool) (m : nddi) (i : nat) : bool :=
  opt_test (fun f => p (element_name (geo f)) || opt_test p (primary_name m f)) (store m !! i).

Definition own_name (p : ename -> bool) (m : nddi) (i : nat) : bool :=
  opt_test (fun f => p (element_name (geo f))) (store m !! i).

Lemma filter_true {A} (p : A -> bool) (l : list A) : (forall x, x ∈ l -> p x = true) -> filter (fun x => p x) l = l.
Proof.
  induction l as [|x l IH]; intros Hp; [done|]. rewrite filter_cons, decide_True.
  - f_equal. apply IH. intros y Hy. apply Hp. by right.
  - apply Is_true_eq_left, Hp. by left.
Qed.

Lemma removeFeature_none m l i : i ∉ l -> removeFeature i (set_layer l m) = set_layer l m.
Proof.
  intros Hi. unfold removeFeature, set_layer. simpl. f_equal. apply (filter_true (fun j => negb (Nat.eqb i j))).
  intros j Hj. apply negb_true_iff, Nat.eqb_neq. by intros ->.
Qed.

Lemma removeFeature_mid m A i F :
  NoDup (A ++ i :: F) -> removeFeature i (set_layer (A ++ i :: F) m) = set_layer (A ++ F) m.
Proof.
  intros Hd. rewrite <-(removeFeature_none m (A ++ F) i).
  - unfold removeFeature, set_layer. simpl. f_equal.
    by rewrite !list.filter_app, filter_cons, decide_False by (rewrite Nat.eqb_refl; tauto).
  - intros Hi. apply list.NoDup_app in Hd as (_ & HA & [Hi' _]%list.NoDup_cons).
    apply elem_of_app in Hi as [Hi|Hi]; [|done]. apply (HA i Hi). by left.
Qed.

Lemma NoDup_mid {A} (l k : list A) x : NoDup (l ++ x :: k) -> NoDup (l ++ k).
Proof.
  rewrite !list.NoDup_app, list.NoDup_cons. intros (Hl & Hd & _ & Hk). split; [done|]. split; [|done].
  intros y Hy Hy'. apply (Hd y Hy). by right.
Qed.

(** A backward loop that removes the features of a set leaves the others. *)
Lemma backward_filter (P : nat -> bool) step m :
  (forall i f l, store m !! i = Some f ->
     step i f (set_layer l m) = Ok (if P i then removeFeature i (set_layer l m) else set_layer l m)) ->
  forall A F, (forall i, i ∈ A -> is_Some (store m !! i)) -> NoDup (A ++ F) ->
  backward step (length A) (set_layer (A ++ F) m) = Ok (set_layer (filter (fun i => negb (P i)) A ++ F) m).
Proof.
  intros Hstep A. induction A as [|i A IH] using rev_ind; intros F HA Hd; [done|].
  rewrite length_app, Nat.add_1_r. cbn [backward]. rewrite <-app_assoc in *. simpl in *.
  rewrite lookup_app_r, Nat.sub_diag by lia. simpl.
  destruct (HA i) as [f Hf]; [by apply elem_of_app; right; left|]. rewrite Hf, Hstep by done. cbn [res_bind].
  assert (HA' : forall j, j ∈ A -> is_Some (store m !! j)) by (intros j Hj; apply HA, elem_of_app; by left).
  rewrite list.filter_app, filter_cons, filter_nil. destruct (P i); simpl.
  - rewrite removeFeature_mid, app_nil_r by done. apply IH; [done|]. by eapply NoDup_mid.
  - rewrite <-app_assoc. by apply IH.
Qed.

Section removing.
Context `{NameExpr} (cache : list network) (n : string) (re re2 : string -> bool).
Context (Hre : name_expr (n +:+ " <=>") = Some re) (Hre2 : name_expr ("<=> " +:+ n) = Some re2).
Context (m : nddi) (Hm : wf m).

(** The features of a link between the node and another one, drawn by
    [connectEndpoints]; of a link of the cache that starts or ends there. *)
Definition manual (i : nat) : bool := matched (fun e => re (ename_text e) || re2 (ename_text e)) m i.
Definition cached_link (i : nat) : bool :=
  existsb (fun d => matched (named (link_name d)) m i) (getNodeLinks cache n).
Definition is_named (i : nat) : bool := own_name (named n) m i.

Lemma removeNodeLinks_filter l :
  (forall i, i ∈ l -> is_Some (store m !! i)) -> NoDup l ->
  removeNodeLinks cache n (set_layer l m) = Ok (set_layer (filter (fun i => negb (cached_link i)) l) m).
Proof.
  unfold removeNodeLinks, cached_link. revert l. induction (getNodeLinks cache n) as [|d ds IH]; intros l Hl Hd; cbn [res_fold existsb].
  { by rewrite (filter_true (fun _ => true)). }
  change (length (layer (set_layer l m))) with (length l).
  pose proof (backward_filter (matched (named (link_name d)) m) (remove_link_step (link_name d)) m) as Hb.
  specialize (Hb ltac:(intros i f k Hf; unfold remove_link_step, matched; by rewrite Hf) l [] Hl).
  rewrite !app_nil_r in Hb. rewrite Hb by done. cbn [res_bind]. rewrite IH.
  - do 2 f_equal. rewrite list_filter_filter. apply list_filter_iff. intros i. rewrite negb_orb, andb_True. tauto.
  - intros i [_ Hi]%list_elem_of_filter. auto.
  - by apply list.NoDup_filter.
Qed.

(** The lines of the cached links come after the features of the name. *)
Definition links_after (A : list nat) : Prop :=
  forall A1 i A2, A = A1 ++ i :: A2 -> is_named i = true -> forall j, j ∈ A1 -> cached_link j = false.

Fixpoint links_after_b (seen : bool) (A : list nat) : bool :=
  match A with
  | [] => true
  | i :: A => negb (is_named i && seen) && links_after_b (seen || cached_link i) A
  end.

Lemma links_after_sound A : links_after_b false A = true -> links_after A.
Proof.
  assert (H0 : forall A seen, links_after_b seen A = true -> forall A1 i A2, A = A1 ++ i :: A2 -> is_named i = true ->
    seen = false /\ forall j, j ∈ A1 -> cached_link j = false).
  { clear A. induction A as [|x A IH]; intros seen; cbn [links_after_b]; [by intros _ [|]|].
    intros [Hx Ha]%andb_true_iff [|y A1] i A2 [= -> ->] Hi.
    - rewrite Hi in Hx. destruct seen; [done|]. split; [done|]. by intros j ?%not_elem_of_nil.
    - destruct (IH _ Ha A1 i A2 eq_refl Hi) as [Hs Hj]. apply orb_false_iff in Hs as [-> Hy].
      split; [done|]. intros j [->|Hin]%elem_of_cons; auto. }
  intros Ha A1 i A2 E Hi. by destruct (H0 A false Ha A1 i A2 E Hi).
Qed.

Definition unnamed (i : nat) : bool := negb (is_named i) && negb (manual i).

Definition without_links (l : list nat) : list nat := filter (fun i => negb (cached_link i)) l.

Lemma without_links_app l k : without_links (l ++ k) = without_links l ++ without_links k.
Proof. apply list.filter_app. Qed.

Lemma without_links_id l : (forall j, j ∈ l -> cached_link j = false) -> without_links l = l.
Proof. intros Hl. apply filter_true. intros j Hj. by rewrite Hl. Qed.

Lemma without_links_idemp l : without_links (without_links l) = without_links l.
Proof.
  unfold without_links. rewrite list_filter_filter. apply list_filter_iff. intros i. tauto.
Qed.

(** One turn of the loop, at a feature of the layer. *)
Lemma remove_node_turn A i F f :
  (forall j, j ∈ A ++ i :: F -> is_Some (store m !! j)) -> NoDup (A ++ i :: F) ->
  (is_named i = true -> forall j, j ∈ A -> cached_link j = false) -> store m !! i = Some f ->
  remove_node_step cache n i f (set_layer (A ++ i :: F) m)
  = Ok (set_layer (A ++ if is_named i then without_links F else filter (fun j => unnamed j) [i] ++ F) m).
Proof.
  intros Hs Hd Hl Hf. unfold remove_node_step. rewrite Hre, Hre2.
  assert (named n (element_name (geo f)) = is_named i) as -> by (unfold is_named, own_name; by rewrite Hf).
  assert (forall l, (re (ename_text (element_name (geo f))) || re2 (ename_text (element_name (geo f)))
    || opt_test (fun e => re (ename_text e) || re2 (ename_text e)) (primary_name (set_layer l m) f)) = manual i) as Hman
    by (intros l; unfold manual, matched; by rewrite Hf).
  rewrite filter_cons, filter_nil. unfold unnamed. destruct (is_named i) eqn:En; cbn [negb andb].
  - rewrite removeFeature_mid by done. rewrite removeNodeLinks_filter.
    + cbn [res_bind]. fold (without_links (A ++ F)). rewrite without_links_app, (without_links_id A) by by apply Hl.
      rewrite Hman. destruct (manual i); [|done]. rewrite removeFeature_none; [done|].
      intros Hi. apply list.NoDup_app in Hd as (_ & HA & [Hi' _]%list.NoDup_cons).
      apply elem_of_app in Hi as [Hi|Hi]; [apply (HA i Hi); by left|]. by apply list_elem_of_filter in Hi as [_ ?].
    + intros j Hj. apply Hs. apply elem_of_app in Hj as [?|?]; apply elem_of_app; [by left|right; by right].
    + by eapply NoDup_mid.
  - cbn [res_bind]. rewrite Hman. destruct (manual i); cbn [negb].
    + by rewrite removeFeature_mid.
    + done.
Qed.

Lemma links_after_app A B : links_after (A ++ B) -> links_after A.
Proof. intros Ha A1 i A2 ->. apply (Ha A1 i (A2 ++ B)). by rewrite <-app_assoc. Qed.

Lemma remove_node_loop A : forall F,
  (forall i, i ∈ A ++ F -> is_Some (store m !! i)) -> NoDup (A ++ F) -> links_after A ->
  backward (remove_node_step cache n) (length A) (set_layer (A ++ F) m)
  = Ok (set_layer (let R := filter (fun i => unnamed i) A ++ F in
                   if existsb is_named A then without_links R else R) m).
Proof.
  induction A as [|i A IH] using rev_ind; intros F HA Hd Ha; [done|].
  rewrite length_app, Nat.add_1_r. cbn [backward]. rewrite <-app_assoc in *. simpl in HA, Hd |- *.
  rewrite lookup_app_r, Nat.sub_diag by lia. simpl.
  destruct (HA i) as [f Hf]; [by apply elem_of_app; right; left|]. rewrite Hf.
  assert (Hl : is_named i = true -> forall j, j ∈ A -> cached_link j = false) by by apply (Ha A i []).
  rewrite remove_node_turn by done. cbn [res_bind].
  assert (forall j, j ∈ A ++ F -> is_Some (store m !! j)) as HAF.
  { intros j Hj. apply HA. apply elem_of_app in Hj as [?|?]; apply elem_of_app; [by left|right; by right]. }
  pose proof (NoDup_mid _ _ _ Hd) as Hd'. rewrite existsb_app, list.filter_app. cbn [existsb]. rewrite orb_false_r.
  destruct (is_named i) eqn:En.
  - rewrite IH.
    + assert (filter (fun j => unnamed j) [i] = []) as -> by (unfold unnamed; rewrite filter_cons, En; done).
      rewrite app_nil_r, orb_true_r. cbn zeta. rewrite !without_links_app.
      assert (without_links (filter (fun j => unnamed j) A) = filter (fun j => unnamed j) A) as ->.
      { apply without_links_id. intros j [_ Hj]%list_elem_of_filter. by apply Hl. }
      rewrite without_links_idemp. by destruct (existsb is_named A).
    + intros j Hj. apply HAF. apply elem_of_app in Hj as [?|[_ ?]%list_elem_of_filter]; apply elem_of_app; auto.
    + eapply sublist_NoDup; [|exact Hd']. apply sublist_app; [done|]. apply sublist_filter.
    + by eapply links_after_app.
  - rewrite IH; [by rewrite orb_false_r, <-!app_assoc| | |by eapply links_after_app].
    + intros j. rewrite !elem_of_app. intros [?|[[_ ->%list_elem_of_singleton]%list_elem_of_filter|?]];
        [apply HAF, elem_of_app; auto|eauto|apply HAF, elem_of_app; auto].
    + eapply sublist_NoDup; [|exact Hd]. apply sublist_app; [done|]. apply (sublist_app _ [i]); [apply sublist_filter|done].
Qed.

(** The features [removeNode] takes away. *)
Definition gone (i : nat) : bool := is_named i || manual i || cached_link i.

Lemma removeNode_filter :
  links_after (layer m) -> isFeatureDrawn n m = true ->
  removeNode cache n m = Ok (set_layer (filter (fun i => negb (gone i)) (layer m)) m).
Proof.
  intros Ha Hd. unfold removeNode. rewrite Hd.
  assert (m = set_layer (layer m ++ []) m) as E by (rewrite app_nil_r; by destruct m). rewrite E at 2.
  rewrite remove_node_loop; [|by rewrite app_nil_r; apply wf_layer|by rewrite app_nil_r; apply wf_nodup|done].
  assert (existsb is_named (layer m) = true) as ->.
  { unfold isFeatureDrawn in Hd. apply existsb_exists in Hd as ([i f] & Hp & Hn). apply existsb_exists. exists i.
    apply list_elem_of_In, drawn_lookup in Hp as [Hi Hf]. split; [by apply list_elem_of_In|].
    unfold is_named, own_name. simpl in *. by rewrite Hf. }
  cbn zeta. rewrite app_nil_r. unfold without_links. rewrite list_filter_filter. do 2 f_equal. apply list_filter_iff.
  intros i. unfold gone, unnamed. rewrite !negb_orb, !andb_True. tauto.
Qed.
End removing.

(** A node taken off the map: when the lines of its cached links come after it, as
    drawing puts them, the call ends normally and takes away exactly the features of
    that name, the lines of its cached links (by the name they have now, or by that
    of their line) and the lines whose name matches one of the two expressions; every
    other feature stays, in place. *)
Theorem node_removed `{NameExpr} cache n re re2 m :
  name_expr (n +:+ " <=>") = Some re -> name_expr ("<=> " +:+ n) = Some re2 -> wf m ->
  links_after cache n m (layer m) -> isFeatureDrawn n m = true ->
  exists m', removeNode cache n m = Ok m' /\ wf m' /\ isFeatureDrawn n m' = false /\ store m' = store m /\
    layer m' = filter (fun i => negb (gone cache n re re2 m i)) (layer m).
Proof.
  intros Hre Hre2 Hm Ha Hd. eexists. split; [by apply removeNode_filter|]. split; [|split; [|done]].
  - apply wf_sublist; [apply sublist_filter|done].
  - apply not_true_iff_false. intros Hd'. unfold isFeatureDrawn in Hd'. apply existsb_exists in Hd' as ([i f] & Hp & Hn).
    apply list_elem_of_In, drawn_lookup in Hp as [Hi Hf]. simpl in *. apply list_elem_of_filter in Hi as [Hg _].
    revert Hg. unfold gone, is_named, own_name. rewrite Hf. simpl. by rewrite Hn.
Qed.

(** ** Reachable maps *)

Lemma each_restyled step m :
  (forall i f m, wf m -> store m !! i = Some f -> exists m', step i f m = Ok m' /\ restyled (fun _ => True) m m') ->
  wf m -> exists m', each_feature step m = Ok m' /\ restyled (fun _ => True) m m'.
Proof.
  intros Hstep Hm. unfold each_feature.
  edestruct (res_fold_inv (fun m i => match store m !! i with Some x => step i x m | None => Ok m end)
    (fun m' => wf m' /\ restyled (fun _ => True) m m') (layer m)) as (m' & E & _ & R).
  - intros a i _ [Ha Ra]. destruct (store a !! i) as [f|] eqn:Hf; [|by exists a].
    destruct (Hstep i f a Ha Hf) as (a' & -> & R'). exists a'. split; [done|].
    split; [by eapply wf_restyled|by eapply restyled_trans].
  - split; [done|apply restyled_refl].
  - by exists m'.
Qed.

Lemma update_any i k v m : exists m', updateFeature (Some i) k v m = Ok m' /\ restyled (fun _ => True) m m'.
Proof. destruct (update_restyles (fun _ => True) i k v m I) as (m' & ? & ? & _). eauto. Qed.

Lemma clear_ok m : wf m -> exists m', clearAllSelected m = Ok m' /\ restyled (fun _ => True) m m'.
Proof.
  apply each_restyled. clear m. intros i f m Hm Hf. unfold clear_step. set (b := _ || is_type "tertiary" f).
  destruct b; [by exists m; split; [|apply restyled_refl]|]. destruct (is_node f); [apply update_any|].
  unfold changeLinkColor. destruct (update_any i "strokeColor" (VStr (if loose_eq (g_maint (geo f)) (VInt (-1)) then LINK_MAINT else LINK_UP)) m)
    as (m1 & -> & R1). cbn [res_bind].
  destruct (update_any i "strokeDashstyle" (VStr "solid") m1) as (m2 & E & R2). exists m2. split; [done|]. by eapply restyled_trans.
Qed.

Lemma active_loop_ok `{LM : LabelMarkup} i f h l : halo_feature f = Some h -> forall m,
  (exists s, store m !! i = Some (with_style f s)) ->
  exists m', active_loop i f l m = Ok m' /\ restyled (fun _ => True) m m'.
Proof.
  intros Hh. induction l as [|x l IH]; intros m [s Hf]; cbn [active_loop]; [by exists m; split; [|apply restyled_refl]|].
  assert (Hkeep : forall m', restyled (fun _ => True) m m' -> exists s, store m' !! i = Some (with_style f s)).
  { intros m' R. pose proof (rs_store _ _ _ R i) as Hs. rewrite Hf in Hs. inversion Hs as [f' g [[s' ->] _] E|]; subst. by exists s'. }
  rewrite Hh. destruct (compare_link_names (element_name (geo f)) x).
  - assert (exists m1, showHalo (Some i) ACTIVE_HALO_COLOR m = Ok m1 /\ restyled (fun _ => True) m m1) as (m1 & -> & R1).
    { unfold showHalo. rewrite deref_some, Hf. change (is_down (with_style f s)) with (is_down f).
      change (halo_feature (with_style f s)) with (halo_feature f). rewrite Hh.
      destruct (is_down f); [by exists m; split; [|apply restyled_refl]|]. unfold changeLinkColor, changeLinkOpacity.
      destruct (update_any h "strokeColor" (VStr ACTIVE_HALO_COLOR) m) as (m1 & -> & R1). cbn [res_bind].
      destruct (update_any h "strokeOpacity" OPAQUE m1) as (m2 & E & R2). exists m2. split; [done|]. by eapply restyled_trans. }
    cbn [res_bind]. destruct (update_any h "strokeOpacity" OPAQUE m1) as (m2 & -> & R2). cbn [res_bind].
    destruct (update_any h "strokeColor" (VStr ACTIVE_HALO_COLOR) m2) as (m3 & E & R3). exists m3. split; [done|].
    by eapply restyled_trans, restyled_trans.
  - assert (exists m1, hideHalo (Some i) m = Ok m1 /\ restyled (fun _ => True) m m1) as (m1 & -> & R1).
    { unfold hideHalo. rewrite deref_some, Hf. change (halo_feature (with_style f s)) with (halo_feature f). rewrite Hh.
      apply update_any. }
    cbn [res_bind]. destruct (update_any h "strokeOpacity" TRANSPARENT m1) as (m2 & -> & R2). cbn [res_bind].
    assert (restyled (fun _ => True) m m2) as R by by eapply restyled_trans.
    destruct (IH m2 (Hkeep m2 R)) as (m3 & -> & R3). exists m3. split; [done|]. by eapply restyled_trans.
Qed.

Lemma setActiveLinks_ok `{LM : LabelMarkup} l m : wf m -> exists m', setActiveLinks l m = Ok m' /\ restyled (fun _ => True) m m'.
Proof.
  apply each_restyled. clear m. intros i f m Hm Hf. cbn zeta.
  destruct (negb (is_line (geo f)) || named "fat_line" (element_name (geo f)) || named "halo_line" (element_name (geo f))) eqn:E;
    [by exists m; split; [|apply restyled_refl]|].
  apply orb_false_iff in E as [[El%negb_false_iff Ef]%orb_false_iff Eh].
  assert (exists h, halo_feature f = Some h) as [h Hh].
  { destruct (wf_shape _ Hm _ _ Hf) as [n Es _|Es _|j k Hk -> Es [E1 E4]]; revert Es; unfold skeleton.
    - intros [= Es]. congruence.
    - intros [= _ _ _ -> _]. eauto.
    - destruct k as [|[|[|[|[|k]]]]]; try lia; intros [= _ _ _ -> _]; eauto;
        [by rewrite (E1 eq_refl) in Eh|by rewrite (E4 eq_refl) in Ef]. }
  eapply active_loop_ok; [done|]. exists (style f). rewrite Hf. by destruct f.
Qed.

(** The calls a page makes of a map. *)
Inductive map_op :=
  | OpLoad (interdomain : bool)
  | OpShow (n : string) (info : val) (keep : bool)
  | OpRemove (n : string)
  | OpConnect (ns : list string)
  | OpSession (s : map_session) (discolor keep : bool)
  | OpClear
  | OpActive (ls : list string).

Section reachable.
Context `{NameExpr} `{LM : LabelMarkup} (cache : list network) (st : bool) (loop : val).
Context (in_view : list (list (num * num)) -> list (num * num) -> bool).

(** Calls nest at most once for each cached node, and once more. *)
Definition depth : nat := S (length (cached_names cache)).

Definition run_op (op : map_op) (m : nddi) : res nddi :=
  match op with
  | OpLoad b => draw_networks st loop in_view b depth cache (set_layer [] (set_overlaps ∅ m))
  | OpShow n info keep => showNode cache st loop in_view depth n VUndef info keep m
  | OpRemove n => removeNode cache n m
  | OpConnect ns => connectEndpoints cache st loop in_view depth ns m
  | OpSession s d k => updateMapFromSession cache st in_view depth s d k m
  | OpClear => clearAllSelected m
  | OpActive ls => setActiveLinks ls m
  end.

Definition removes (op : map_op) : bool := match op with OpRemove _ => true | _ => false end.

Inductive reachable : nddi -> Prop :=
  | reach_new : reachable empty_map
  | reach_op op m m' : reachable m -> run_op op m = Ok m' -> reachable m'.

Lemma undrawn_depth m : undrawn cache m < depth.
Proof. unfold undrawn, depth. pose proof (length_filter (fun n => n ∉ node_names m) (cached_names cache)). lia. Qed.

Lemma show_any lp n other info keep m : wf m -> exists m', showNode cache st lp in_view depth n other info keep m = Ok m' /\ wf m'.
Proof.
  intros Hm. destruct (showNode_ok cache st lp in_view depth n other info keep m) as (m' & E & Hm' & _); eauto using undrawn_depth.
Qed.

Lemma load_ok b m : wf m -> exists m', draw_networks st loop in_view b depth cache m = Ok m' /\ wf m'.
Proof.
  intros Hm. unfold draw_networks. destruct b; [by exists m|].
  apply (res_fold_inv _ wf); [|done]. intros a net _ Ha. destruct (loose_eq (local net) (VInt 0)); [by exists a|].
  apply (res_fold_inv _ wf); [|done]. intros a' e _ Ha'. by apply show_any.
Qed.

Lemma connect_ok ns m : wf m -> exists m', connectEndpoints cache st loop in_view depth ns m = Ok m' /\ wf m'.
Proof.
  intros Hm. unfold connectEndpoints. apply (res_fold_inv _ wf); [|done]. intros a p _ Ha.
  edestruct (drawLink_ok cache st depth) as (a' & -> & Ha' & _); [|done|intros _; apply undrawn_depth|eauto].
  intros n m' Hm' Hn'. destruct (showNode_ok cache st loop in_view depth n VUndef VUndef false m' Hm' Hn') as (? & ? & ? & ? & _); eauto.
Qed.

(** What a backward loop may do when its body only takes features away. *)
Definition shrinks (m m' : nddi) : Prop := exists l, sublist l (layer m) /\ m' = set_layer l m.

Lemma shrinks_refl m : shrinks m m.
Proof. exists (layer m). split; [done|]. by destruct m. Qed.

Lemma shrinks_trans m1 m2 m3 : shrinks m1 m2 -> shrinks m2 m3 -> shrinks m1 m3.
Proof. intros (l1 & H1 & ->) (l2 & H2 & ->). exists l2. split; [by etrans|done]. Qed.

Lemma shrinks_remove i m : shrinks m (removeFeature i m).
Proof. exists (filter (fun j => negb (Nat.eqb i j)) (layer m)). split; [apply sublist_filter|done]. Qed.

Lemma shrinks_if (b : bool) i m : shrinks m (if b then removeFeature i m else m).
Proof. destruct b; [apply shrinks_remove|apply shrinks_refl]. Qed.

Lemma backward_shrinks step k m m' :
  (forall i f a b, step i f a = Ok b -> shrinks a b) -> backward step k m = Ok m' -> shrinks m m'.
Proof.
  intros Hs. revert m. induction k as [|k IH]; intros m; cbn [backward].
  { intros [= <-]. apply shrinks_refl. }
  destruct (deref m (layer m !! k)) as [f|]; [|done]. destruct (layer m !! k) as [i|]; [|done].
  intros (a & E & Eb)%res_bind_Ok_inv. eapply shrinks_trans; eauto.
Qed.

Lemma removeNodeLinks_shrinks n m m' : removeNodeLinks cache n m = Ok m' -> shrinks m m'.
Proof.
  unfold removeNodeLinks. revert m. induction (getNodeLinks cache n) as [|d l IH]; intros m; cbn [res_fold].
  { intros [= <-]. apply shrinks_refl. }
  intros (a & E & Eb)%res_bind_Ok_inv. eapply shrinks_trans; [|eauto].
  eapply backward_shrinks; [|done]. intros i f x y. unfold remove_link_step. intros [= <-].
  apply shrinks_if.
Qed.

Lemma removeNode_shrinks n m m' : removeNode cache n m = Ok m' -> shrinks m m'.
Proof.
  unfold removeNode. destruct (isFeatureDrawn n m); [|intros [= <-]; apply shrinks_refl].
  apply backward_shrinks. intros i f a b. unfold remove_node_step. intros (a1 & E & Eb)%res_bind_Ok_inv.
  assert (shrinks a a1) as H1.
  { destruct (named n _); [|injection E as <-; apply shrinks_refl].
    eapply shrinks_trans; [apply shrinks_remove|by eapply removeNodeLinks_shrinks]. }
  destruct (name_expr _); [|done]. destruct (name_expr _); [|done]. injection Eb as <-. eapply shrinks_trans; [done|]. apply shrinks_if.
Qed.

Lemma wf_shrinks m m' : shrinks m m' -> wf m -> wf m'.
Proof. intros (l & Hl & ->). by apply wf_sublist. Qed.

Lemma wf_empty : wf empty_map.
Proof.
  split; simpl; [by intros i ?%not_elem_of_nil|by intros i [? ?]|apply NoDup_nil_2|done|done|apply NoDup_nil_2].
Qed.

(** Every call but a removal ends normally on a well-formed map. *)
Lemma run_op_ok op m : wf m -> removes op = false -> exists m', run_op op m = Ok m' /\ wf m'.
Proof.
  intros Hm. destruct op as [b|n info keep|n|ns|s d k| |ls]; cbn [run_op removes]; intros Hr.
  - apply load_ok, wf_sublist; [apply sublist_nil_l|by apply wf_no_overlaps].
  - by apply show_any.
  - done.
  - by apply connect_ok.
  - edestruct (res_fold_inv (fun m n => showNode cache st (loop_node s) in_view depth n (VInt 0) (VInt 0) k m) wf)
      as (m1 & E & Hm1); [intros a n _ Ha; by apply show_any|by apply wf_no_overlaps|].
    unfold updateMapFromSession. rewrite E. cbn [res_bind].
    destruct (each_painted s d (layer m1) m1 Hm1) as (m2 & E2 & R2 & _). exists m2. split; [done|by eapply wf_restyled].
  - destruct (clear_ok m Hm) as (m' & E & R). exists m'. split; [done|by eapply wf_restyled].
  - destruct (setActiveLinks_ok ls m Hm) as (m' & E & R). exists m'. split; [done|by eapply wf_restyled].
Qed.

Lemma reachable_map_wf m : reachable m -> wf m.
Proof.
  induction 1 as [|op m m' _ IH E]; [apply wf_empty|]. destruct (removes op) eqn:Er.
  - destruct op; try done. by eapply wf_shrinks; [eapply removeNode_shrinks|].
  - destruct (run_op_ok op m IH Er) as (m1 & E1 & Hm1). congruence.
Qed.
End reachable.

(** C12 The map of a page, after any sequence of loads, drawings, removals, connections,
    selections and highlightings: the layer holds no feature twice and no node twice,
    every feature of the layer exists, every line of the layer is a line of a link or
    one of the four lines that go with it, and every further call ends normally,
    except a removal, however the cached links refer to one another. *)
Theorem map_reachable `{NameExpr, LM : LabelMarkup} cache st loop in_view m :
  reachable cache st loop in_view m ->
  NoDup (layer m) /\ NoDup (node_names m) /\
  (forall i, i ∈ layer m -> exists f, store m !! i = Some f /\ shape (store m) i f) /\
  (forall op, removes op = false -> exists m', run_op cache st loop in_view op m = Ok m').
Proof.
  intros Hr. apply reachable_map_wf in Hr as Hm. split; [by apply wf_nodup|]. split; [by apply wf_nodes|]. split.
  - intros i Hi. destruct (wf_layer _ Hm i Hi) as [f Hf]. exists f. split; [done|by apply wf_shape].
  - intros op Ho. destruct (run_op_ok cache st loop in_view op m Hm Ho) as (m' & E & _). eauto.
Qed.

(** ** From the service to the administrator's panel *)

(** The node panel for a node of the service. *)
Definition service_panel (n dpid : string) (v : val) : node_form :=
  let on := negb (zero_or_null (get v "mpls")) in
  let field k := if on then input_text (get v k) else estr in
  NodeForm n (num_to_string (parse_float (get v "node_lat"))) (num_to_string (parse_float (get v "node_long")))
    (input_text (get v "vlan_range")) (if zero_or_null (get v "openflow") then "false" else "true") on
    (field "mgmt_addr") (field "tcp_port") (field "vendor") (field "model") (field "sw_version")
    (if on then controller_value (get v "controller") else "netconf") (input_text (get v "short_name"))
    (negb (loose_eq (get v "default_drop") (VInt 0))) (negb (loose_eq (get v "default_forward") (VInt 0)))
    (input_text (get v "max_flows")) (input_text (get v "tx_delay_ms"))
    (negb (loose_eq (get v "barrier_bulk") (VInt 0))) (input_text (get v "max_static_mac_flows")) dpid.

(** C13 From the service to the panel of the administrator: a node that is not drawn yet
    and of which the cache (or the caller) has an object is drawn, and a click on its
    point opens a panel with the name, the position (as the map reads numbers) and the
    attributes of that object, each in its field: the datapath identifier in
    hexadecimal, the VLAN range, the short name, the fields of the OpenFlow
    configuration, and, when MPLS is on (neither 0 nor missing), the management
    address, port, vendor, model, version and controller; with MPLS off these six keep
    the values of an empty panel.  A node without a datapath identifier has no panel:
    opening it raises. *)
Theorem clicked_node_panel cache st loop in_view fuel n other info keep o m :
  wf m -> undrawn cache m < fuel -> isFeatureDrawn n m = false -> node_info cache n info = VObj o ->
  exists m' i f args, showNode cache st loop in_view fuel n other info keep m = Ok m' /\
    i ∈ layer m' /\ store m' !! i = Some f /\ featureselected m' f = ClickNode args /\
    (forall dpid, dpid_string (get (VObj o) "dpid") = Ok dpid ->
     open_node (VObj args) = Ok (service_panel n dpid (VObj o))) /\
    (get (VObj o) "dpid" = VUndef \/ get (VObj o) "dpid" = VNull -> open_node (VObj args) = Err EType).
Proof.
  intros Hm Hn Hd Ho.
  destruct (showNode_ok cache st loop in_view fuel n other info keep m Hm Hn) as (m' & E & _ & _ & Hi).
  rewrite Ho in Hi. destruct (Hi Hd eq_refl) as (i & Hl & Hf). exists m', i, (node_feature n (VObj o)). eexists.
  split; [done|]. split; [done|]. split; [done|]. split; [reflexivity|].
  change (get (VObj o) "dpid") with (attr "dpid" (node_feature n (VObj o))).
  split; [intros dpid E1|intros [E1|E1]];
    (transitivity (let? d := dpid_string (attr "dpid" (node_feature n (VObj o))) in Ok (service_panel n d (VObj o)));
     [reflexivity|by rewrite E1]).
Qed.

(** ** A network *)

Module Sample.

#[export] Instance literal_names : NameExpr :=
  {| name_expr t := Some (fun s => match String.index 0 t s with Some _ => true | None => false end) |}.

#[export] Instance escaped_labels : LabelMarkup :=
  {| division_texts rows := map (fun r => escape_text (snd r)) rows; division_texts_inert rows _ := eq_refl |}.

Definition place (lat long : Z) : val :=
  VObj [("node_lat", VInt lat); ("node_long", VInt long); ("node_id", VInt lat); ("number_available_endpoints", VInt 3);
        ("in_maint", VStr "no"); ("mpls", VInt 1); ("dpid", VInt 155569091328); ("vendor", VStr "Juniper"); ("controller", VStr "nso")].
Definition link_to (t n : string) : link_data := LinkData t n (VStr "up") (VInt 1) (VInt 1) VNull.

(** Three nodes in a row, two links between the first two. *)
Definition net : network :=
  Network [("chic", place 41 (-87)); ("wash", place 38 (-77)); ("newy", place 40 (-74))]
    [("chic", [link_to "wash" "chic-wash-1"; link_to "wash" "chic-wash-2"]);
     ("wash", [link_to "chic" "chic-wash-1"; link_to "chic" "chic-wash-2"; link_to "newy" "wash-newy"]);
     ("newy", [link_to "wash" "wash-newy"])] (VStr "i2") VUndef.

Definition fits (z : list (list (num * num))) (p : list (num * num)) : bool := true.

Definition state (ops : list map_op) (labels : bool) : res nddi :=
  res_fold (fun m op => run_op [net] labels VUndef fits op m) empty_map ops.

Definition after (ops : list map_op) : nddi := match state ops true with Ok m => m | Err _ => empty_map end.

Lemma after_reachable ops m : state ops true = Ok m -> reachable [net] true VUndef fits m.
Proof.
  unfold state. intros E. assert (H : forall l a, reachable [net] true VUndef fits a ->
    res_fold (fun m op => run_op [net] true VUndef fits op m) a l = Ok m -> reachable [net] true VUndef fits m).
  { induction l as [|op l IH]; intros a Ha; cbn [res_fold]; [by intros [= <-]|].
    intros (b & Eb & Er)%res_bind_Ok_inv. eapply IH; [|done]. by eapply reach_op. }
  apply (H ops empty_map); [apply reach_new|done].
Qed.

Definition circuit : map_session := MapSession ["chic"; "newy"] ["wash-newy"; "chic-wash-2"] ["wash-newy"] "primary" VUndef.

Definition loaded : nddi := after [OpLoad false].

Lemma loaded_reachable : reachable [net] true VUndef fits loaded.
Proof. apply (after_reachable [OpLoad false]). by vm_compute. Qed.

Lemma loaded_wf : wf loaded.
Proof. eapply reachable_map_wf, loaded_reachable. Qed.

Definition two : nddi := after [OpShow "chic" VUndef false; OpShow "newy" VUndef false; OpShow "wash" VUndef false].

Lemma two_wf : wf two.
Proof.
  eapply reachable_map_wf, (after_reachable [OpShow "chic" VUndef false; OpShow "newy" VUndef false; OpShow "wash" VUndef false]).
  by vm_compute.
Qed.

End Sample.

Import Sample.

Lemma session_shown_witness :
  exists m', updateMapFromSession [Sample.net] true Sample.fits 4 Sample.circuit false false Sample.loaded = Ok m' /\ wf m' /\
    (forall n, n ∈ node_names Sample.loaded -> n ∈ node_names m') /\
    forall i, i ∈ layer m' -> painted Sample.circuit false m' i.
Proof. apply session_shown; [apply Sample.loaded_wf|]. apply Nat.ltb_lt. vm_compute. reflexivity. Defined.

Lemma map_reachable_witness :
  NoDup (layer Sample.loaded) /\ NoDup (node_names Sample.loaded) /\
  (forall i, i ∈ layer Sample.loaded -> exists f, store Sample.loaded !! i = Some f /\ shape (store Sample.loaded) i f) /\
  (forall op, removes op = false -> exists m', run_op [Sample.net] true VUndef Sample.fits op Sample.loaded = Ok m').
Proof. apply (map_reachable [Sample.net] true VUndef Sample.fits), Sample.loaded_reachable. Defined.

Lemma clicked_node_panel_witness :
  exists m' i f args, showNode [Sample.net] true VUndef Sample.fits 4 "newy" VUndef VUndef false empty_map = Ok m' /\
    i ∈ layer m' /\ store m' !! i = Some f /\ featureselected m' f = ClickNode args /\
    open_node (VObj args) = Ok (service_panel "newy" "24:38:a3:f3:00" (Sample.place 40 (-74))).
Proof.
  edestruct (clicked_node_panel [Sample.net] true VUndef Sample.fits 4 "newy" VUndef VUndef false)
    as (m' & i & f & args & E & Hl & Hf & Ha & Hp & _); [apply wf_empty| |reflexivity|reflexivity|].
  - apply Nat.ltb_lt. vm_compute. reflexivity.
  - exists m', i, f, args. split; [exact E|]. split; [exact Hl|]. split; [exact Hf|]. split; [exact Ha|].
    apply Hp. vm_compute. reflexivity.
Defined.

Lemma node_removed_witness :
  let re t s := match String.index 0 t s with Some _ => true | None => false end in
  exists m', removeNode [Sample.net] "newy" Sample.two = Ok m' /\ wf m' /\ isFeatureDrawn "newy" m' = false /\
    store m' = store Sample.two /\
    layer m' = filter (fun i => negb (gone [Sample.net] "newy" (re "newy <=>") (re "<=> newy") Sample.two i)) (layer Sample.two).
Proof.
  apply (node_removed [Sample.net] "newy"); [reflexivity|reflexivity|apply Sample.two_wf| |vm_compute; reflexivity].
  apply links_after_sound. vm_compute. reflexivity.
Defined.

(** The first link of two keeps its place on the map when one of its ends is removed: the
    line has the name of its label, which no cached link has, and stays with its halo
    and its wide line; only the paths above it go. *)
Lemma stale_line_after_removal :
  match Sample.state [OpLoad false; OpRemove "chic"] true with
  | Ok m => map (fun p : nat * feature => ename_text (element_name (geo (snd p)))) (drawn m)
  | Err _ => []
  end
  = ["wash";
     "<div class='oess-multilink-map-label'><div style='text-shadow: 1px 1px 1px #FFF;color: #3158a7;'>chic-wash-1</div><div style='text-shadow: 1px 1px 1px #FFF;color: #3158a7;'>chic-wash-2</div></div>";
     "halo_line"; "fat_line"; "newy"; "wash-newy"; "halo_line"; "wash-newy"; "wash-newy"; "fat_line"].
Proof. by vm_compute. Qed.

(** Without labels the links that are up are not counted: two links in service are
    shown as down. *)
Lemma unlabelled_links_down ls : ls <> [] -> majority_state (link_up_count false ls) (length ls) = "down".
Proof. by destruct ls. Qed.

(** The count of overlapping links is written to the wide line, which has no label:
    it is not a number. *)
Lemma link_count_not_a_number i l : forall f, sandwich i l !! 4 = Some f -> obj_get "label" (style (bump_label f)) = Some (VNum NaN).
Proof. intros f [= <-]. reflexivity. Qed.

(** The legend with all its entries explains every image and every colour the map
    shows for a session. *)
Lemma legend_complete s discolor loop f :
  (discolor = false -> js_lt (attr "available_endpoints" f) (VInt 1) = false ->
   node_image s discolor loop f ∈ legend_images (legend_init true false true true)) /\
  line_color s f ∈ legend_colors (legend_init true false true true).
Proof.
  split.
  - intros -> Ha. unfold node_image. rewrite Ha. cbn [orb].
    repeat case_match; apply (bool_decide_unpack _); by vm_compute.
  - unfold line_color, idle_color. repeat case_match; apply (bool_decide_unpack _); by vm_compute.
Qed.
