(* ===== verification/Decimals.v ===== *)
(** * The text of numbers

    [parseFloat] reads back every decimal that was written as text, whatever
    follows it that cannot be part of a number.  The value of a decimal is a
    rational: the comparisons of numbers are those of their values. *)

From Stdlib Require Import ZArith QArith Qround Qabs Lqa Lia Ascii String.
From stdpp Require Import base option list strings numbers tactics.
From S2P Require Import Prelude JsValue Circuits.

(** ** Digits *)

Lemma dec_digits_length fuel : forall n acc s,
  (n < 10 ^ N.of_nat s)%N -> s <> 0 -> String.length (dec_digits fuel n acc) <= s + String.length acc.
Proof.
  induction fuel as [|f IH]; intros n acc s Hn Hs; cbn [dec_digits]; [lia|].
  destruct (N.ltb_spec n 10) as [|Hge]; [simpl; lia|].
  destruct s as [|[|s]]; [done|simpl in Hn; lia|]. rewrite (IH _ _ (S s)); [simpl; lia| |done].
  apply N.Div0.div_lt_upper_bound. rewrite <-N.pow_succ_r'. by rewrite <-Nat2N.inj_succ.
Qed.

Lemma string_of_N_length n s : (n < 10 ^ N.of_nat s)%N -> s <> 0 -> String.length (string_of_N n) <= s.
Proof. intros Hn Hs. unfold string_of_N. rewrite dec_digits_length by done. simpl. lia. Qed.

Lemma digits_value_acc dv s : forall a,
  digits_value 10 dv a s = (a * 10 ^ N.of_nat (String.length s) + digits_value 10 dv 0 s)%N.
Proof.
  induction s as [|c s IH]; intros a; cbn [digits_value String.length]; [rewrite N.pow_0_r; lia|].
  rewrite IH, (IH (0 * 10 + dv c)%N), Nat2N.inj_succ, N.pow_succ_r'. lia.
Qed.

Lemma dec_value_app a b : dec_value (a +:+ b) = (dec_value a * 10 ^ N.of_nat (String.length b) + dec_value b)%N.
Proof. unfold dec_value. by rewrite digits_value_app, digits_value_acc. Qed.

Definition zeros (k : nat) : string := str_concat (replicate k (String "0" estr)).

Lemma zeros_facts k :
  str_forall is_digit (zeros k) = true /\ String.length (zeros k) = k /\ dec_value (zeros k) = 0%N.
Proof.
  unfold zeros. induction k as [|k (IH1 & IH2 & IH3)]; [done|]. cbn [replicate str_concat String.append].
  split; [|split].
  - cbn [str_forall]. by rewrite IH1.
  - cbn [String.length]. by rewrite IH2.
  - unfold dec_value in *. cbn [digits_value]. exact IH3.
Qed.

Lemma pad_left_facts w n :
  (n < 10 ^ N.of_nat w)%N -> w <> 0 ->
  str_forall is_digit (pad_left w n) = true /\ String.length (pad_left w n) = w /\ dec_value (pad_left w n) = n.
Proof.
  intros Hn Hw. unfold pad_left. fold (zeros (w - String.length (string_of_N n))).
  destruct (zeros_facts (w - String.length (string_of_N n))) as (Z1 & Z2 & Z3).
  pose proof (string_of_N_length n w Hn Hw). split; [|split].
  - by rewrite str_forall_app, Z1, string_of_N_digits.
  - rewrite str_length_app, Z2. lia.
  - by rewrite dec_value_app, Z3, dec_value_string_of_N.
Qed.

(** ** Reading a text *)

(** A text that cannot continue a number. *)
Definition ends_number (rest : string) : Prop :=
  match rest with
  | EmptyString => True
  | String c _ => is_digit c = false /\ c <> "."%char /\ c <> "e"%char /\ c <> "E"%char
  end.

Lemma take_sign_digits c s : is_digit c = true -> take_sign (String c s) = (false, String c s).
Proof. intros Hc. unfold take_sign. by repeat (case_match; try done). Qed.

Lemma float_exponent_end rest : ends_number rest -> float_exponent rest = 0%Z.
Proof.
  destruct rest as [|c rest]; [done|]. intros (_ & _ & He & HE). unfold float_exponent.
  destruct (Ascii.eqb_spec c "e"); [done|]. by destruct (Ascii.eqb_spec c "E").
Qed.

Definition minus (neg : bool) : string := if neg then "-" else estr.

Lemma read_sign neg c s : is_digit c = true -> take_sign (ltrim (minus neg +:+ String c s)) = (neg, String c s).
Proof.
  intros Hc. destruct neg; [done|]. cbn [minus String.append]. rewrite ltrim_digit by done. by apply take_sign_digits.
Qed.

Lemma read_integer neg ip rest :
  str_forall is_digit ip = true -> ip <> estr -> ends_number rest ->
  parse_float (VStr (minus neg +:+ ip +:+ rest)) = signed neg (Fin (Dec (Z.of_N (dec_value ip)) 0)).
Proof.
  intros Hd Hne Hr. destruct ip as [|c ip]; [done|]. unfold parse_float. cbn [to_string].
  assert (is_digit c = true) as Hc by by apply andb_true_iff in Hd as [].
  change (String c ip +:+ rest) with (String c (ip +:+ rest)). rewrite read_sign by done.
  change (String c (ip +:+ rest)) with (String c ip +:+ rest). rewrite span_app; [|done|by destruct rest as [|d rest]; [|destruct Hr]].
  assert (match rest with String "." r1 => span is_digit r1 | _ => (estr, rest) end = (estr, rest)) as ->.
  { destruct rest as [|d rest]; [done|]. destruct Hr as (_ & Hdot & _). by repeat (case_match; try done). }
  rewrite str_app_nil_r, (float_exponent_end _ Hr). cbn [String.length]. unfold scale_by. done.
Qed.

Lemma read_decimal neg ip fp rest :
  str_forall is_digit ip = true -> ip <> estr -> str_forall is_digit fp = true -> ends_number rest ->
  parse_float (VStr (minus neg +:+ ip +:+ "." +:+ fp +:+ rest))
  = signed neg (Fin (dec_norm (Dec (Z.of_N (dec_value (ip +:+ fp))) (String.length fp)))).
Proof.
  intros Hd Hne Hf Hr. destruct ip as [|c ip]; [done|]. unfold parse_float. cbn [to_string].
  assert (is_digit c = true) as Hc by by apply andb_true_iff in Hd as [].
  change (String c ip +:+ "." +:+ fp +:+ rest) with (String c (ip +:+ String "." (fp +:+ rest))). rewrite read_sign by done.
  change (String c (ip +:+ String "." (fp +:+ rest))) with (String c ip +:+ String "." (fp +:+ rest)).
  rewrite span_app by done. rewrite span_app; [|done|by destruct rest as [|d rest]; [|destruct Hr]].
  rewrite (float_exponent_end _ Hr). change (String c ip +:+ fp) with (String c (ip +:+ fp)).
  unfold scale_by. rewrite Z.sub_0_r. destruct (Z.ltb_spec (Z.of_nat (String.length fp)) 0); [lia|].
  by rewrite Nat2Z.id.
Qed.

(** ** Normal forms *)

Lemma dec_strip_normal m s : (m mod 10 <> 0)%Z \/ s = 0 -> dec_strip m s = Dec m s.
Proof. destruct s; [done|]. cbn [dec_strip]. intros [Hm|?]; [|done]. by destruct (Z.eqb_spec (m mod 10) 0). Qed.

Lemma dec_norm_normal d : let '(Dec m s) := dec_norm d in (m mod 10 <> 0)%Z \/ s = 0.
Proof.
  destruct d as [m s]. unfold dec_norm. cbn [dman dscale]. revert m. induction s as [|s IH]; intros m; cbn [dec_strip]; [by right|].
  destruct (Z.eqb_spec (m mod 10) 0) as [|Hne]; [apply IH|by left].
Qed.

Lemma opp_mod_10 m : (m mod 10 <> 0)%Z -> ((- m) mod 10 <> 0)%Z.
Proof. intros Hm. rewrite Z.mod_opp_l_nz by lia. pose proof (Z.mod_pos_bound m 10). lia. Qed.

Lemma abs_mod_10 m : (m mod 10 <> 0)%Z -> (Z.abs m mod 10 <> 0)%Z.
Proof. intros Hm. destruct (Z.abs_spec m) as [[_ ->]|[_ ->]]; [done|by apply opp_mod_10]. Qed.

(** [parseFloat] of the text of a decimal, whatever follows it. *)
Lemma parse_float_text d rest :
  ends_number rest -> parse_float (VStr (num_to_string (Fin d) +:+ rest)) = Fin (dec_norm d).
Proof.
  intros Hr. unfold num_to_string. pose proof (dec_norm_normal d) as Hn. destruct (dec_norm d) as [m s].
  destruct s as [|s].
  - assert (string_of_Z m = minus (m <? 0)%Z +:+ string_of_N (Z.to_N (Z.abs m))) as -> by by destruct m.
    rewrite str_app_assoc. destruct (string_of_N_cons (Z.to_N (Z.abs m))) as (c & t & E & _).
    rewrite read_integer; [|apply string_of_N_digits|by rewrite E|done].
    rewrite dec_value_string_of_N, Z2N.id by lia. by destruct m.
  - set (a := Z.to_N (Z.abs m)). set (p := (10 ^ N.of_nat (S s))%N).
    assert (p <> 0)%N as Hp by (unfold p; by apply N.pow_nonzero).
    destruct (pad_left_facts (S s) (a mod p)) as (P1 & P2 & P3); [by apply N.mod_lt|done|].
    fold (minus (m <? 0)%Z). rewrite !str_app_assoc. destruct (string_of_N_cons (a / p)) as (c & t & E & _).
    rewrite (read_decimal (m <? 0)%Z); [|apply string_of_N_digits|by rewrite E|done|done].
    rewrite dec_value_app, P2, P3, dec_value_string_of_N. fold p. rewrite N.mul_comm, <-N.div_mod' by done.
    unfold a. rewrite Z2N.id by lia. destruct Hn as [Hn|?]; [|done].
    unfold dec_norm. cbn [dman dscale]. rewrite dec_strip_normal by (left; by apply abs_mod_10).
    destruct (Z.ltb_spec m 0); cbn [signed num_opp]; do 2 f_equal; lia.
Qed.

(** The characters of a number. *)
Definition number_char (c : ascii) : bool := is_digit c || Ascii.eqb c "-" || Ascii.eqb c ".".

Lemma digits_number_chars s : str_forall is_digit s = true -> str_forall number_char s = true.
Proof.
  induction s as [|c s IH]; [done|]. cbn [str_forall]. rewrite !andb_true_iff. intros [Hc Hs].
  unfold number_char at 1. rewrite Hc. by rewrite IH.
Qed.

Lemma num_text_chars d : str_forall number_char (num_to_string (Fin d)) = true.
Proof.
  unfold num_to_string. destruct (dec_norm d) as [m s]. destruct s as [|s].
  - destruct m; cbn [string_of_Z]; [done|..]; [|cbn [str_forall]]; apply digits_number_chars, string_of_N_digits.
  - destruct (pad_left_facts (S s) (Z.to_N (Z.abs m) mod 10 ^ N.of_nat (S s))) as (P1 & _); [apply N.mod_lt, N.pow_nonzero; lia|done|].
    rewrite !str_forall_app, (digits_number_chars (string_of_N _)) by apply string_of_N_digits.
    rewrite (digits_number_chars _ P1). by destruct (m <? 0)%Z.
Qed.

Lemma num_text_nonempty d : num_to_string (Fin d) <> estr.
Proof.
  unfold num_to_string. destruct (dec_norm d) as [m s]. destruct s as [|s].
  - destruct m as [|p|p]; cbn [string_of_Z]; [done| |done]. destruct (string_of_N_cons (Npos p)) as (c & t & -> & _). done.
  - destruct (m <? 0)%Z; [done|]. destruct (string_of_N_cons (Z.to_N (Z.abs m) / 10 ^ N.of_nat (S s))) as (c & t & -> & _). done.
Qed.

(** ** Values *)

Local Open Scope Q_scope.

Definition dec_Q (d : dec) : Q := inject_Z (dman d) / inject_Z (10 ^ Z.of_nat (dscale d)).

Lemma pow10_pos d : 0 < inject_Z (10 ^ Z.of_nat d).
Proof. change 0 with (inject_Z 0). rewrite <-Zlt_Qlt. apply Z.pow_pos_nonneg; lia. Qed.

Lemma pow10_S s : inject_Z (10 ^ Z.of_nat (S s)) == 10 * inject_Z (10 ^ Z.of_nat s).
Proof. by rewrite Nat2Z.inj_succ, Z.pow_succ_r, inject_Z_mult by lia. Qed.

Lemma dec_Q_norm d : dec_Q (dec_norm d) == dec_Q d.
Proof.
  destruct d as [m s]. unfold dec_norm. cbn [dman dscale]. revert m. induction s as [|s IH]; intros m; cbn [dec_strip]; [done|].
  destruct (Z.eqb_spec (m mod 10) 0) as [Hm|]; [|done]. rewrite IH. unfold dec_Q. cbn [dman dscale].
  pose proof (pow10_pos s). rewrite pow10_S. assert (inject_Z m == 10 * inject_Z (m / 10)) as ->.
  { change 10 with (inject_Z 10). rewrite <-inject_Z_mult. rewrite (Z.div_mod m 10) at 1 by lia. by rewrite Hm, Z.add_0_r. }
  field. lra.
Qed.

Lemma dec_compare_Q a b : dec_compare a b = (dec_Q a ?= dec_Q b).
Proof.
  destruct a as [m s], b as [n r]. unfold dec_compare, dscale_up, dec_Q. cbn [dman dscale].
  pose proof (pow10_pos s) as Hs. pose proof (pow10_pos r) as Hr.
  set (p := (10 ^ Z.of_nat s)%Z) in *. set (q := (10 ^ Z.of_nat r)%Z) in *.
  assert (E : forall x y : Z, (x ?= y)%Z = (inject_Z x ?= inject_Z y)).
  { intros x y. unfold Qcompare. cbn. by rewrite !Z.mul_1_r. }
  assert (Hf : forall k x y, 0 < k -> (x * k ?= y * k) = (x ?= y)).
  { intros k x y Hk. destruct (Qcompare_spec x y) as [Hc|Hc|Hc].
    - by apply Qeq_alt; rewrite Hc.
    - apply Qlt_alt. by apply Qmult_lt_r.
    - apply Qgt_alt. by apply Qmult_lt_r. }
  rewrite E, !inject_Z_mult. rewrite <-(Hf (inject_Z p * inject_Z q) (inject_Z m / inject_Z p)) by (by apply Qmult_lt_0_compat).
  apply Qcompare_comp; field; lra.
Qed.

Lemma num_ltb_Q a b : num_ltb (Fin a) (Fin b) = true <-> dec_Q a < dec_Q b.
Proof. unfold num_ltb. rewrite dec_compare_Q, Qlt_alt. by destruct (_ ?= _). Qed.

Lemma num_leb_Q a b : num_leb (Fin a) (Fin b) = true <-> dec_Q a <= dec_Q b.
Proof. unfold num_leb. rewrite dec_compare_Q, Qle_alt. by destruct (_ ?= _). Qed.

Lemma num_eqb_Q a b : num_eqb (Fin a) (Fin b) = true <-> dec_Q a == dec_Q b.
Proof. unfold num_eqb. rewrite dec_compare_Q, Qeq_alt. by destruct (_ ?= _). Qed.

(** [Math.round] of a decimal: half is rounded up. *)
Definition dec_round (d : dec) : Z :=
  let p := (10 ^ Z.of_nat (dscale d))%Z in ((2 * dman d + p) / (2 * p))%Z.

Lemma dec_round_near d : Qabs (inject_Z (dec_round d) - dec_Q d) <= 1 # 2.
Proof.
  unfold dec_round, dec_Q. pose proof (pow10_pos (dscale d)) as Hp. set (p := (10 ^ Z.of_nat (dscale d))%Z) in *.
  assert (0 < p)%Z as Hp' by (unfold p; apply Z.pow_pos_nonneg; lia). set (r := ((2 * dman d + p) / (2 * p))%Z).
  assert (H1 : (2 * p * r <= 2 * dman d + p)%Z) by (apply Z.mul_div_le; lia).
  assert (H2 : (2 * dman d + p < 2 * p * Z.succ r)%Z) by (apply Z.mul_succ_div_gt; lia).
  assert (inject_Z r - inject_Z (dman d) / inject_Z p == (inject_Z r * inject_Z p - inject_Z (dman d)) * / inject_Z p) as -> by (field; lra).
  rewrite <-inject_Z_mult. unfold Qminus. rewrite <-inject_Z_opp, <-inject_Z_plus.
  rewrite Qabs_Qmult, (Qabs_pos (/ _)) by (by apply Qlt_le_weak, Qinv_lt_0_compat).
  apply Qle_shift_div_r; [done|]. apply Qabs_Qle_condition. change (1 # 2) with (1 / 2).
  assert (- (1 / 2 * inject_Z p) == inject_Z (- p) * (1 # 2)) as -> by (rewrite inject_Z_opp; field).
  assert (1 / 2 * inject_Z p == inject_Z p * (1 # 2)) as -> by field.
  split.
  - assert (inject_Z (r * p + - dman d) == inject_Z (2 * (r * p + - dman d)) * (1 # 2)) as -> by (rewrite (inject_Z_mult 2); change (inject_Z 2) with 2; field).
    apply Qmult_le_compat_r; [|done]. rewrite <-Zle_Qle. lia.
  - assert (inject_Z (r * p + - dman d) == inject_Z (2 * (r * p + - dman d)) * (1 # 2)) as -> by (rewrite (inject_Z_mult 2); change (inject_Z 2) with 2; field).
    apply Qmult_le_compat_r; [|done]. rewrite <-Zle_Qle. lia.
Qed.
