(* ===== verification/Graph.v ===== *)
(** * The traffic graph (js_templates/graph.js)

    [MeasurementGraph] fetches the traffic of a circuit, draws it, and asks again
    from time to time.  What makes it hard is time: the timers of the browser, the
    requests in flight and the user's choice of another interface interleave
    freely.  The state [graph] has the fields of the object, and the timers and
    requests of the browser; [step] is one event: an answer to any of the requests
    in flight, a timer that fires, or a choice in the list of interfaces.

    The theorems: a notice that something is loading is never left alone; with one
    request at a time there is at most one timer, the one the object knows; and the
    text of an axis is within half of its last decimal of the value. *)

From Stdlib Require Import ZArith QArith Qabs Lqa Lia Ascii String.
From stdpp Require Import base option list strings gmap numbers tactics.
From S2P Require Import Prelude JsValue JsJson Fetch Api DataSource Decimals ConsoleProofs.

(** ** Numbers on the axis *)

(** [Math.round(value*100)/100] *)
Definition round (n : num) : num :=
  match n with
  | NaN => NaN
  | Fin (Dec m s) => Fin (dec_norm (Dec (dec_round (Dec (m * 100) s)) 2))
  end.

(** [value * 1000] *)
Definition times_1000 (n : num) : num :=
  match n with NaN => NaN | Fin (Dec m s) => Fin (Dec (m * 1000) s) end.

Definition convertToSI (value : val) : val :=
  if loose_eq value (VInt 0) || loose_eq value VNull then VStr "0" else
  let n := to_number value in
  if js_lt value (VInt 1) then VStr (num_to_string (round (times_1000 n)) +:+ " m") else
  if js_ge value (VInt 1000000000) then VStr (num_to_string (round (num_shift 9 n)) +:+ " G") else
  if js_ge value (VInt 1000000) then VStr (num_to_string (round (num_shift 6 n)) +:+ " M") else
  if js_ge value (VInt 1000) then VStr (num_to_string (round (num_shift 3 n)) +:+ " k") else
  VNum (round n).

(** ** The object and the browser around it *)

(** The panels over the graph, by their ids wait, build and error. *)
Inductive notice := Wait | Build | Error.

(** [setTimeout] fires once, [setInterval] again and again. *)
Inductive timer := Once | Every.

#[export] Instance timer_eq_dec : EqDecision timer.
Proof. solve_decision. Defined.

Record options := Options {
  circuit_id : val;
  timeframe : num;
  start : num;
  end_ : num;
  node : val;
  interface : val;
  link : val;
  title_div : bool
}.

(** One line of the graph. *)
Record series := Series { s_data : val; s_name : val; s_fill : bool; s_color : option string }.

(** The title: the node, and the list of interfaces with the selected index. *)
Record title := Title { t_node : val; t_options : list string; t_selected : nat }.

Record graph := Graph {
  g_options : options;
  g_graph : option (list series);
  g_panel : option notice;
  g_updating : option nat;
  g_title : option title;
  g_timers : gmap nat timer;
  g_next : nat;
  g_pending : list string
}.

Definition with_panel (p : option notice) (g : graph) : graph :=
  Graph (g_options g) (g_graph g) p (g_updating g) (g_title g) (g_timers g) (g_next g) (g_pending g).
Definition with_options (o : options) (g : graph) : graph :=
  Graph o (g_graph g) (g_panel g) (g_updating g) (g_title g) (g_timers g) (g_next g) (g_pending g).
Definition with_graph (d : list series) (g : graph) : graph :=
  Graph (g_options g) (Some d) (g_panel g) (g_updating g) (g_title g) (g_timers g) (g_next g) (g_pending g).
Definition with_title (t : title) (g : graph) : graph :=
  Graph (g_options g) (g_graph g) (g_panel g) (g_updating g) (Some t) (g_timers g) (g_next g) (g_pending g).
Definition with_timers (t : gmap nat timer) (g : graph) : graph :=
  Graph (g_options g) (g_graph g) (g_panel g) (g_updating g) (g_title g) t (g_next g) (g_pending g).
Definition with_pending (l : list string) (g : graph) : graph :=
  Graph (g_options g) (g_graph g) (g_panel g) (g_updating g) (g_title g) (g_timers g) (g_next g) l.

(** [this.updating = setTimeout(...)] or [setInterval(...)]: the browser gives the
    next identifier. *)
Definition set_timer (k : timer) (g : graph) : graph :=
  Graph (g_options g) (g_graph g) (g_panel g) (Some (g_next g)) (g_title g)
    (<[g_next g := k]> (g_timers g)) (S (g_next g)) (g_pending g).

(** Each panel replaces the one before it. *)
Definition _showLoading (g : graph) : graph := with_panel (Some Wait) g.
Definition _showBuilding (g : graph) : graph := with_panel (Some Build) g.
Definition _showError (g : graph) : graph := with_panel (Some Error) g.
Definition _hideLoading (g : graph) : graph := with_panel None g.

(** ** Sending a request *)

Definition data_url (o : options) : string :=
  "services/measurement.cgi?method=get_circuit_data&circuit_id=" +:+ to_string (circuit_id o)
    +:+ "&start=" +:+ num_to_string (parseInt (VNum (start o)))
    +:+ "&end=" +:+ num_to_string (parseInt (VNum (end_ o)))
    +:+ (if truthy (node o) then
           "&node=" +:+ encodeURIComponent (to_string (node o))
             +:+ (if truthy (interface o) then "&interface=" +:+ encodeURIComponent (to_string (interface o)) else estr)
         else if truthy (link o) then "&link=" +:+ encodeURIComponent (to_string (link o)) else estr).

Definition render (skip_show : bool) (g : graph) : graph :=
  let g := match g_updating g with Some t => with_timers (delete t (g_timers g)) g | None => g end in
  let g := if skip_show then g else _showLoading g in
  with_pending (g_pending g ++ [data_url (g_options g)]) g.

(** ** Reading a reply *)

(** The values a loop from 0 to [length] sees. *)
Definition items (v : val) : res (list val) :=
  match v with
  | VUndef | VNull => Err EType
  | VArr l => Ok l
  | VStr s => Ok (map (fun c => VStr (String c estr)) (list_ascii_of_string s))
  | _ => Ok []
  end.

(** Whether [intf == interface], for the last index where it holds. *)
Fixpoint selected_index (i : nat) (current : nat) (intf : val) (l : list val) : nat :=
  match l with
  | [] => current
  | x :: l' => selected_index (S i) (if loose_eq intf x then i else current) intf l'
  end.

(** The second component says that the function returned normally. *)
Definition _showTitle (nd intf all_interfaces : val) (g : graph) : graph * bool :=
  let o := g_options g in
  if negb (title_div o) then (g, true) else
  let o := Options (circuit_id o) (timeframe o) (start o) (end_ o)
             (if truthy (node o) then node o else nd) (if truthy (interface o) then interface o else intf)
             (link o) (title_div o) in
  let g := with_options o g in
  match items all_interfaces with
  | Err _ => (g, false)
  | Ok l => (with_title (Title nd (map to_string l) (selected_index 0 0 intf l)) g, true)
  end.

(** The lines of the graph; [None] when a line has no data. *)
Fixpoint shown_data (results : list val) : res (option (list series)) :=
  match results with
  | [] => Ok (Some [])
  | r :: results' =>
      let? name := prop r "name" in
      let? data := prop r "data" in
      let? empty := (if truthy data then let? n := prop data "length" in Ok (strict_eq n (VInt 0)) else Ok true) in
      if empty then Ok None else
      let s := Series data name (loose_eq name (VStr "Input (Bps)"))
                 (if loose_eq name (VStr "Output (Bps)") then Some "#0000FF"
                  else if loose_eq name (VStr "Input (Bps)") then Some "#00FF00" else None) in
      let? rest := shown_data results' in
      Ok (match rest with Some l => Some (s :: l) | None => None end)
  end.

Definition _renderGraph (results : list val) (meta : list (string * val)) (g : graph) : graph :=
  if loose_eq (meta_of meta "in_progress") (VInt 1) then set_timer Once (_showBuilding g) else
  if Nat.eqb (length results) 0 then _showError g else
  match shown_data results with
  | Err _ => g
  | Ok None => _showError g
  | Ok (Some l) =>
      let g := _hideLoading (with_graph l g) in
      let '(g, returned) := _showTitle (meta_of meta "node") (meta_of meta "interface") (meta_of meta "interfaces") g in
      if returned then set_timer Every g else g
  end.

(** The callbacks of the request. *)
Definition receive (r : reply) (g : graph) : graph :=
  match r with
  | Success results meta => _renderGraph results meta g
  | Failure => _showError (_hideLoading g)
  end.

(** ** Events *)

Inductive gevent :=
  | Answer (i : nat) (r : reply)
  | Fire (t : nat) (now : Z)
  | Choose (i : nat).

(** [Date.now() / 1000] *)
Definition seconds (now : Z) : num := num_shift 3 (Fin (Dec now 0)).

(** The window of the graph ends now. *)
Definition set_window (now : Z) (o : options) : options :=
  Options (circuit_id o) (timeframe o) (num_add (seconds now) (num_opp (timeframe o))) (seconds now)
    (node o) (interface o) (link o) (title_div o).

Definition set_interface (v : val) (o : options) : options :=
  Options (circuit_id o) (timeframe o) (start o) (end_ o) (node o) v (link o) (title_div o).

(** The functions given to [setTimeout] and [setInterval]. *)
Definition fire (t : nat) (now : Z) (g : graph) : graph :=
  match g_timers g !! t with
  | None => g
  | Some Once => render true (with_timers (delete t (g_timers g)) g)
  | Some Every => render true (with_options (set_window now (g_options g)) g)
  end.

(** The handler of the list of interfaces. *)
Definition change_interface (i : nat) (g : graph) : graph :=
  match g_title g with
  | Some t =>
      match t_options t !! i with
      | Some v => render false (with_options (set_interface (VStr v) (g_options g))
                                  (with_title (Title (t_node t) (t_options t) i) g))
      | None => g
      end
  | None => g
  end.

Definition step (g : graph) (e : gevent) : graph :=
  match e with
  | Answer i r => if Nat.ltb i (length (g_pending g)) then receive r (with_pending (delete i (g_pending g)) g) else g
  | Fire t now => fire t now g
  | Choose i => change_interface i g
  end.

Definition MeasurementGraph (now : Z) (o : options) : graph :=
  render false (Graph (set_window now o) None None None None ∅ 1 []).

Definition steps (g : graph) (l : list gevent) : graph := foldl step g l.

(** ** Replies *)

(** The rows of a reply are objects, as the schema makes them. *)
Definition is_row (v : val) : Prop := exists o, v = VObj o.

Definition event_ok (e : gevent) : Prop :=
  match e with Answer _ (Success results _) => Forall is_row results | _ => True end.

Lemma shown_data_total results : Forall is_row results -> exists l, shown_data results = Ok l.
Proof.
  induction 1 as [|r results [o ->] _ [l IH]]; [by eexists|]. cbn [shown_data prop res_bind]. rewrite IH.
  assert (exists b : bool, (if truthy (default VUndef (obj_get "data" o))
    then let? n := prop (default VUndef (obj_get "data" o)) "length" in Ok (strict_eq n (VInt 0)) else Ok true) = Ok b) as [b ->].
  { destruct (default VUndef (obj_get "data" o)); cbn; repeat case_match; by eexists. }
  cbn [res_bind]. destruct b; [by eexists|]. cbn [res_bind]. by destruct l; eexists.
Qed.

(** What a reply leaves: an error, a notice with the timer that will ask again, or
    the graph. *)
Inductive settled (g : graph) : Prop :=
  | settled_error : g_panel g = Some Error -> settled g
  | settled_build t : g_panel g = Some Build -> g_updating g = Some t -> g_timers g !! t = Some Once -> settled g
  | settled_graph : g_panel g = None -> is_Some (g_graph g) -> settled g.

Lemma showTitle_frame a b c g :
  let g' := fst (_showTitle a b c g) in
  g_panel g' = g_panel g /\ g_graph g' = g_graph g /\ g_updating g' = g_updating g /\
  g_timers g' = g_timers g /\ g_next g' = g_next g /\ g_pending g' = g_pending g.
Proof. unfold _showTitle. by repeat case_match. Qed.

Lemma receive_settled r g :
  match r with Success results _ => Forall is_row results | Failure => True end -> settled (receive r g).
Proof.
  destruct r as [|results meta]; intros Hr; [by apply settled_error|]. cbn [receive]. unfold _renderGraph.
  destruct (loose_eq _ _); [by eapply settled_build; [..|apply lookup_insert_eq]|].
  destruct (Nat.eqb _ 0); [by apply settled_error|].
  destruct (shown_data_total results Hr) as [[l|] ->]; [|by apply settled_error].
  match goal with |- context [_showTitle ?a ?b ?c ?g] => pose proof (showTitle_frame a b c g) as Hf; destruct (_showTitle a b c g) as [g' []] end;
    destruct Hf as (Hp & Hg & _); cbn in Hp, Hg; apply settled_graph; cbn; rewrite ?Hg; done.
Qed.

(** What a reply makes of the timers. *)
Lemma receive_timers r g :
  g_pending (receive r g) = g_pending g /\
  (g_timers (receive r g) = g_timers g /\ g_updating (receive r g) = g_updating g /\ g_next (receive r g) = g_next g \/
   exists k, g_timers (receive r g) = <[g_next g := k]> (g_timers g) /\ g_updating (receive r g) = Some (g_next g) /\
             g_next (receive r g) = S (g_next g)).
Proof.
  destruct r as [|results meta]; [by auto|]. cbn [receive]. unfold _renderGraph.
  destruct (loose_eq _ _); [split; [done|right; by exists Once]|].
  destruct (Nat.eqb _ 0); [by auto|]. destruct (shown_data results) as [[l|]|]; [|by auto..].
  match goal with |- context [_showTitle ?a ?b ?c ?g] => pose proof (showTitle_frame a b c g) as Hf; destruct (_showTitle a b c g) as [g' []] end;
    destruct Hf as (_ & _ & Hu & Ht & Hn & Hp); cbn in *; rewrite ?Hu, ?Ht, ?Hn, ?Hp; [|by auto].
  split; [done|right; by exists Every].
Qed.

(** ** Notices *)

Definition under_way (g : graph) : Prop :=
  g_pending g <> [] \/ exists t, g_updating g = Some t /\ is_Some (g_timers g !! t).

Definition not_stuck (g : graph) : Prop :=
  (g_panel g = Some Wait -> g_pending g <> []) /\
  (g_panel g = Some Build -> under_way g) /\
  (g_panel g = None -> is_Some (g_graph g)).

Lemma settled_not_stuck g : settled g -> not_stuck g.
Proof.
  intros [Hp|t Hp Hu Ht|Hp Hg]; repeat split; rewrite Hp; try done.
  intros _. right. exists t. split; [done|by eexists].
Qed.

Lemma render_facts b g :
  g_pending (render b g) <> [] /\ g_graph (render b g) = g_graph g /\
  g_panel (render b g) = (if b then g_panel g else Some Wait) /\
  g_timers (render b g) = match g_updating g with Some t => delete t (g_timers g) | None => g_timers g end /\
  g_updating (render b g) = g_updating g /\ g_next (render b g) = g_next g /\
  length (g_pending (render b g)) = S (length (g_pending g)).
Proof.
  unfold render. destruct (g_updating g) eqn:Hu, b; unfold with_pending, _showLoading, with_panel; cbn -[data_url];
    rewrite length_app, Hu; (repeat split; [by destruct (g_pending g)|cbn -[data_url]; lia]).
Qed.

Lemma rendered_not_stuck g : (g_panel g = None -> is_Some (g_graph g)) -> not_stuck (render true g).
Proof.
  intros H. destruct (render_facts true g) as (Hp & Hg & Hn & _). rewrite <-Hn, <-Hg in H.
  repeat split; try done. by left.
Qed.

Lemma step_not_stuck g e : event_ok e -> not_stuck g -> not_stuck (step g e).
Proof.
  intros He (Hw & Hb & Hn). destruct e as [i r|t now|i]; cbn [step].
  - destruct (Nat.ltb _ _); [|done]. apply settled_not_stuck, receive_settled. by destruct r.
  - unfold fire. destruct (g_timers g !! t) as [[]|]; [by apply rendered_not_stuck..|done].
  - unfold change_interface. destruct (g_title g) as [tt|]; [|done]. destruct (t_options tt !! i); [|done].
    match goal with |- not_stuck (render false ?g) => destruct (render_facts false g) as (Hp & _ & Hn' & _) end.
    repeat split; rewrite Hn'; try done.
Qed.

(** C28 Whatever answers arrive, in any order, whatever timers fire and whichever
    interfaces are chosen: while the graph says it is loading a request is in
    flight, while it says that data is being built a request is in flight or the
    timer that will send the next one is running, and without a notice a graph is
    shown. *)
Theorem loading_under_way now o l :
  Forall event_ok l -> not_stuck (steps (MeasurementGraph now o) l).
Proof.
  intros Hl. assert (H0 : not_stuck (MeasurementGraph now o)) by (repeat split; done).
  revert H0. generalize (MeasurementGraph now o). induction Hl as [|e l He _ IH]; intros g Hg; [done|].
  apply IH, step_not_stuck; done.
Qed.

(** ** Timers *)

(** Runs in which the user chooses an interface only when nothing is in flight. *)
Inductive calm : graph -> list gevent -> Prop :=
  | calm_nil g : calm g []
  | calm_cons g e l :
      match e with Choose _ => g_pending g = [] | _ => True end -> calm (step g e) l -> calm g (e :: l).

Definition single (g : graph) : Prop :=
  g_timers g = ∅ /\ length (g_pending g) <= 1 \/
  exists t k, g_timers g = {[t := k]} /\ g_updating g = Some t /\ g_pending g = [].

Lemma render_single b g :
  g_pending g = [] -> (g_timers g = ∅ \/ exists t k, g_timers g = {[t := k]} /\ g_updating g = Some t) ->
  single (render b g).
Proof.
  intros Hp Ht. destruct (render_facts b g) as (_ & _ & _ & Hr & _ & _ & Hl). left. rewrite Hr, Hl, Hp.
  split; [|done]. destruct Ht as [->|(t & k & -> & ->)]; [|apply delete_singleton_eq].
  destruct (g_updating g); [apply delete_empty|done].
Qed.

Lemma single_timers g : single g -> g_pending g = [] ->
  g_timers g = ∅ \/ exists t k, g_timers g = {[t := k]} /\ g_updating g = Some t.
Proof. intros [[Ht _]|(t & k & Ht & Hu & _)] _; [by left|right; by exists t, k]. Qed.

Lemma step_single g e :
  match e with Choose _ => g_pending g = [] | _ => True end -> single g -> single (step g e).
Proof.
  intros He Hs. destruct e as [i r|t now|i]; cbn [step].
  - destruct (Nat.ltb_spec i (length (g_pending g))) as [Hi|]; [|done].
    destruct Hs as [[Ht Hl]|(t & k & _ & _ & Hp)]; [|rewrite Hp in Hi; cbn in Hi; lia].
    destruct (receive_timers r (with_pending (delete i (g_pending g)) g)) as [Hp Hk]. cbn in Hp, Hk.
    assert (delete i (g_pending g) = []) as Hd.
    { destruct (g_pending g) as [|u [|]]; cbn in *; [lia| |lia]. by destruct i; [|lia]. }
    destruct Hk as [(Hk & _)|(k & Hk & Hu & _)].
    + left. rewrite Hk, Hp, Hd. split; [done|cbn; lia].
    + right. exists (g_next g), k. rewrite Hk, Hp, Hu, Ht. by rewrite insert_empty.
  - unfold fire. destruct (g_timers g !! t) as [k|] eqn:Ht; [|done].
    destruct Hs as [[H0 _]|(t' & k' & Ht' & Hu & Hp)]; [by rewrite H0 in Ht|].
    rewrite Ht', lookup_singleton_Some in Ht. destruct Ht as [-> ->].
    destruct k; apply render_single; try done.
    + left. cbn. rewrite Ht'. apply delete_singleton_eq.
    + right. by exists t, Every.
  - unfold change_interface. destruct (g_title g) as [tt|]; [|done]. destruct (t_options tt !! i); [|done].
    apply render_single; [done|]. exact (single_timers g Hs He).
Qed.

(** As long as an interface is chosen only while nothing is in flight, the graph
    asks one question at a time: of the timers and the requests in flight there is
    at most one, and a timer that runs is the one the object knows and clears
    before it asks again. *)
Theorem one_poll now o l :
  calm (MeasurementGraph now o) l ->
  let g := steps (MeasurementGraph now o) l in
  size (g_timers g) + length (g_pending g) <= 1 /\
  forall t, is_Some (g_timers g !! t) -> g_updating g = Some t.
Proof.
  intros Hl g. assert (single g) as Hg.
  { unfold g. clear g. assert (H0 : single (MeasurementGraph now o)) by (left; done).
    revert H0. induction Hl as [g|g e l He _ IH]; intros Hg; [done|]. by apply IH, step_single. }
  destruct Hg as [[-> Hp]|(t & k & -> & Hu & ->)].
  - split; [by rewrite map_size_empty|]. intros t [k Hk]. by rewrite lookup_empty in Hk.
  - rewrite map_size_singleton. split; [cbn; lia|]. by intros t' [k' [-> _]%lookup_singleton_Some].
Qed.

(** A repeating timer the object does not know. *)
Definition lost_timer (t : nat) (g : graph) : Prop :=
  g_timers g !! t = Some Every /\ g_updating g <> Some t /\ t < g_next g.

Lemma render_lost b t g : lost_timer t g -> lost_timer t (render b g).
Proof.
  intros (Ht & Hu & Hn). destruct (render_facts b g) as (_ & _ & _ & Hr & Hu' & Hn' & _).
  unfold lost_timer. rewrite Hr, Hu', Hn'. split; [|done]. destruct (g_updating g) as [u|]; [|done].
  rewrite lookup_delete_ne; [done|]. congruence.
Qed.

(** Such a timer is never stopped. *)
Lemma lost_timer_stays t g l : lost_timer t g -> lost_timer t (steps g l).
Proof.
  revert g. induction l as [|e l IH]; intros g Hg; [done|]. apply IH. destruct e as [i r|t' now|i]; cbn [step].
  - destruct (Nat.ltb _ _); [|done]. destruct Hg as (Ht & Hu & Hn).
    destruct (receive_timers r (with_pending (delete i (g_pending g)) g)) as [_ [(H1 & H2 & H3)|(k & H1 & H2 & H3)]];
      unfold lost_timer; rewrite H1, H2, H3; cbn; [done|].
    rewrite lookup_insert_ne by lia. split; [done|split; [|lia]]. intros [=]. lia.
  - unfold fire. destruct (g_timers g !! t') as [[]|] eqn:Ht'; [|by apply render_lost|done].
    apply render_lost. destruct Hg as (Ht & Hu & Hn). split; [|done]. cbn. rewrite lookup_delete_ne; [done|]. congruence.
  - unfold change_interface. destruct (g_title g) as [tt|]; [|done]. destruct (t_options tt !! i); [|done].
    by apply render_lost.
Qed.

(** ** The request for a chosen interface *)

Lemma number_unreserved n : str_forall uri_unreserved (num_to_string n) = true.
Proof.
  destruct n as [|d]; [done|]. eapply str_forall_weaken; [|apply num_text_chars]. intros c Hc.
  unfold number_char in Hc. unfold uri_unreserved. rewrite !orb_true_iff in Hc. destruct Hc as [[Hc|Hc]|Hc].
  - by rewrite Hc.
  - apply Ascii.eqb_eq in Hc. by subst c.
  - apply Ascii.eqb_eq in Hc. by subst c.
Qed.

Lemma truthy_text s : s <> estr -> truthy (VStr s) = true.
Proof. by destruct s. Qed.

Lemma interface_query o c n v :
  circuit_id o = VNum c -> node o = VStr n -> interface o = VStr v -> n <> estr -> v <> estr ->
  utf8_valid n = true -> utf8_valid v = true ->
  decoded_query (data_url o) =
  Some [("method", "get_circuit_data"); ("circuit_id", num_to_string c);
        ("start", num_to_string (parseInt (VNum (start o)))); ("end", num_to_string (parseInt (VNum (end_ o))));
        ("node", n); ("interface", v)].
Proof.
  intros Hc Hn Hi Hne Hve Hnu Hvu.
  rewrite <-(admin_query "services/measurement.cgi" "get_circuit_data"
    [("circuit_id", num_to_string c); ("start", num_to_string (parseInt (VNum (start o))));
     ("end", num_to_string (parseInt (VNum (end_ o)))); ("node", n); ("interface", v)]); [|done|done|].
  - f_equal. unfold data_url. rewrite Hc, Hn, Hi, !truthy_text by done. cbn [to_string escaped map fst snd amp].
    rewrite !(unreserved_encode (num_to_string _)) by apply number_unreserved.
    by rewrite ?str_app_nil_r, ?str_app_assoc.
  - unfold params_ok. repeat constructor; cbn [fst snd]; try done; apply unreserved_utf8, number_unreserved.
Qed.

(** A choice in the list of interfaces replaces the timer by one request, and the
    service reads from it the circuit, the node, the window of the graph and
    exactly the interface that was chosen. *)
Theorem chosen_interface_asked g t i v c n :
  g_title g = Some t -> t_options t !! i = Some v -> v <> estr -> utf8_valid v = true ->
  circuit_id (g_options g) = VNum c -> node (g_options g) = VStr n -> n <> estr -> utf8_valid n = true ->
  let g' := step g (Choose i) in
  g_panel g' = Some Wait /\ interface (g_options g') = VStr v /\
  (forall u, g_updating g = Some u -> g_timers g' !! u = None) /\
  exists url, g_pending g' = g_pending g ++ [url] /\
    decoded_query url =
    Some [("method", "get_circuit_data"); ("circuit_id", num_to_string c);
          ("start", num_to_string (parseInt (VNum (start (g_options g)))));
          ("end", num_to_string (parseInt (VNum (end_ (g_options g)))));
          ("node", n); ("interface", v)].
Proof.
  intros Ht Hi Hve Hvu Hc Hn Hne Hnu g'. unfold g'. cbn [step]. unfold change_interface. rewrite Ht, Hi.
  set (g1 := with_options _ _). destruct (render_facts false g1) as (_ & _ & Hp & Htm & _).
  split; [done|]. split; [by unfold render; destruct (g_updating g1)|]. split.
  - intros u Hu. rewrite Htm. change (g_updating g1) with (g_updating g). rewrite Hu. apply lookup_delete_eq.
  - exists (data_url (g_options g1)). split; [by unfold render; destruct (g_updating g1)|].
    by apply (interface_query (g_options g1)).
Qed.

(** ** The lines drawn *)

Definition row (name : string) (data : list val) : val := VObj [("name", VStr name); ("data", VArr data)].

Definition line (name : string) (data : list val) : series :=
  Series (VArr data) (VStr name) (String.eqb name "Input (Bps)")
    (if String.eqb name "Output (Bps)" then Some "#0000FF"
     else if String.eqb name "Input (Bps)" then Some "#00FF00" else None).

(** Lines with data are all drawn, in the order of the reply, and the graph goes on
    asking; one line without data makes it an error, and nothing asks again. *)
Lemma reply_drawn rows meta g :
  rows <> [] -> loose_eq (meta_of meta "in_progress") (VInt 1) = false -> title_div (g_options g) = false ->
  let g' := receive (Success (map (fun r => row (fst r) (snd r)) rows) meta) g in
  if forallb (fun r => negb (Nat.eqb (length (snd r)) 0)) rows
  then g_graph g' = Some (map (fun r => line (fst r) (snd r)) rows) /\ g_panel g' = None /\
       exists t, g_updating g' = Some t /\ g_timers g' !! t = Some Every
  else g' = _showError g.
Proof.
  intros Hne Hp Ht. cbn [receive]. unfold _renderGraph. rewrite Hp, length_map.
  assert (Nat.eqb (length rows) 0 = false) as -> by (by destruct rows).
  assert (shown_data (map (fun r => row (fst r) (snd r)) rows) =
    Ok (if forallb (fun r => negb (Nat.eqb (length (snd r)) 0)) rows then Some (map (fun r => line (fst r) (snd r)) rows) else None)) as ->.
  { clear. induction rows as [|[name data] rows IH]; [done|]. cbn [map shown_data row fst snd]. cbn [prop obj_get String.eqb Ascii.eqb Bool.eqb res_bind default truthy forallb].
    destruct data as [|x data]; [done|]. cbn [length Nat.eqb negb andb].
    rewrite IH. cbn [res_bind]. change (strict_eq (VInt (Z.of_nat (length (x :: data)))) (VInt 0)) with false.
    cbn. by destruct (forallb _ rows). }
  destruct (forallb _ rows); [|done]. unfold _showTitle. cbn [g_options _hideLoading with_panel with_graph]. rewrite Ht. cbn [negb].
  split; [done|]. split; [done|]. eexists. split; [done|]. apply lookup_insert_eq.
Qed.

(** ** The text of the axis *)

Local Open Scope Q_scope.

Lemma round_text_near d : exists r, round (Fin d) = Fin r /\ Qabs (dec_Q r - dec_Q d) <= 1 # 200.
Proof.
  destruct d as [m s]. eexists. split; [reflexivity|]. rewrite dec_Q_norm.
  pose proof (dec_round_near (Dec (m * 100) s)) as H. revert H. generalize (dec_round (Dec (m * 100) s)). intros k H.
  assert (dec_Q (Dec (m * 100) s) == 100 * dec_Q (Dec m s)) as E.
  { unfold dec_Q. cbn [dman dscale]. pose proof (pow10_pos s). rewrite inject_Z_mult. change (inject_Z 100) with 100. field. lra. }
  rewrite E in H. apply Qabs_Qle_condition in H. apply Qabs_Qle_condition.
  unfold dec_Q at 1 3. cbn [dman dscale]. change (inject_Z (10 ^ Z.of_nat 2)) with 100.
  assert (inject_Z k / 100 == inject_Z k * (1 # 100)) as -> by field. lra.
Qed.

(** A rounded number has two decimals. *)
Lemma round_hundredths d r : round (Fin d) = Fin r -> dec_Q r <= 1000 + (1 # 200) -> dec_Q r <= 1000.
Proof.
  destruct d as [m s]. intros [= <-]. rewrite dec_Q_norm. generalize (dec_round (Dec (m * 100) s)). intros k.
  unfold dec_Q. cbn [dman dscale]. change (inject_Z (10 ^ Z.of_nat 2)) with 100.
  assert (inject_Z k / 100 == inject_Z k * (1 # 100)) as -> by field. intros Hk.
  assert (k <= 100000)%Z as H; [|rewrite Zle_Qle in H; change (inject_Z 100000) with 100000 in H; lra].
  assert (inject_Z k < inject_Z 100001) as H; [|rewrite <-Zlt_Qlt in H; lia]. change (inject_Z 100001) with 100001. lra.
Qed.

(** A value of a unit, as text. *)
Lemma unit_text n d f v :
  n = Fin d -> 0 < f -> dec_Q d * f == v ->
  exists r, round n = Fin r /\ Qabs (dec_Q r * f - v) <= f * (1 # 200) /\ (v <= f * 1000 -> dec_Q r <= 1000).
Proof.
  intros -> Hf Hv. destruct (round_text_near d) as (r & Hr & Hn). exists r. split; [done|].
  assert (Hnear : Qabs (dec_Q r * f - v) <= f * (1 # 200)).
  { rewrite <-Hv. assert (dec_Q r * f - dec_Q d * f == f * (dec_Q r - dec_Q d)) as -> by ring.
    rewrite Qabs_Qmult, (Qabs_pos f) by lra. rewrite !(Qmult_comm f). apply Qmult_le_compat_r; [done|lra]. }
  split; [done|]. intros Hle. apply (round_hundredths d r Hr). apply Qabs_Qle_condition in Hnear.
  apply (Qmult_le_l _ _ f Hf). lra.
Qed.

Lemma shift_value k d : exists e, num_shift k (Fin d) = Fin e /\ dec_Q e * inject_Z (10 ^ Z.of_nat k) == dec_Q d.
Proof.
  destruct d as [m s]. eexists. split; [reflexivity|]. rewrite dec_Q_norm. unfold dec_Q. cbn [dman dscale].
  rewrite Nat2Z.inj_add, Z.pow_add_r, inject_Z_mult by lia. pose proof (pow10_pos s). pose proof (pow10_pos k). field. lra.
Qed.

Definition si_units : list (string * Q) :=
  [(" m", 1 # 1000); (estr, 1); (" k", 1000); (" M", 1000000); (" G", 1000000000)].

(** The text of a positive value on the axis is a number with a unit, and means
    the value up to half of the second decimal of that unit; the number is at most
    1000 unless the unit is the largest one. *)
Theorem axis_text d :
  0 < dec_Q d ->
  exists r suffix factor,
    (suffix, factor) ∈ si_units /\
    to_string (convertToSI (VNum (Fin d))) = num_to_string (Fin r) +:+ suffix /\
    Qabs (dec_Q r * factor - dec_Q d) <= factor * (1 # 200) /\
    (suffix = " G" \/ dec_Q r <= 1000).
Proof.
  intros Hd. unfold convertToSI. cbn [loose_eq to_number orb js_lt js_ge js_le text_operands].
  assert (Hk : forall z, dec_Q (Dec z 0) == inject_Z z) by (intros z; unfold dec_Q; cbn [dman dscale]; change (inject_Z (10 ^ Z.of_nat 0)) with 1; field).
  assert (num_eqb (Fin d) (Fin (Dec 0 0)) = false) as ->.
  { apply not_true_iff_false. rewrite num_eqb_Q, Hk. change (inject_Z 0) with 0. lra. }
  cbn [orb]. destruct (num_ltb (Fin d) (Fin (Dec 1 0))) eqn:E1.
  { apply num_ltb_Q in E1. rewrite Hk in E1. change (inject_Z 1) with 1 in E1.
    destruct (unit_text (times_1000 (Fin d)) (Dec (dman d * 1000) (dscale d)) (1 # 1000) (dec_Q d)) as (r & Hr & Hn & Hle); [by destruct d|done| |].
    { unfold dec_Q. cbn [dman dscale]. rewrite inject_Z_mult. change (inject_Z 1000) with 1000. pose proof (pow10_pos (dscale d)). field. lra. }
    exists r, " m", (1 # 1000). rewrite Hr. repeat split; [set_solver|done|]. right. apply Hle. lra. }
  assert (Hlt : forall z, num_leb (Fin (Dec z 0)) (Fin d) = false -> dec_Q d < inject_Z z).
  { intros z Hz. apply not_true_iff_false in Hz. rewrite num_leb_Q, Hk in Hz. lra. }
  assert (Hsh : forall k, exists r, round (num_shift k (Fin d)) = Fin r /\
    Qabs (dec_Q r * inject_Z (10 ^ Z.of_nat k) - dec_Q d) <= inject_Z (10 ^ Z.of_nat k) * (1 # 200) /\
    (dec_Q d <= inject_Z (10 ^ Z.of_nat k) * 1000 -> dec_Q r <= 1000)).
  { intros k. destruct (shift_value k d) as (e & He & Hv). apply (unit_text _ e); [done|apply pow10_pos|done]. }
  destruct (num_leb (Fin (Dec 1000000000 0)) (Fin d)) eqn:E9.
  { destruct (Hsh 9%nat) as (r & Hr & Hn & _). exists r, " G", 1000000000. rewrite Hr. repeat split; [set_solver|done|by left]. }
  apply Hlt in E9. destruct (num_leb (Fin (Dec 1000000 0)) (Fin d)) eqn:E6.
  { destruct (Hsh 6%nat) as (r & Hr & Hn & Hle). exists r, " M", 1000000. rewrite Hr.
    repeat split; [set_solver|done|right; apply Hle, Qlt_le_weak, E9]. }
  apply Hlt in E6. destruct (num_leb (Fin (Dec 1000 0)) (Fin d)) eqn:E3.
  { destruct (Hsh 3%nat) as (r & Hr & Hn & Hle). exists r, " k", 1000. rewrite Hr.
    repeat split; [set_solver|done|right; apply Hle, Qlt_le_weak, E6]. }
  apply Hlt in E3. destruct (unit_text (Fin d) d 1 (dec_Q d)) as (r & Hr & Hn & Hle); [done..|ring|].
  exists r, estr, 1. rewrite Hr. repeat split; [set_solver|by rewrite str_app_nil_r|done|right; apply Hle, Qlt_le_weak, E3].
Qed.

(** ** Witnesses *)

Definition sample_options : options :=
  Options (VInt 101) (Fin (Dec 600 0)) NaN NaN VUndef VUndef VUndef true.

Definition sample_reply (intf : string) : reply :=
  Success [row "Input (Bps)" [VArr [VInt 1700000000; VInt 12]]; row "Output (Bps)" [VArr [VInt 1700000000; VInt 7]]]
    [("in_progress", VUndef); ("node", VStr "mx1"); ("interface", VStr intf);
     ("interfaces", VArr [VStr "xe-0/0/0"; VStr "xe-0/0/1"])].

Definition sample_graph : graph :=
  steps (MeasurementGraph 1700000000000 sample_options) [Answer 0 (sample_reply "xe-0/0/0")].

Lemma sample_row_ok name data : is_row (row name data).
Proof. by eexists. Qed.

Lemma loading_under_way_witness :
  not_stuck (steps (MeasurementGraph 1700000000000 sample_options)
    [Answer 0 (sample_reply "xe-0/0/0"); Choose 1; Choose 0; Answer 1 (sample_reply "xe-0/0/0"); Answer 0 Failure; Fire 1 1700000010000]).
Proof.
  apply loading_under_way.
  repeat (apply List.Forall_cons;
    [first [exact I | repeat (apply List.Forall_cons; [apply sample_row_ok|]); apply List.Forall_nil]|]).
  apply List.Forall_nil.
Defined.

Lemma one_poll_witness :
  let g := steps (MeasurementGraph 1700000000000 sample_options)
             [Answer 0 (sample_reply "xe-0/0/0"); Choose 1; Answer 0 (sample_reply "xe-0/0/1"); Fire 2 1700000010000] in
  (size (g_timers g) + length (g_pending g) <= 1)%nat /\
  forall t, is_Some (g_timers g !! t) -> g_updating g = Some t.
Proof.
  apply one_poll. repeat (apply calm_cons; [first [exact I | vm_compute; reflexivity]|]). apply calm_nil.
Defined.

Lemma chosen_interface_asked_witness :
  let g' := step sample_graph (Choose 1) in
  g_panel g' = Some Wait /\ interface (g_options g') = VStr "xe-0/0/1" /\
  (forall u, g_updating sample_graph = Some u -> g_timers g' !! u = None) /\
  exists url, g_pending g' = g_pending sample_graph ++ [url] /\
    decoded_query url =
    Some [("method", "get_circuit_data"); ("circuit_id", "101"); ("start", "1699999400"); ("end", "1700000000");
          ("node", "mx1"); ("interface", "xe-0/0/1")].
Proof.
  exact (chosen_interface_asked sample_graph (Title (VStr "mx1") ["xe-0/0/0"; "xe-0/0/1"] 0) 1 "xe-0/0/1"
           (Fin (Dec 101 0)) "mx1" eq_refl eq_refl ltac:(discriminate) eq_refl eq_refl eq_refl ltac:(discriminate) eq_refl).
Defined.

Lemma axis_text_witness :
  exists r suffix factor,
    (suffix, factor) ∈ si_units /\
    to_string (convertToSI (VInt 1234567)) = num_to_string (Fin r) +:+ suffix /\
    Qabs (dec_Q r * factor - dec_Q (Dec 1234567 0)) <= factor * (1 # 200) /\
    (suffix = " G" \/ dec_Q r <= 1000).
Proof. apply axis_text. reflexivity. Defined.

(** Two choices in a row, answered one after the other: the timer of the first
    answer is lost, and by [lost_timer_stays] it goes on for ever. *)
Lemma overlapping_polls :
  lost_timer 2 (steps sample_graph [Choose 1; Choose 0; Answer 0 (sample_reply "xe-0/0/1"); Answer 0 (sample_reply "xe-0/0/0")]).
Proof. split; [vm_compute; reflexivity|split; [vm_compute; discriminate|vm_compute; lia]]. Qed.

(** A failure of a later request: the graph is covered, and nothing asks again. *)
Lemma failure_ends_polling :
  let g := steps sample_graph [Fire 1 1700000010000; Answer 0 Failure] in
  g_panel g = Some Error /\ g_pending g = [] /\ g_timers g = ∅.
Proof. by vm_compute. Qed.

(** Answers that overtake each other: the list and the graph show one interface,
    the next request asks for the other. *)
Lemma overtaken_answer :
  let g := steps sample_graph [Choose 1; Choose 0; Answer 1 (sample_reply "xe-0/0/0"); Answer 0 (sample_reply "xe-0/0/1")] in
  interface (g_options g) = VStr "xe-0/0/0" /\ (t_selected <$> g_title g) = Some 1%nat.
Proof. by vm_compute. Qed.
