(* ===== verification/MapBounds.v ===== *)
(** * Positions and bounds of the map (openlayers, lib/OpenLayers/BaseTypes)

    [OpenLayers.Bounds], [LonLat], [Pixel] and [Size].  Coordinates are rationals,
    computed exactly.  A fresh [Bounds] has no sides until it is extended; as the
    code sets the four of them together, bounds without sides are [None].  The
    centre of bounds is kept once it was asked for, and forgotten when the bounds
    change: [cbounds] has that cell.  The specifications are those of intervals:
    a point is in bounds, bounds are valid when no side is on the wrong side. *)

From Stdlib Require Import ZArith QArith Qround Qabs Lqa Lia Ascii String.
From stdpp Require Import base option list strings numbers tactics.
From S2P Require Import Prelude JsValue Api Checks Circuits Decimals MapGrid.

Local Open Scope Q_scope.

(** ** Points *)

Record lonlat := LonLat { lon : Q; lat : Q }.
Record pixel := Pixel { x : Q; y : Q }.
Record size := Size { w : Q; h : Q }.

Definition Qltb (a b : Q) : bool := negb (Qle_bool b a).

Lemma Qltb_lt a b : Qltb a b = true <-> a < b.
Proof. unfold Qltb. rewrite negb_true_iff, <-not_true_iff_false, Qle_bool_iff. split; [apply Qnot_le_lt|apply Qlt_not_le]. Qed.

Lemma Qltb_ge a b : Qltb a b = false <-> b <= a.
Proof. unfold Qltb. by rewrite negb_false_iff, Qle_bool_iff. Qed.

Lemma Qle_bool_lt a b : Qle_bool a b = false <-> b < a.
Proof. rewrite <-Qltb_lt. unfold Qltb. by rewrite negb_true_iff. Qed.

Definition ll_equals (a b : lonlat) : bool := Qeq_bool (lon a) (lon b) && Qeq_bool (lat a) (lat b).
Definition ll_add (a : lonlat) (dlon dlat : Q) : lonlat := LonLat (lon a + dlon) (lat a + dlat).
Definition px_equals (a b : pixel) : bool := Qeq_bool (x a) (x b) && Qeq_bool (y a) (y b).
Definition px_add (a : pixel) (dx dy : Q) : pixel := Pixel (x a + dx) (y a + dy).
Definition offset (a : pixel) (p : option pixel) : pixel :=
  match p with Some p => px_add a (x p) (y p) | None => a end.
Definition size_equals (a b : size) : bool := Qeq_bool (w a) (w b) && Qeq_bool (h a) (h b).

(** ** Bounds *)

Definition equals (a b : bounds) : bool :=
  Qeq_bool (left a) (left b) && Qeq_bool (right a) (right b) && Qeq_bool (top a) (top b)
  && Qeq_bool (bottom a) (bottom b).

Definition toArray (b : bounds) (reverseAxisOrder : bool) : list Q :=
  if reverseAxisOrder then [bottom b; left b; top b; right b] else [left b; bottom b; right b; top b].

Definition getWidth (b : bounds) : Q := right b - left b.
Definition getHeight (b : bounds) : Q := top b - bottom b.
Definition getSize (b : bounds) : size := Size (getWidth b) (getHeight b).
Definition getCenterPixel (b : bounds) : pixel := Pixel ((left b + right b) / 2) ((bottom b + top b) / 2).
Definition getCenter (b : bounds) : lonlat := LonLat ((left b + right b) / 2) ((bottom b + top b) / 2).

(** About the centre, or about the origin given. *)
Definition scale (b : bounds) (ratio : Q) (origin : option lonlat) : bounds :=
  let o := default (getCenter b) origin in
  Bounds ((left b - lon o) * ratio + lon o) ((bottom b - lat o) * ratio + lat o)
    ((right b - lon o) * ratio + lon o) ((top b - lat o) * ratio + lat o).

Definition add (b : bounds) (dx dy : Q) : bounds :=
  Bounds (left b + dx) (bottom b + dy) (right b + dx) (top b + dy).

(** A position as bounds; [extend] takes bounds, or a position read so. *)
Definition of_point (p : lonlat) : bounds := Bounds (lon p) (lat p) (lon p) (lat p).

Definition extend (b : option bounds) (o : bounds) : bounds :=
  match b with
  | None => o
  | Some b =>
      Bounds (if Qltb (left o) (left b) then left o else left b)
        (if Qltb (bottom o) (bottom b) then bottom o else bottom b)
        (if Qltb (right b) (right o) then right o else right b)
        (if Qltb (top b) (top o) then top o else top b)
  end.

Definition contains (b : bounds) (x y : Q) (inclusive : bool) : bool :=
  if inclusive then
    Qle_bool (left b) x && Qle_bool x (right b) && Qle_bool (bottom b) y && Qle_bool y (top b)
  else Qltb (left b) x && Qltb x (right b) && Qltb (bottom b) y && Qltb y (top b).

Definition containsLonLat (b : bounds) (p : lonlat) (inclusive : bool) : bool := contains b (lon p) (lat p) inclusive.
Definition containsPixel (b : bounds) (p : pixel) (inclusive : bool) : bool := contains b (x p) (y p) inclusive.

Definition intersectsBounds (a b : bounds) (inclusive : bool) : bool :=
  let mightTouch := Qeq_bool (left a) (right b) || Qeq_bool (right a) (left b)
                    || Qeq_bool (top a) (bottom b) || Qeq_bool (bottom a) (top b) in
  if inclusive || negb mightTouch then
    let within v lo hi := Qle_bool lo v && Qle_bool v hi in
    let inBottom := within (bottom b) (bottom a) (top a) || within (bottom a) (bottom b) (top b) in
    let inTop := within (top b) (bottom a) (top a) || (Qltb (bottom b) (top a) && Qltb (top a) (top b)) in
    let inLeft := within (left b) (left a) (right a) || within (left a) (left b) (right b) in
    let inRight := within (right b) (left a) (right a) || within (right a) (left b) (right b) in
    (inBottom || inTop) && (inLeft || inRight)
  else false.

Definition containsBounds (a b : bounds) (partial inclusive : bool) : bool :=
  let bottomLeft := contains a (left b) (bottom b) inclusive in
  let bottomRight := contains a (right b) (bottom b) inclusive in
  let topLeft := contains a (left b) (top b) inclusive in
  let topRight := contains a (right b) (top b) inclusive in
  if partial then bottomLeft || bottomRight || topLeft || topRight
  else bottomLeft && bottomRight && topLeft && topRight.

Definition determineQuadrant (b : bounds) (p : lonlat) : string :=
  (if Qltb (lat p) (lat (getCenter b)) then "b" else "t") +:+ (if Qltb (lon p) (lon (getCenter b)) then "l" else "r").

Definition oppositeQuadrant (q : string) : string :=
  (match String.get 0 q with Some c => if Ascii.eqb c "t" then "b" else "t" | None => "t" end)
  +:+ (match String.get 1 q with Some c => if Ascii.eqb c "l" then "r" else "l" | None => "l" end).

(** The corners through a projection, and the box around them. *)
Definition Qmin' (a b : Q) : Q := if Qle_bool a b then a else b.
Definition Qmax' (a b : Q) : Q := if Qle_bool a b then b else a.
Definition transform (project : lonlat -> lonlat) (b : bounds) : bounds :=
  let ll := project (LonLat (left b) (bottom b)) in let lr := project (LonLat (right b) (bottom b)) in
  let ul := project (LonLat (left b) (top b)) in let ur := project (LonLat (right b) (top b)) in
  Bounds (Qmin' (lon ll) (lon ul)) (Qmin' (lat ll) (lat lr)) (Qmax' (lon lr) (lon ur)) (Qmax' (lat ul) (lat ur)).

(** ** Crossing the date line *)

(** [while (again v) v += step], with fuel. *)
Fixpoint shift_while {A} (again : A -> bool) (step : A -> A) (fuel : nat) (v : A) : option A :=
  match fuel with
  | O => None
  | S n => if again v then shift_while again step n (step v) else Some v
  end.

(** Enough turns to bring [v], at the distance [d], by steps of [width]. *)
Definition turns (d width : Q) : nat := S (Z.to_nat (Qceiling (d / width))).

Definition wrap_lon (lo hi v : Q) : option Q :=
  let width := hi - lo in
  v1 ← shift_while (fun v => Qltb v lo) (fun v => v + width) (S (turns (lo - v) width)) v;
  shift_while (fun v => Qltb hi v) (fun v => v - width) (S (turns (v1 - hi) width)) v1.

Definition ll_wrapDateLine (maxExtent : bounds) (p : lonlat) : option lonlat :=
  (fun v => LonLat v (lat p)) <$> wrap_lon (left maxExtent) (right maxExtent) (lon p).

Definition wrapDateLine (maxExtent : bounds) (leftTolerance rightTolerance : Q) (b : bounds) : option bounds :=
  let width := getWidth maxExtent in
  let n d := S (turns d width) in
  b1 ← shift_while (fun b => Qltb (left b) (left maxExtent) && Qle_bool (right b - rightTolerance) (left maxExtent))
         (fun b => add b width 0) (n (left maxExtent - left b)) b;
  shift_while (fun b => Qle_bool (right maxExtent) (left b + leftTolerance) && Qltb (right maxExtent) (right b))
    (fun b => add b (- width) 0) (n (right b1 - right maxExtent)) b1.

(** ** The centre that is kept *)

Record cbounds := CBounds { box : bounds; centerLonLat : option lonlat }.

Definition getCenterLonLat (b : cbounds) : cbounds * lonlat :=
  let c := default (getCenter (box b)) (centerLonLat b) in (CBounds (box b) (Some c), c).

(** The operations that change the bounds in place. *)
Inductive bounds_op :=
  | OpExtend (o : bounds)
  | OpTransform (project : lonlat -> lonlat)
  | OpCenter.

Definition bounds_step (op : bounds_op) (b : cbounds) : cbounds :=
  match op with
  | OpExtend o => CBounds (extend (Some (box b)) o) None
  | OpTransform f => CBounds (transform f (box b)) None
  | OpCenter => fst (getCenterLonLat b)
  end.

(** ** Text *)

(** [Math.round(v * mult) / mult], with [mult] a power of ten. *)
Definition decimals (d : nat) (v : Q) : dec := Dec (round (v * inject_Z (10 ^ Z.of_nat d))) d.

Definition toBBOX (b : bounds) (d : nat) (reverseAxisOrder : bool) : string :=
  str_join "," (map (fun v => num_to_string (Fin (decimals d v))) (toArray b reverseAxisOrder)).

(** [parseFloat] of the four parts; a part that is missing or no number gives [NaN]. *)
Definition fromArray (l : list val) : num * num * num * num :=
  let at_ i := parse_float (default VUndef (l !! i)) in (at_ 0%nat, at_ 1%nat, at_ 2%nat, at_ 3%nat).

Definition fromString (s : string) : num * num * num * num := fromArray (map VStr (split_on "," s)).

Definition fromSize (s : size) : bounds := Bounds 0 (h s) (w s) 0.

(** ** Equality of bounds *)

Definition beq (a b : bounds) : Prop :=
  left a == left b /\ bottom a == bottom b /\ right a == right b /\ top a == top b.

#[export] Instance beq_equivalence : Equivalence beq.
Proof.
  split.
  - intros b. unfold beq. split_and!; reflexivity.
  - intros a b (H1 & H2 & H3 & H4). unfold beq. split_and!; by symmetry.
  - intros a b c (H1 & H2 & H3 & H4) (G1 & G2 & G3 & G4). unfold beq. split_and!; etransitivity; eassumption.
Qed.

Lemma equals_iff a b : equals a b = true <-> beq a b.
Proof. unfold equals, beq. rewrite !andb_true_iff, !Qeq_bool_iff. tauto. Qed.

#[export] Instance Qltb_proper : Proper (Qeq ==> Qeq ==> eq) Qltb.
Proof. intros a a' Ha b b' Hb. unfold Qltb. by rewrite Ha, Hb. Qed.

#[export] Instance contains_proper : Proper (beq ==> Qeq ==> Qeq ==> eq ==> eq) contains.
Proof.
  intros a b (H1 & H2 & H3 & H4) u u' Hu v v' Hv i ? <-. unfold contains.
  destruct i; by rewrite H1, H2, H3, H4, Hu, Hv.
Qed.

#[export] Instance containsBounds_proper : Proper (beq ==> beq ==> eq ==> eq ==> eq) containsBounds.
Proof.
  intros a a' Ha b b' (H1 & H2 & H3 & H4) p ? <- i ? <-. unfold containsBounds.
  destruct p; by rewrite Ha, H1, H2, H3, H4.
Qed.

#[export] Instance intersectsBounds_proper : Proper (beq ==> beq ==> eq ==> eq) intersectsBounds.
Proof.
  intros a a' (G1 & G2 & G3 & G4) b b' (H1 & H2 & H3 & H4) i ? <-. unfold intersectsBounds.
  assert (E : Qeq_bool (left a) (right b) || Qeq_bool (right a) (left b) || Qeq_bool (top a) (bottom b) || Qeq_bool (bottom a) (top b)
    = Qeq_bool (left a') (right b') || Qeq_bool (right a') (left b') || Qeq_bool (top a') (bottom b') || Qeq_bool (bottom a') (top b'))
    by by rewrite G1, G2, G3, G4, H1, H2, H3, H4.
  cbn zeta. rewrite E. destruct (i || _); [|done]. by rewrite G1, G2, G3, G4, H1, H2, H3, H4.
Qed.

(** ** Points in bounds *)

Definition valid (b : bounds) : Prop := left b <= right b /\ bottom b <= top b.
Definition proper (b : bounds) : Prop := left b < right b /\ bottom b < top b.

(** The point is in the bounds; it is strictly inside. *)
Definition inside (b : bounds) (p : lonlat) : Prop :=
  (left b <= lon p <= right b) /\ (bottom b <= lat p <= top b).
Definition interior (b : bounds) (p : lonlat) : Prop :=
  (left b < lon p < right b) /\ (bottom b < lat p < top b).

(** Every point of [a] is in [b]. *)
Definition covers (b a : bounds) : Prop :=
  left b <= left a /\ right a <= right b /\ bottom b <= bottom a /\ top a <= top b.

Lemma contains_in b p : containsLonLat b p true = true <-> inside b p.
Proof. unfold containsLonLat, contains, inside. rewrite !andb_true_iff, !Qle_bool_iff. tauto. Qed.

Lemma contains_interior b p : containsLonLat b p false = true <-> interior b p.
Proof. unfold containsLonLat, contains, interior. rewrite !andb_true_iff, !Qltb_lt. tauto. Qed.

Lemma covers_spec b a : valid a -> covers b a <-> forall p, inside a p -> inside b p.
Proof.
  intros [Hx Hy]. unfold covers, inside. split.
  - intros (H1 & H2 & H3 & H4) p [[? ?] [? ?]]. repeat split; lra.
  - intros Hp. pose proof (Hp (LonLat (left a) (bottom a))) as Ha. pose proof (Hp (LonLat (right a) (top a))) as Hb.
    cbn [lon lat] in *. lra.
Qed.

Lemma containsBounds_covers a b : valid b -> containsBounds a b false true = true <-> covers a b.
Proof.
  intros [Hx Hy]. unfold containsBounds, contains, covers. rewrite !andb_true_iff, !Qle_bool_iff. lra.
Qed.

(** Whether two intervals of valid bounds meet. *)
Lemma within_iff v lo hi : Qle_bool lo v && Qle_bool v hi = true <-> lo <= v <= hi.
Proof. by rewrite andb_true_iff, !Qle_bool_iff. Qed.

Lemma meet_iff (l1 r1 l2 r2 : Q) (b : bool) :
  l1 <= r1 -> l2 <= r2 -> (b = true -> l1 <= r2 /\ l2 <= r1) ->
  ((Qle_bool l1 l2 && Qle_bool l2 r1) || (Qle_bool l2 l1 && Qle_bool l1 r2)) || b = true <-> l1 <= r2 /\ l2 <= r1.
Proof.
  intros H1 H2 Hb. rewrite !orb_true_iff, !within_iff. split.
  - intros [[?|?]|?%Hb]; lra.
  - intros [? ?]. left. destruct (Qlt_le_dec l2 l1); [right|left]; lra.
Qed.

Lemma Qle_neq_lt a b : a <= b -> ~ a == b -> a < b.
Proof. intros H N. apply Qle_lteq in H as [?|?]; done. Qed.

Lemma Qge_neq_lt a b : a <= b -> ~ b == a -> a < b.
Proof. intros H N. apply Qle_neq_lt; [done|]. intros E. by apply N. Qed.

Lemma intersects_sides a b :
  valid a -> valid b ->
  intersectsBounds a b true = true <-> (left a <= right b /\ left b <= right a) /\ (bottom a <= top b /\ bottom b <= top a).
Proof.
  intros [Ha1 Ha2] [Hb1 Hb2]. unfold intersectsBounds. cbn [orb]. rewrite andb_true_iff.
  rewrite (meet_iff (bottom a) (top a) (bottom b) (top b)), (meet_iff (left a) (right a) (left b) (right b)); try assumption.
  - tauto.
  - rewrite orb_true_iff, !within_iff. lra.
  - rewrite orb_true_iff, within_iff, andb_true_iff, !Qltb_lt. lra.
Qed.

(** Intersection of bounds is what it should be: valid bounds intersect,
    the edges included, exactly when they have a point in common; and bounds
    with an area intersect, the edges excluded, exactly when they have a point in
    common that is strictly inside both. *)
Theorem intersects_exact a b :
  (valid a -> valid b -> intersectsBounds a b true = true <-> exists p, inside a p /\ inside b p) /\
  (proper a -> proper b -> intersectsBounds a b false = true <-> exists p, interior a p /\ interior b p).
Proof.
  split.
  - intros Ha Hb. rewrite intersects_sides by done. unfold valid, inside in *. split.
    + intros H. exists (LonLat (Qmax' (left a) (left b)) (Qmax' (bottom a) (bottom b))). cbn [lon lat]. unfold Qmax'.
      destruct (Qle_bool (left a) (left b)) eqn:E1, (Qle_bool (bottom a) (bottom b)) eqn:E2;
        rewrite ?Qle_bool_iff, ?Qle_bool_lt in *; lra.
    + intros (p & Hp & Hq). lra.
  - intros Ha Hb. assert (valid a /\ valid b) as [Va Vb] by (unfold proper, valid in *; lra).
    assert (intersectsBounds a b false = true <-> intersectsBounds a b true = true /\
      (~ left a == right b /\ ~ right a == left b /\ ~ top a == bottom b /\ ~ bottom a == top b)) as ->.
    { unfold intersectsBounds. cbn [orb]. destruct (Qeq_bool (left a) (right b) || _ || _ || _) eqn:E; cbn [negb].
      - rewrite !orb_true_iff, !Qeq_bool_iff in E. split; [done|]. tauto.
      - rewrite !orb_false_iff, <-!not_true_iff_false, !Qeq_bool_iff in E. tauto. }
    rewrite intersects_sides by done. unfold proper, interior in *. split.
    + intros [[[H1 H2] [H3 H4]] (N1 & N2 & N3 & N4)].
      apply (Qle_neq_lt _ _ H1) in N1. apply (Qge_neq_lt _ _ H2) in N2. apply (Qle_neq_lt _ _ H3) in N4. apply (Qge_neq_lt _ _ H4) in N3.
      exists (LonLat ((Qmax' (left a) (left b) + Qmin' (right a) (right b)) * (1 # 2))
                     ((Qmax' (bottom a) (bottom b) + Qmin' (top a) (top b)) * (1 # 2))). cbn [lon lat]. unfold Qmax', Qmin'.
      destruct (Qle_bool (left a) (left b)) eqn:E1, (Qle_bool (bottom a) (bottom b)) eqn:E2,
        (Qle_bool (right a) (right b)) eqn:E3, (Qle_bool (top a) (top b)) eqn:E4;
        rewrite ?Qle_bool_iff, ?Qle_bool_lt in *; lra.
    + intros (p & Hp & Hq). lra.
Qed.

(** [extend] makes the smallest bounds around both. *)
Lemma extend_least b o c :
  covers (extend b o) o /\ (forall b', b = Some b' -> covers (extend b o) b') /\
  (covers c o -> (forall b', b = Some b' -> covers c b') -> covers c (extend b o)).
Proof.
  destruct b as [b|]; cbn [extend].
  2: { unfold covers. split_and!; [lra..|done|done]. }
  assert (Hsides : covers (extend (Some b) o) o /\ covers (extend (Some b) o) b /\
    (covers c o -> covers c b -> covers c (extend (Some b) o))).
  { unfold covers. cbn [extend left right bottom top].
    destruct (Qltb (left o) (left b)) eqn:E1, (Qltb (bottom o) (bottom b)) eqn:E2,
      (Qltb (right b) (right o)) eqn:E3, (Qltb (top b) (top o)) eqn:E4; rewrite ?Qltb_lt, ?Qltb_ge in *; split_and!; lra. }
  destruct Hsides as (H1 & H2 & H3). split; [done|]. split; [by intros b' [= <-]|]. intros Ho Hb. apply H3; [done|by apply Hb].
Qed.

Lemma extend_valid b o : (forall b', b = Some b' -> valid b') -> valid o -> valid (extend b o).
Proof.
  intros Hb Ho. pose proof (extend_least b o o) as (H1 & _). unfold covers, valid in *. lra.
Qed.

(** ** Around the world *)

Section wrapping.
Context (width : Q) (Hw : 0 < width).

Lemma shift_up lo n : forall v, lo <= v + inject_Z (Z.of_nat n) * width ->
  exists r k, shift_while (fun v => Qltb v lo) (fun v => v + width) (S n) v = Some r /\ lo <= r /\
    r == v + inject_Z (Z.of_nat k) * width /\ (k = 0%nat \/ r < lo + width) /\ (lo <= v -> k = 0%nat).
Proof.
  induction n as [|n IH]; intros v Hv; cbn [shift_while].
  - change (inject_Z (Z.of_nat 0)) with 0 in Hv. assert (Qltb v lo = false) as -> by (apply Qltb_ge; lra).
    exists v, 0%nat. change (inject_Z (Z.of_nat 0)) with 0. split; [done|]. split; [lra|]. split; [ring|]. split; [by left|done].
  - destruct (Qltb v lo) eqn:E.
    + apply Qltb_lt in E. destruct (IH (v + width)) as (r & k & Er & Hr & Ek & Hk & _).
      { rewrite Nat2Z.inj_succ, <-Z.add_1_r, inject_Z_plus in Hv. change (inject_Z 1) with 1 in Hv. lra. }
      exists r, (S k). split; [done|]. split; [done|]. rewrite Nat2Z.inj_succ, <-Z.add_1_r, inject_Z_plus.
      change (inject_Z 1) with 1. split; [rewrite Ek; ring|]. split; [right|lra]. destruct Hk as [->|?]; [|done].
      change (inject_Z (Z.of_nat 0)) with 0 in Ek. lra.
    + apply Qltb_ge in E. exists v, 0%nat. change (inject_Z (Z.of_nat 0)) with 0. split; [done|]. split; [lra|]. split; [ring|]. split; [by left|done].
Qed.

Lemma shift_down hi n : forall v, v - inject_Z (Z.of_nat n) * width <= hi ->
  exists r k, shift_while (fun v => Qltb hi v) (fun v => v - width) (S n) v = Some r /\ r <= hi /\
    r == v - inject_Z (Z.of_nat k) * width /\ (k = 0%nat \/ hi - width < r) /\ (v <= hi -> k = 0%nat).
Proof.
  induction n as [|n IH]; intros v Hv; cbn [shift_while].
  - change (inject_Z (Z.of_nat 0)) with 0 in Hv. assert (Qltb hi v = false) as -> by (apply Qltb_ge; lra).
    exists v, 0%nat. change (inject_Z (Z.of_nat 0)) with 0. split; [done|]. split; [lra|]. split; [ring|]. split; [by left|done].
  - destruct (Qltb hi v) eqn:E.
    + apply Qltb_lt in E. destruct (IH (v - width)) as (r & k & Er & Hr & Ek & Hk & _).
      { rewrite Nat2Z.inj_succ, <-Z.add_1_r, inject_Z_plus in Hv. change (inject_Z 1) with 1 in Hv. lra. }
      exists r, (S k). split; [done|]. split; [done|]. rewrite Nat2Z.inj_succ, <-Z.add_1_r, inject_Z_plus.
      change (inject_Z 1) with 1. split; [rewrite Ek; ring|]. split; [right|lra]. destruct Hk as [->|?]; [|done].
      change (inject_Z (Z.of_nat 0)) with 0 in Ek. lra.
    + apply Qltb_ge in E. exists v, 0%nat. change (inject_Z (Z.of_nat 0)) with 0. split; [done|]. split; [lra|]. split; [ring|]. split; [by left|done].
Qed.

Lemma turns_enough d : d <= inject_Z (Z.of_nat (turns d width)) * width.
Proof.
  unfold turns. pose proof (Qle_ceiling (d / width)) as Hc.
  assert (inject_Z (Qceiling (d / width)) <= inject_Z (Z.of_nat (S (Z.to_nat (Qceiling (d / width)))))) as Hz.
  { rewrite <-Zle_Qle. lia. }
  assert (d == d / width * width) as Hd by (field; lra).
  rewrite Hd at 1. apply Qmult_le_compat_r; lra.
Qed.
End wrapping.

(** Longitudes around the world: for a map with some width the two loops end,
    and the longitude they give is on the map and differs from the one given by a
    whole number of turns, none when it was on the map already. *)
Theorem wrapped_longitude maxExtent p :
  left maxExtent < right maxExtent ->
  exists r k, ll_wrapDateLine maxExtent p = Some r /\ left maxExtent <= lon r <= right maxExtent /\ lat r = lat p /\
    lon r == lon p + inject_Z k * getWidth maxExtent /\
    (left maxExtent <= lon p <= right maxExtent -> k = 0%Z).
Proof.
  intros Hw. unfold ll_wrapDateLine, wrap_lon, getWidth. set (lo := left maxExtent) in *. set (hi := right maxExtent) in *.
  assert (0 < hi - lo) as Hw' by lra. set (wd := hi - lo) in *. set (v := lon p).
  destruct (shift_up wd lo (turns (lo - v) wd) v) as (r1 & k1 & -> & Hr1 & E1 & K1 & Z1).
  { pose proof (turns_enough wd Hw' (lo - v)). lra. }
  cbn [mbind option_bind].
  destruct (shift_down wd hi (turns (r1 - hi) wd) r1) as (r2 & k2 & -> & Hr2 & E2 & K2 & Z2).
  { pose proof (turns_enough wd Hw' (r1 - hi)). lra. }
  exists (LonLat r2 (lat p)), (Z.of_nat k1 - Z.of_nat k2)%Z. split; [done|]. cbn [lon lat].
  assert (lo <= r2) as Hlo.
  { destruct K2 as [->|?]; [|unfold wd in *; lra]. change (inject_Z (Z.of_nat 0)) with 0 in E2. lra. }
  split; [lra|]. split; [done|]. split.
  - unfold Z.sub. rewrite E2, E1, inject_Z_plus, inject_Z_opp. ring.
  - intros Hin. rewrite Z1 in E1 |- * by apply Hin. change (inject_Z (Z.of_nat 0)) with 0 in E1. rewrite Z2; [done|lra].
Qed.

(** ** The centre kept is the centre *)

Definition coherent (b : cbounds) : Prop := forall c, centerLonLat b = Some c -> c = getCenter (box b).

(** After any changes in place, the centre given is that of the bounds. *)
Lemma center_coherent ops b :
  coherent b -> snd (getCenterLonLat (foldl (fun b op => bounds_step op b) b ops)) = getCenter (box (foldl (fun b op => bounds_step op b) b ops)).
Proof.
  intros Hb. assert (coherent (foldl (fun b op => bounds_step op b) b ops)) as H.
  { revert b Hb. induction ops as [|op ops IH]; intros b Hb; cbn [foldl]; [done|]. apply IH.
    destruct op; intros c; cbn; try done. intros [= <-]. destruct (centerLonLat b) as [c|] eqn:E; cbn; [by apply Hb|done]. }
  unfold getCenterLonLat. cbn. destruct (centerLonLat _) as [c|] eqn:E; cbn; [by apply H|done].
Qed.

(** ** Quadrants *)

Lemma oppositeQuadrant_involutive b p : oppositeQuadrant (oppositeQuadrant (determineQuadrant b p)) = determineQuadrant b p.
Proof. unfold determineQuadrant. by destruct (Qltb _ _), (Qltb _ _). Qed.

(** The quadrant across the centre is the opposite one, for points off its axes. *)
Lemma opposite_point b p :
  ~ lon p == lon (getCenter b) -> ~ lat p == lat (getCenter b) ->
  determineQuadrant b (LonLat (2 * lon (getCenter b) - lon p) (2 * lat (getCenter b) - lat p))
  = oppositeQuadrant (determineQuadrant b p).
Proof.
  intros Hx Hy. unfold determineQuadrant. cbn [lon lat].
  set (cx := lon (getCenter b)) in *. set (cy := lat (getCenter b)) in *.
  assert (Hflip : forall c v, ~ v == c -> Qltb (2 * c - v) c = negb (Qltb v c)).
  { intros c v Hv. destruct (Qltb v c) eqn:E; cbn [negb].
    - apply Qltb_lt in E. apply Qltb_ge. lra.
    - apply Qltb_ge in E. apply Qltb_lt. pose proof (Qge_neq_lt _ _ E Hv). lra. }
  rewrite !Hflip by done. by destruct (Qltb (lat p) cy), (Qltb (lon p) cx).
Qed.

(** ** Bounds as text *)

Lemma round_near q : Qabs (inject_Z (round q) - q) <= 1 # 2.
Proof.
  unfold round. pose proof (Qfloor_le (q + (1 # 2))) as H1. pose proof (Qlt_floor (q + (1 # 2))) as H2.
  rewrite inject_Z_plus in H2. change (inject_Z 1) with 1 in H2. apply Qabs_Qle_condition. lra.
Qed.

(** The text keeps a coordinate up to half a unit of its last decimal. *)
Lemma decimals_near d v : Qabs (dec_Q (decimals d v) - v) <= (1 # 2) / inject_Z (10 ^ Z.of_nat d).
Proof.
  unfold dec_Q, decimals. cbn [dman dscale]. set (p := inject_Z (10 ^ Z.of_nat d)).
  assert (0 < p) as Hp by apply pow10_pos. pose proof (round_near (v * p)) as Hr.
  assert (inject_Z (round (v * p)) / p - v == (inject_Z (round (v * p)) - v * p) * / p) as -> by (field; lra).
  rewrite Qabs_Qmult, (Qabs_pos (/ p)) by (apply Qlt_le_weak, Qinv_lt_0_compat, Hp).
  apply Qmult_le_compat_r; [done|]. apply Qlt_le_weak, Qinv_lt_0_compat, Hp.
Qed.

Lemma no_comma d : str_forall (fun c => negb (Ascii.eqb c ",")) (num_to_string (Fin d)) = true.
Proof.
  eapply str_forall_weaken; [|apply num_text_chars]. intros c. unfold number_char. destruct (Ascii.eqb_spec c ","); [|done]. by subst.
Qed.

(** Bounds written as a BBOX text and read back: whatever the bounds and
    the number of decimals, the four numbers are the sides of the bounds, in
    order, each rounded to that many decimals and so within half a unit of the last
    one. *)
Theorem bbox_roundtrip b d :
  fromString (toBBOX b d false)
  = (Fin (dec_norm (decimals d (left b))), Fin (dec_norm (decimals d (bottom b))),
     Fin (dec_norm (decimals d (right b))), Fin (dec_norm (decimals d (top b)))) /\
  Forall (fun v => Qabs (dec_Q (decimals d v) - v) <= (1 # 2) / inject_Z (10 ^ Z.of_nat d)) (toArray b false).
Proof.
  split; [|by apply list.Forall_forall; intros; apply decimals_near].
  unfold fromString, toBBOX. rewrite split_on_of_join; [|done|].
  - cbn [toArray map].
    assert (H : forall v, parse_float (VStr (num_to_string (Fin (decimals d v)))) = Fin (dec_norm (decimals d v))).
    { intros v. rewrite <-(str_app_nil_r (num_to_string _)). by apply parse_float_text. }
    assert (E : forall a b c e, fromArray [a; b; c; e] = (parse_float a, parse_float b, parse_float c, parse_float e)) by done.
    by rewrite E, !H.
  - apply list.Forall_forall. intros t. rewrite list_elem_of_fmap. intros (v & -> & _). apply no_comma.
Qed.

Lemma intersects_exact_witness :
  let a := Bounds 0 0 2 2 in let b := Bounds 2 1 3 3 in
  (intersectsBounds a b true = true <-> exists p, inside a p /\ inside b p) /\
  (intersectsBounds a b false = true <-> exists p, interior a p /\ interior b p).
Proof.
  intros a b. destruct (intersects_exact a b) as [H1 H2].
  split; [apply H1; unfold valid; cbn; lra|apply H2; unfold proper; cbn; lra].
Defined.

Lemma wrapped_longitude_witness :
  let world := Bounds (-180) (-90) 180 90 in
  exists r k, ll_wrapDateLine world (LonLat 545 10) = Some r /\ left world <= lon r <= right world /\ lat r = 10 /\
    lon r == 545 + inject_Z k * getWidth world /\ (left world <= 545 <= right world -> k = 0%Z).
Proof. apply (wrapped_longitude (Bounds (-180) (-90) 180 90) (LonLat 545 10)). reflexivity. Defined.
