(* ===== verification/MapView.v ===== *)
(** * The view of the map (openlayers, lib/OpenLayers/Map.js and Layer.js)

    The centre, the zoom and the resolution of a map with one base layer; the
    translation between positions and pixels; the functions that move and zoom
    the map, within the restricted extent when there is one; the offset of the
    container of the layers; the listener that keeps the network map (maps.js)
    from zooming out all the way.  Coordinates are rationals, computed exactly; the
    element of the map keeps its size.  A move reports what it triggers, in order; the
    listeners of [zoomend] run where the code runs them, before [moveend]. *)

From Stdlib Require Import ZArith QArith Qround Qabs Qminmax Lqa Lia.
From stdpp Require Import base option list numbers tactics.
From S2P Require Import Prelude MapGrid MapBounds.

Local Open Scope Q_scope.

(** ** Resolutions *)

(** What the base layer was made with. *)
Record config := Config {
  resolutions : list Q; maxExtent : bounds; restrictedExtent : option bounds; fractionalZoom : bool;
  wraps : bool; alwaysInRange : bool
}.

(** The resolutions for a number of levels, each half of the one before
    (calculateResolutions with a maximal resolution only). *)
Definition calculateResolutions (maxResolution : Q) (numZoomLevels : nat) : list Q :=
  map (fun i => maxResolution / inject_Z (2 ^ Z.of_nat i)) (seq 0 numZoomLevels).

(** The same from the smallest one. *)
Definition calculateResolutionsUp (minResolution : Q) (numZoomLevels : nat) : list Q :=
  rev (map (fun i => minResolution * inject_Z (2 ^ Z.of_nat i)) (seq 0 numZoomLevels)).

Section layer.
Context (cf : config).

Definition levels : Z := Z.of_nat (length (resolutions cf)).
Definition resolution_at (z : Z) : Q := nth (Z.to_nat z) (resolutions cf) 0.
Definition getNumZoomLevels : Z := levels.

Definition getResolutionForZoom (zoom : Q) : Q :=
  let zoom := Qmax 0 (Qmin zoom (inject_Z (levels - 1))) in
  if fractionalZoom cf then
    let low := Qfloor zoom in let high := Qceiling zoom in
    resolution_at low - (zoom - inject_Z low) * (resolution_at low - resolution_at high)
  else resolution_at (round zoom).

(** The loop of the fractional zoom: the last resolution at least as large, and the
    first one at most as large. *)
Fixpoint bracket (i : Z) (l : list Q) (resolution : Q) (st : Z * Q * Q) : Z * Q * Q :=
  match l with
  | [] => st
  | res :: l =>
      let '(lowZoom, highRes, lowRes) := st in
      let '(lowZoom, highRes) := if Qle_bool resolution res then (i, res) else (lowZoom, highRes) in
      if Qle_bool res resolution then (lowZoom, highRes, res)
      else bracket (i + 1) l resolution (lowZoom, highRes, lowRes)
  end.

(** The loop of the whole zooms; without a distance yet, there is no limit. *)
Fixpoint scan (closest : bool) (i : Z) (l : list Q) (resolution : Q) (minDiff : option Q) : Z :=
  match l with
  | [] => i
  | res :: l =>
      if closest then
        let diff := Qabs (res - resolution) in
        if match minDiff with Some d => Qltb d diff | None => false end then i
        else scan closest (i + 1) l resolution (Some diff)
      else if Qltb res resolution then i else scan closest (i + 1) l resolution minDiff
  end.

Definition getZoomForResolution (resolution : Q) (closest : bool) : Q :=
  if fractionalZoom cf then
    let '(lowZoom, highRes, lowRes) :=
      bracket 0 (resolutions cf) resolution (0%Z, resolution_at 0, resolution_at (levels - 1)) in
    let dRes := highRes - lowRes in
    if Qltb 0 dRes then inject_Z lowZoom + (highRes - resolution) / dRes else inject_Z lowZoom
  else inject_Z (Z.max 0 (scan closest 0 (resolutions cf) resolution None - 1)).

Definition getZoomForExtent (sz : size) (b : bounds) (closest : bool) : Q :=
  getZoomForResolution (Qmax (getWidth b / w sz) (getHeight b / h sz)) closest.

Definition calculateInRange (minResolution maxResolution resolution : Q) : bool :=
  alwaysInRange cf || (Qle_bool minResolution resolution && Qle_bool resolution maxResolution).

(** ** The view *)

Record view := View {
  v_size : size; center : option lonlat; zoom : option Q; resolution : option Q;
  origin : option lonlat; div_left : Z; div_top : Z; viewRequestID : nat; dragging : bool
}.

(** A map that was not moved yet. *)
Definition new_view (sz : size) : view := View sz None (Some 0) None None 0 0 0 false.

Definition isValidZoomLevel (z : option Q) : bool :=
  match z with Some z => Qle_bool 0 z && Qltb z (inject_Z getNumZoomLevels) | None => false end.

Definition isValidLonLat (p : option lonlat) : bool :=
  match p with Some p => containsLonLat (maxExtent cf) p true | None => false end.

(** A zoom that is null counts as 0. *)
Definition getResolution (v : view) : Q := getResolutionForZoom (default 0 (zoom v)).

Definition calculateBounds (v : view) (c : lonlat) (res : Q) : bounds :=
  let w_deg := w (v_size v) * res in let h_deg := h (v_size v) * res in
  Bounds (lon c - w_deg / 2) (lat c - h_deg / 2) (lon c + w_deg / 2) (lat c + h_deg / 2).

Definition getExtent (v : view) : option bounds := (fun c => calculateBounds v c (getResolution v)) <$> center v.

Definition getLonLatFromViewPortPx (v : view) (p : pixel) : option lonlat :=
  c ← center v;
  let res := getResolution v in
  let ll := LonLat (lon c + (x p - w (v_size v) / 2) * res) (lat c - (y p - h (v_size v) / 2) * res) in
  if wraps cf then ll_wrapDateLine (maxExtent cf) ll else Some ll.

Definition getViewPortPxFromLonLat (v : view) (p : lonlat) : option pixel :=
  e ← getExtent v;
  let res := getResolution v in
  Some (Pixel (1 / res * (lon p - left e)) (1 / res * (top e - lat p))).

Definition getPixelFromLonLat (v : view) (p : lonlat) : option pixel :=
  (fun q => Pixel (inject_Z (round (x q))) (inject_Z (round (y q)))) <$> getViewPortPxFromLonLat v p.

Definition getViewPortPxFromLayerPx (v : view) (p : pixel) : pixel :=
  px_add p (inject_Z (div_left v)) (inject_Z (div_top v)).
Definition getLayerPxFromViewPortPx (v : view) (p : pixel) : pixel :=
  px_add p (inject_Z (- div_left v)) (inject_Z (- div_top v)).
Definition getLonLatFromLayerPx (v : view) (p : pixel) : option lonlat :=
  getLonLatFromViewPortPx v (getViewPortPxFromLayerPx v p).
Definition getLayerPxFromLonLat (v : view) (p : lonlat) : option pixel :=
  getLayerPxFromViewPortPx v <$> getPixelFromLonLat v p.

(** ** Moving *)

(** What a move triggers: the events of the map, and the drawing of the layers for an
    extent. *)
Inductive event :=
  | Movestart
  | Draw (b : bounds) (zoomChanged dragging : bool)
  | Move
  | Zoomend
  | Moveend.

(** The offset of the container, from the pixels of its origin and of the new
    centre in the view before the move. *)
Definition centerLayerContainer (v : view) (p : lonlat) : Z * Z :=
  match origin v ≫= getViewPortPxFromLonLat v, getViewPortPxFromLonLat v p with
  | Some o, Some n => (round (x o - x n), round (y o - y n))
  | _, _ => (div_left v, div_top v)
  end.

(** The centre brought back into the restricted extent [r] for the extent [e] it
    would give. *)
Definition restrict (r e : bounds) (p : lonlat) : lonlat :=
  if containsBounds r e false true then p
  else
    let c := getCenter r in
    let p := if Qltb (getWidth r) (getWidth e) then LonLat (lon c) (lat p)
             else if Qltb (left e) (left r) then ll_add p (left r - left e) 0
             else if Qltb (right r) (right e) then ll_add p (right r - right e) 0 else p in
    if Qltb (getHeight r) (getHeight e) then LonLat (lon p) (lat c)
    else if Qltb (bottom e) (bottom r) then ll_add p 0 (bottom r - bottom e)
    else if Qltb (top r) (top e) then ll_add p 0 (top r - top e) else p.

Record options := Options { o_dragging : bool; o_force : bool; o_noEvent : bool }.

Definition zoom_eqb (a b : option Q) : bool :=
  match a, b with Some a, Some b => Qeq_bool a b | None, None => true | _, _ => false end.

(** The centre and the zoom a move is asked for, after the defaults, the rounding
    and the restriction. *)
Definition target (p : option lonlat) (z : option Q) (v : view) : option lonlat * option Q :=
  let z := (fun z => if fractionalZoom cf then z else inject_Z (round z)) <$> z in
  let p := match center v with
           | None => if isValidLonLat p then p else Some (getCenter (maxExtent cf))
           | Some _ => p
           end in
  match restrictedExtent cf with
  | None => (p, z)
  | Some r =>
      let p := match p with Some _ => p | None => center v end in
      let z := match z with Some _ => z | None => zoom v end in
      ((fun p => restrict r (calculateBounds v p (getResolutionForZoom (default 0 z))) p) <$> p, z)
  end.

(** What a move does to the view; [None] when the centre is needed and there is none. *)
Definition apply_move (p : option lonlat) (z : option Q) (zoomChanged centerChanged : bool) (v : view) : option view :=
  let v1 :=
    match p with
    | Some q =>
        if centerChanged then
          let '(l, t) := if negb zoomChanged && bool_decide (center v <> None) then centerLayerContainer v q
                         else (div_left v, div_top v) in
          View (v_size v) p (zoom v) (resolution v) (origin v) l t (viewRequestID v) (dragging v)
        else v
    | None => v
    end in
  let reset := zoomChanged || bool_decide (origin v1 = None) in
  v2 ← (if reset then c ← center v1;
          Some (View (v_size v1) (center v1) (zoom v1) (resolution v1) (Some c) 0 0 (viewRequestID v1) (dragging v1))
        else Some v1);
  Some (if zoomChanged then
          View (v_size v2) (center v2) z (Some (getResolutionForZoom (default 0 z))) (origin v2) (div_left v2) (div_top v2)
            (S (viewRequestID v2)) (dragging v2)
        else v2).

Definition set_dragging (d : bool) (v : view) : view :=
  View (v_size v) (center v) (zoom v) (resolution v) (origin v) (div_left v) (div_top v) (viewRequestID v) d.

Definition ll_changed (p : option lonlat) (c : option lonlat) : bool :=
  match p, c with Some p, Some c => negb (ll_equals p c) | _, _ => true end.

(** [moveTo], with what the listeners of [zoomend] do. *)
Definition moveTo (zoomend : view -> option (view * list event)) (p : option lonlat) (z : option Q) (o : options)
    (v : view) : option (view * list event) :=
  let '(p, z) := target p z v in
  let zoomChanged := o_force o || (isValidZoomLevel z && negb (zoom_eqb z (zoom v))) in
  let centerChanged := isValidLonLat p && ll_changed p (center v) in
  '(v1, ev) ← (if zoomChanged || centerChanged || negb (o_dragging o) then
      v1 ← apply_move p z zoomChanged centerChanged v;
      b ← getExtent v1;
      let ev := (if negb (dragging v) && negb (o_noEvent o) then [Movestart] else [])
                ++ [Draw b zoomChanged (o_dragging o); Move] in
      if zoomChanged then '(v2, ev2) ← zoomend v1; Some (v2, ev ++ Zoomend :: ev2) else Some (v1, ev)
    else Some (v, []));
  Some (set_dragging (o_dragging o) v1, ev ++ (if negb (o_dragging o) && negb (o_noEvent o) then [Moveend] else [])).

Definition quiet_zoomend (v : view) : option (view * list event) := Some (v, []).

Section listened.
Context (zoomend : view -> option (view * list event)).

Definition setCenter (p : option lonlat) (z : option Q) (drag force : bool) : view -> option (view * list event) :=
  moveTo zoomend p z (Options drag force false).

Definition zoomTo (z : option Q) (v : view) : option (view * list event) :=
  if isValidZoomLevel z then setCenter None z false false v else Some (v, []).
Definition zoomIn (v : view) : option (view * list event) := zoomTo (Some (default 0 (zoom v) + 1)) v.
Definition zoomOut (v : view) : option (view * list event) := zoomTo (Some (default 0 (zoom v) - 1)) v.

(** Bounds across the date line have their sides exchanged: [while (right < left)
    right += width]. *)
Definition unstraddle (b : bounds) : option bounds :=
  let width := getWidth (maxExtent cf) in
  (fun r => Bounds (left b) (bottom b) r (top b))
  <$> shift_while (fun r => Qltb r (left b)) (fun r => r + width) (S (turns (left b - right b) width)) (right b).

Definition zoomToExtent (b : bounds) (closest : bool) (v : view) : option (view * list event) :=
  '(b, c) ← (if wraps cf then b ← unstraddle b; c ← ll_wrapDateLine (maxExtent cf) (getCenter b); Some (b, c)
             else Some (b, getCenter b));
  setCenter (Some c) (Some (getZoomForExtent (v_size v) b closest)) false false v.

Definition zoomToMaxExtent (restricted : bool) : view -> option (view * list event) :=
  zoomToExtent (if restricted then default (maxExtent cf) (restrictedExtent cf) else maxExtent cf) false.

(** [pan] without an animation. *)
Definition pan (dx dy : Q) (drag : bool) (v : view) : option (view * list event) :=
  c ← center v;
  q ← getViewPortPxFromLonLat v c;
  let q' := px_add q dx dy in
  if drag && px_equals q' q then Some (v, [])
  else p ← getLonLatFromViewPortPx v q'; setCenter (Some p) None drag false v.
End listened.
End layer.

(** ** The network map (maps.js) *)

(** [if (z <= 1) this.zoomTo(2)], after every change of the zoom; the calls nest. *)
Fixpoint keep_zoom (cf : config) (fuel : nat) (v : view) : option (view * list event) :=
  match fuel with
  | O => None
  | S n => if Qle_bool (default 0 (zoom v)) 1 then zoomTo cf (keep_zoom cf n) (Some 2) v else Some (v, [])
  end.

Definition world : bounds := Bounds (- (2003750834 # 100)) (- (2003750834 # 100)) (2003750834 # 100) (2003750834 # 100).
Definition oess_config : config :=
  Config (calculateResolutions (1565430339 # 10000) 8) world (Some world) false false false.

(** ** Choosing a zoom *)

#[export] Instance round_proper : Proper (Qeq ==> eq) round.
Proof. intros a b E. unfold round. by rewrite E. Qed.

Lemma round_Z z : round (inject_Z z) = z.
Proof.
  unfold round. apply Z.le_antisymm.
  - pose proof (Qfloor_le (inject_Z z + (1 # 2))) as H1.
    assert (inject_Z (Qfloor (inject_Z z + (1 # 2))) < inject_Z (z + 1)) as H2.
    { rewrite inject_Z_plus. change (inject_Z 1) with 1. lra. }
    rewrite <-Zlt_Qlt in H2. lia.
  - pose proof (Qlt_floor (inject_Z z + (1 # 2))) as H1.
    assert (inject_Z z < inject_Z (Qfloor (inject_Z z + (1 # 2)) + 1)) as H2 by lra. rewrite <-Zlt_Qlt in H2. lia.
Qed.

(** Finer resolutions come later. *)
Definition descending (l : list Q) : Prop :=
  forall i j a b, (i < j)%nat -> l !! i = Some a -> l !! j = Some b -> b < a.

Lemma scan_fits r l : forall i d,
  exists k, scan false i l r d = (i + Z.of_nat k)%Z /\ (k <= length l)%nat /\
    (forall j a, (j < k)%nat -> l !! j = Some a -> r <= a) /\ (forall a, l !! k = Some a -> a < r).
Proof.
  induction l as [|a l IH]; intros i d; cbn [scan].
  { exists 0%nat. split; [lia|]. split; [done|]. by split; [intros; lia|]. }
  destruct (Qltb a r) eqn:E.
  - apply Qltb_lt in E. exists 0%nat. split; [lia|]. split; [lia|]. split; [intros; lia|]. intros b [= <-]. done.
  - apply Qltb_ge in E. destruct (IH (i + 1)%Z d) as (k & -> & Hk & H1 & H2). exists (S k). split; [lia|].
    split; [simpl; lia|]. split; [|done]. intros [|j] b Hj Hb; [by injection Hb as <-|]. apply (H1 j); [lia|done].
Qed.

Section zooming.
Context (cf : config) (Hfrac : fractionalZoom cf = false) (Hne : resolutions cf <> []).

Lemma levels_pos : (0 < levels cf)%Z.
Proof using Hne. unfold levels. destruct (resolutions cf); [done|]. simpl. lia. Qed.

Lemma clamp_id z : (0 <= z < levels cf)%Z -> Qmax 0 (Qmin (inject_Z z) (inject_Z (levels cf - 1))) == inject_Z z.
Proof.
  intros Hz. rewrite Q.min_l, Q.max_r; [reflexivity| |rewrite <-Zle_Qle; lia].
  change 0 with (inject_Z 0). rewrite <-Zle_Qle. lia.
Qed.

Lemma resolution_for_level z :
  (0 <= z < levels cf)%Z -> getResolutionForZoom cf (inject_Z z) = resolution_at cf z.
Proof using Hfrac. intros Hz. unfold getResolutionForZoom. rewrite Hfrac, clamp_id by done. by rewrite round_Z. Qed.

Lemma resolution_lookup z : (0 <= z < levels cf)%Z -> resolutions cf !! Z.to_nat z = Some (resolution_at cf z).
Proof.
  unfold levels, resolution_at. intros Hz. destruct (lookup_lt_is_Some_2 (resolutions cf) (Z.to_nat z)) as [a Ha]; [lia|].
  rewrite Ha. f_equal. symmetry. by apply nth_lookup_Some.
Qed.

(** The zoom for a resolution is a level, and the finest one that is not finer than
    asked, when there is one. *)
Lemma zoom_fits r :
  exists z, getZoomForResolution cf r false = inject_Z z /\ (0 <= z < levels cf)%Z /\
    (r <= resolution_at cf 0 -> r <= resolution_at cf z) /\
    (forall z', (z < z' < levels cf)%Z -> descending (resolutions cf) -> resolution_at cf z' < r).
Proof using Hfrac Hne.
  unfold getZoomForResolution. rewrite Hfrac.
  destruct (scan_fits r (resolutions cf) 0 None) as (k & -> & Hk & H1 & H2). pose proof levels_pos as Hl. unfold levels in Hl.
  exists (Z.max 0 (0 + Z.of_nat k - 1)). split; [done|]. split; [unfold levels; lia|]. split.
  - intros H0. destruct k as [|k]; [by rewrite Z.max_l by lia|].
    apply (H1 (Z.to_nat (Z.max 0 (0 + Z.of_nat (S k) - 1)))); [lia|]. apply resolution_lookup. unfold levels. lia.
  - intros z' Hz Hd. destruct (lookup_lt_is_Some_2 (resolutions cf) k) as [a Ha]; [unfold levels in Hz; lia|].
    apply (Qle_lt_trans _ a); [|by apply H2].
    pose proof (resolution_lookup z' ltac:(unfold levels in *; lia)) as Hr. destruct (decide (Z.to_nat z' = k)) as [E|Hn].
    + rewrite E, Ha in Hr. injection Hr as <-. apply Qle_refl.
    + apply Qlt_le_weak. eapply Hd; [|done|done]. lia.
Qed.

Lemma scan_closest r l : descending l -> forall i m,
  exists k, scan true i l r m = (i + Z.of_nat k)%Z /\ (k <= length l)%nat /\
    (forall j a b, (S j < k)%nat -> l !! j = Some a -> l !! S j = Some b -> Qabs (b - r) <= Qabs (a - r)) /\
    (forall a, (0 < k)%nat -> l !! 0%nat = Some a -> match m with Some d => Qabs (a - r) <= d | None => True end) /\
    (forall b, l !! k = Some b ->
       match k with
       | O => match m with Some d => d < Qabs (b - r) | None => False end
       | S k' => forall a, l !! k' = Some a -> Qabs (a - r) < Qabs (b - r)
       end).
Proof.
  intros Hd. induction l as [|a l IH]; intros i m; cbn [scan].
  { exists 0%nat. split; [lia|]. split; [done|]. split; [intros; lia|]. split; [intros; lia|]. done. }
  destruct (match m with Some d => Qltb d (Qabs (a - r)) | None => false end) eqn:E.
  - exists 0%nat. split; [lia|]. split; [lia|]. split; [intros; lia|]. split; [intros; lia|].
    intros b [= <-]. destruct m as [d|]; [|done]. by apply Qltb_lt.
  - destruct (IH) with (i := (i + 1)%Z) (m := Some (Qabs (a - r))) as (k & -> & Hk & H1 & H2 & H3).
    { intros i' j' u v Hij Hu Hv. apply (Hd (S i') (S j')); [lia|done|done]. }
    exists (S k). split; [lia|]. split; [simpl; lia|]. split; [|split].
    + intros [|j] u v Hj Hu Hv; [|apply (H1 j); [lia|done|done]]. injection Hu as <-. apply (H2 v); [lia|done].
    + intros u _ [= <-]. destruct m as [d|]; [by apply Qltb_ge|done].
    + intros b Hb. specialize (H3 b Hb). destruct k as [|k].
      * intros u [= <-]. done.
      * intros u Hu. by apply H3.
Qed.

(** Distances that do not grow from one element to the next do not grow. *)
Lemma distances_shrink r (l : list Q) k :
  (forall j a b, (S j < k)%nat -> l !! j = Some a -> l !! S j = Some b -> Qabs (b - r) <= Qabs (a - r)) ->
  forall n j a b, (j + n < k)%nat -> (k <= length l)%nat -> l !! j = Some a -> l !! (j + n)%nat = Some b -> Qabs (b - r) <= Qabs (a - r).
Proof.
  intros H. induction n as [|n IH]; intros j a b Hj Hk Ha Hb.
  - rewrite Nat.add_0_r, Ha in Hb. injection Hb as <-. apply Qle_refl.
  - destruct (lookup_lt_is_Some_2 l (S j)) as [c Hc]; [lia|].
    apply (Qle_trans _ (Qabs (c - r))); [|by apply (H j); [lia|..]].
    apply (IH (S j)); [lia|lia|done|]. by rewrite Nat.add_succ_comm.
Qed.

(** The closest zoom is the one whose resolution is closest. *)
Lemma zoom_closest r :
  descending (resolutions cf) ->
  exists z, getZoomForResolution cf r true = inject_Z z /\ (0 <= z < levels cf)%Z /\
    forall z', (0 <= z' < levels cf)%Z -> Qabs (resolution_at cf z - r) <= Qabs (resolution_at cf z' - r).
Proof using Hfrac Hne.
  intros Hd. unfold getZoomForResolution. rewrite Hfrac.
  destruct (scan_closest r (resolutions cf) Hd 0 None) as (k & -> & Hk & H1 & _ & H3). pose proof levels_pos as Hl. unfold levels in Hl.
  destruct k as [|k].
  { destruct (lookup_lt_is_Some_2 (resolutions cf) 0) as [a Ha]; [lia|]. by specialize (H3 a Ha). }
  exists (Z.max 0 (0 + Z.of_nat (S k) - 1)). replace (Z.max 0 (0 + Z.of_nat (S k) - 1)) with (Z.of_nat k) by lia.
  split; [done|]. split; [unfold levels; lia|]. intros z' Hz'.
  pose proof (resolution_lookup (Z.of_nat k) ltac:(unfold levels in *; lia)) as Ez. rewrite Nat2Z.id in Ez.
  pose proof (resolution_lookup z' Hz') as Ez'. set (a := resolution_at cf (Z.of_nat k)) in *. set (b := resolution_at cf z') in *.
  destruct (decide (Z.to_nat z' <= k)%nat) as [Hle|Hgt].
  - apply (distances_shrink r (resolutions cf) (S k) H1 (k - Z.to_nat z') (Z.to_nat z')); [lia|lia|done|].
    by replace (Z.to_nat z' + (k - Z.to_nat z'))%nat with k by lia.
  - destruct (lookup_lt_is_Some_2 (resolutions cf) (S k)) as [c Hc]; [unfold levels in Hz'; lia|].
    specialize (H3 c Hc a Ez). pose proof (Hd k (S k) a c ltac:(lia) Ez Hc) as Hac.
    assert (b <= c) as Hbc.
    { destruct (decide (Z.to_nat z' = S k)) as [E|Hn]; [rewrite E, Hc in Ez'; injection Ez' as ->; apply Qle_refl|].
      apply Qlt_le_weak, (Hd (S k) (Z.to_nat z')); [lia|done|done]. }
    assert (c < r) as Hcr.
    { apply Qnot_le_lt. intros Hrc. rewrite (Qabs_pos (a - r)), (Qabs_pos (c - r)) in H3 by lra. lra. }
    rewrite (Qabs_neg (c - r)) in H3 by lra. rewrite (Qabs_neg (b - r)) by lra. lra.
Qed.
End zooming.

(** ** Pixels and positions *)

(** C22 Positions and pixels: for a map that is centred and does not wrap around the date
    line, at any positive resolution, the pixel of the position under a pixel is that pixel, and the
    position under the pixel of a position is that position. *)
Theorem pixel_roundtrip cf v c :
  wraps cf = false -> center v = Some c -> 0 < getResolution cf v ->
  (forall p, exists ll q, getLonLatFromViewPortPx cf v p = Some ll /\ getViewPortPxFromLonLat cf v ll = Some q /\
     x q == x p /\ y q == y p) /\
  (forall ll, exists q ll', getViewPortPxFromLonLat cf v ll = Some q /\ getLonLatFromViewPortPx cf v q = Some ll' /\
     lon ll' == lon ll /\ lat ll' == lat ll).
Proof.
  intros Hw Hc Hr. unfold getLonLatFromViewPortPx, getViewPortPxFromLonLat, getExtent. rewrite Hc, Hw. cbn [mbind option_bind fmap option_fmap option_map].
  set (res := getResolution cf v) in *. split; intros p; eexists _, _; (split; [reflexivity|]); (split; [reflexivity|]);
    cbn [x y lon lat left top calculateBounds]; split; field; lra.
Qed.

(** ** Views within the restricted extent *)

(** A centre [c] on an axis from [lo] to [hi], for a view that reaches [half] to both
    sides: the view is between the ends when it fits, and in the middle when not. *)
Definition axis_ok (lo hi c half : Q) : Prop :=
  (2 * half <= hi - lo -> lo <= c - half /\ c + half <= hi) /\ (hi - lo < 2 * half -> c == (lo + hi) / 2).

#[export] Instance axis_ok_proper : Proper (Qeq ==> Qeq ==> Qeq ==> Qeq ==> iff) axis_ok.
Proof. intros a a' Ha b b' Hb c c' Hc d d' Hd. unfold axis_ok. by rewrite Ha, Hb, Hc, Hd. Qed.

Lemma axis_ok_inside lo hi c half : lo <= hi -> 0 <= half -> axis_ok lo hi c half -> lo <= c <= hi.
Proof.
  intros Hv Hh [H1 H2]. destruct (Qlt_le_dec (hi - lo) (2 * half)) as [H|H].
  - rewrite (H2 H). assert ((lo + hi) / 2 == (lo + hi) * (1 # 2)) as -> by field. lra.
  - specialize (H1 H). lra.
Qed.

Definition half_w (v : view) (res : Q) : Q := w (v_size v) * res / 2.
Definition half_h (v : view) (res : Q) : Q := h (v_size v) * res / 2.

Definition placed_in (r : bounds) (v : view) (res : Q) (c : lonlat) : Prop :=
  axis_ok (left r) (right r) (lon c) (half_w v res) /\ axis_ok (bottom r) (top r) (lat c) (half_h v res).

Lemma restrict_ok r v res p : placed_in r v res (restrict r (calculateBounds v p res) p).
Proof.
  unfold restrict, placed_in. unfold containsBounds, contains, getWidth, getHeight. cbn [calculateBounds left right top bottom].
  fold (half_w v res) (half_h v res). set (hw := half_w v res). set (hh := half_h v res). unfold axis_ok, getCenter, ll_add.
  set (b := _ && _ && _ && _). destruct b eqn:Eb.
  - unfold b in Eb. rewrite !andb_true_iff, !Qle_bool_iff in Eb.
    split; (split; [lra|intros; exfalso; lra]).
  - clear b Eb.
    split.
    + destruct (Qltb (right r - left r) _) eqn:E1; [|destruct (Qltb (lon p - hw) (left r)) eqn:E2; [|destruct (Qltb (right r) (lon p + hw)) eqn:E3]];
        rewrite ?Qltb_lt, ?Qltb_ge in *; cbn [lon lat];
        repeat match goal with |- context [Qltb ?a ?b] => destruct (Qltb a b) end; cbn [lon lat];
        (split; [intros; lra|intros; try (exfalso; lra); reflexivity || lra]).
    + destruct (Qltb (top r - bottom r) _) eqn:E1; [|destruct (Qltb (lat p - hh) (bottom r)) eqn:E2; [|destruct (Qltb (top r) (lat p + hh)) eqn:E3]];
        rewrite ?Qltb_lt, ?Qltb_ge in *; cbn [lon lat];
        repeat match goal with |- context [Qltb ?a ?b] => destruct (Qltb a b) end; cbn [lon lat];
        (split; [intros; lra|intros; try (exfalso; lra); reflexivity || lra]).
Qed.

(** ** Moves *)

Section moves.
Context (cf : config).

(** What a map of the pages is made with: whole zooms, no wrapping, positive
    resolutions, a restricted extent within the maximal one. *)
Record usable : Prop := Usable {
  us_whole : fractionalZoom cf = false;
  us_levels : resolutions cf <> [];
  us_positive i a : resolutions cf !! i = Some a -> 0 < a;
  us_finer : descending (resolutions cf);
  us_wraps : wraps cf = false;
  us_extent : valid (maxExtent cf);
  us_restricted r : restrictedExtent cf = Some r -> valid r /\ covers (maxExtent cf) r
}.
Context (Hcf : usable).

(** The centre is where it may be at a resolution. *)
Definition placed (v : view) (res : Q) (c : lonlat) : Prop :=
  inside (maxExtent cf) c /\ match restrictedExtent cf with Some r => placed_in r v res c | None => True end.

(** The offset of the container is the distance of its origin from the centre, in
    whole pixels. *)
Definition aligned (v : view) (o c : lonlat) (res : Q) : Prop :=
  div_left v = round ((lon o - lon c) / res) /\ div_top v = round ((lat c - lat o) / res).

Record vinv (v : view) : Prop := Vinv {
  vi_w : 0 < w (v_size v);
  vi_h : 0 < h (v_size v);
  vi_zoom : exists n, zoom v = Some (inject_Z n) /\ (0 <= n < levels cf)%Z;
  vi_center :
    match center v, origin v with
    | Some c, Some o => placed v (getResolution cf v) c /\ aligned v o c (getResolution cf v)
    | None, None => True
    | _, _ => False
    end
}.

(** A zoom that may be asked for: none, or one that rounds to a level. *)
Definition askable (z : option Q) : Prop := forall q, z = Some q -> (0 <= round q < levels cf)%Z.

Lemma level_positive n : (0 <= n < levels cf)%Z -> 0 < resolution_at cf n.
Proof using Hcf. intros Hn. eapply us_positive; [done|]. by apply resolution_lookup. Qed.

Lemma level_resolution n : (0 <= n < levels cf)%Z -> getResolutionForZoom cf (inject_Z n) = resolution_at cf n.
Proof using Hcf. intros Hn. apply resolution_for_level; [apply us_whole, Hcf|done]. Qed.

Lemma level_valid n : isValidZoomLevel cf (Some (inject_Z n)) = true <-> (0 <= n < levels cf)%Z.
Proof.
  unfold isValidZoomLevel, getNumZoomLevels. rewrite andb_true_iff, Qle_bool_iff, Qltb_lt.
  change 0 with (inject_Z 0). rewrite <-Zle_Qle, <-Zlt_Qlt. lia.
Qed.

Lemma zoom_eqb_levels n k : zoom_eqb (Some (inject_Z n)) (Some (inject_Z k)) = true <-> n = k.
Proof. cbn [zoom_eqb]. rewrite Qeq_bool_iff. unfold Qeq, inject_Z. cbn [Qnum Qden]. lia. Qed.

Lemma center_inside b : valid b -> inside b (getCenter b).
Proof.
  intros [H1 H2]. unfold inside, getCenter. cbn [lon lat].
  assert ((left b + right b) / 2 == (left b + right b) * (1 # 2)) as -> by field.
  assert ((bottom b + top b) / 2 == (bottom b + top b) * (1 # 2)) as -> by field. lra.
Qed.

Lemma placed_in_inside r v res c :
  valid r -> 0 <= half_w v res -> 0 <= half_h v res -> placed_in r v res c -> inside r c.
Proof.
  intros [H1 H2] Hw Hh [Hx Hy]. split; [exact (axis_ok_inside _ _ _ _ H1 Hw Hx)|exact (axis_ok_inside _ _ _ _ H2 Hh Hy)].
Qed.

Lemma half_pos v res : vinv v -> 0 < res -> 0 <= half_w v res /\ 0 <= half_h v res.
Proof.
  intros Hv Hr. unfold half_w, half_h.
  assert (w (v_size v) * res / 2 == w (v_size v) * res * (1 # 2)) as -> by field.
  assert (h (v_size v) * res / 2 == h (v_size v) * res * (1 # 2)) as -> by field.
  pose proof (Qmult_lt_0_compat _ _ (vi_w _ Hv) Hr). pose proof (Qmult_lt_0_compat _ _ (vi_h _ Hv) Hr). lra.
Qed.

Lemma covers_inside b a p : covers b a -> inside a p -> inside b p.
Proof. unfold covers, inside. lra. Qed.

(** A level, or no zoom. *)
Definition level (z : option Q) : Prop := z = None \/ exists n, z = Some (inject_Z n) /\ (0 <= n < levels cf)%Z.

(** A centre where it may be, at the zoom asked for when that matters. *)
Definition target_good (v : view) (p : option lonlat) (z : option Q) : Prop :=
  exists q, p = Some q /\ inside (maxExtent cf) q /\
    forall r, restrictedExtent cf = Some r ->
      exists n, z = Some (inject_Z n) /\ (0 <= n < levels cf)%Z /\ placed_in r v (resolution_at cf n) q.

(** The target of a move, or a centre that will not be taken. *)
Lemma target_ok p z v :
  vinv v -> askable z ->
  exists p' z', target cf p z v = (p', z') /\ level z' /\
    (target_good v p' z' \/ (restrictedExtent cf = None /\ isValidLonLat cf p' = false /\ center v <> None)).
Proof using Hcf.
  intros Hv Hz. destruct (vi_zoom _ Hv) as (k & Hk & Hkr). unfold target. rewrite (us_whole Hcf).
  set (z1 := (fun z => inject_Z (round z)) <$> z).
  assert (level z1) as Hz1.
  { destruct z as [q|]; [right; exists (round q); split; [done|by apply Hz]|by left]. }
  set (p1 := match center v with None => _ | Some _ => p end).
  assert (center v = None -> isValidLonLat cf p1 = true) as Hp1.
  { intros Hc. unfold p1. rewrite Hc. destruct (isValidLonLat cf p) eqn:E; [done|]. cbn [isValidLonLat].
    apply contains_in, center_inside, (us_extent Hcf). }
  destruct (restrictedExtent cf) as [r|] eqn:Er.
  - destruct (us_restricted Hcf r Er) as [Hr Hcov].
    assert (exists q, match p1 with Some _ => p1 | None => center v end = Some q) as [q ->].
    { destruct p1 as [q|] eqn:E1; [by exists q|]. destruct (center v) as [c|]; [by exists c|]. by specialize (Hp1 eq_refl). }
    assert (exists n, match z1 with Some _ => z1 | None => zoom v end = Some (inject_Z n) /\ (0 <= n < levels cf)%Z) as (n & -> & Hn).
    { destruct Hz1 as [->|(n & -> & Hn)]; [by exists k|by exists n]. }
    eexists _, _. split; [reflexivity|]. split; [right; by exists n|]. left. eexists. split; [reflexivity|].
    change (default 0 (Some (inject_Z n))) with (inject_Z n). rewrite level_resolution by done.
    pose proof (restrict_ok r v (resolution_at cf n) q) as Hok. split.
    + eapply covers_inside; [done|]. pose proof (half_pos v _ Hv (level_positive n Hn)) as [? ?]. by eapply placed_in_inside.
    + intros r' Er'. rewrite Er in Er'. injection Er' as <-. by exists n.
  - exists p1, z1. split; [done|]. split; [done|]. destruct (isValidLonLat cf p1) eqn:E.
    + left. destruct p1 as [q|]; [|done]. exists q. split; [done|]. split; [by apply contains_in|]. intros r Er'. congruence.
    + right. split; [done|]. split; [done|]. intros Hc. specialize (Hp1 Hc). congruence.
Qed.

(** Where the container goes when the map slides to another centre. *)
Lemma slide_ok v q o c :
  center v = Some c -> origin v = Some o -> 0 < getResolution cf v ->
  centerLayerContainer cf v q
  = (round ((lon o - lon q) / getResolution cf v), round ((lat q - lat o) / getResolution cf v)).
Proof.
  intros Hc Ho Hr. unfold centerLayerContainer. rewrite Ho. unfold getViewPortPxFromLonLat, getExtent. rewrite Hc.
  cbn [mbind option_bind fmap option_fmap option_map x y left top calculateBounds]. set (res := getResolution cf v) in *.
  f_equal; apply round_proper; field; lra.
Qed.

Lemma ll_equals_iff a b : ll_equals a b = true <-> lon a == lon b /\ lat a == lat b.
Proof. unfold ll_equals. by rewrite andb_true_iff, !Qeq_bool_iff. Qed.

Lemma placed_eq v res a b : ll_equals a b = true -> placed v res a -> placed v res b.
Proof.
  rewrite ll_equals_iff. intros [Ex Ey] [Hi Hp]. unfold placed, inside, placed_in in *. split; [lra|].
  destruct (restrictedExtent cf); [|done]. by rewrite <-Ex, <-Ey.
Qed.

Lemma aligned_self v o res : div_left v = 0%Z -> div_top v = 0%Z -> 0 < res -> aligned v o o res.
Proof.
  intros Hl Ht Hr. unfold aligned. rewrite Hl, Ht. split; symmetry; rewrite <-(round_Z 0); apply round_proper; field; lra.
Qed.

Lemma resolution_pos v : vinv v -> 0 < getResolution cf v.
Proof using Hcf.
  intros Hv. destruct (vi_zoom _ Hv) as (n & Hn & Hr). unfold getResolution. rewrite Hn.
  change (default 0 (Some (inject_Z n))) with (inject_Z n). rewrite level_resolution by done. by apply level_positive.
Qed.

Lemma vinv_intro v n c o :
  0 < w (v_size v) -> 0 < h (v_size v) -> zoom v = Some (inject_Z n) -> (0 <= n < levels cf)%Z ->
  center v = Some c -> origin v = Some o -> placed v (resolution_at cf n) c -> aligned v o c (resolution_at cf n) -> vinv v.
Proof using Hcf.
  intros Hw Hh Hz Hn Hc Ho Hp Ha. split; [done|done|by exists n|]. rewrite Hc, Ho. unfold getResolution. rewrite Hz.
  change (default 0 (Some (inject_Z n))) with (inject_Z n). by rewrite level_resolution.
Qed.

Lemma vinv_lookup v : vinv v -> center v <> None -> exists n c o, zoom v = Some (inject_Z n) /\ (0 <= n < levels cf)%Z /\
  center v = Some c /\ origin v = Some o /\ placed v (resolution_at cf n) c /\ aligned v o c (resolution_at cf n).
Proof using Hcf.
  intros [_ _ (n & Hn & Hr) Hc] Hne. destruct (center v) as [c|] eqn:Ec; [|done]. destruct (origin v) as [o|]; [|done].
  exists n, c, o. unfold getResolution in Hc. rewrite Hn in Hc. change (default 0 (Some (inject_Z n))) with (inject_Z n) in Hc.
  rewrite level_resolution in Hc by done. tauto.
Qed.

(** The zoom a move ends with. *)
Lemma zoom_changed v z :
  vinv v -> level z -> exists n, (0 <= n < levels cf)%Z /\
    (if isValidZoomLevel cf z && negb (zoom_eqb z (zoom v)) then z else zoom v) = Some (inject_Z n) /\
    (forall k, z = Some (inject_Z k) -> n = k).
Proof.
  intros Hv Hz. destruct (vi_zoom _ Hv) as (k & Hk & Hkr). destruct Hz as [->|(n & -> & Hn)].
  - exists k. by split.
  - rewrite (proj2 (level_valid n) Hn), Hk. cbn [andb].
    destruct (zoom_eqb (Some (inject_Z n)) (Some (inject_Z k))) eqn:E; cbn [negb].
    + apply zoom_eqb_levels in E as ->. exists k. split; [done|]. split; [done|]. intros k' [= ?]. congruence.
    + exists n. split; [done|]. split; [done|]. intros k' [= ?]. congruence.
Qed.

(** A centre that will be shown at the level [n]: that of the target, or the old one. *)
Lemma placed_target v p z n q :
  target_good v p z -> p = Some q -> (forall k, z = Some (inject_Z k) -> n = k) -> placed v (resolution_at cf n) q.
Proof.
  intros (q' & -> & Hi & Hr) [= ->] Hn. split; [done|]. destruct (restrictedExtent cf) as [r|]; [|done].
  destruct (Hr r eq_refl) as (k & Hz & _ & Hp). by rewrite (Hn k Hz).
Qed.

(** A centre taken at the level [n]: reset after a change of the zoom or at first, slid
    otherwise. *)
Lemma apply_new v q z (zc : bool) n :
  vinv v -> (if zc then z else zoom v) = Some (inject_Z n) -> (0 <= n < levels cf)%Z -> placed v (resolution_at cf n) q ->
  exists v1, apply_move cf (Some q) z zc true v = Some v1 /\ vinv v1 /\ center v1 = Some q /\
    zoom v1 = Some (inject_Z n) /\ v_size v1 = v_size v /\ dragging v1 = dragging v.
Proof using Hcf.
  intros Hv Hz Hn Hp. pose proof (level_positive n Hn) as Hpos. unfold apply_move.
  destruct (decide (center v = None)) as [Hc|Hc].
  - pose proof (vi_center _ Hv) as Ho. rewrite Hc in Ho. destruct (origin v) as [o|] eqn:Eo; [done|].
    rewrite (bool_decide_eq_false_2 (center v <> None)) by (intros H; by apply H). rewrite andb_false_r.
    rewrite (bool_decide_eq_true_2 (_ = None)) by done. rewrite orb_true_r. cbn [mbind option_bind center].
    eexists. split; [reflexivity|]. destruct zc; cbn [center zoom v_size dragging]; (split; [|done]);
      eapply (vinv_intro _ n q q); cbn; try done; try apply (vi_w _ Hv); try apply (vi_h _ Hv); by apply aligned_self.
  - destruct (vinv_lookup v Hv Hc) as (k & c & o & Hk & Hkr & Ec & Eo & Hpc & Ha).
    rewrite (bool_decide_eq_true_2 (center v <> None)) by done.
    rewrite andb_true_r. destruct zc; cbn [negb orb].
    + cbn [mbind option_bind center]. eexists. split; [reflexivity|]. cbn [center zoom v_size dragging]. split; [|done].
      eapply (vinv_intro _ n q q); cbn; try done; try apply (vi_w _ Hv); try apply (vi_h _ Hv); by apply aligned_self.
    + rewrite (slide_ok v q o c Ec Eo (resolution_pos v Hv)). cbn [origin]. rewrite Eo.
      rewrite (bool_decide_eq_false_2 (Some o = None)) by done. cbn [mbind option_bind].
      eexists. split; [reflexivity|]. cbn [center zoom v_size dragging]. split; [|by rewrite Hz].
      rewrite Hk in Hz. assert (n = k) as -> by (symmetry; apply zoom_eqb_levels; rewrite Hz; cbn; by apply Qeq_bool_iff).
      assert (getResolution cf v = resolution_at cf k) as Er.
      { unfold getResolution. rewrite Hk. change (default 0 (Some (inject_Z k))) with (inject_Z k). by rewrite level_resolution. }
      eapply (vinv_intro _ k q o); cbn; rewrite ?Er; try done; [apply (vi_w _ Hv)|apply (vi_h _ Hv)].
Qed.

Lemma apply_same v p z (zc : bool) n c :
  vinv v -> center v = Some c -> (if zc then z else zoom v) = Some (inject_Z n) -> (0 <= n < levels cf)%Z ->
  placed v (resolution_at cf n) c ->
  exists v1, apply_move cf p z zc false v = Some v1 /\ vinv v1 /\ center v1 = Some c /\
    zoom v1 = Some (inject_Z n) /\ v_size v1 = v_size v /\ dragging v1 = dragging v.
Proof using Hcf.
  intros Hv Ec Hz Hn Hp. pose proof (level_positive n Hn) as Hpos. unfold apply_move.
  assert (match p with Some _ => v | None => v end = v) as -> by by destruct p.
  destruct (vinv_lookup v Hv) as (k & c' & o & Hk & Hkr & Ec' & Eo & Hpc & Ha); [congruence|].
  rewrite Eo, (bool_decide_eq_false_2 (Some o = None)), orb_false_r by done. destruct zc; cbn [mbind option_bind].
  - rewrite Ec. cbn [mbind option_bind center]. eexists. split; [reflexivity|]. cbn [center zoom v_size dragging]. split; [|done].
    eapply (vinv_intro _ n c c); cbn; try done; try apply (vi_w _ Hv); try apply (vi_h _ Hv); by apply aligned_self.
  - exists v. split; [done|]. split; [done|]. by split.
Qed.

(** What is known of the view after a move. *)
Record moved (v : view) (p : option lonlat) (z : option Q) (v1 : view) : Prop := Moved {
  mv_inv : vinv v1;
  mv_size : v_size v1 = v_size v;
  mv_zoom : exists n, zoom v1 = Some (inject_Z n) /\ (0 <= n < levels cf)%Z /\ (forall k, z = Some (inject_Z k) -> n = k);
  mv_center : exists c, center v1 = Some c /\ (target_good v p z -> exists q, p = Some q /\ ll_equals q c = true)
}.

Lemma ll_equals_refl q : ll_equals q q = true.
Proof. by apply ll_equals_iff. Qed.

Lemma apply_ok v p z :
  vinv v -> level z -> (target_good v p z \/ (restrictedExtent cf = None /\ isValidLonLat cf p = false /\ center v <> None)) ->
  let zc := isValidZoomLevel cf z && negb (zoom_eqb z (zoom v)) in
  let cc := isValidLonLat cf p && ll_changed p (center v) in
  exists v1, apply_move cf p z zc cc v = Some v1 /\ moved v p z v1 /\ zoom v1 = (if zc then z else zoom v) /\
    (zc = false -> cc = false -> moved v p z v).
Proof using Hcf.
  intros Hv Hz Ht zc cc. destruct (zoom_changed v z Hv Hz) as (n & Hn & En & Hk). fold zc in En.
  destruct Ht as [Hg|(Hnone & Hinv & Hc)].
  - destruct Hg as (q & -> & Hi & Hr).
    assert (target_good v (Some q) z) as Hg by by exists q. pose proof (placed_target v _ z n q Hg eq_refl Hk) as Hp.
    assert (isValidLonLat cf (Some q) = true) as Hval by by apply contains_in. unfold cc. rewrite Hval. cbn [andb].
    destruct (ll_changed (Some q) (center v)) eqn:Ech.
    + destruct (apply_new v q z zc n Hv En Hn Hp) as (v1 & -> & Hv1 & C1 & Z1 & S1 & D1). exists v1. split; [done|].
      split; [|split; [congruence|done]]. split; [done|done|by exists n|]. exists q. split; [done|]. intros _. exists q. split; [done|apply ll_equals_refl].
    + destruct (center v) as [c|] eqn:Ec; [|done]. cbn [ll_changed] in Ech. apply negb_false_iff in Ech.
      destruct (apply_same v (Some q) z zc n c Hv Ec En Hn (placed_eq _ _ _ _ Ech Hp)) as (v1 & -> & Hv1 & C1 & Z1 & S1 & D1).
      exists v1. split; [done|]. split; [|split; [congruence|]].
      * split; [done|done|by exists n|]. exists c. split; [done|]. intros _. by exists q.
      * intros Hzc _. rewrite Hzc in En. split; [done|done|by exists n|]. exists c. split; [done|]. intros _. by exists q.
  - unfold cc. rewrite Hinv. cbn [andb]. destruct (center v) as [c|] eqn:Ec; [|done].
    assert (~ target_good v p z) as Hng. { intros (q & -> & Hi & _). apply contains_in in Hi. unfold isValidLonLat in Hinv. congruence. }
    destruct (vinv_lookup v Hv) as (k & c' & o & _ & _ & Ec' & _ & [Hin _] & _); [congruence|].
    assert (c' = c) as -> by congruence.
    destruct (apply_same v p z zc n c Hv Ec En Hn) as (v1 & -> & Hv1 & C1 & Z1 & S1 & D1). { split; [done|]. by rewrite Hnone. }
    exists v1. split; [done|]. split; [|split; [congruence|]].
    + split; [done|done|by exists n|]. by exists c.
    + intros Hzc _. rewrite Hzc in En. split; [done|done|by exists n|]. by exists c.
Qed.

Lemma vinv_drag d v : vinv v -> vinv (set_dragging d v).
Proof. intros [? ? ? ?]. by split. Qed.

(** The zoom changed: its listeners were called. *)
Definition zoomed (ev : list event) : bool := existsb (fun e => match e with Zoomend => true | _ => false end) ev.

(** A move ends in the view that was asked for, or, after a change of the zoom, in
    the one the listeners make of it. *)
Lemma moveTo_cases L p z drag noEvent v :
  vinv v -> askable z ->
  (forall p' z' v1, target cf p z v = (p', z') -> moved v p' z' v1 -> L v1 <> None) ->
  exists p' z' v1 v' ev, target cf p z v = (p', z') /\ moved v p' z' v1 /\
    moveTo cf L p z (Options drag false noEvent) v = Some (v', ev) /\
    ((zoom v1 = zoom v /\ v' = set_dragging drag v1 /\ zoomed ev = false) \/
     (exists v2 ev2, L v1 = Some (v2, ev2) /\ v' = set_dragging drag v2 /\ zoomed ev = true)).
Proof using Hcf.
  intros Hv Hz HL. destruct (target_ok p z v Hv Hz) as (p' & z' & Et & Hlev & Ht).
  unfold moveTo. rewrite Et. cbn [o_force o_dragging o_noEvent orb].
  destruct (apply_ok v p' z' Hv Hlev Ht) as (v1 & E1 & M1 & Z1 & Hsame). specialize (HL p' z' v1 Et M1).
  set (zc := isValidZoomLevel cf z' && negb (zoom_eqb z' (zoom v))) in *. set (cc := isValidLonLat cf p' && ll_changed p' (center v)) in *.
  destruct (zc || cc || negb drag) eqn:Eb.
  - rewrite E1. cbn [mbind option_bind]. destruct (mv_center _ _ _ _ M1) as (c & C1 & _).
    unfold getExtent. rewrite C1. cbn [fmap option_fmap option_map mbind option_bind]. exists p', z', v1. destruct zc eqn:Ezc.
    + destruct (L v1) as [[v2 ev]|] eqn:E2; [|done]. cbn [mbind option_bind].
      eexists _, _. split; [done|]. split; [done|]. split; [reflexivity|]. right. exists v2, ev. split; [done|]. split; [done|].
      unfold zoomed. rewrite !existsb_app. cbn [existsb]. by rewrite !orb_true_r.
    + cbn [mbind option_bind]. eexists _, _. split; [done|]. split; [done|]. split; [reflexivity|]. left. split; [done|]. split; [done|].
      unfold zoomed. rewrite !existsb_app. by destruct (negb (dragging v) && _), (negb drag && _).
  - apply orb_false_iff in Eb as [[Ezc Ecc]%orb_false_iff _]. specialize (Hsame Ezc Ecc).
    cbn [mbind option_bind]. exists p', z', v. eexists _, _. split; [done|]. split; [done|]. split; [reflexivity|]. left.
    split; [done|]. split; [done|]. by destruct (negb drag && _).
Qed.

(** The same for listeners that leave a good view. *)
Lemma moveTo_ok L p z drag noEvent v :
  vinv v -> askable z ->
  (forall v1, vinv v1 -> center v1 <> None -> exists v' ev, L v1 = Some (v', ev) /\ vinv v' /\ center v' <> None) ->
  exists v' ev, moveTo cf L p z (Options drag false noEvent) v = Some (v', ev) /\ vinv v' /\ center v' <> None.
Proof using Hcf.
  intros Hv Hz HL. destruct (moveTo_cases L p z drag noEvent v Hv Hz) as (p' & z' & v1 & v' & ev & Et & M & E & Hc).
  { intros p' z' v1 _ M. destruct (mv_center _ _ _ _ M) as (c & C & _).
    destruct (HL v1 (mv_inv _ _ _ _ M)) as (? & ? & -> & _); [congruence|done]. }
  exists v', ev. split; [done|]. destruct (mv_center _ _ _ _ M) as (c & C & _). destruct Hc as [(_ & -> & _)|(v2 & ev2 & E2 & -> & _)].
  - split; [apply vinv_drag, M|]. cbn. congruence.
  - destruct (HL v1 (mv_inv _ _ _ _ M)) as (v3 & ev3 & E3 & Hv3 & C3); [congruence|].
    rewrite E2 in E3. injection E3 as <- <-. split; [by apply vinv_drag|done].
Qed.

(** ** Navigation *)

Inductive nav :=
  | NZoomTo (z : Z)
  | NZoomIn
  | NZoomOut
  | NExtent (b : bounds) (closest : bool)
  | NMaxExtent (restricted : bool)
  | NPan (dx dy : Q) (drag : bool)
  | NCenter (p : lonlat).

Definition nav_step (L : view -> option (view * list event)) (op : nav) (v : view) : option (view * list event) :=
  match op with
  | NZoomTo z => zoomTo cf L (Some (inject_Z z)) v
  | NZoomIn => zoomIn cf L v
  | NZoomOut => zoomOut cf L v
  | NExtent b closest => zoomToExtent cf L b closest v
  | NMaxExtent restricted => zoomToMaxExtent cf L restricted v
  | NPan dx dy drag => pan cf L dx dy drag v
  | NCenter p => setCenter cf L (Some p) None false false v
  end.

Definition pans (op : nav) : bool := match op with NPan _ _ _ => true | _ => false end.

(** Each of them is a move, or nothing. *)
Lemma nav_moves L op v :
  vinv v -> (pans op = true -> center v <> None) ->
  nav_step L op v = Some (v, []) \/
  exists p z drag, askable z /\ nav_step L op v = moveTo cf L p z (Options drag false false) v.
Proof using Hcf.
  intros Hv Hpan. pose proof (us_whole Hcf) as Hwh. pose proof (us_levels Hcf) as Hlv. pose proof (us_wraps Hcf) as Hwr.
  assert (Hz : forall q, zoomTo cf L (Some q) v = Some (v, []) \/
    (0 <= q < inject_Z (levels cf) /\ zoomTo cf L (Some q) v = moveTo cf L None (Some q) (Options false false false) v)).
  { intros q. unfold zoomTo. destruct (isValidZoomLevel cf (Some q)) eqn:E; [|by left]. right. split; [|done].
    unfold isValidZoomLevel, getNumZoomLevels in E. rewrite andb_true_iff, Qle_bool_iff, Qltb_lt in E. lra. }
  assert (Hask : forall q n, q == inject_Z n -> 0 <= q < inject_Z (levels cf) -> askable (Some q)).
  { intros q n Hq Hr q' [= <-]. rewrite Hq, round_Z. rewrite Hq in Hr. change 0 with (inject_Z 0) in Hr.
    rewrite <-Zle_Qle, <-Zlt_Qlt in Hr. lia. }
  assert (Hext : forall b c, exists z, askable (Some z) /\ zoomToExtent cf L b c v = moveTo cf L (Some (getCenter b)) (Some z) (Options false false false) v).
  { intros b c. unfold zoomToExtent. rewrite Hwr. cbn [mbind option_bind]. unfold getZoomForExtent.
    assert (exists n, getZoomForResolution cf (Qmax (getWidth b / w (v_size v)) (getHeight b / h (v_size v))) c = inject_Z n /\
      (0 <= n < levels cf)%Z) as (n & -> & Hn).
    { destruct c; [edestruct (zoom_closest cf Hwh Hlv) as (n & E & Hn & _); [apply (us_finer Hcf)|]|edestruct (zoom_fits cf Hwh Hlv) as (n & E & Hn & _)]; eauto. }
    eexists. split; [|reflexivity]. intros q [= <-]. by rewrite round_Z. }
  destruct (vi_zoom _ Hv) as (k & Hk & Hkr). destruct op as [z| | |b c|r|dx dy drag|p]; cbn [nav_step].
  - destruct (Hz (inject_Z z)) as [E|[Hr E]]; [by left|]. right. exists None, (Some (inject_Z z)), false. split; [by eapply Hask|done].
  - unfold zoomIn. rewrite Hk. change (default 0 (Some (inject_Z k))) with (inject_Z k).
    destruct (Hz (inject_Z k + 1)) as [E|[Hr E]]; [by left|]. right. exists None, (Some (inject_Z k + 1)), false.
    split; [|done]. apply (Hask _ (k + 1)%Z); [by rewrite inject_Z_plus|done].
  - unfold zoomOut. rewrite Hk. change (default 0 (Some (inject_Z k))) with (inject_Z k).
    destruct (Hz (inject_Z k - 1)) as [E|[Hr E]]; [by left|]. right. exists None, (Some (inject_Z k - 1)), false.
    split; [|done]. apply (Hask _ (k - 1)%Z); [unfold Z.sub; by rewrite inject_Z_plus|done].
  - right. destruct (Hext b c) as (z & Hz' & E). by exists (Some (getCenter b)), (Some z), false.
  - right. unfold zoomToMaxExtent. set (b := if r then _ else _). destruct (Hext b false) as (z & Hz' & E).
    by exists (Some (getCenter b)), (Some z), false.
  - unfold pan. destruct (center v) as [c|] eqn:Ec; [|by destruct (Hpan eq_refl)]. cbn [mbind option_bind].
    unfold getViewPortPxFromLonLat, getLonLatFromViewPortPx, getExtent. rewrite Ec, Hwr. cbn [mbind option_bind fmap option_fmap option_map].
    destruct (drag && _); [by left|]. right. eexists _, None, drag. split; [done|reflexivity].
  - right. by exists (Some p), None, false.
Qed.

(** The views of a map of this size, with a listener, and whether the zoom ever
    changed. *)
Inductive navigated (L : view -> option (view * list event)) (sz : size) : bool -> view -> Prop :=
  | nav_new : navigated L sz false (new_view sz)
  | nav_next changed op v v' ev :
      navigated L sz changed v -> nav_step L op v = Some (v', ev) -> navigated L sz (changed || zoomed ev) v'.

Lemma target_zoom p q v p' z' : target cf p (Some q) v = (p', z') -> z' = Some (inject_Z (round q)).
Proof using Hcf. unfold target. rewrite (us_whole Hcf). cbn [fmap option_fmap option_map]. destruct (restrictedExtent cf); by intros [= _ <-]. Qed.

(** The listener of the network map ends, and leaves a zoom of at least 2. *)
Lemma keep_zoom_ok n v :
  (3 <= levels cf)%Z -> vinv v -> center v <> None ->
  exists v' ev k, keep_zoom cf (S (S n)) v = Some (v', ev) /\ vinv v' /\ center v' <> None /\
    zoom v' = Some (inject_Z k) /\ (2 <= k)%Z.
Proof using Hcf.
  intros H3 Hv Hc. destruct (vi_zoom _ Hv) as (k & Hk & Hkr). remember (S n) as m eqn:Em. cbn [keep_zoom]. rewrite Hk.
  change (default 0 (Some (inject_Z k))) with (inject_Z k). destruct (Qle_bool (inject_Z k) 1) eqn:E.
  - unfold zoomTo. change 2 with (inject_Z 2). rewrite (proj2 (level_valid 2)) by lia.
    assert (Hlisten : forall v1, zoom v1 = Some (inject_Z 2) -> keep_zoom cf m v1 = Some (v1, [])).
    { intros v1 Hz1. rewrite Em. cbn [keep_zoom]. by rewrite Hz1. }
    assert (Hzoom : forall p' z' v1, target cf None (Some (inject_Z 2)) v = (p', z') -> moved v p' z' v1 -> zoom v1 = Some (inject_Z 2)).
    { intros p' z' v1 Et M. apply target_zoom in Et as ->. destruct (mv_zoom _ _ _ _ M) as (j & -> & _ & Hj). by rewrite (Hj 2%Z). }
    destruct (moveTo_cases (keep_zoom cf m) None (Some (inject_Z 2)) false false v) as (p' & z' & v1 & v' & ev & Et & M & Ev & Hcase); [done|..].
    { intros q [= <-]. rewrite round_Z. lia. }
    { intros p' z' v1 Et M. by rewrite Hlisten by by eapply Hzoom. }
    specialize (Hzoom _ _ _ Et M). destruct (mv_center _ _ _ _ M) as (c & C & _).
    assert (v' = set_dragging false v1) as ->.
    { destruct Hcase as [(_ & -> & _)|(v2 & ev2 & E2 & -> & _)]; [done|]. rewrite Hlisten in E2 by done. by injection E2 as -> _. }
    exists (set_dragging false v1), ev, 2%Z. split; [exact Ev|]. split; [apply vinv_drag, M|]. split; [cbn; congruence|]. by split.
  - exists v, [], k. split; [done|]. split; [done|]. split; [done|]. split; [done|].
    apply Qle_bool_lt in E. change 1 with (inject_Z 1) in E. rewrite <-Zlt_Qlt in E. lia.
Qed.

Lemma new_view_inv sz : 0 < w sz -> 0 < h sz -> vinv (new_view sz).
Proof using Hcf.
  intros Hw Hh. split; [done|done| |done]. exists 0%Z. split; [done|]. pose proof (levels_pos cf (us_levels Hcf)). lia.
Qed.

(** A step of the network map. *)
Lemma oess_step op v :
  (3 <= levels cf)%Z -> vinv v -> (pans op = true -> center v <> None) ->
  exists v' ev, nav_step (keep_zoom cf 2) op v = Some (v', ev) /\ vinv v' /\
    (if zoomed ev then exists k, zoom v' = Some (inject_Z k) /\ (2 <= k)%Z else zoom v' = zoom v).
Proof using Hcf.
  intros H3 Hv Hp. destruct (nav_moves (keep_zoom cf 2) op v Hv Hp) as [->|(p & z & drag & Hz & ->)].
  { exists v, []. by split. }
  destruct (moveTo_cases (keep_zoom cf 2) p z drag false v Hv Hz) as (p' & z' & v1 & v' & ev & Et & M & -> & Hcase).
  { intros p' z' v1 _ M. destruct (mv_center _ _ _ _ M) as (c & C & _).
    destruct (keep_zoom_ok 0 v1 H3 (mv_inv _ _ _ _ M)) as (? & ? & ? & -> & _); [congruence|done]. }
  exists v', ev. split; [done|]. destruct Hcase as [(Ez & -> & ->)|(v2 & ev2 & E2 & -> & ->)].
  - split; [apply vinv_drag, M|done].
  - destruct (mv_center _ _ _ _ M) as (c & C & _).
    destruct (keep_zoom_ok 0 v1 H3 (mv_inv _ _ _ _ M)) as (v3 & ev3 & k & E3 & Hv3 & _ & Z3 & Hk); [congruence|].
    rewrite E2 in E3. injection E3 as <- <-. split; [by apply vinv_drag|]. by exists k.
Qed.
End moves.

(** C21 The view of the network map, made with whole zooms, at least three levels and no
    wrapping, after any sequence of zooms, moves, pans and extents, for any size of its
    element: the zoom is a level, 0 as long as it was never changed and at least 2 ever
    after; a view with a centre lies within the restricted extent along each axis where
    it fits, and in the middle of it where it does not, and the container of its layers
    is displaced by the whole pixels between its origin and the centre; and every further
    step ends, the nested calls of the listener included (a map that was never
    centred cannot be panned). *)
Theorem view_kept cf sz changed v :
  usable cf -> (3 <= levels cf)%Z -> 0 < w sz -> 0 < h sz -> navigated cf (keep_zoom cf 2) sz changed v ->
  (exists n, zoom v = Some (inject_Z n) /\ (0 <= n < levels cf)%Z /\ (if changed then 2 <= n else n = 0)%Z) /\
  (forall c, center v = Some c ->
     placed cf v (getResolution cf v) c /\ exists o, origin v = Some o /\ aligned v o c (getResolution cf v)) /\
  (forall op, (pans op = true -> center v <> None) -> exists v' ev, nav_step cf (keep_zoom cf 2) op v = Some (v', ev)).
Proof.
  intros Hcf H3 Hw Hh Hnav.
  assert (vinv cf v /\ exists n, zoom v = Some (inject_Z n) /\ (if changed then 2 <= n else n = 0)%Z) as [Hv Hz].
  { induction Hnav as [|changed op v v' ev _ [Hv (n & Hz & Hn)] E]; [split; [by apply new_view_inv|by exists 0%Z]|].
    destruct (oess_step cf Hcf op v H3 Hv) as (v2 & ev2 & E2 & Hv2 & Hz2).
    { intros Hp Hc. destruct op; try done. cbn [nav_step] in E. unfold pan in E. by rewrite Hc in E. }
    rewrite E in E2. injection E2 as <- <-. split; [done|]. destruct (zoomed ev); [|by exists n; rewrite orb_false_r, Hz2].
    destruct Hz2 as (k & -> & Hk). exists k. by rewrite orb_true_r. }
  split; [|split].
  - destruct Hz as (n & Hz & Hn). destruct (vi_zoom _ _ Hv) as (k & Hk & Hr). exists n. split; [done|]. split; [|done].
    rewrite Hz in Hk. injection Hk as ->. done.
  - intros c Hc. pose proof (vi_center _ _ Hv) as H. rewrite Hc in H. destruct (origin v) as [o|]; [|done].
    destruct H as [H1 H2]. split; [done|by exists o].
  - intros op Hp. destruct (oess_step cf Hcf op v H3 Hv Hp) as (v' & ev & E & _). eauto.
Qed.

(** ** Showing an extent *)

Section showing.
Context (cf : config) (Hcf : usable cf).

Lemma target_position p n v :
  inside (maxExtent cf) p -> (0 <= n < levels cf)%Z ->
  target cf (Some p) (Some (inject_Z n)) v
  = (Some (match restrictedExtent cf with
           | Some r => restrict r (calculateBounds v p (resolution_at cf n)) p
           | None => p
           end), Some (inject_Z n)).
Proof using Hcf.
  intros Hp Hn. unfold target. rewrite (us_whole _ Hcf). cbn [fmap option_fmap option_map]. rewrite round_Z.
  assert (match center v with None => if isValidLonLat cf (Some p) then Some p else Some (getCenter (maxExtent cf)) | Some _ => Some p end = Some p) as ->.
  { destruct (center v); [done|]. cbn [isValidLonLat]. by rewrite (proj2 (contains_in _ _) Hp). }
  destruct (restrictedExtent cf); [|done]. cbn [fmap option_fmap option_map].
  change (default 0 (Some (inject_Z n))) with (inject_Z n). by rewrite (level_resolution cf Hcf).
Qed.

(** Bringing the view back into the restricted extent keeps what is in both. *)
Lemma restrict_covers r v res p b :
  covers r b -> covers (calculateBounds v p res) b ->
  covers (calculateBounds v (restrict r (calculateBounds v p res) p) res) b.
Proof.
  intros Hr He. unfold restrict. set (k := containsBounds _ _ _ _). destruct k; [done|].
  unfold covers, getWidth, getHeight, getCenter, ll_add in *. cbn [calculateBounds left right top bottom] in *.
  fold (half_w v res) (half_h v res) in *. set (hw := half_w v res) in *. set (hh := half_h v res) in *.
  assert ((left r + right r) / 2 == (left r + right r) * (1 # 2)) as Ex by field.
  assert ((bottom r + top r) / 2 == (bottom r + top r) * (1 # 2)) as Ey by field.
  destruct (Qltb (right r - left r) _) eqn:E1; [|destruct (Qltb (lon p - hw) (left r)) eqn:E2; [|destruct (Qltb (right r) (lon p + hw)) eqn:E3]];
  (destruct (Qltb (top r - bottom r) _) eqn:F1; [|destruct (Qltb (lat p - hh) (bottom r)) eqn:F2; [|destruct (Qltb (top r) (lat p + hh)) eqn:F3]]);
    rewrite ?Qltb_lt, ?Qltb_ge in *; cbn [lon lat]; rewrite ?Ex, ?Ey; lra.
Qed.

(** A view centred on bounds, at a resolution coarse enough, shows them. *)
Lemma centred_covers v b res :
  0 < w (v_size v) -> 0 < h (v_size v) -> getWidth b / w (v_size v) <= res -> getHeight b / h (v_size v) <= res ->
  covers (calculateBounds v (getCenter b) res) b.
Proof.
  intros Hw Hh H1 H2. unfold covers, getCenter, getWidth, getHeight in *. cbn [calculateBounds left right top bottom lon lat].
  assert (right b - left b <= w (v_size v) * res) as Hx.
  { apply (Qmult_le_l _ _ (w (v_size v))) in H1; [|done]. assert (w (v_size v) * ((right b - left b) / w (v_size v)) == right b - left b) as E by (field; lra). lra. }
  assert (top b - bottom b <= h (v_size v) * res) as Hy.
  { apply (Qmult_le_l _ _ (h (v_size v))) in H2; [|done]. assert (h (v_size v) * ((top b - bottom b) / h (v_size v)) == top b - bottom b) as E by (field; lra). lra. }
  assert ((left b + right b) / 2 == (left b + right b) * (1 # 2)) as -> by field.
  assert ((bottom b + top b) / 2 == (bottom b + top b) * (1 # 2)) as -> by field.
  assert (w (v_size v) * res / 2 == w (v_size v) * res * (1 # 2)) as -> by field.
  assert (h (v_size v) * res / 2 == h (v_size v) * res * (1 # 2)) as -> by field. lra.
Qed.

Lemma covers_moved v v' res q c b :
  v_size v' = v_size v -> ll_equals q c = true -> covers (calculateBounds v q res) b -> covers (calculateBounds v' c res) b.
Proof. intros Es [E1 E2]%ll_equals_iff. unfold covers. cbn [calculateBounds left right top bottom]. rewrite Es. lra. Qed.
End showing.

(** Zooming to an extent shows it: for bounds within the extent the map may show,
    that fit at the coarsest level, [zoomToExtent] ends in a view that contains them
    (the restriction only moves the view over what it may show), and no finer level
    would have fit them. *)
Theorem extent_shown cf v b :
  usable cf -> vinv cf v -> valid b -> covers (default (maxExtent cf) (restrictedExtent cf)) b ->
  Qmax (getWidth b / w (v_size v)) (getHeight b / h (v_size v)) <= resolution_at cf 0 ->
  exists v' ev n e, zoomToExtent cf quiet_zoomend b false v = Some (v', ev) /\ getExtent cf v' = Some e /\ covers e b /\
    zoom v' = Some (inject_Z n) /\
    forall n', (n < n' < levels cf)%Z -> resolution_at cf n' < Qmax (getWidth b / w (v_size v)) (getHeight b / h (v_size v)).
Proof.
  intros Hcf Hv Hb Hcov Hfit. unfold zoomToExtent. rewrite (us_wraps _ Hcf). cbn [mbind option_bind]. unfold getZoomForExtent.
  set (ideal := Qmax _ _) in *.
  destruct (zoom_fits cf (us_whole _ Hcf) (us_levels _ Hcf) ideal) as (n & -> & Hn & Hres & Hfine). specialize (Hres Hfit).
  assert (covers (maxExtent cf) b) as Hmax.
  { destruct (restrictedExtent cf) as [r|] eqn:Er; [|done]. destruct (us_restricted _ Hcf r Er) as [_ Hr]. unfold covers in *. cbn [default] in Hcov. simpl in Hcov. lra. }
  assert (inside (maxExtent cf) (getCenter b)) as Hin by (eapply covers_inside; [done|by apply center_inside]).
  pose proof (target_position cf Hcf (getCenter b) n v Hin Hn) as Et.
  assert (covers (calculateBounds v (getCenter b) (resolution_at cf n)) b) as Hc0.
  { apply centred_covers; [apply (vi_w _ _ Hv)|apply (vi_h _ _ Hv)|..]; (eapply Qle_trans; [|exact Hres]); [apply Q.le_max_l|apply Q.le_max_r]. }
  set (q := match restrictedExtent cf with Some r => _ | None => _ end) in Et.
  assert (covers (calculateBounds v q (resolution_at cf n)) b) as Hq.
  { unfold q. destruct (restrictedExtent cf) as [r|] eqn:Er; [|done]. by apply restrict_covers. }
  destruct (moveTo_cases cf Hcf quiet_zoomend (Some (getCenter b)) (Some (inject_Z n)) false false v Hv)
    as (p' & z' & v1 & v' & ev & Et' & M & E & Hcase); [by intros z [= <-]; rewrite round_Z|done|].
  rewrite Et in Et'. injection Et' as <- <-.
  assert (v' = set_dragging false v1) as -> by by destruct Hcase as [(_ & -> & _)|(v2 & ev2 & [= <- _] & -> & _)].
  destruct (mv_zoom _ _ _ _ _ M) as (k & Hk & _ & Hkn). rewrite (Hkn n eq_refl) in Hk.
  destruct (mv_center _ _ _ _ _ M) as (c & Hc & Hg).
  assert (ll_equals q c = true) as Hqc.
  { destruct (target_ok cf Hcf (Some (getCenter b)) (Some (inject_Z n)) v Hv) as (p2 & z2 & E2 & _ & Hgood); [by intros z [= <-]; rewrite round_Z|].
    rewrite Et in E2. injection E2 as <- <-. destruct Hgood as [Hgood|(Hnone & Hinv & _)].
    - destruct (Hg Hgood) as (q' & [= <-] & Heq). done.
    - unfold q in Hinv. rewrite Hnone in Hinv. cbn [isValidLonLat] in Hinv. by rewrite (proj2 (contains_in _ _) Hin) in Hinv. }
  eexists (set_dragging false v1), ev, n, _. split; [done|]. split; [|split; [|split; [done|]]].
  - unfold getExtent, getResolution. cbn [center set_dragging zoom]. by rewrite Hc, Hk.
  - change (default 0 (Some (inject_Z n))) with (inject_Z n). rewrite (level_resolution cf Hcf) by done.
    eapply (covers_moved v); [apply (mv_size _ _ _ _ _ M)|done|done].
  - intros n' Hn'. by apply Hfine; [|apply (us_finer _ Hcf)].
Qed.

(** ** The configuration of the network map *)

Lemma pow2_pos i : 0 < inject_Z (2 ^ Z.of_nat i).
Proof. change 0 with (inject_Z 0). rewrite <-Zlt_Qlt. apply Z.pow_pos_nonneg; lia. Qed.

Lemma calculated_lookup m n i a :
  calculateResolutions m n !! i = Some a -> a = m / inject_Z (2 ^ Z.of_nat i).
Proof.
  unfold calculateResolutions. intros H. change (map ?f ?l) with (f <$> l) in H. rewrite list_lookup_fmap in H.
  destruct (seq 0 n !! i) as [j|] eqn:E; [|done]. apply lookup_seq in E as [-> _]. by injection H as <-.
Qed.

(** Every level halves the resolution of the one before. *)
Lemma calculated_usable m n : 0 < m ->
  (forall i a, calculateResolutions m n !! i = Some a -> 0 < a) /\ descending (calculateResolutions m n).
Proof.
  intros Hm. split.
  - intros i a ->%calculated_lookup. apply Qlt_shift_div_l; [apply pow2_pos|]. lra.
  - intros i j a b Hij ->%calculated_lookup ->%calculated_lookup.
    apply Qlt_shift_div_l; [apply pow2_pos|]. pose proof (pow2_pos i) as Hi. pose proof (pow2_pos j) as Hj.
    assert (m / inject_Z (2 ^ Z.of_nat j) * inject_Z (2 ^ Z.of_nat i) == m * (inject_Z (2 ^ Z.of_nat i) / inject_Z (2 ^ Z.of_nat j))) as -> by (field; lra).
    assert (inject_Z (2 ^ Z.of_nat i) / inject_Z (2 ^ Z.of_nat j) < 1) as H1.
    { apply Qlt_shift_div_r; [done|]. rewrite Qmult_1_l, <-Zlt_Qlt. apply Z.pow_lt_mono_r; lia. }
    apply (Qmult_lt_l _ _ m) in H1; [|done]. lra.
Qed.

Lemma oess_usable : usable oess_config.
Proof.
  destruct (calculated_usable (1565430339 # 10000) 8) as [H1 H2]; [lra|].
  split; [done|done|done|done|done|by cbn; split; vm_compute|].
  intros r [= <-]. split; [by split; vm_compute|]. unfold covers. cbn. split_and!; lra.
Qed.

Definition screen : size := Size 1000 600.
Definition campus : bounds := Bounds (- 9760000) 4300000 (- 8570000) 5120000.

(** The first view of the map of a small element: the whole world fits at zoom 0,
    which is the zoom a new map has, so that the listener is not called. *)
Lemma first_view_all_the_way_out :
  (fun p : view * list event => zoom (fst p)) <$> zoomToExtent oess_config (keep_zoom oess_config 2) world false (new_view (Size 500 300)) = Some (Some 0).
Proof. by vm_compute. Qed.

(** The map zoomed to the campus. *)
Definition campus_move : view * list event :=
  default (new_view screen, []) (nav_step oess_config (keep_zoom oess_config 2) (NExtent campus false) (new_view screen)).
Definition campus_view : view := fst campus_move.

Lemma campus_navigated : navigated oess_config (keep_zoom oess_config 2) screen true campus_view.
Proof.
  replace true with (false || zoomed (snd campus_move)) by (vm_compute; reflexivity).
  apply (nav_next _ _ _ _ (NExtent campus false) (new_view screen)); [constructor|]. vm_compute. reflexivity.
Qed.

Lemma campus_centred : center campus_view <> None.
Proof. vm_compute. discriminate. Qed.

Lemma view_kept_witness :
  (exists n, zoom campus_view = Some (inject_Z n) /\ (2 <= n)%Z) /\
  (exists c, center campus_view = Some c /\ placed oess_config campus_view (getResolution oess_config campus_view) c).
Proof.
  pose proof campus_centred as H. pose proof campus_navigated as N. revert H N. generalize campus_view. intros v H N.
  destruct (view_kept oess_config screen true v) as ((n & Hz & _ & Hn) & Hc & _);
    [apply oess_usable|vm_compute; discriminate|reflexivity|reflexivity|exact N|].
  split; [by exists n|]. destruct (center v) as [c|]; [|done]. exists c. split; [done|]. by apply Hc.
Defined.

Lemma extent_shown_witness :
  exists v' ev n e, zoomToExtent oess_config quiet_zoomend campus false (new_view screen) = Some (v', ev) /\
    getExtent oess_config v' = Some e /\ covers e campus /\ zoom v' = Some (inject_Z n) /\
    forall n', (n < n' < levels oess_config)%Z ->
      resolution_at oess_config n' < Qmax (getWidth campus / w screen) (getHeight campus / h screen).
Proof.
  apply (extent_shown oess_config (new_view screen) campus);
    [apply oess_usable|apply new_view_inv; [apply oess_usable|reflexivity|reflexivity]|split; vm_compute; discriminate| |].
  - unfold covers. cbn. split_and!; lra.
  - vm_compute. discriminate.
Defined.

Lemma pixel_roundtrip_witness :
  let v := View screen (Some (LonLat 0 0)) (Some 2) None None 0 0 0 false in
  (forall p, exists ll q, getLonLatFromViewPortPx oess_config v p = Some ll /\ getViewPortPxFromLonLat oess_config v ll = Some q /\
     x q == x p /\ y q == y p) /\
  (forall ll, exists q ll', getViewPortPxFromLonLat oess_config v ll = Some q /\ getLonLatFromViewPortPx oess_config v q = Some ll' /\
     lon ll' == lon ll /\ lat ll' == lat ll).
Proof. apply (pixel_roundtrip oess_config _ (LonLat 0 0)); [reflexivity|reflexivity|vm_compute; reflexivity]. Defined.
