(* ===== verification/MapSelect.v ===== *)
(** Selecting and hovering over the features of the map.

    The map page puts two [OpenLayers.Control.SelectFeature] controls over its
    vector layer (js_templates/maps.js): a click control with [clickout] and
    [toggle], and a hover control that only highlights and shows a popup with
    the name of the feature.  Each control has a feature handler
    ([OpenLayers.Handler.Feature]), which turns mouse events into the callbacks
    of the control.

    - a [world] holds the layer ([features] and [selected], with each feature's
      [layer] field and highlighters), the two handlers and the popup of the map;
    - every operation that reads a field of [feature.layer] returns [None] when
      that layer is null, where the code throws a TypeError;
    - what the listeners of clickNode and clickLink do to the layer is an
      argument, [on_select]: a list of additions and removals;
    - which feature the renderer finds under the mouse is part of the event.

    Drawing is not modelled: every feature of the page has its own style, which
    [drawFeature] uses whatever the render intent. *)

From stdpp Require Import base list gmap sets.
From Stdlib Require Import ZArith Lia ssreflect.
From S2P Require Import Prelude.

#[local] Open Scope general_if_scope.
#[local] Open Scope Z_scope.

(** ** The layer, the handlers and the page *)

Notation fid := nat (only parsing).

Inductive control := ClickControl | HoverControl.

#[export] Instance control_eq_dec : EqDecision control.
Proof. solve_decision. Defined.

(** The fields of a feature the controls use: whether [layer] is set,
    [_lastHighlighter] and [_prevHighlighter]. *)
Record marks := Marks {
  in_layer : bool;
  lastHighlighter : option control;
  prevHighlighter : option control }.

Definition no_marks : marks := Marks false None None.

Record feature_handler := FeatureHandler {
  feature : option fid;
  lastFeature : option fid;
  down : option (Z * Z);
  up : option (Z * Z) }.

Definition new_handler : feature_handler := FeatureHandler None None None None.

Record world := World {
  features : list fid;
  selected : list fid;
  mark : gmap nat marks;
  on_click : feature_handler;
  on_hover : feature_handler;
  popup : option fid }.

Definition marks_of (w : world) (f : fid) : marks := default no_marks (mark w !! f).

Definition set_marks (w : world) (f : fid) (m : marks) : world :=
  World (features w) (selected w) (<[f := m]> (mark w)) (on_click w) (on_hover w) (popup w).
Definition set_layer (w : world) (fs sel : list fid) : world :=
  World fs sel (mark w) (on_click w) (on_hover w) (popup w).
Definition set_popup (w : world) (p : option fid) : world :=
  World (features w) (selected w) (mark w) (on_click w) (on_hover w) p.
Definition handler_of (c : control) (w : world) : feature_handler :=
  match c with ClickControl => on_click w | HoverControl => on_hover w end.
Definition set_handler (c : control) (w : world) (h : feature_handler) : world :=
  match c with
  | ClickControl => World (features w) (selected w) (mark w) h (on_hover w) (popup w)
  | HoverControl => World (features w) (selected w) (mark w) (on_click w) h (popup w)
  end.

(** [OpenLayers.Util.removeItem]: every occurrence goes. *)
Definition removeItem (l : list fid) (f : fid) : list fid := filter (.≠ f) l.

(** ** Adding and removing features *)

Inductive layer_op :=
  | AddFeature (f : fid)
  | RemoveFeature (f : fid)
  | RemoveAllFeatures.

Definition addFeatures (w : world) (f : fid) : world :=
  let m := marks_of w f in
  set_layer (set_marks w f (Marks true (lastHighlighter m) (prevHighlighter m)))
    (features w ++ [f]) (selected w).

Definition leave_layer (w : world) (f : fid) : world :=
  let m := marks_of w f in
  set_marks w f (Marks false (lastHighlighter m) (prevHighlighter m)).

Definition removeFeatures (w : world) (f : fid) : world :=
  set_layer (leave_layer w f) (removeItem (features w) f)
    (if decide (f ∈ selected w) then removeItem (selected w) f else selected w).

Definition removeAllFeatures (w : world) : world :=
  set_layer (foldl leave_layer w (reverse (features w))) [] [].

Definition layer_step (w : world) (o : layer_op) : world :=
  match o with
  | AddFeature f => addFeatures w f
  | RemoveFeature f => removeFeatures w f
  | RemoveAllFeatures => removeAllFeatures w
  end.

(** [getFeatureFromEvent]: the feature with the id the renderer found, if the
    layer has one. *)
Definition getFeatureById (w : world) (under : option fid) : option fid :=
  i ← under; if decide (i ∈ features w) then Some i else None.

Inductive mouse := Mousedown | Mouseup | Click | Dblclick | Mousemove.
Inductive mode := MIn | MOut.
Inductive key := KClick | KClickout | KOver | KOut | KDblclick.

Definition EVENTMAP (t : mouse) (m : mode) : option key :=
  match t, m with
  | Click, MIn => Some KClick
  | Click, MOut => Some KClickout
  | Mousemove, MIn => Some KOver
  | Mousemove, MOut => Some KOut
  | Dblclick, MIn => Some KDblclick
  | _, _ => None
  end.

Definition clickTolerance : Z := 4.

(** The distance [Math.sqrt] gives is at most the tolerance. *)
Definition within_tolerance (u d : Z * Z) : bool :=
  (u.1 - d.1) ^ 2 + (u.2 - d.2) ^ 2 <=? clickTolerance ^ 2.

(** A layer just made, and the controls just activated. *)
Definition new_layer : world := World [] [] ∅ new_handler new_handler None.

Definition drawn (fs : list fid) : world := foldl addFeatures new_layer fs.

(** ** The invariant of the layer *)

(** At most one feature is selected, it is on the layer, and the features with
    a layer are the features of the layer. *)
Record layer_inv (w : world) : Prop := {
  inv_marks : forall f, in_layer (marks_of w f) = true <-> f ∈ features w;
  inv_single : (length (selected w) <= 1)%nat;
  inv_selected : forall f, f ∈ selected w -> f ∈ features w }.

(** Two worlds that differ in highlighters and popup only. *)
Record same_layer (w w' : world) : Prop := {
  same_features : features w' = features w;
  same_selected : selected w' = selected w;
  same_marks : forall f, in_layer (marks_of w' f) = in_layer (marks_of w f);
  same_click : on_click w' = on_click w;
  same_hover : on_hover w' = on_hover w }.

#[local] Instance same_layer_preorder : PreOrder same_layer.
Proof.
  split; [done|]. intros ? ? ? [] []. split; try congruence.
Qed.

Lemma marks_of_set w f m g :
  marks_of (set_marks w f m) g = if decide (f = g) then m else marks_of w g.
Proof.
  rewrite /marks_of /=. case_decide as E; [subst; by rewrite lookup_insert_eq|].
  by rewrite lookup_insert_ne.
Qed.

Lemma same_set_marks w f m :
  in_layer m = in_layer (marks_of w f) -> same_layer w (set_marks w f m).
Proof. split; try done. intros g. rewrite marks_of_set. by case_decide; subst. Qed.

Lemma same_set_popup w p : same_layer w (set_popup w p).
Proof. by split. Qed.

Lemma inv_same w w' : same_layer w w' -> layer_inv w -> layer_inv w'.
Proof.
  intros [Hf Hs Hm ? ?] [I1 I2 I3].
  split; [intros g; rewrite Hm Hf|rewrite Hs|rewrite Hs Hf]; auto.
Qed.

Lemma inv_set_handler c w h : layer_inv w -> layer_inv (set_handler c w h).
Proof. intros []; by destruct c; split. Qed.

Lemma elem_removeItem l f g : g ∈ removeItem l f <-> g <> f /\ g ∈ l.
Proof. rewrite /removeItem list_elem_of_filter. tauto. Qed.

Lemma length_removeItem l f : (length (removeItem l f) <= length l)%nat.
Proof. apply length_filter. Qed.

Lemma removeItem_single f : removeItem [f] f = [].
Proof. rewrite /removeItem filter_cons_False; [by intros H; apply H|done]. Qed.

Lemma leave_all fs w g :
  in_layer (marks_of (foldl leave_layer w fs) g)
  = in_layer (marks_of w g) && bool_decide (g ∉ fs).
Proof.
  revert w. induction fs as [|f fs IH]; intros w; cbn [foldl].
  - rewrite bool_decide_true; [apply not_elem_of_nil|by rewrite andb_true_r].
  - rewrite IH /leave_layer marks_of_set. destruct (decide (f = g)) as [E|E]; cbn [in_layer].
    + subst. by rewrite andb_false_l bool_decide_false ?andb_false_r; [set_solver|].
    + f_equal. apply bool_decide_ext. set_solver.
Qed.

Lemma inv_layer_step w o : layer_inv w -> layer_inv (layer_step w o).
Proof.
  intros [I1 I2 I3]. destruct o as [f|f|]; cbn [layer_step].
  - split; cbn [features selected set_layer set_marks addFeatures]; auto.
    + intros g. change (in_layer (marks_of (set_marks w f (Marks true
        (lastHighlighter (marks_of w f)) (prevHighlighter (marks_of w f)))) g) = true
        <-> g ∈ features w ++ [f]).
      rewrite marks_of_set. case_decide; subst; cbn [in_layer]; [set_solver|].
      rewrite I1. set_solver.
    + intros g Hg. specialize (I3 g Hg). set_solver.
  - split; cbn [features selected set_layer removeFeatures].
    + intros g. change (in_layer (marks_of (leave_layer w f) g) = true
        <-> g ∈ removeItem (features w) f).
      rewrite /leave_layer marks_of_set elem_removeItem.
      case_decide; subst; cbn [in_layer]; [naive_solver|]. rewrite I1. naive_solver.
    + case_decide; [|done]. pose proof (length_removeItem (selected w) f). lia.
    + intros g. case_decide; rewrite !elem_removeItem; [naive_solver|].
      intros Hg. split; [by intros ->|auto].
  - split; cbn [features selected set_layer removeAllFeatures length]; [|lia|set_solver].
    intros g. change (in_layer (marks_of (foldl leave_layer w (reverse (features w))) g) = true
        <-> g ∈ @nil nat).
    rewrite leave_all. rewrite andb_true_iff bool_decide_eq_true elem_of_reverse I1. set_solver.
Qed.

Lemma inv_layer_steps os w : layer_inv w -> layer_inv (foldl layer_step w os).
Proof. revert w. induction os; cbn [foldl]; auto using inv_layer_step. Qed.

Lemma layer_inv_new : layer_inv new_layer.
Proof. split; cbn; [|lia|set_solver]. intros f. rewrite /marks_of lookup_empty. set_solver. Qed.

Lemma layer_inv_drawn fs : layer_inv (drawn fs).
Proof.
  rewrite /drawn. cut (forall w, layer_inv w -> layer_inv (foldl addFeatures w fs)).
  { intros H. apply H, layer_inv_new. }
  induction fs as [|f fs IH]; intros w I; cbn [foldl]; [done|].
  apply IH. exact (inv_layer_step w (AddFeature f) I).
Qed.

Section Controls.

(** [named f]: the feature (or its primary feature) has an element name.
    [on_select f fs]: what the page's listeners add to and remove from a layer
    with the features [fs] when [f] is selected. *)
Context (named : fid -> bool) (on_select : fid -> list fid -> list layer_op).

(** ** The controls *)

Definition shown (f : fid) : option fid := if named f then Some f else None.

(** The listeners of the hover control close every popup, and a highlighted
    feature with a name gets a new one. *)
Definition featurehighlighted (c : control) (f : fid) (w : world) : world :=
  match c with HoverControl => set_popup w (shown f) | ClickControl => w end.

Definition featureunhighlighted (c : control) (w : world) : world :=
  match c with HoverControl => set_popup w None | ClickControl => w end.

Definition highlight (c : control) (f : fid) (w : world) : option world :=
  let m := marks_of w f in
  if in_layer m
  then Some (featurehighlighted c f (set_marks w f (Marks true (Some c) (lastHighlighter m))))
  else None.

Definition unhighlight (c : control) (f : fid) (w : world) : option world :=
  let m := marks_of w f in
  if in_layer m
  then Some (featureunhighlighted c (set_marks w f (Marks true (prevHighlighter m) None)))
  else None.

Definition unselect (f : fid) (w : world) : option world :=
  w ← unhighlight ClickControl f w;
  Some (set_layer w (features w) (removeItem (selected w) f)).

(** The loop of [unselectAll], from index [n - 1] down; reading past the end of
    the list gives undefined, and [unselect] of it throws. *)
Fixpoint unselect_from (n : nat) (except : option fid) (w : world) : option world :=
  match n with
  | O => Some w
  | S i =>
      f ← selected w !! i;
      w ← (if decide (except = Some f) then Some w else unselect f w);
      unselect_from i except w
  end.

Definition unselectAll (except : option fid) (w : world) : option world :=
  unselect_from (length (selected w)) except w.

(** The listener of featureselected on the page. *)
Definition featureselected (f : fid) (w : world) : world :=
  foldl layer_step (set_popup w None) (on_select f (features w)).

Definition select (f : fid) (w : world) : option world :=
  if in_layer (marks_of w f)
  then
    w ← highlight ClickControl f (set_layer w (features w) (selected w ++ [f]));
    let h := on_click w in
    let w := match lastFeature h with
             | Some _ => w
             | None => set_handler ClickControl w
                         (FeatureHandler (feature h) (head (selected w)) (down h) (up h))
             end in
    Some (featureselected f w)
  else None.

(** The click control of the page toggles and selects one feature at a time. *)
Definition clickFeature (f : fid) (w : world) : option world :=
  if in_layer (marks_of w f)
  then
    if decide (f ∈ selected w) then unselect f w
    else w ← unselectAll (Some f) w; select f w
  else None.

Definition clickoutFeature (w : world) : option world := unselectAll None w.

Definition overFeature (f : fid) (w : world) : option world := highlight HoverControl f w.

Definition outFeature (f : fid) (w : world) : option world :=
  let m := marks_of w f in
  if decide (lastHighlighter m = Some HoverControl)
  then
    match prevHighlighter m with
    | Some ClickControl =>
        highlight ClickControl f (set_marks w f (Marks (in_layer m) None (prevHighlighter m)))
    | _ => unhighlight HoverControl f w
    end
  else Some w.

(** The callbacks of each control; the hover control ignores clicks. *)
Definition callback (c : control) (k : key) (f : fid) (w : world) : option world :=
  match c, k with
  | ClickControl, KClick => clickFeature f w
  | ClickControl, KClickout => clickoutFeature w
  | HoverControl, KOver => overFeature f w
  | HoverControl, KOut => outFeature f w
  | _, _ => Some w
  end.

(** ** The feature handler *)

Definition triggerCallback (c : control) (t : mouse) (m : mode) (f : fid) (w : world) :
    option world :=
  match EVENTMAP t m with
  | None => Some w
  | Some k =>
      match t, up (handler_of c w), down (handler_of c w) with
      | Click, Some u, Some d =>
          if within_tolerance u d then callback c k f w else Some w
      | _, _, _ => callback c k f w
      end
  end.

(** A feature whose layer is gone counts as none. *)
Definition alive (w : world) (o : option fid) : option fid :=
  f ← o; if in_layer (marks_of w f) then Some f else None.

Definition is_click (t : mouse) : bool :=
  match t with Click | Dblclick => true | _ => false end.

Definition set_feature (c : control) (w : world) (f l : option fid) : world :=
  let h := handler_of c w in
  set_handler c w (FeatureHandler f l (down h) (up h)).

Definition handle (c : control) (t : mouse) (under : option fid) (w : world) :
    option (world * bool) :=
  let h := handler_of c w in
  let previouslyIn := bool_decide (is_Some (alive w (feature h))) in
  let now := alive w (getFeatureById w under) in
  let last := alive w (lastFeature h) in
  let w := set_feature c w now last in
  match now with
  | Some f =>
      w ← (if previouslyIn && bool_decide (now <> last)
           then
             w ← match last with Some l => triggerCallback c t MOut l w | None => Some w end;
             triggerCallback c t MIn f w
           else if negb previouslyIn || is_click t then triggerCallback c t MIn f w
           else Some w);
      Some (set_feature c w (feature (handler_of c w)) (Some f), true)
  | None =>
      w ← match last with
          | Some l => if previouslyIn || is_click t then triggerCallback c t MOut l w else Some w
          | None => Some w
          end;
      Some (w, false)
  end.

Definition press (c : control) (t : mouse) (xy : Z * Z) (w : world) : world :=
  let h := handler_of c w in
  match t with
  | Mousedown => set_handler c w (FeatureHandler (feature h) (lastFeature h) (Some xy) (up h))
  | Mouseup => set_handler c w (FeatureHandler (feature h) (lastFeature h) (down h) (Some xy))
  | _ => w
  end.

(** What a handler does with an event: its next world and whether the event goes
    on to the next listener.  The click handler has no [over] or [out]. *)
Definition receive (c : control) (t : mouse) (xy : Z * Z) (under : option fid) (w : world) :
    option (world * bool) :=
  match t, c with
  | Mousemove, ClickControl => Some (w, true)
  | _, _ =>
      '(w, handled) ← handle c t under (press c t xy w);
      Some (w, match t with
               | Mousemove | Mouseup => true
               | Mousedown | Click | Dblclick => negb handled
               end)
  end.

(** Handlers register in front of the others, so the click control, activated
    last, comes first. *)
Definition dispatch (t : mouse) (xy : Z * Z) (under : option fid) (w : world) : option world :=
  '(w, on) ← receive ClickControl t xy under w;
  if (on : bool) then fst <$> receive HoverControl t xy under w else Some w.

Inductive map_event :=
  | Mouse (t : mouse) (xy : Z * Z) (under : option fid)
  | Layer (o : layer_op).

Definition map_step (w : world) (e : map_event) : option world :=
  match e with
  | Mouse t xy under => dispatch t xy under w
  | Layer o => Some (layer_step w o)
  end.

Definition map_run (w : world) (es : list map_event) : option world :=
  foldl (fun ow e => w ← ow; map_step w e) (Some w) es.

(** ** The operations of the controls do not throw *)

Lemma inv_set_feature c w f l : layer_inv w -> layer_inv (set_feature c w f l).
Proof. apply inv_set_handler. Qed.

Lemma inv_press c t xy w : layer_inv w -> layer_inv (press c t xy w).
Proof. intros I. destruct t; try exact I; by apply inv_set_handler. Qed.

Lemma highlight_some c f w :
  layer_inv w -> f ∈ features w -> exists w', highlight c f w = Some w' /\ same_layer w w'.
Proof.
  intros I Hf. apply (inv_marks w I) in Hf. rewrite /highlight Hf. eexists. split; [done|].
  destruct c; [apply same_set_marks; by rewrite Hf|].
  etrans; [apply same_set_marks|apply same_set_popup]. by rewrite Hf.
Qed.

Lemma unhighlight_some c f w :
  layer_inv w -> f ∈ features w -> exists w', unhighlight c f w = Some w' /\ same_layer w w'.
Proof.
  intros I Hf. apply (inv_marks w I) in Hf. rewrite /unhighlight Hf. eexists. split; [done|].
  destruct c; [apply same_set_marks; by rewrite Hf|].
  etrans; [apply same_set_marks|apply same_set_popup]. by rewrite Hf.
Qed.

(** Nothing is selected, and the rest of the layer is as before. *)
Definition cleared (w w' : world) : Prop :=
  selected w' = [] /\ features w' = features w /\
  on_click w' = on_click w /\ on_hover w' = on_hover w.

Lemma unselect_single f w :
  layer_inv w -> selected w = [f] ->
  exists w', unselect f w = Some w' /\ layer_inv w' /\ cleared w w'.
Proof.
  intros I Hs. assert (f ∈ features w) as Hf by (apply (inv_selected w I); rewrite Hs; set_solver).
  destruct (unhighlight_some ClickControl f w I Hf) as (w1&E&S). rewrite /unselect E /=.
  eexists. split; [done|]. pose proof (inv_same _ _ S I) as I'. destruct S as [S1 S2 S3 S4 S5].
  rewrite S2 Hs removeItem_single. split; [|by split].
  split; cbn [features selected set_layer length]; [apply (inv_marks w1 I')|lia|set_solver].
Qed.

Lemma unselectAll_some e w :
  layer_inv w -> (forall f, e = Some f -> f ∉ selected w) ->
  exists w', unselectAll e w = Some w' /\ layer_inv w' /\ cleared w w'.
Proof.
  intros I He. rewrite /unselectAll. destruct (selected w) as [|f [|]] eqn:Hs.
  - by exists w.
  - destruct (unselect_single f w I Hs) as (w'&E&I'&C).
    exists w'. split; [|done]. cbn [length unselect_from]. rewrite Hs /=.
    rewrite decide_False; [|by rewrite E]. intros ->. apply (He f eq_refl). set_solver.
  - pose proof (inv_single w I) as L. rewrite Hs /= in L. lia.
Qed.

Lemma select_some f w :
  layer_inv w -> f ∈ features w -> selected w = [] ->
  exists w1, layer_inv w1 /\ selected w1 = [f] /\ features w1 = features w /\
    on_hover w1 = on_hover w /\ select f w = Some (featureselected f w1).
Proof.
  intros I Hf Hs. pose proof (proj2 (inv_marks w I f) Hf) as Hm.
  assert (layer_inv (set_layer w (features w) (selected w ++ [f]))) as I1.
  { rewrite Hs /=. split; cbn [features selected set_layer length]; [apply (inv_marks w I)|lia|].
    set_solver. }
  destruct (highlight_some ClickControl f _ I1 Hf) as (w1&E&S).
  pose proof (inv_same _ _ S I1) as I2. destruct S as [S1 S2 S3 S4 S5].
  rewrite Hs /= in S1 S2 S5. rewrite /select Hm E /=.
  destruct (lastFeature (on_click w1)) as [l|].
  - by exists w1.
  - eexists (set_handler ClickControl w1 _). split_and!; try done. by apply inv_set_handler.
Qed.

Lemma inv_featureselected f w : layer_inv w -> layer_inv (featureselected f w).
Proof. intros I. apply inv_layer_steps. exact (inv_same _ _ (same_set_popup w None) I). Qed.

Lemma clickFeature_some f w :
  layer_inv w -> f ∈ features w -> exists w', clickFeature f w = Some w' /\ layer_inv w'.
Proof.
  intros I Hf. rewrite /clickFeature (proj2 (inv_marks w I f) Hf). case_decide as Hin.
  - destruct (unselect_single f w I) as (w'&?&?&?); [|by exists w'].
    pose proof (inv_single w I). destruct (selected w) as [|g [|]]; cbn in *; [set_solver| |lia].
    f_equal. set_solver.
  - destruct (unselectAll_some (Some f) w I) as (w1&->&I1&C1&C2&C3&C4); [by intros ? [= <-]|].
    cbn [mbind option_bind]. rewrite -C2 in Hf.
    destruct (select_some f w1 I1 Hf C1) as (w2&I2&?&?&?&->). eauto using inv_featureselected.
Qed.

Lemma outFeature_some f w :
  layer_inv w -> f ∈ features w -> exists w', outFeature f w = Some w' /\ same_layer w w'.
Proof.
  intros I Hf. rewrite /outFeature. case_decide as Hl; [|by exists w].
  assert (exists w', unhighlight HoverControl f w = Some w' /\ same_layer w w') as U
    by by apply unhighlight_some.
  destruct (prevHighlighter (marks_of w f)) as [[]|]; [|done|done].
  pose proof (same_set_marks w f (Marks (in_layer (marks_of w f)) None (Some ClickControl)) eq_refl) as S.
  destruct (highlight_some ClickControl f _ (inv_same _ _ S I)) as (w'&?&S'); [done|].
  exists w'. split; [done|]. exact (transitivity S S').
Qed.

Lemma callback_some c k f w :
  layer_inv w -> f ∈ features w ->
  exists w', callback c k f w = Some w' /\ layer_inv w' /\
    (k <> KClick -> features w' = features w).
Proof.
  intros I Hf. destruct c, k; cbn [callback]; try (by exists w).
  - destruct (clickFeature_some f w I Hf) as (w'&?&?). by exists w'.
  - destruct (unselectAll_some None w I) as (w'&?&?&?&?&?); [done|by exists w'].
  - destruct (highlight_some HoverControl f w I Hf) as (w'&?&S). exists w'.
    split_and!; [done|exact (inv_same _ _ S I)|intros _; apply S].
  - destruct (outFeature_some f w I Hf) as (w'&?&S). exists w'.
    split_and!; [done|exact (inv_same _ _ S I)|intros _; apply S].
Qed.

Lemma triggerCallback_some c t m f w :
  layer_inv w -> f ∈ features w ->
  exists w', triggerCallback c t m f w = Some w' /\ layer_inv w' /\
    (m = MOut -> features w' = features w).
Proof.
  intros I Hf. rewrite /triggerCallback. destruct (EVENTMAP t m) as [k|] eqn:Hk; [|by exists w].
  assert (exists w', callback c k f w = Some w' /\ layer_inv w' /\
    (m = MOut -> features w' = features w)) as C.
  { destruct (callback_some c k f w I Hf) as (w'&?&?&Hw). exists w'. split_and!; [done..|].
    intros ->. apply Hw. by destruct t; inversion Hk. }
  destruct t; try exact C. destruct (up (handler_of c w)), (down (handler_of c w)); try exact C.
  destruct (within_tolerance _ _); [exact C|by exists w].
Qed.

Lemma alive_features w o f : layer_inv w -> alive w o = Some f -> f ∈ features w.
Proof.
  intros I. rewrite /alive. destruct o as [g|]; [|done]. cbn.
  destruct (in_layer (marks_of w g)) eqn:E; [|done]. intros [= <-]. by apply (inv_marks w I).
Qed.

Lemma features_set_feature c w f l : features (set_feature c w f l) = features w.
Proof. by destruct c. Qed.

Lemma handle_some c t under w :
  layer_inv w -> exists r, handle c t under w = Some r /\ layer_inv r.1.
Proof.
  intros I. rewrite /handle. set (now := alive w (getFeatureById w under)).
  set (last := alive w (lastFeature _)). set (b := bool_decide (is_Some _)).
  pose proof (fun f => alive_features w (getFeatureById w under) f I) as Hn.
  pose proof (fun f => alive_features w (lastFeature (handler_of c w)) f I) as Hl.
  fold now in Hn. fold last in Hl.
  pose proof (inv_set_feature c w now last I) as I0.
  pose proof (features_set_feature c w now last) as F0.
  set (w0 := set_feature c w now last) in *. rewrite -F0 in Hn Hl. clearbody w0 now last.
  destruct now as [f|].
  - assert (exists w', (if b && bool_decide (Some f <> last)
           then w1 ← match last with Some l => triggerCallback c t MOut l w0 | None => Some w0 end;
             triggerCallback c t MIn f w1
           else if negb b || is_click t then triggerCallback c t MIn f w0 else Some w0) = Some w'
        /\ layer_inv w') as (w'&->&I'); [|by eexists; split; [done|apply inv_set_feature]].
    assert (exists w1, match last with Some l => triggerCallback c t MOut l w0 | None => Some w0 end
       = Some w1 /\ layer_inv w1 /\ features w1 = features w0) as (w1&->&I1&F1).
    { destruct last as [l|]; [|by exists w0].
      destruct (triggerCallback_some c t MOut l w0 I0) as (w1&?&?&?); [by apply Hl|].
      exists w1. auto. }
    destruct (triggerCallback_some c t MIn f w0 I0) as (w2&->&?&_); [by apply Hn|].
    cbn [mbind option_bind].
    destruct (triggerCallback_some c t MIn f w1 I1) as (w3&->&?&_); [rewrite F1; by apply Hn|].
    clearbody b. destruct b, (bool_decide (Some f <> last)), (is_click t); cbn; eauto.
  - destruct last as [l|]; [|by eexists].
    destruct (triggerCallback_some c t MOut l w0 I0) as (w1&->&?&_); [by apply Hl|].
    clearbody b. destruct b, (is_click t); by eexists.
Qed.

Lemma receive_some c t xy under w :
  layer_inv w -> exists r, receive c t xy under w = Some r /\ layer_inv r.1.
Proof.
  intros I. destruct (handle_some c t under _ (inv_press c t xy w I)) as ([w1 b]&E&I1).
  rewrite /receive E. destruct t, c; by eexists.
Qed.

Lemma map_step_some e w : layer_inv w -> exists w', map_step w e = Some w' /\ layer_inv w'.
Proof.
  intros I. destruct e as [t xy under|o]; cbn [map_step]; [|eauto using inv_layer_step].
  rewrite /dispatch. destruct (receive_some ClickControl t xy under w I) as ([w1 on]&->&I1).
  destruct on; cbn; [|by exists w1].
  destruct (receive_some HoverControl t xy under w1 I1) as ([w2 on]&->&I2). by exists w2.
Qed.

Lemma map_run_cons w e es :
  map_run w (e :: es) = match map_step w e with Some w' => map_run w' es | None => None end.
Proof.
  rewrite /map_run. cbn [foldl]. change (Some w ≫= fun w => map_step w e) with (map_step w e).
  destruct (map_step w e); [done|]. by induction es.
Qed.

(** C14 Safety of the two selection controls of the map.  Whatever is drawn on
    the layer, and whatever mouse events arrive, features are added or removed
    in between or by the listeners of a selection, no callback of the click and
    hover controls reads the layer of a feature that has none (which would
    throw), at most one feature is selected at any time, and it is a feature of
    the layer. *)
Theorem selection_single fs es :
  exists w, map_run (drawn fs) es = Some w /\ layer_inv w.
Proof.
  generalize (layer_inv_drawn fs). generalize (drawn fs).
  induction es as [|e es IH]; intros w I; [by exists w|].
  rewrite map_run_cons. destruct (map_step_some e w I) as (w'&->&I'). by apply IH.
Qed.

(** ** Clicking a feature *)

(** A press at [d] and a release at [u] over one feature. *)
Definition click_at (d u : Z * Z) (f : fid) : list map_event :=
  [Mouse Mousedown d (Some f); Mouse Mouseup u (Some f); Mouse Click u (Some f)].

Lemma found_feature w f :
  layer_inv w -> f ∈ features w -> alive w (getFeatureById w (Some f)) = Some f.
Proof.
  intros I Hf. rewrite /getFeatureById /= decide_True; [done|]. cbn.
  by rewrite (proj2 (inv_marks w I f) Hf).
Qed.

Lemma handle_quiet c t w f :
  t = Mousedown \/ t = Mouseup -> layer_inv w -> f ∈ features w ->
  handle c t (Some f) w = Some (set_feature c w (Some f) (Some f), true).
Proof.
  intros Ht I Hf. rewrite /handle found_feature //.
  assert (forall m g w', triggerCallback c t m g w' = Some w') as Q by (by destruct Ht as [->| ->]).
  assert (is_click t = false) as -> by (by destruct Ht as [->| ->]).
  generalize (bool_decide (is_Some (alive w (feature (handler_of c w))))) as b.
  destruct (alive w (lastFeature (handler_of c w))) as [l|]; intros b;
    repeat (rewrite ?Q; cbn [mbind option_bind]); repeat case_match; by destruct c.
Qed.

Definition toggled (f : fid) (sel : list fid) : list fid :=
  if decide (f ∈ sel) then [] else [f].

Lemma single_selected w f : layer_inv w -> f ∈ selected w -> selected w = [f].
Proof.
  intros I Hin. pose proof (inv_single w I).
  destruct (selected w) as [|g [|]]; cbn in *; [set_solver| |lia]. f_equal. set_solver.
Qed.

Lemma clickFeature_toggles f w :
  layer_inv w -> f ∈ features w -> on_select f (features w) = [] ->
  exists w', clickFeature f w = Some w' /\ selected w' = toggled f (selected w) /\
    features w' = features w.
Proof.
  intros I Hf Ho. rewrite /clickFeature (proj2 (inv_marks w I f) Hf) /toggled.
  destruct (decide (f ∈ selected w)) as [Hin|Hin].
  - destruct (unselect_single f w I (single_selected w f I Hin)) as (w'&?&_&?&?&_). by exists w'.
  - destruct (unselectAll_some (Some f) w I) as (w1&->&I1&C1&C2&C3&C4); [by intros ? [= <-]|].
    cbn [mbind option_bind]. rewrite -C2 in Hf.
    destruct (select_some f w1 I1 Hf C1) as (w2&I2&?&E2&?&->).
    eexists. split; [done|]. rewrite /featureselected E2 C2 Ho /=. by rewrite E2 C2.
Qed.

Lemma click_handled w f d u :
  layer_inv w -> f ∈ features w -> on_select f (features w) = [] ->
  on_click w = FeatureHandler (Some f) (Some f) (Some d) (Some u) ->
  exists w', dispatch Click u (Some f) w = Some w' /\ features w' = features w /\
    selected w' = if within_tolerance u d then toggled f (selected w) else selected w.
Proof.
  intros I Hf Ho Hh. pose proof (proj2 (inv_marks w I f) Hf) as Hm.
  rewrite /dispatch /receive. cbn [press]. rewrite /handle found_feature // /handler_of Hh.
  cbn [feature lastFeature alive mbind option_bind]. rewrite Hm.
  rewrite bool_decide_true; [by eexists|]. rewrite (bool_decide_false (Some f <> Some f)); [tauto|].
  cbn [andb orb negb is_click]. set (w0 := set_feature _ _ _ _).
  assert (layer_inv w0) as I0 by by apply inv_set_feature.
  rewrite /triggerCallback. cbn [EVENTMAP callback].
  replace (up (handler_of ClickControl w0)) with (Some u) by (cbn; by rewrite Hh).
  replace (down (handler_of ClickControl w0)) with (Some d) by (cbn; by rewrite Hh).
  destruct (within_tolerance u d); [|by eexists].
  destruct (clickFeature_toggles f w0 I0 Hf Ho) as (w'&->&?&?). by eexists.
Qed.

Lemma dispatch_down w f d :
  layer_inv w -> f ∈ features w ->
  dispatch Mousedown d (Some f) w
  = Some (set_feature ClickControl (press ClickControl Mousedown d w) (Some f) (Some f)).
Proof.
  intros I Hf. rewrite /dispatch /receive handle_quiet //; [by left|by apply inv_press].
Qed.

Lemma dispatch_up w f u :
  layer_inv w -> f ∈ features w ->
  dispatch Mouseup u (Some f) w
  = Some (set_feature HoverControl (press HoverControl Mouseup u
            (set_feature ClickControl (press ClickControl Mouseup u w) (Some f) (Some f)))
            (Some f) (Some f)).
Proof.
  intros I Hf. rewrite /dispatch /receive handle_quiet; [by right|by apply inv_press|done|].
  cbn [mbind option_bind]. rewrite handle_quiet //; [by right|].
  by repeat apply inv_set_handler.
Qed.

(** C15 Functional correctness of a click.  Pressing and releasing the mouse over
    a feature of the layer toggles its selection: a selected feature is
    unselected, and any other one becomes the only selected feature, whichever
    was selected before.  When the mouse has moved by more than the tolerance of
    four pixels in between, as when the map is dragged, the selection stays as
    it was. *)
Theorem click_toggles w f d u :
  layer_inv w -> f ∈ features w -> on_select f (features w) = [] ->
  exists w', map_run w (click_at d u f) = Some w' /\ features w' = features w /\
    selected w' = if within_tolerance u d then toggled f (selected w) else selected w.
Proof.
  intros I Hf Ho. rewrite /click_at map_run_cons. cbn [map_step].
  rewrite dispatch_down // map_run_cons. cbn [map_step]. rewrite dispatch_up; [|done|].
  { by apply inv_set_feature, inv_press. }
  rewrite map_run_cons. cbn [map_step]. set (w3 := set_feature HoverControl _ _ _).
  assert (layer_inv w3) as I3 by by repeat apply inv_set_handler.
  destruct (click_handled w3 f d u I3 Hf Ho eq_refl) as (w'&E&Hw). rewrite E. by exists w'.
Qed.

(** ** Hovering *)

(** No feature has been highlighted by the click control. *)
Definition unclicked (w : world) : Prop :=
  forall f, lastHighlighter (marks_of w f) <> Some ClickControl /\
            prevHighlighter (marks_of w f) <> Some ClickControl.

Lemma unclicked_set w f b l p :
  unclicked w -> l <> Some ClickControl -> p <> Some ClickControl ->
  unclicked (set_marks w f (Marks b l p)).
Proof. intros U Hl Hp g. rewrite marks_of_set. by destruct (decide (f = g)). Qed.

Lemma over_some f w :
  layer_inv w -> unclicked w -> f ∈ features w ->
  exists w', overFeature f w = Some w' /\ same_layer w w' /\ unclicked w' /\
    popup w' = shown f /\ lastHighlighter (marks_of w' f) = Some HoverControl.
Proof.
  intros I U Hf. destruct (highlight_some HoverControl f w I Hf) as (w'&E&S).
  exists w'. split_and!; try done.
  all: revert E; rewrite /highlight (proj2 (inv_marks w I f) Hf); intros [= <-].
  - apply (unclicked_set w f); [done|done|apply U].
  - done.
  - change (lastHighlighter (marks_of (set_marks w f (Marks true (Some HoverControl)
      (lastHighlighter (marks_of w f)))) f) = Some HoverControl).
    by rewrite marks_of_set decide_True.
Qed.

Lemma out_some f w :
  layer_inv w -> unclicked w -> f ∈ features w ->
  lastHighlighter (marks_of w f) = Some HoverControl ->
  exists w', outFeature f w = Some w' /\ same_layer w w' /\ unclicked w' /\ popup w' = None.
Proof.
  intros I U Hf Hl. destruct (outFeature_some f w I Hf) as (w'&E&S).
  exists w'. split_and!; try done.
  all: revert E; rewrite /outFeature; case_decide; [|done].
  all: rewrite /unhighlight (proj2 (inv_marks w I f) Hf).
  all: destruct (U f) as [_ Hp]; destruct (prevHighlighter (marks_of w f)) as [[]|]; try done.
  all: intros [= <-]; try done.
  all: apply (unclicked_set w f); [done|done|done].
Qed.

(** The feature under the mouse, its handler and the popup agree. *)
Record hover_inv (w : world) : Prop := {
  hover_layer : layer_inv w;
  hover_unclicked : unclicked w;
  hover_feature : forall f, feature (on_hover w) = Some f ->
    lastFeature (on_hover w) = Some f /\ f ∈ features w /\
    lastHighlighter (marks_of w f) = Some HoverControl;
  hover_popup : popup w = (feature (on_hover w) ≫= shown) }.

Lemma hover_inv_drawn fs : hover_inv (drawn fs).
Proof.
  pose proof (layer_inv_drawn fs) as I. revert I. rewrite /drawn.
  cut (forall w, unclicked w -> unclicked (foldl addFeatures w fs) /\
    on_hover (foldl addFeatures w fs) = on_hover w /\ popup (foldl addFeatures w fs) = popup w).
  { intros H I. destruct (H new_layer) as (U&E&P).
    - intros f. by rewrite /marks_of lookup_empty.
    - split; [done|done|by rewrite E|by rewrite E P]. }
  induction fs as [|f fs IH]; intros w U; cbn [foldl]; [done|].
  destruct (IH (addFeatures w f)) as (?&->&->); [|done].
  apply (unclicked_set w f); [done|apply U..].
Qed.

Lemma found_alive w u :
  layer_inv w -> alive w (getFeatureById w u) = getFeatureById w u.
Proof.
  intros I. destruct (getFeatureById w u) as [f|] eqn:E; [|done]. cbn.
  rewrite (proj2 (inv_marks w I f)) //. revert E. rewrite /getFeatureById.
  destruct u as [i|]; [|done]. cbn. case_decide; [|done]. by intros [= <-].
Qed.

(** A world the hover handler has left: the mouse is over [f], or over nothing. *)
Lemma hover_entered f w w1 l :
  same_layer (set_feature HoverControl w (Some f) l) w1 -> layer_inv w -> unclicked w1 ->
  f ∈ features w -> popup w1 = shown f -> lastHighlighter (marks_of w1 f) = Some HoverControl ->
  hover_inv (set_feature HoverControl w1 (feature (on_hover w1)) (Some f)) /\
  features w1 = features w /\ feature (on_hover w1) = Some f.
Proof.
  intros S I U Hf Hp Hl. pose proof (inv_same _ _ S (inv_set_feature _ _ _ _ I)) as I1.
  destruct S as [S1 S2 S3 S4 S5]. cbn in S1, S5. rewrite S5 S1. split_and!; try done.
  split; [by apply inv_set_feature|done| |done].
  intros g [= <-]. cbn. by rewrite S1.
Qed.

Lemma hover_left w w1 l :
  same_layer (set_feature HoverControl w None l) w1 -> layer_inv w -> unclicked w1 ->
  popup w1 = None ->
  hover_inv w1 /\ features w1 = features w /\ feature (on_hover w1) = None.
Proof.
  intros S I U Hp. pose proof (inv_same _ _ S (inv_set_feature _ _ _ _ I)) as I1.
  destruct S as [S1 S2 S3 S4 S5]. cbn in S1, S5. rewrite S1 S5. split_and!; try done.
  split; [done|done| |]; rewrite S5; done.
Qed.

Lemma move_some w xy u :
  hover_inv w ->
  exists w', dispatch Mousemove xy u w = Some w' /\ hover_inv w' /\
    features w' = features w /\ feature (on_hover w') = getFeatureById w u.
Proof.
  intros [I U F P]. rewrite /dispatch. cbn [receive mbind option_bind press].
  rewrite /handle. cbn [handler_of]. rewrite found_alive //.
  assert (forall f, getFeatureById w u = Some f -> f ∈ features w) as Hn.
  { intros f E. apply (alive_features w (getFeatureById w u)); [done|]. by rewrite found_alive. }
  destruct (feature (on_hover w)) as [g|] eqn:Eg.
  - destruct (F g eq_refl) as (El&Hg&Hh). rewrite El. cbn [alive mbind option_bind].
    rewrite (proj2 (inv_marks w I g) Hg) bool_decide_true; [by eexists|].
    set (now := getFeatureById w u) in *. set (w0 := set_feature HoverControl w now (Some g)).
    assert (layer_inv w0) as I0 by by apply inv_set_feature.
    destruct (out_some g w0 I0 U Hg Hh) as (w1&E1&S1&U1&P1).
    destruct now as [f|] eqn:En; [|].
    + destruct (decide (f = g)) as [->|Hfg].
      * rewrite bool_decide_false; [by intros H; apply H|]. cbn.
        eexists. split; [done|].
        apply (hover_entered g w w0 (Some g)); done.
      * rewrite bool_decide_true; [by intros [= ?]|]. cbn [andb].
        rewrite /triggerCallback. cbn [EVENTMAP callback]. rewrite E1. cbn [mbind option_bind].
        destruct (over_some f w1 (inv_same _ _ S1 I0) U1) as (w2&E2&S2&U2&P2&L2).
        { rewrite (same_features _ _ S1). by apply Hn. }
        rewrite E2 /=. eexists. split; [done|].
        apply (hover_entered f w w2 (Some g)); auto. exact (transitivity S1 S2).
    + cbn [orb]. rewrite /triggerCallback. cbn [EVENTMAP callback]. rewrite E1 /=.
      eexists. split; [done|]. by apply (hover_left w w1 (Some g)).
  - rewrite bool_decide_false; [by intros []|].
    set (now := getFeatureById w u) in *. set (last := alive w (lastFeature (on_hover w))).
    set (w0 := set_feature HoverControl w now last).
    assert (layer_inv w0) as I0 by by apply inv_set_feature.
    destruct now as [f|] eqn:En.
    + destruct (over_some f w0 I0 U (Hn f eq_refl)) as (w2&E2&S2&U2&P2&L2).
      cbn [andb orb negb]. rewrite /triggerCallback. cbn [EVENTMAP callback].
      rewrite E2 /=. eexists. split; [done|]. apply (hover_entered f w w2 last); auto.
    + assert (hover_inv w0 /\ features w0 = features w /\ feature (on_hover w0) = None) as H
        by by apply (hover_left w w0 last).
      destruct last; by eexists.
Qed.

(** Functional correctness of the hover popup.  However the mouse moves over
    the map, and whatever features are drawn, as long as none is clicked the map
    shows the popup of the feature under the mouse, and no popup when the mouse
    is over no feature of the layer or over one without a name. *)
Theorem popup_follows_mouse fs moves xy u :
  exists w,
    map_run (drawn fs) ((fun m => Mouse Mousemove m.1 m.2) <$> (moves ++ [(xy, u)])) = Some w /\
    features w = fs /\ popup w = (getFeatureById (drawn fs) u ≫= shown).
Proof.
  assert (features (drawn fs) = fs) as Hfs.
  { rewrite /drawn. cut (forall w, features (foldl addFeatures w fs) = features w ++ fs);
      [intros H; apply (H new_layer)|].
    induction fs as [|f fs IH]; intros w; cbn [foldl]; [by rewrite app_nil_r|].
    by rewrite IH /= -app_assoc. }
  rewrite -{2}Hfs. generalize (hover_inv_drawn fs). generalize (drawn fs). clear.
  induction moves as [|m moves IH]; intros w H; cbn [app fmap list_fmap]; rewrite map_run_cons.
  - cbn [map_step fst snd]. destruct (move_some w xy u H) as (w'&->&H'&?&E).
    exists w'. split_and!; [done..|]. by rewrite (hover_popup w' H') E.
  - cbn [map_step]. destruct (move_some w m.1 m.2 H) as (w'&->&H'&E&_).
    destruct (IH w' H') as (w2&?&E2&P2). exists w2. split_and!; [done|congruence|].
    by rewrite P2 /getFeatureById E.
Qed.

End Controls.

Lemma click_toggles_witness :
  exists w', map_run (fun _ => true) (fun _ _ => []) (drawn [1%nat; 2%nat]) (click_at (5, 5) (8, 6) 2)
    = Some w' /\ features w' = [1%nat; 2%nat] /\ selected w' = [2%nat].
Proof.
  apply (click_toggles (fun _ => true) (fun _ _ => []) (drawn [1%nat; 2%nat]) 2 (5, 5) (8, 6)).
  - apply layer_inv_drawn.
  - cbn. set_solver.
  - reflexivity.
Defined.

(** ** Two controls on one feature *)

#[local] Notation on n := (Mouse Mousemove (0, 0) (Some n%nat)).
#[local] Notation off := (Mouse Mousemove (0, 0) None).
#[local] Notation run es := (map_run (fun _ => true) (fun _ _ => []) (drawn [1%nat]) es).

(** Leaving a selected feature hands the highlight back to the click control
    and never triggers featureunhighlighted on the hover control: the popup
    stays on the map with the mouse over nothing. *)
Lemma popup_left_behind :
  popup <$> run ([on 1] ++ click_at (0, 0) (0, 0) 1 ++ [off; on 1; off]) = Some (Some 1%nat).
Proof. vm_compute. reflexivity. Qed.

(** Unselecting a feature under the mouse makes the click control its last
    highlighter again, so the next visit of the mouse ends with the click
    control highlighting a feature that is not selected. *)
Lemma highlighted_unselected :
  (fun w => (selected w, marks_of w 1)) <$>
    run ([on 1] ++ click_at (0, 0) (0, 0) 1 ++ [off; on 1] ++ click_at (0, 0) (0, 0) 1
         ++ [off; on 1; off])
  = Some ([], Marks true (Some ClickControl) None).
Proof. vm_compute. reflexivity. Qed.
