(* ===== verification/MapNavigate.v ===== *)
(** * Moving the map with the mouse (openlayers, lib/OpenLayers/Handler/Drag.js, Click.js
    and MouseWheel.js, Control/DragPan.js and Navigation.js)

    The navigation control every map gets when none is named: dragging pans the map,
    a double click zooms in on a position, the wheel zooms around the mouse.  The
    handlers turn the events of the browser into calls of the control, which move the
    view of [MapView].  The position of an event is an object: the drag handler
    compares the positions it keeps as objects, so that each carries the serial number
    of its event.  A timer is there or not, and runs out as an event of its own.
    Dragging beyond the element of the map ([documentDrag]) is off, as it is by default. *)

From Stdlib Require Import ZArith QArith Qround Qabs Qminmax Lqa Lia.
From stdpp Require Import base option list numbers tactics strings.
From S2P Require Import Prelude MapGrid MapBounds MapView.

Local Open Scope Q_scope.

(** ** The drag handler and its control *)

Record mouse := Mouse { serial : nat; at_x : Z; at_y : Z }.

Definition xy (m : mouse) : pixel := Pixel (inject_Z (at_x m)) (inject_Z (at_y m)).

(** [==] of two positions, either of which may be null. *)
Definition same (a b : option mouse) : bool :=
  match a, b with
  | Some a, Some b => Nat.eqb (serial a) (serial b)
  | None, None => true
  | _, _ => false
  end.

Definition elsewhere (a b : mouse) : bool := negb (Z.eqb (at_x a) (at_x b)) || negb (Z.eqb (at_y a) (at_y b)).

Record drag := Drag { started : bool; h_dragging : bool; start : option mouse; last : option mouse; timeoutId : bool; panned : bool }.

Definition new_drag : drag := Drag false false None None false false.

Section navigation.
Context (cf : config) (zoomend : view -> option (view * list event)).

Definition world_state : Type := drag * view.

(** What a move of the view triggers is not kept here. *)
Definition pan_map (dx dy : Q) (dragging : bool) (v : view) : option view := fst <$> pan cf zoomend dx dy dragging v.

(** [None] when there is no last position, whose coordinates cannot be read. *)
Definition panMap (m : mouse) (s : world_state) : option world_state :=
  let '(d, v) := s in
  let d := Drag (started d) (h_dragging d) (start d) (last d) (timeoutId d) true in
  l ← last d;
  v ← pan_map (inject_Z (at_x l - at_x m)) (inject_Z (at_y l - at_y m)) (h_dragging d) v;
  Some (d, v).

Definition panMapDone (m : mouse) (s : world_state) : option world_state :=
  if panned (fst s) then
    '(d, v) ← panMap m s;
    Some (Drag (started d) (h_dragging d) (start d) (last d) (timeoutId d) false, v)
  else Some s.

(** [accepted]: the left button, with the keys the handler asks for. *)
Definition mousedown (accepted : bool) (m : mouse) (s : world_state) : option world_state :=
  let '(d, v) := s in
  Some (if accepted then Drag true false (Some m) (Some m) (timeoutId d) (panned d)
        else Drag false false None None (timeoutId d) (panned d), v).

Definition mousemove (interval : Z) (m : mouse) (s : world_state) : option world_state :=
  let '(d, v) := s in
  if started d && negb (timeoutId d) then
    l ← last d;
    if elsewhere m l then
      let d := Drag (started d) true (start d) (last d) (Z.ltb 0 interval || timeoutId d) (panned d) in
      '(d, v) ← panMap m (d, v);
      Some (Drag (started d) (h_dragging d) (start d) (Some m) (timeoutId d) (panned d), v)
    else Some (d, v)
  else Some (d, v).

Definition removeTimeout (s : world_state) : option world_state :=
  let '(d, v) := s in Some (Drag (started d) (h_dragging d) (start d) (last d) false (panned d), v).

Definition mouseup (m : mouse) (s : world_state) : option world_state :=
  let '(d, v) := s in
  if started d then
    let dragged := negb (same (start d) (last d)) in
    let d := Drag false false (start d) (last d) (timeoutId d) (panned d) in
    if dragged then panMapDone m (d, v) else Some (d, v)
  else Some (d, v).

(** [gone]: the mouse left the element of the map. *)
Definition mouseout (gone : bool) (m : mouse) (s : world_state) : option world_state :=
  let '(d, v) := s in
  if started d && gone then
    let dragged := negb (same (start d) (last d)) in
    let d := Drag false false (start d) (last d) (timeoutId d) (panned d) in
    if dragged then panMapDone m (d, v) else Some (d, v)
  else Some (d, v).

(** Whether a click goes on to the other handlers. *)
Definition drag_click (d : drag) : bool := same (start d) (last d).

Definition drag_deactivate (d : drag) : drag := Drag false false None None (timeoutId d) (panned d).

Inductive mouse_event :=
  | MouseDown (accepted : bool) (m : mouse)
  | MouseMove (m : mouse)
  | MouseUp (m : mouse)
  | MouseOut (gone : bool) (m : mouse)
  | TimeIsOut.

(** The interval of the control, in milliseconds. *)
Definition interval : Z := 25.

Definition drag_step (e : mouse_event) (s : world_state) : option world_state :=
  match e with
  | MouseDown accepted m => mousedown accepted m s
  | MouseMove m => mousemove interval m s
  | MouseUp m => mouseup m s
  | MouseOut gone m => mouseout gone m s
  | TimeIsOut => removeTimeout s
  end.

Fixpoint drag_run (es : list mouse_event) (s : world_state) : option world_state :=
  match es with
  | [] => Some s
  | e :: es => s ← drag_step e s; drag_run es s
  end.

(** ** The clicks *)

(** The options of a click handler, and whether its control handles right clicks. *)
Record click_options := ClickOptions { single : bool; double : bool; pixelTolerance : option Q; handleRightClicks : bool }.

Definition navigation_options : click_options := ClickOptions true true (Some 0) false.

(** A timer that runs carries the event it was started with; a null event is kept
    when the handler is not to report. *)
Record clicks := Clicks { down : option mouse; timerId : option (option mouse); rightclickTimerId : option (option mouse) }.

Definition new_clicks : clicks := Clicks None None None.

Inductive called := Clicked (m : mouse) | Dblclicked (m : mouse) | Rightclicked (m : mouse) | Dblrightclicked (m : mouse).

(** The distance is compared by its square; the tolerance is not negative. *)
Definition passesTolerance (o : click_options) (m : mouse) (c : clicks) : bool :=
  match pixelTolerance o, down c with
  | Some t, Some d => Qle_bool (inject_Z ((at_x d - at_x m) ^ 2 + (at_y d - at_y m) ^ 2)) (t * t)
  | _, _ => true
  end.

Definition clearTimer (c : clicks) : clicks := Clicks (down c) None None.

Definition click_down (o : click_options) (m : mouse) (c : clicks) : clicks :=
  match pixelTolerance o with Some _ => Clicks (Some m) (timerId c) (rightclickTimerId c) | None => c end.

Definition rightclick (o : click_options) (m : mouse) (c : clicks) : clicks * list called :=
  if passesTolerance o m c then
    match rightclickTimerId c with
    | Some _ => (clearTimer c, [Dblrightclicked m])
    | None => if double o then (Clicks (down c) (timerId c) (Some (Some m)), [])
              else (Clicks (down c) (timerId c) (Some None), [Rightclicked m])
    end
  else (c, []).

(** [right]: the right button, with the keys the handler asks for. *)
Definition click_up (o : click_options) (right : bool) (m : mouse) (c : clicks) : clicks * list called :=
  if handleRightClicks o && right then rightclick o m c else (c, []).

Definition delayedRightCall (c : clicks) : clicks * list called :=
  match rightclickTimerId c with
  | Some e => (Clicks (down c) (timerId c) None, match e with Some m => [Rightclicked m] | None => [] end)
  | None => (c, [])
  end.

Definition click (o : click_options) (m : mouse) (c : clicks) : clicks * list called :=
  if passesTolerance o m c then
    match timerId c with
    | Some _ => (clearTimer c, [])
    | None => (Clicks (down c) (Some (if single o then Some m else None)) (rightclickTimerId c), [])
    end
  else (c, []).

Definition dblclick (o : click_options) (m : mouse) (c : clicks) : clicks * list called :=
  if passesTolerance o m c then (clearTimer c, if double o then [Dblclicked m] else []) else (c, []).

Definition delayedCall (c : clicks) : clicks * list called :=
  match timerId c with
  | Some e => (Clicks (down c) None (rightclickTimerId c), match e with Some m => [Clicked m] | None => [] end)
  | None => (c, [])
  end.

Definition click_deactivate (c : clicks) : clicks := Clicks None None None.

Inductive click_event :=
  | CDown (m : mouse)
  | CUp (right : bool) (m : mouse)
  | CClick (m : mouse)
  | CDblclick (m : mouse)
  | CTimer
  | CRightTimer.

Definition click_step (o : click_options) (e : click_event) (c : clicks) : clicks * list called :=
  match e with
  | CDown m => (click_down o m c, [])
  | CUp right m => click_up o right m c
  | CClick m => click o m c
  | CDblclick m => dblclick o m c
  | CTimer => delayedCall c
  | CRightTimer => delayedRightCall c
  end.

(** ** What the control does *)

Definition defaultDblClick (m : mouse) (v : view) : option view :=
  p ← getLonLatFromViewPortPx cf v (xy m);
  fst <$> setCenter cf zoomend (Some p) (Some (default 0 (zoom v) + 1)) false false v.

Definition defaultDblRightClick (m : mouse) (v : view) : option view :=
  p ← getLonLatFromViewPortPx cf v (xy m);
  fst <$> setCenter cf zoomend (Some p) (Some (default 0 (zoom v) - 1)) false false v.

(** The control listens to the double clicks only. *)
Definition navigate (k : called) (v : view) : option view :=
  match k with
  | Dblclicked m => defaultDblClick m v
  | Dblrightclicked m => defaultDblRightClick m v
  | Clicked _ | Rightclicked _ => Some v
  end.

Fixpoint click_run (o : click_options) (es : list click_event) (s : clicks * view) : option (clicks * view) :=
  match es with
  | [] => Some s
  | e :: es =>
      let '(c, ks) := click_step o e (fst s) in
      v ← foldr (fun k v => v ≫= navigate k) (Some (snd s)) (rev ks);
      click_run o es (c, v)
  end.

(** [None] when the map has no position under the mouse. *)
Definition wheelChange (p : pixel) (deltaZ : Q) (v : view) : option view :=
  let currentZoom := default 0 (zoom v) in
  let newZoom := currentZoom + inject_Z (round deltaZ) in
  let newZoom := Qmax newZoom 0 in
  let newZoom := Qmin newZoom (inject_Z (getNumZoomLevels cf)) in
  if Qeq_bool newZoom currentZoom then Some v
  else
    let deltaX := w (v_size v) / 2 - x p in
    let deltaY := y p - h (v_size v) / 2 in
    let newRes := getResolutionForZoom cf newZoom in
    zoomPoint ← getLonLatFromViewPortPx cf v p;
    let newCenter := LonLat (lon zoomPoint + deltaX * newRes) (lat zoomPoint + deltaY * newRes) in
    fst <$> setCenter cf zoomend (Some newCenter) (Some newZoom) false false v.

(** ** The wheel *)

(** An element under the mouse: its [overflow] style, which may not be readable, and
    whether it is the element of a layer or of the map. *)
Record element := Element { overflow : option string; of_layer : bool; of_map : bool }.

Definition scrollable (overflow : string) : bool :=
  negb (String.eqb overflow EmptyString) && String.eqb overflow "auto" || String.eqb overflow "scroll".

(** From the element up to the map or to a scrollable element: whether a scrollable
    element, an element of a layer and the element of the map were met. *)
Fixpoint ride (elems : list element) (overLayer : bool) : bool * bool * bool :=
  match elems with
  | [] => (false, overLayer, false)
  | e :: elems =>
      let overScrollable := match overflow e with Some s => scrollable s | None => false end in
      let overLayer := overLayer || of_layer e in
      if overScrollable || of_map e then (overScrollable, overLayer, of_map e) else ride elems overLayer
  end.

(** What the browser says of the wheel: [wheelDelta] or [detail], either of which may be
    missing or zero. *)
Record wheel_event := WheelEvent { wheelDelta : option Q; detail : option Q; path : list element }.

Definition truthy (q : option Q) : option Q :=
  match q with Some q => if Qeq_bool q 0 then None else Some q | None => None end.

(** Without the change of sign for a browser that reported it the other way round. *)
Definition wheel_delta (e : wheel_event) : Q :=
  match truthy (wheelDelta e) with
  | Some d => d / 120
  | None => match truthy (detail e) with Some d => - d / 3 | None => 0 end
  end.

Record wheel := Wheel { delta : Q; mousePosition : option pixel }.

(** [wheelUp] and [wheelDown] pass the delta on, which is not zero. *)
Definition wheelZoom (cumulative : bool) (s : wheel * view) : option (wheel * view) :=
  let '(wh, v) := s in
  let d := delta wh in
  let wh := Wheel 0 (mousePosition wh) in
  if Qeq_bool d 0 then Some (wh, v)
  else
    p ← match mousePosition wh with Some p => Some p | None => c ← center v; getPixelFromLonLat cf v c end;
    v ← wheelChange p (if cumulative then d else if Qltb d 0 then -1 else 1) v;
    Some (wh, v).

(** Without an interval, and with the keys the handler asks for; the second component
    tells whether the event was stopped. *)
Definition onWheelEvent (e : wheel_event) (s : wheel * view) : option (wheel * view * bool) :=
  let '(overScrollable, overLayer, overMap) := ride (path e) false in
  if negb overScrollable && overMap then
    s ← (if overLayer then wheelZoom true (Wheel (delta (fst s) + wheel_delta e) (mousePosition (fst s)), snd s) else Some s);
    Some (s, true)
  else Some (s, false).

Definition wheel_mousemove (p : pixel) (wh : wheel) : wheel := Wheel (delta wh) (Some p).
End navigation.

(** ** Landing where asked *)

Section landing.
Context (cf : config) (Hcf : usable cf).

(** A centre that the view can have at a resolution without leaving the extents. *)
Definition fits (v : view) (p : lonlat) (res : Q) : Prop :=
  inside (maxExtent cf) p /\ forall r, restrictedExtent cf = Some r -> covers r (calculateBounds v p res).

Lemma fits_eq v v' p p' res :
  v_size v = v_size v' -> lon p == lon p' -> lat p == lat p' -> fits v p res -> fits v' p' res.
Proof.
  intros Hs Hx Hy [Hi Hr]. split.
  - unfold inside in *. lra.
  - intros r Er. specialize (Hr r Er). unfold covers in *. cbn [calculateBounds left right top bottom] in *. rewrite <-Hs. lra.
Qed.

Lemma fits_unrestricted v p res r : vinv cf v -> 0 < res -> fits v p res -> restrictedExtent cf = Some r ->
  restrict r (calculateBounds v p res) p = p.
Proof.
  intros Hv Hres [_ Hr] Er. unfold restrict. assert (valid (calculateBounds v p res)) as Hb.
  { pose proof (half_pos cf v res Hv Hres) as [H1 H2]. unfold half_w, half_h in *.
    unfold valid. cbn [calculateBounds left right top bottom]. lra. }
  by rewrite (proj2 (containsBounds_covers r _ Hb) (Hr r Er)).
Qed.

(** The zoom level a move is asked for: the one it has when none is named. *)
Definition asked (z : option Q) (v : view) (n : Z) : Prop :=
  match z with Some q => round q = n | None => zoom v = Some (inject_Z n) end.

Lemma target_fits p z v c n :
  vinv cf v -> center v = Some c -> asked z v n -> (0 <= n < levels cf)%Z -> fits v p (resolution_at cf n) ->
  exists z', target cf (Some p) z v = (Some p, z') /\ asked z' v n /\ level cf z' /\ target_good cf v (Some p) z'.
Proof using Hcf.
  intros Hv Hc Hz Hn Hf. unfold target. rewrite Hc, (us_whole _ Hcf). pose proof (level_positive cf Hcf n Hn) as Hpos.
  destruct (restrictedExtent cf) as [r|] eqn:Er.
  - assert (match (fun z => inject_Z (round z)) <$> z with Some _ => (fun z => inject_Z (round z)) <$> z | None => zoom v end = Some (inject_Z n)) as ->.
    { destruct z as [q|]; cbn [asked fmap option_fmap option_map] in *; [by rewrite Hz|done]. }
    exists (Some (inject_Z n)). cbn [fmap option_fmap option_map]. change (default 0 (Some (inject_Z n))) with (inject_Z n).
    rewrite (level_resolution cf Hcf) by done. pose proof (restrict_ok r v (resolution_at cf n) p) as Hok.
    rewrite (fits_unrestricted v p (resolution_at cf n) r Hv Hpos Hf Er) in Hok |- *. split; [done|]. split; [apply round_Z|].
    split; [right; by exists n|]. exists p. split; [done|]. split; [apply Hf|]. intros r' Er'. rewrite Er in Er'. injection Er' as <-. by exists n.
  - eexists. split; [reflexivity|]. split; [destruct z as [q|]; cbn [asked fmap option_fmap option_map] in *; [by rewrite Hz, round_Z|done]|].
    split; [destruct z as [q|]; cbn [asked fmap option_fmap option_map] in *; [right; exists n; by rewrite Hz|by left]|].
    exists p. split; [done|]. split; [apply Hf|]. intros r' Er'. congruence.
Qed.

(** What is known of the view after a move to [p] at the level [n]. *)
Record landed (v : view) (p : lonlat) (n : Z) (drag : bool) (v' : view) : Prop := Landed {
  ld_inv : vinv cf v';
  ld_size : v_size v' = v_size v;
  ld_zoom : zoom v' = Some (inject_Z n);
  ld_drag : dragging v' = drag;
  ld_center : exists c, center v' = Some c /\ ll_equals p c = true
}.

Lemma landed_moved v p z n drag v1 :
  moved cf v (Some p) z v1 -> target_good cf v (Some p) z -> zoom v1 = Some (inject_Z n) -> landed v p n drag (set_dragging drag v1).
Proof using Hcf.
  intros M Hg Hz. destruct (mv_center _ _ _ _ _ M) as (c & Hc & Hq). destruct (Hq Hg) as (q & [= <-] & He).
  split; [apply vinv_drag, M|apply (mv_size _ _ _ _ _ M)|done|done|]. by exists c.
Qed.

Lemma moveTo_lands L p z drag noEvent v c n :
  vinv cf v -> center v = Some c -> asked z v n -> (0 <= n < levels cf)%Z -> fits v p (resolution_at cf n) ->
  (zoom v = Some (inject_Z n) \/ forall v1, zoom v1 = Some (inject_Z n) -> L v1 = Some (v1, [])) ->
  exists v' ev, moveTo cf L (Some p) z (Options drag false noEvent) v = Some (v', ev) /\ landed v p n drag v'.
Proof using Hcf.
  intros Hv Hc Hz Hn Hf HL. destruct (target_fits p z v c n Hv Hc Hz Hn Hf) as (z' & Et & Hz' & Hlev & Hg).
  unfold moveTo. rewrite Et. cbn [o_force o_dragging o_noEvent orb].
  destruct (apply_ok cf Hcf v (Some p) z' Hv Hlev (or_introl Hg)) as (v1 & E1 & M1 & Z1 & Hsame).
  set (zc := isValidZoomLevel cf z' && negb (zoom_eqb z' (zoom v))) in *. set (cc := isValidLonLat cf (Some p) && ll_changed (Some p) (center v)) in *.
  assert (zoom_as : forall v2, moved cf v (Some p) z' v2 -> (z' = None -> zoom v2 = zoom v) -> zoom v2 = Some (inject_Z n)).
  { intros v2 M2 H2. destruct (mv_zoom _ _ _ _ _ M2) as (m & Em & _ & Hm). destruct Hlev as [->|(k & -> & _)].
    - rewrite H2 by done. exact Hz'.
    - rewrite Em, (Hm k eq_refl). cbn [asked] in Hz'. rewrite round_Z in Hz'. by rewrite Hz'. }
  assert (Hz1 : zoom v1 = Some (inject_Z n)). { apply zoom_as; [done|]. intros ->. by rewrite Z1. }
  destruct (zc || cc || negb drag) eqn:Eb.
  - rewrite E1. cbn [mbind option_bind]. destruct (mv_center _ _ _ _ _ M1) as (c1 & C1 & _).
    unfold getExtent. rewrite C1. cbn [fmap option_fmap option_map mbind option_bind].
    destruct zc eqn:Ezc.
    + destruct HL as [Hzv|HL]; [|rewrite (HL v1 Hz1); cbn [mbind option_bind]; eexists _, _; (split; [reflexivity|]); by eapply landed_moved].
      unfold zc in Ezc. rewrite Hzv in Ezc. destruct Hlev as [->|(k & -> & _)]; [done|]. cbn [asked] in Hz'. rewrite round_Z in Hz'.
      rewrite Hz', (proj2 (zoom_eqb_levels n n) eq_refl), andb_false_r in Ezc. done.
    + cbn [mbind option_bind]. eexists _, _. (split; [reflexivity|]). by eapply landed_moved.
  - apply orb_false_iff in Eb as [[Ezc Ecc]%orb_false_iff _]. specialize (Hsame Ezc Ecc). cbn [mbind option_bind].
    eexists _, _. split; [reflexivity|]. eapply landed_moved; [done|done|]. by apply zoom_as.
Qed.

Lemma resolution_level v n : zoom v = Some (inject_Z n) -> (0 <= n < levels cf)%Z -> getResolution cf v = resolution_at cf n.
Proof using Hcf. intros Hz Hn. unfold getResolution. rewrite Hz. by apply level_resolution. Qed.

(** The centre when the position at [s] was dragged to [m]. *)
Definition shifted (c : lonlat) (res : Q) (s m : mouse) : lonlat :=
  LonLat (lon c + inject_Z (at_x s - at_x m) * res) (lat c - inject_Z (at_y s - at_y m) * res).

(** Panning moves the centre by a number of pixels. *)
Lemma pan_lands L dx dy drag v c n p :
  vinv cf v -> center v = Some c -> zoom v = Some (inject_Z n) -> (0 <= n < levels cf)%Z ->
  lon p == lon c + dx * resolution_at cf n -> lat p == lat c - dy * resolution_at cf n -> fits v p (resolution_at cf n) ->
  exists v', pan_map cf L dx dy drag v = Some v' /\ vinv cf v' /\ v_size v' = v_size v /\ zoom v' = zoom v /\
    (drag = false -> dragging v' = false) /\ exists c', center v' = Some c' /\ lon c' == lon p /\ lat c' == lat p.
Proof using Hcf.
  intros Hv Hc Hz Hn Hx Hy Hf. pose proof (level_positive cf Hcf n Hn) as Hpos.
  unfold pan_map, pan, setCenter, getViewPortPxFromLonLat, getLonLatFromViewPortPx, getExtent.
  rewrite Hc, (us_wraps _ Hcf), (resolution_level v n Hz Hn). set (res := resolution_at cf n) in *.
  cbn [mbind option_bind fmap option_fmap option_map].
  set (px := Pixel _ _). assert (x px == w (v_size v) / 2 /\ y px == h (v_size v) / 2) as [Ex Ey].
  { cbn [x y px left top calculateBounds]. split; field; lra. }
  destruct (drag && px_equals (px_add px dx dy) px) eqn:E.
  - apply andb_true_iff in E as [-> E]. exists v. split; [done|]. do 3 (split; [done|]). split; [done|]. exists c. split; [done|].
    unfold px_equals in E. rewrite andb_true_iff, !Qeq_bool_iff in E. cbn [px_add x y] in E. destruct E as [E1 E2].
    assert (dx == 0) as D1 by lra. assert (dy == 0) as D2 by lra. rewrite Hx, Hy, D1, D2. lra.
  - set (p' := LonLat _ _). assert (lon p == lon p' /\ lat p == lat p') as [Px Py].
    { cbn [lon lat p' px_add x y]. rewrite Hx, Hy, Ex, Ey. split; field. }
    destruct (moveTo_lands L p' None drag false v c n Hv Hc Hz Hn (fits_eq v v p p' _ eq_refl Px Py Hf) (or_introl Hz)) as (v' & ev & -> & [H1 H2 H3 H4 (c' & Hc' & He)]).
    exists v'. cbn [fst fmap option_fmap option_map]. split; [done|]. split; [done|]. split; [done|]. split; [congruence|]. split; [by intros ->|].
    exists c'. split; [done|]. apply ll_equals_iff in He. split; [rewrite Px|rewrite Py]; symmetry; apply He.
Qed.
End landing.

(** ** Dragging *)

Section dragging.
Context (cf : config) (Hcf : usable cf) (L : view -> option (view * list event)).
Context (v0 : view) (c0 : lonlat) (n : Z) (s : mouse).
Context (Hv0 : vinv cf v0) (Hc0 : center v0 = Some c0) (Hz0 : zoom v0 = Some (inject_Z n)) (Hn : (0 <= n < levels cf)%Z).

(** Positions of later events, to which the map can be dragged. *)
Definition draggable (m : mouse) : Prop := serial m <> serial s /\ fits cf v0 (shifted c0 (resolution_at cf n) s m) (resolution_at cf n).

(** The events while the button is down. *)
Definition held (e : mouse_event) : Prop :=
  match e with MouseMove m => draggable m | TimeIsOut => True | _ => False end.

(** A move to another place is noticed when no timer runs; the timer of an earlier drag
    may still run at first. *)
Fixpoint noticed (timer : bool) (es : list mouse_event) : bool :=
  match es with
  | [] => false
  | MouseMove m :: es => (negb timer && elsewhere m s) || noticed timer es
  | TimeIsOut :: es => noticed false es
  | _ :: es => noticed timer es
  end.

(** The view when the mouse is at [l]. *)
Record follows (l : mouse) (v : view) : Prop := Follows {
  fo_inv : vinv cf v;
  fo_size : v_size v = v_size v0;
  fo_zoom : zoom v = zoom v0;
  fo_center : exists c, center v = Some c /\
    lon c == lon (shifted c0 (resolution_at cf n) s l) /\ lat c == lat (shifted c0 (resolution_at cf n) s l)
}.

(** Not moved yet, or following the mouse. *)
Definition resting (timer : bool) (st : world_state) : Prop :=
  st = (Drag true false (Some s) (Some s) timer (panned (fst st)), v0).
Definition pulling (st : world_state) : Prop :=
  exists l, started (fst st) = true /\ start (fst st) = Some s /\ last (fst st) = Some l /\ serial l <> serial s /\
    panned (fst st) = true /\ follows l (snd st).

Lemma follows_start : follows s v0.
Proof using Hv0 Hc0. split; [done|done|done|]. exists c0. split; [done|]. cbn. rewrite !Z.sub_diag. split; ring. Qed.

(** Panning from where the mouse was to where it is. *)
Lemma panMap_follows d v l m :
  last d = Some l -> follows l v -> draggable m ->
  exists v', panMap cf L m (d, v) = Some (Drag (started d) (h_dragging d) (start d) (last d) (timeoutId d) true, v') /\
    follows m v' /\ (h_dragging d = false -> MapView.dragging v' = false).
Proof using Hcf Hn Hz0.
  intros Hl [Hv Hs Hz (c & Hc & Cx & Cy)] [_ Hf]. unfold panMap. cbn [last started h_dragging start timeoutId]. rewrite Hl. cbn [mbind option_bind].
  cbn [shifted lon lat] in Cx, Cy.
  destruct (pan_lands cf Hcf L (inject_Z (at_x l - at_x m)) (inject_Z (at_y l - at_y m)) (h_dragging d) v c n
              (shifted c0 (resolution_at cf n) s m) Hv Hc) as (v' & -> & H1 & H2 & H3 & H4 & c' & Hc' & Ex & Ey); [congruence|done|..].
  - cbn [shifted lon]. rewrite Cx. unfold Z.sub. rewrite !inject_Z_plus, !inject_Z_opp. ring.
  - cbn [shifted lat]. rewrite Cy. unfold Z.sub. rewrite !inject_Z_plus, !inject_Z_opp. ring.
  - eapply fits_eq; [|reflexivity|reflexivity|exact Hf]. done.
  - exists v'. split; [done|]. split; [|done]. split; [done|congruence|congruence|]. by exists c'.
Qed.

Lemma move_pulls d v l m :
  started d = true -> start d = Some s -> last d = Some l -> timeoutId d = false -> elsewhere m l = true -> follows l v -> draggable m ->
  exists st, drag_step cf L (MouseMove m) (d, v) = Some st /\ pulling st.
Proof using Hcf Hn Hz0.
  intros H1 H2 H3 H4 H5 Hfo Hm. cbn [drag_step]. unfold mousemove. rewrite H1, H4, H3. cbn [andb negb mbind option_bind]. rewrite H5.
  edestruct (panMap_follows (Drag true true (start d) (Some l) (Z.ltb 0 interval || false) (panned d)) v l m) as (v' & E & Hf & _); [done|done|done|].
  rewrite E. eexists. split; [reflexivity|]. exists m. cbn. destruct Hm. by rewrite H2.
Qed.

Lemma pull_step e st : held e -> pulling st -> exists st', drag_step cf L e st = Some st' /\ pulling st'.
Proof using Hcf Hn Hz0.
  intros He (l & H1 & H2 & H3 & H4 & H5 & H6). destruct st as [d v]. cbn [fst snd] in *. destruct e as [|m| | |]; try done.
  - destruct (negb (timeoutId d) && elsewhere m l) eqn:E.
    + apply andb_true_iff in E as [E1%negb_true_iff E2]. by eapply move_pulls.
    + exists (d, v). split; [|by exists l]. cbn [drag_step]. unfold mousemove. rewrite H1. cbn [andb].
      destruct (negb (timeoutId d)); [|done]. rewrite H3. cbn [mbind option_bind andb] in *. by rewrite E.
  - eexists. split; [reflexivity|]. exists l. done.
Qed.

Lemma pull_run es st : Forall held es -> pulling st -> exists st', drag_run cf L es st = Some st' /\ pulling st'.
Proof using Hcf Hn Hz0.
  revert st. induction es as [|e es IH]; intros st H Hp; [by exists st|]. apply list.Forall_cons in H as [He H].
  destruct (pull_step e st He Hp) as (st1 & E & Hp1). cbn [drag_run]. rewrite E. cbn [mbind option_bind]. by apply IH.
Qed.

(** The first move that is noticed starts the pulling. *)
Lemma held_run es timer st : Forall held es -> resting timer st ->
  exists st' timer', drag_run cf L es st = Some st' /\ if noticed timer es then pulling st' else resting timer' st'.
Proof using All.
  revert timer st. induction es as [|e es IH]; intros timer st H Hr; [by exists st, timer|]. apply list.Forall_cons in H as [He H].
  destruct e as [|m| | |]; try done; cbn [noticed].
  - rewrite Hr. destruct (negb timer && elsewhere m s) eqn:E; cbn [orb].
    + apply andb_true_iff in E as [->%negb_true_iff E].
      destruct (move_pulls (Drag true false (Some s) (Some s) false (panned (fst st))) v0 s m eq_refl eq_refl eq_refl eq_refl E follows_start He) as (st1 & E1 & Hp).
      cbn [drag_run]. rewrite E1. cbn [mbind option_bind]. destruct (pull_run es st1 H Hp) as (st2 & E2 & Hp2). by exists st2, false.
    + cbn [drag_run drag_step]. unfold mousemove at 1. cbn [started timeoutId andb last mbind option_bind].
      destruct (negb timer); [cbn [andb] in E; rewrite E|]; apply IH; done.
  - rewrite Hr. cbn [drag_run drag_step]. unfold removeTimeout at 1. apply IH; done.
Qed.
End dragging.

(** The positions, when there is a view. *)
Definition positions_equal (a b : option lonlat) : Prop :=
  match a, b with Some a, Some b => lon a == lon b /\ lat a == lat b | _, _ => False end.

(** C23 The map follows the mouse within the extents.  The button goes down and up over a
    centred map that does not wrap, with moves and runnings out of the timer in between,
    and none of the positions of the mouse would take the view beyond the extents.  When
    a move to another place came while no timer ran (the handler skips the others, and
    the timer of an earlier drag may still run), then whatever moves it skipped, at the
    end the position that was under the mouse when the button went down is under it
    again, at the same zoom, the map is not being dragged any more, and the click does
    not go on to the other handlers; otherwise the view is what it was, and the click
    goes on. *)
Theorem drag_keeps_point cf L v c n d s es q :
  usable cf -> vinv cf v -> center v = Some c -> zoom v = Some (inject_Z n) -> (0 <= n < levels cf)%Z ->
  Forall (held cf v c n s) es -> draggable cf v c n s q ->
  exists d' v', drag_run cf L (MouseDown true s :: es ++ [MouseUp q]) (d, v) = Some (d', v') /\ started d' = false /\
    drag_click d' = negb (noticed s (timeoutId d) es) /\
    if noticed s (timeoutId d) es then
      dragging v' = false /\ zoom v' = zoom v /\
      positions_equal (getLonLatFromViewPortPx cf v' (xy q)) (getLonLatFromViewPortPx cf v (xy s))
    else v' = v.
Proof.
  intros Hcf Hv Hc Hz Hn Hes Hq.
  assert (drag_run_app : forall es1 es2 st, drag_run cf L (es1 ++ es2) st = drag_run cf L es1 st ≫= drag_run cf L es2).
  { induction es1 as [|e es1 IH]; intros es2 st; [done|]. cbn [app drag_run]. destruct (drag_step cf L e st); [|done]. apply IH. }
  cbn [drag_run drag_step]. unfold mousedown. cbn [mbind option_bind]. rewrite drag_run_app.
  edestruct (held_run cf Hcf L v c n s Hv Hc Hz Hn es (timeoutId d)) as ([d1 v1] & timer & -> & H1); [done|reflexivity|]. cbn [mbind option_bind drag_run drag_step].
  destruct (noticed s (timeoutId d) es).
  - destruct H1 as (l & S1 & S2 & S3 & S4 & S5 & Hfo). cbn [fst snd] in *. unfold mouseup. rewrite S1, S2, S3. cbn [same].
    rewrite (proj2 (Nat.eqb_neq _ _)) by congruence. cbn [negb]. unfold panMapDone. cbn [fst panned]. rewrite S5.
    edestruct (panMap_follows cf Hcf L v c n s Hz Hn (Drag false false (Some s) (Some l) (timeoutId d1) true) v1 l q) as (v2 & -> & [F1 F2 F3 (c2 & F4 & Fx & Fy)] & D2); [done|done|done|].
    cbn [mbind option_bind]. eexists _, _. split; [reflexivity|]. split; [done|].
    split. { unfold drag_click. cbn. by apply Nat.eqb_neq. }
    split; [by apply D2|]. split; [done|]. unfold getLonLatFromViewPortPx. rewrite Hc, F4, (us_wraps _ Hcf). cbn [mbind option_bind positions_equal lon lat].
    rewrite (resolution_level cf Hcf v n Hz Hn), (resolution_level cf Hcf v2 n), F2, Fx, Fy by (done || congruence).
    cbn [xy x y shifted lon lat]. unfold Z.sub. rewrite !inject_Z_plus, !inject_Z_opp. split; ring.
  - red in H1. injection H1 as -> ->. unfold mouseup. cbn [started start last same fst]. rewrite Nat.eqb_refl. cbn [negb].
    eexists _, _. split; [reflexivity|]. split; [done|]. split; [unfold drag_click; cbn; apply Nat.eqb_refl|done].
Qed.

(** ** The wheel *)

(** The centre that leaves the position [z] at the pixel [p]. *)
Definition around (v : view) (p : pixel) (z : lonlat) (res : Q) : lonlat :=
  LonLat (lon z + (w (v_size v) / 2 - x p) * res) (lat z + (y p - h (v_size v) / 2) * res).

(** The level the wheel asks for. *)
Definition wheel_level (k : Z) (d : Q) : Z := Z.max 0 (k + round d).

Section zooming.
Context (cf : config) (Hcf : usable cf) (L : view -> option (view * list event)).

Lemma resolution_for q n : q == inject_Z n -> (0 <= n < levels cf)%Z -> getResolutionForZoom cf q = resolution_at cf n.
Proof using Hcf.
  intros Hq Hn. rewrite <-(level_resolution cf Hcf n Hn). unfold getResolutionForZoom. rewrite (us_whole _ Hcf). f_equal.
  apply round_proper. by rewrite Hq.
Qed.

Lemma position_at v c n p : center v = Some c -> zoom v = Some (inject_Z n) -> (0 <= n < levels cf)%Z ->
  getLonLatFromViewPortPx cf v p = Some (LonLat (lon c + (x p - w (v_size v) / 2) * resolution_at cf n)
                                                (lat c - (y p - h (v_size v) / 2) * resolution_at cf n)).
Proof using Hcf.
  intros Hc Hz Hn. unfold getLonLatFromViewPortPx. by rewrite Hc, (us_wraps _ Hcf), (resolution_level cf Hcf v n Hz Hn).
Qed.

(** A view centred around a position shows it where it was. *)
Lemma around_shows v v' p z n d :
  landed cf v (around v p z (resolution_at cf n)) n d v' -> (0 <= n < levels cf)%Z ->
  positions_equal (getLonLatFromViewPortPx cf v' p) (Some z).
Proof using Hcf.
  intros [_ Hs Hz _ (c & Hc & He)] Hn. rewrite (position_at v' c n p Hc Hz Hn), Hs. apply ll_equals_iff in He as [Ex Ey].
  cbn [around lon lat] in Ex, Ey. cbn [positions_equal lon lat]. rewrite <-Ex, <-Ey. split; ring.
Qed.

Lemma wheel_level_eq k d : (wheel_level k d < levels cf)%Z ->
  Qmin (Qmax (inject_Z k + inject_Z (round d)) 0) (inject_Z (getNumZoomLevels cf)) == inject_Z (wheel_level k d).
Proof.
  intros H. unfold wheel_level, getNumZoomLevels in *. rewrite <-inject_Z_plus. change 0 with (inject_Z 0).
  destruct (Z.max_spec 0 (k + round d)) as [[Hm E]|[Hm E]]; rewrite E in *.
  - rewrite Q.max_l, Q.min_l; [reflexivity|rewrite <-Zle_Qle; lia|rewrite <-Zle_Qle; lia].
  - rewrite Q.max_r, Q.min_l; [reflexivity|rewrite <-Zle_Qle; lia|rewrite <-Zle_Qle; lia].
Qed.

Lemma wheelChange_keeps v c k p d :
  vinv cf v -> center v = Some c -> zoom v = Some (inject_Z k) -> (0 <= k < levels cf)%Z -> (wheel_level k d < levels cf)%Z ->
  (forall z, getLonLatFromViewPortPx cf v p = Some z -> fits cf v (around v p z (resolution_at cf (wheel_level k d))) (resolution_at cf (wheel_level k d))) ->
  (forall v1, zoom v1 = Some (inject_Z (wheel_level k d)) -> L v1 = Some (v1, [])) ->
  exists v', wheelChange cf L p d v = Some v' /\ zoom v' = Some (inject_Z (wheel_level k d)) /\
    positions_equal (getLonLatFromViewPortPx cf v' p) (getLonLatFromViewPortPx cf v p).
Proof using Hcf.
  intros Hv Hc Hz Hk Hl Hf HL. unfold wheelChange, setCenter. rewrite Hz. change (default 0 (Some (inject_Z k))) with (inject_Z k).
  pose proof (wheel_level_eq k d Hl) as Hq. set (n := wheel_level k d) in *. set (q := Qmin _ _) in *.
  assert (0 <= n < levels cf)%Z as Hn by (split; [unfold n, wheel_level; lia|done]).
  destruct (Qeq_bool q (inject_Z k)) eqn:E.
  - apply Qeq_bool_iff in E. rewrite Hq in E. assert (n = k) as ->. { apply (inject_Z_injective n k). exact E. }
    exists v. split; [done|]. split; [done|]. rewrite (position_at v c k p Hc Hz Hk). cbn. split; reflexivity.
  - rewrite (resolution_for q n Hq Hn), (position_at v c k p Hc Hz Hk) in *. cbn [mbind option_bind]. set (z := LonLat _ (lat c - _)) in *.
    destruct (moveTo_lands cf Hcf L (around v p z (resolution_at cf n)) (Some q) false false v c n Hv Hc) as (v' & ev & E' & Hld); [|done|by apply Hf|by right|].
    { cbn [asked]. by rewrite Hq, round_Z. }
    unfold around in E' at 1. rewrite E'. cbn [fmap option_fmap option_map fst]. exists v'. split; [done|]. split; [apply Hld|].
    by eapply around_shows.
Qed.
End zooming.

(** C24 The wheel zooms around the mouse.  On a centred map that does not wrap, with the
    mouse at a known place and nothing left of earlier events: an event outside the
    element of the map, or over a scrollable element before it, does nothing and
    goes on; one over the map but over no layer does nothing and is stopped.  One over a
    layer changes the zoom by the rounded number of notches, and not below 0, leaves the
    position under the mouse where it is and nothing of the delta, and is stopped,
    whenever that zoom is a level, the view at it lies within the extents and the
    listener of the zoom leaves it alone (on the network map, when it is at least 2). *)
Theorem wheel_keeps_point cf L wh v c k p e :
  usable cf -> vinv cf v -> center v = Some c -> zoom v = Some (inject_Z k) -> (0 <= k < levels cf)%Z ->
  delta wh = 0 -> mousePosition wh = Some p ->
  match ride (path e) false with
  | (false, true, true) =>
      (wheel_level k (wheel_delta e) < levels cf)%Z ->
      (forall z, getLonLatFromViewPortPx cf v p = Some z ->
         fits cf v (around v p z (resolution_at cf (wheel_level k (wheel_delta e)))) (resolution_at cf (wheel_level k (wheel_delta e)))) ->
      (forall v1, zoom v1 = Some (inject_Z (wheel_level k (wheel_delta e))) -> L v1 = Some (v1, [])) ->
      exists v', onWheelEvent cf L e (wh, v) = Some (Wheel 0 (Some p), v', true) /\
        zoom v' = Some (inject_Z (wheel_level k (wheel_delta e))) /\
        positions_equal (getLonLatFromViewPortPx cf v' p) (getLonLatFromViewPortPx cf v p)
  | (false, false, true) => onWheelEvent cf L e (wh, v) = Some (wh, v, true)
  | _ => onWheelEvent cf L e (wh, v) = Some (wh, v, false)
  end.
Proof.
  intros Hcf Hv Hc Hz Hk Hd Hp. unfold onWheelEvent.
  destruct (ride (path e) false) as [[[] []] []]; cbn [negb andb]; try done. intros Hl Hf HL.
  cbn [fst snd]. unfold wheelZoom. cbn [delta mousePosition]. rewrite Hd, Hp.
  assert (Ed : 0 + wheel_delta e == wheel_delta e) by ring.
  assert (El : wheel_level k (0 + wheel_delta e) = wheel_level k (wheel_delta e)) by (unfold wheel_level; by rewrite Ed).
  destruct (Qeq_bool (0 + wheel_delta e) 0) eqn:E.
  - apply Qeq_bool_iff in E. rewrite Ed in E. cbn [mbind option_bind]. exists v. split; [done|].
    assert (wheel_level k (wheel_delta e) = k) as -> by (unfold wheel_level; rewrite E; change (round 0) with 0%Z; lia).
    split; [done|]. rewrite (position_at cf Hcf v c k p Hc Hz Hk). by split.
  - cbn [mbind option_bind]. rewrite <-El in Hl, Hf, HL |- *.
    destruct (wheelChange_keeps cf Hcf L v c k p _ Hv Hc Hz Hk Hl Hf HL) as (v' & -> & H1 & H2). by exists v'.
Qed.

(** A double click, each press of which is released where it began, calls no single
    click: it leaves no timer, brings the position clicked to the centre, and zooms in by
    a level. *)
Theorem dblclick_zooms cf L cl v c k a b :
  usable cf -> vinv cf v -> center v = Some c -> zoom v = Some (inject_Z k) -> (0 <= k)%Z -> (k + 1 < levels cf)%Z -> timerId cl = None ->
  (forall z, getLonLatFromViewPortPx cf v (xy b) = Some z -> fits cf v z (resolution_at cf (k + 1))) ->
  (forall v1, zoom v1 = Some (inject_Z (k + 1)) -> L v1 = Some (v1, [])) ->
  exists v' z, click_run cf L navigation_options [CDown a; CUp false a; CClick a; CDown b; CUp false b; CClick b; CDblclick b] (cl, v)
                 = Some (Clicks (Some b) None None, v') /\
    getLonLatFromViewPortPx cf v (xy b) = Some z /\ positions_equal (center v') (Some z) /\ zoom v' = Some (inject_Z (k + 1)).
Proof.
  intros Hcf Hv Hc Hz H0 H1 Ht Hf HL.
  assert (Htol : forall m t r, passesTolerance navigation_options m (Clicks (Some m) t r) = true).
  { intros m t r. unfold passesTolerance. cbn [navigation_options pixelTolerance down]. rewrite !Z.sub_diag. reflexivity. }
  cbn [click_run click_step]. unfold click_up. cbn [handleRightClicks navigation_options andb fst snd foldr rev mbind option_bind].
  change (pixelTolerance navigation_options) with (Some 0). unfold click_down. cbn [pixelTolerance navigation_options timerId rightclickTimerId].
  unfold click. rewrite !Htol, Ht. cbn [timerId fst snd foldr rev mbind option_bind clearTimer down rightclickTimerId].
  rewrite !Htol. cbn [timerId fst snd foldr rev mbind option_bind clearTimer down]. unfold dblclick, clearTimer. cbn [down]. rewrite !Htol.
  cbn [double navigation_options rev app foldr mbind option_bind navigate clearTimer down snd].
  unfold defaultDblClick, setCenter. rewrite (position_at cf Hcf v c k (xy b) Hc Hz) in * by lia. cbn [mbind option_bind]. set (z := LonLat _ _) in *.
  destruct (moveTo_lands cf Hcf L z (Some (inject_Z k + 1)) false false v c (k + 1) Hv Hc) as (v' & ev & E & [_ _ G3 _ (c' & Hc' & He)]); [|lia|by apply Hf|by right|].
  { cbn [asked]. change 1 with (inject_Z 1). by rewrite <-inject_Z_plus, round_Z. }
  rewrite Hz. change (default 0 (Some (inject_Z k))) with (inject_Z k). rewrite E. cbn. exists v', z. split; [done|]. split; [done|].
  split; [|done]. rewrite Hc'. apply ll_equals_iff in He. cbn. split; symmetry; apply He.
Qed.

(** ** On the network map *)

(** The listener leaves a zoom of at least 2 alone. *)
Lemma keep_zoom_content n v : (2 <= n)%Z -> zoom v = Some (inject_Z n) -> keep_zoom oess_config 2 v = Some (v, []).
Proof.
  intros Hn Hz. cbn [keep_zoom]. rewrite Hz. change (default 0 (Some (inject_Z n))) with (inject_Z n).
  destruct (Qle_bool (inject_Z n) 1) eqn:E; [|done]. apply Qle_bool_iff in E. change 1 with (inject_Z 1) in E. rewrite <-Zle_Qle in E. lia.
Qed.

Definition middle : lonlat := LonLat 0 0.
Definition third_zoom : view :=
  View screen (Some middle) (Some (inject_Z 3)) (Some (resolution_at oess_config 3)) (Some middle) 0 0 1 false.

Lemma third_zoom_inv : vinv oess_config third_zoom.
Proof.
  by apply (vinv_intro oess_config oess_usable third_zoom 3 middle middle).
Qed.

Definition pressed : mouse := Mouse 0 500 300.
Definition passed : mouse := Mouse 1 480 290.
Definition skipped : mouse := Mouse 2 470 285.
Definition released : mouse := Mouse 3 450 280.

(** A position of the mouse the third zoom can be dragged to. *)
Ltac fits_there := split; [unfold inside; vm_compute; intuition discriminate|intros r [= <-]; unfold covers; vm_compute; intuition discriminate].

Lemma drag_keeps_point_witness :
  exists d' v', drag_run oess_config (keep_zoom oess_config 2)
      (MouseDown true pressed :: [MouseMove passed; MouseMove skipped; TimeIsOut] ++ [MouseUp released]) (new_drag, third_zoom) = Some (d', v') /\
    started d' = false /\ drag_click d' = negb true /\ dragging v' = false /\ zoom v' = zoom third_zoom /\
    positions_equal (getLonLatFromViewPortPx oess_config v' (xy released)) (getLonLatFromViewPortPx oess_config third_zoom (xy pressed)).
Proof.
  pose proof (drag_keeps_point oess_config (keep_zoom oess_config 2) third_zoom middle 3 new_drag pressed
    [MouseMove passed; MouseMove skipped; TimeIsOut] released) as H.
  assert (noticed pressed (timeoutId new_drag) [MouseMove passed; MouseMove skipped; TimeIsOut] = true) as E by reflexivity. rewrite E in H. apply H;
    [apply oess_usable|apply third_zoom_inv|reflexivity|reflexivity|vm_compute; intuition discriminate| |split; [discriminate|fits_there]].
  apply Forall_cons; split; [split; [discriminate|fits_there]|]. apply Forall_cons; split; [split; [discriminate|fits_there]|].
  apply Forall_cons; split; [exact I|]. apply Forall_nil. exact I.
Defined.

Definition notch (d : Q) : wheel_event :=
  WheelEvent (Some d) None [Element (Some "visible") true false; Element (Some "hidden") false true].

Lemma wheel_keeps_point_witness :
  exists v', onWheelEvent oess_config (keep_zoom oess_config 2) (notch 120) (Wheel 0 (Some (Pixel 700 200)), third_zoom)
             = Some (Wheel 0 (Some (Pixel 700 200)), v', true) /\
    zoom v' = Some (inject_Z 4) /\
    positions_equal (getLonLatFromViewPortPx oess_config v' (Pixel 700 200)) (getLonLatFromViewPortPx oess_config third_zoom (Pixel 700 200)).
Proof.
  apply (wheel_keeps_point oess_config (keep_zoom oess_config 2) (Wheel 0 (Some (Pixel 700 200))) third_zoom middle 3 (Pixel 700 200) (notch 120));
    [apply oess_usable|apply third_zoom_inv|reflexivity|reflexivity|vm_compute; intuition discriminate|reflexivity|reflexivity|reflexivity| |].
  - intros z [= <-]. fits_there.
  - intros v1 Hz. apply (keep_zoom_content 4); [discriminate|exact Hz].
Defined.

(** A wheel that turns back at the smallest zoom the network map keeps does not leave it
    alone: the view goes to the middle of the world at the zoom 1, which has no room to
    be elsewhere, and comes back to the zoom 2 from there. *)
Lemma wheel_back_recentres :
  (fun r : wheel * view * bool => (zoom (snd (fst r)), (fun c => (Qred (lon c), Qred (lat c))) <$> center (snd (fst r))))
  <$> onWheelEvent oess_config (keep_zoom oess_config 2) (notch (-120))
        (Wheel 0 (Some (Pixel 500 300)),
         View screen (Some (LonLat 0 5000000)) (Some 2) (Some (resolution_at oess_config 2)) (Some (LonLat 0 5000000)) 0 0 1 false)
  = Some (Some 2, Some (0, 0)).
Proof. by vm_compute. Qed.

(** A drag that ends before the timer of the one before it runs out is lost: its moves are
    skipped, and without a move nothing is done at its end. *)
Lemma quick_drag_lost L v d s m q :
  timeoutId d = true ->
  exists d', drag_run oess_config L [MouseDown true s; MouseMove m; MouseUp q] (d, v) = Some (d', v).
Proof.
  intros Ht. cbn [drag_run drag_step]. unfold mousedown, mousemove, mouseup. cbn [mbind option_bind started timeoutId]. rewrite Ht.
  cbn [andb negb mbind option_bind started start last same]. rewrite Nat.eqb_refl. by eexists.
Qed.

(** Beyond the deepest level the wheel asks for one that is not there: two notches one
    level before it leave the zoom, but take the centre that belongs to the deepest one,
    so that the map slides. *)
Lemma wheel_beyond_deepest :
  (fun r : wheel * view * bool => (zoom (snd (fst r)), (fun c => Qeq_bool (lon c) 0) <$> center (snd (fst r))))
  <$> onWheelEvent oess_config (keep_zoom oess_config 2) (notch 240)
        (Wheel 0 (Some (Pixel 700 200)),
         View screen (Some middle) (Some 6) (Some (resolution_at oess_config 6)) (Some middle) 0 0 1 false)
  = Some (Some 6, Some false).
Proof. by vm_compute. Qed.
