(* ===== verification/MapPopup.v ===== *)
(** * The popups of a map (openlayers, lib/OpenLayers/Popup.js, Popup/Anchored.js,
    Popup/Framed.js and Map.js)

    A popup is measured, cut to what the map has room for, placed at its position or,
    when it is anchored, in the quadrant that faces the middle of the map, and the map is
    panned until all of it is in view.  The panning may be animated: the frames of
    the animation are whatever positions it goes through.  The browser measures the
    content: a function of the dimension that is fixed, if one is.  Lengths are whole
    pixels.  The style of the content and the decoration of a frame are left out, as is
    the larger content of the one browser that counts its padding in; popups that
    close when the map moves, or keep a fixed relative position, are not modelled. *)

From Stdlib Require Import ZArith QArith Qround Qabs Qminmax Lqa Lia Ascii.
From stdpp Require Import base option list numbers tactics strings.
From S2P Require Import Prelude MapGrid MapBounds MapView MapNavigate.

Local Open Scope Z_scope.

(** ** Popups *)

Record box := Box { bw : Z; bh : Z }.
Record edges := Edges { e_left : Z; e_bottom : Z; e_right : Z; e_top : Z }.

#[export] Instance box_eq_dec : EqDecision box.
Proof. solve_decision. Defined.

(** What an anchored popup hangs on, and, for a framed one, the padding and the
    offset of each relative position. *)
Record anchor := Anchor { a_size : box; a_offset : Z * Z }.
Inductive shape :=
  | Plain
  | Anchored (a : anchor)
  | Framed (a : anchor) (positionBlocks : string -> edges * (Z * Z)).

(** The padding is a number or bounds. *)
Record popup := Popup {
  p_shape : shape; lonlat_of : lonlat; contentSize : box; psize : option box;
  padding : Z + edges; divPadding : edges; closeDiv : option Z;
  minSize : option box; maxSize : option box;
  autoSize : bool; panMapIfOutOfView : bool; keepInMap : bool; has_content : bool;
  relativePosition : option string; css : option (Z * Z); shown : bool
}.

Definition with_size (s : box) (p : popup) : popup :=
  Popup (p_shape p) (lonlat_of p) (contentSize p) (Some s) (padding p) (divPadding p) (closeDiv p) (minSize p) (maxSize p)
    (autoSize p) (panMapIfOutOfView p) (keepInMap p) (has_content p) (relativePosition p) (css p) (shown p).
Definition with_padding (e : edges) (p : popup) : popup :=
  Popup (p_shape p) (lonlat_of p) (contentSize p) (psize p) (inr e) (divPadding p) (closeDiv p) (minSize p) (maxSize p)
    (autoSize p) (panMapIfOutOfView p) (keepInMap p) (has_content p) (relativePosition p) (css p) (shown p).
Definition with_relative (r : string) (p : popup) : popup :=
  Popup (p_shape p) (lonlat_of p) (contentSize p) (psize p) (padding p) (divPadding p) (closeDiv p) (minSize p) (maxSize p)
    (autoSize p) (panMapIfOutOfView p) (keepInMap p) (has_content p) (Some r) (css p) (shown p).
Definition with_css (xy : Z * Z) (p : popup) : popup :=
  Popup (p_shape p) (lonlat_of p) (contentSize p) (psize p) (padding p) (divPadding p) (closeDiv p) (minSize p) (maxSize p)
    (autoSize p) (panMapIfOutOfView p) (keepInMap p) (has_content p) (relativePosition p) (Some xy) (shown p).
Definition with_shown (b : bool) (p : popup) : popup :=
  Popup (p_shape p) (lonlat_of p) (contentSize p) (psize p) (padding p) (divPadding p) (closeDiv p) (minSize p) (maxSize p)
    (autoSize p) (panMapIfOutOfView p) (keepInMap p) (has_content p) (relativePosition p) (css p) b.

(** ** Sizes *)

Definition edges_of (pad : Z + edges) : edges := match pad with inl n => Edges n n n n | inr e => e end.

Definition fixPadding (p : popup) : popup := with_padding (edges_of (padding p)) p.

(** What is around the content: its own padding, that of the popup, the close box. *)
Definition wPadding (p : popup) : Z :=
  let d := divPadding p in let e := edges_of (padding p) in
  e_left d + e_right d + (e_left e + e_right e) + match closeDiv p with Some n => n + e_right d | None => 0 end.
Definition hPadding (p : popup) : Z :=
  let d := divPadding p in let e := edges_of (padding p) in e_top d + e_bottom d + (e_top e + e_bottom e).

Definition paddingForPopups : edges := Edges 15 15 15 15.

Section on_map.
Context (cf : config) (zoomend : view -> option (view * list event)).
Context (mapSize : box).

(** The room a popup that is to stay where it is cannot use; [px] is the pixel of its
    position. *)
Definition extra (r : option string) (px : Z * Z) : Z * Z :=
  let '(px_x, px_y) := px in
  match r with
  | Some r =>
      if String.eqb r "tr" then (px_x, bh mapSize - px_y)
      else if String.eqb r "tl" then (bw mapSize - px_x, bh mapSize - px_y)
      else if String.eqb r "bl" then (bw mapSize - px_x, px_y)
      else if String.eqb r "br" then (px_x, px_y)
      else (px_x, bh mapSize - px_y)
  | None => (px_x, bh mapSize - px_y)
  end.

Definition whole (q : pixel) : Z * Z := (round (x q), round (y q)).

(** [None] when the position has no pixel. *)
Definition getSafeContentSize (v : view) (size : box) (p : popup) : option box :=
  let '(w, h) := (bw size, bh size) in
  let '(w, h) := match minSize p with Some m => (Z.max w (bw m - wPadding p), Z.max h (bh m - hPadding p)) | None => (w, h) end in
  let '(w, h) := match maxSize p with Some m => (Z.min w (bw m - wPadding p), Z.min h (bh m - hPadding p)) | None => (w, h) end in
  '(extraX, extraY) ← (if keepInMap p && negb (panMapIfOutOfView p) then
                          px ← getPixelFromLonLat cf v (lonlat_of p); Some (extra (relativePosition p) (whole px))
                        else Some (0, 0));
  let maxY := bh mapSize - e_top paddingForPopups - e_bottom paddingForPopups - hPadding p - extraY in
  let maxX := bw mapSize - e_left paddingForPopups - e_right paddingForPopups - wPadding p - extraX in
  Some (Box (Z.min w maxX) (Z.min h maxY)).

(** ** Places *)

Definition layer_px (v : view) (p : popup) : option (Z * Z) := whole <$> getLayerPxFromLonLat cf v (lonlat_of p).

Definition calculateRelativePosition (v : view) (px : Z * Z) : option string :=
  ll ← getLonLatFromLayerPx cf v (Pixel (inject_Z px.1) (inject_Z px.2));
  e ← getExtent cf v;
  Some (oppositeQuadrant (determineQuadrant e ll)).

Definition charAt (n : nat) (s : string) (c : Ascii.ascii) : bool :=
  match String.get n s with Some d => Ascii.eqb d c | None => false end.

Definition calculateNewPx (a : anchor) (r : string) (px : Z * Z) (p : popup) : Z * Z :=
  let size := default (contentSize p) (psize p) in
  let px := (px.1 + (a_offset a).1, px.2 + (a_offset a).2) in
  (px.1 + (if charAt 1 r "l"%char then - (bw size + bw (a_size a)) else bw (a_size a)),
   px.2 + (if charAt 0 r "t"%char then - (bh size + bh (a_size a)) else bh (a_size a))).

(** The cosmetic changes of a framed popup begin with its padding. *)
Definition updateRelativePosition (r : string) (p : popup) : popup :=
  match p_shape p with Framed _ blocks => with_padding (blocks r).1 p | _ => p end.

Definition moveTo_anchored (v : view) (a : anchor) (offset : string -> Z * Z) (px : Z * Z) (p : popup) : option popup :=
  r ← calculateRelativePosition v px;
  let old := relativePosition p in
  let p := with_relative r p in
  let newPx := calculateNewPx a r px p in
  let p := with_css (newPx.1 + (offset r).1, newPx.2 + (offset r).2) p in
  Some (if bool_decide (old = Some r) then p else updateRelativePosition r p).

Definition popup_moveTo (v : view) (px : Z * Z) (p : popup) : option popup :=
  match p_shape p with
  | Plain => Some (with_css px p)
  | Anchored a => moveTo_anchored v a (fun _ => (0, 0)) px p
  | Framed a blocks => moveTo_anchored v a (fun r => (blocks r).2) px p
  end.

Definition updatePosition (v : view) (p : popup) : option popup :=
  match layer_px v p with Some px => popup_moveTo v px p | None => Some p end.

(** The size of the whole popup; an anchored one moves with it. *)
Definition setSize (v : view) (content : box) (p : popup) : option popup :=
  let size := Box (bw content + wPadding p) (bh content + hPadding p) in
  let p := with_size size (fixPadding p) in
  match p_shape p with
  | Plain => Some p
  | Anchored _ | Framed _ _ => px ← layer_px v p; popup_moveTo v px p
  end.

(** [rendered]: the size of the content with a width or a height fixed; [scrolls]: whether the
    overflow of the content is not hidden. *)
Definition updateSize (rendered : option Z * option Z -> box) (scrolls : bool) (scrollBar : Z) (v : view) (p : popup) : option popup :=
  let realSize := rendered (None, None) in
  safeSize ← getSafeContentSize v realSize p;
  newSize ← (if decide (safeSize = realSize) then Some realSize
    else
      let fixed_w := if bw safeSize <? bw realSize then if bw safeSize =? 0 then None else Some (bw safeSize) else None in
      let fixed_h := if bh safeSize <? bh realSize then if bh safeSize =? 0 then None else Some (bh safeSize) else None in
      match fixed_w, fixed_h with
      | Some _, Some _ => Some safeSize
      | _, _ =>
          let clipped := rendered (fixed_w, fixed_h) in
          let clipped :=
            if scrolls && bool_decide (clipped = safeSize) then
              match fixed_w with
              | Some _ => Box (bw clipped) (bh clipped + scrollBar)
              | None => Box (bw clipped + scrollBar) (bh clipped)
              end
            else clipped in
          getSafeContentSize v clipped p
      end);
  setSize v newSize (fixPadding p).

(** ** Panning *)

(** The frames of an animation and its end, at the zoom the map has. *)
Fixpoint play (frames : list lonlat) (v : view) : option view :=
  match frames with
  | [] => Some v
  | f :: frames => '(v, _) ← moveTo cf zoomend (Some f) (zoom v) (Options true false true) v; play frames v
  end.

Definition panTo (frames : list lonlat) (p : lonlat) (v : view) : option view :=
  e ← getExtent cf v;
  if containsLonLat (scale e (3 # 2) None) p true then
    c ← center v;
    if ll_equals p c then Some v
    else v ← play frames v; fst <$> moveTo cf zoomend (Some p) (zoom v) (Options false false true) v
  else fst <$> setCenter cf zoomend (Some p) None false false v.

(** [pan], animated. *)
Definition pan_animated (frames : list lonlat) (dx dy : Z) (v : view) : option view :=
  c ← center v;
  q ← getViewPortPxFromLonLat cf v c;
  p ← getLonLatFromViewPortPx cf v (px_add q (inject_Z dx) (inject_Z dy));
  panTo frames p v.

(** Where an edge goes: not before the margin, or not after it. *)
Definition into_margins (orig size total before after : Z) : Z :=
  if orig <? before then before
  else if total - after <? orig + size then total - after - size
  else orig.

(** How far to pan; [None] when the popup has no place or no size yet. *)
Definition pan_distance (v : view) (p : popup) : option (Z * Z) :=
  '(l, t) ← css p;
  s ← psize p;
  let origX := l + div_left v in let origY := t + div_top v in
  let newX := into_margins origX (bw s) (bw mapSize) (e_left paddingForPopups) (e_right paddingForPopups) in
  let newY := into_margins origY (bh s) (bh mapSize) (e_top paddingForPopups) (e_bottom paddingForPopups) in
  Some (origX - newX, origY - newY).

Definition panIntoView (frames : list lonlat) (p : popup) (v : view) : option view :=
  '(dx, dy) ← pan_distance v p; pan_animated frames dx dy v.

(** ** Drawing *)

(** The popup is placed and sized; [setContentHTML] measures one that sizes itself,
    when it has content. *)
Definition lay_out (rendered : option Z * option Z -> box) (scrolls : bool) (scrollBar : Z) (v : view) (p : popup) : option popup :=
  px ← layer_px v p;
  p ← popup_moveTo v px p;
  p ← (if negb (autoSize p) && bool_decide (psize p = None) then setSize v (contentSize p) p else Some p);
  if has_content p && autoSize p then updateSize rendered scrolls scrollBar v p else Some p.

Definition draw (rendered : option Z * option Z -> box) (scrolls : bool) (scrollBar : Z) (frames : list lonlat) (v : view) (p : popup) :
    option (popup * view) :=
  p ← lay_out rendered scrolls scrollBar v p;
  v ← (if panMapIfOutOfView p then panIntoView frames p v else Some v);
  Some (p, v).

(** An anchored popup is placed anew when it is shown. *)
Definition show (frames : list lonlat) (v : view) (p : popup) : option (popup * view) :=
  p ← (match p_shape p with Plain => Some p | _ => updatePosition v p end);
  let p := with_shown true p in
  v ← (if panMapIfOutOfView p then panIntoView frames p v else Some v);
  Some (p, v).

Definition hide (p : popup) : popup := with_shown false p.

Definition toggle (frames : list lonlat) (v : view) (p : popup) : option (popup * view) :=
  if shown p then Some (hide p, v) else show frames v p.
End on_map.

(** ** Sizes that fit *)

(** All of the popup, with the margins, in the map. *)
Definition room_for (mapSize s : box) : Prop :=
  bw s + e_left paddingForPopups + e_right paddingForPopups <= bw mapSize /\
  bh s + e_top paddingForPopups + e_bottom paddingForPopups <= bh mapSize.

Section sizes.
Context (cf : config) (mapSize : box) (v : view).

Lemma safe_fits size p s :
  panMapIfOutOfView p = true -> getSafeContentSize cf mapSize v size p = Some s ->
  room_for mapSize (Box (bw s + wPadding p) (bh s + hPadding p)).
Proof.
  intros Hp. unfold getSafeContentSize. rewrite Hp, andb_false_r. cbn [mbind option_bind].
  destruct (minSize p), (maxSize p); intros [= <-]; unfold room_for; cbn [bw bh paddingForPopups e_left e_right e_top e_bottom]; lia.
Qed.

Lemma safe_total size p : panMapIfOutOfView p = true -> is_Some (getSafeContentSize cf mapSize v size p).
Proof.
  intros Hp. unfold getSafeContentSize. rewrite Hp, andb_false_r. cbn [mbind option_bind].
  destruct (minSize p), (maxSize p); by eexists.
Qed.

(** What moving a popup leaves alone. *)
Record kept (p p' : popup) : Prop := Kept {
  k_shape : p_shape p' = p_shape p;
  k_lonlat : lonlat_of p' = lonlat_of p;
  k_size : psize p' = psize p;
  k_auto : autoSize p' = autoSize p;
  k_pan : panMapIfOutOfView p' = panMapIfOutOfView p;
  k_content : has_content p' = has_content p
}.

Lemma kept_trans p q r : kept p q -> kept q r -> kept p r.
Proof. intros [] []. split; congruence. Qed.

Context (Hcf : usable cf) (Hc : center v <> None).

Lemma quadrant_total px : is_Some (calculateRelativePosition cf v px).
Proof using Hcf Hc.
  unfold calculateRelativePosition, getLonLatFromLayerPx, getLonLatFromViewPortPx, getExtent.
  destruct (center v) as [c|]; [|done]. rewrite (us_wraps _ Hcf). by eexists.
Qed.

Lemma layer_px_total p : is_Some (layer_px cf v p).
Proof using Hc.
  unfold layer_px, getLayerPxFromLonLat, getPixelFromLonLat, getViewPortPxFromLonLat, getExtent.
  destruct (center v) as [c|]; [|done]. by eexists.
Qed.

Lemma moved_popup px p : exists p', popup_moveTo cf v px p = Some p' /\ kept p p' /\ css p' <> None.
Proof using Hcf Hc.
  destruct (quadrant_total px) as [r Er].
  assert (Ha : forall a f, exists p', moveTo_anchored cf v a f px p = Some p' /\ kept p p' /\ css p' <> None).
  { intros a f. unfold moveTo_anchored. rewrite Er. cbn [mbind option_bind]. eexists. split; [reflexivity|].
    destruct (bool_decide _); [by split|]. unfold updateRelativePosition. cbn [with_css with_relative p_shape]. by destruct (p_shape p). }
  unfold popup_moveTo. destruct (p_shape p); [eexists; split; [reflexivity|by split]|apply Ha|apply Ha].
Qed.

(** A size is set with everything around the content, and the popup keeps a place. *)
Lemma setSize_sets content p : css p <> None ->
  exists p', setSize cf v content p = Some p' /\ psize p' = Some (Box (bw content + wPadding p) (bh content + hPadding p)) /\
    css p' <> None /\ panMapIfOutOfView p' = panMapIfOutOfView p /\ autoSize p' = autoSize p /\ has_content p' = has_content p.
Proof using Hcf Hc.
  intros Hp. unfold setSize. set (q := with_size _ _). destruct (layer_px_total q) as [px Epx]. rewrite Epx. cbn [mbind option_bind].
  destruct (moved_popup px q) as (p' & E & [K1 K2 K3 K4 K5 K6] & Hcss). rewrite E.
  destruct (p_shape q); [by exists q|exists p'|exists p']; (split; [done|]); by rewrite K3, K4, K5, K6.
Qed.

(** A popup that sizes itself has room in the map, whatever the browser measures. *)
Lemma updateSize_fits rendered scrolls scrollBar p : css p <> None -> panMapIfOutOfView p = true ->
  exists p' s, updateSize cf mapSize rendered scrolls scrollBar v p = Some p' /\ psize p' = Some s /\ room_for mapSize s /\
    css p' <> None /\ panMapIfOutOfView p' = true.
Proof using Hcf Hc.
  intros Hp Hpan. unfold updateSize. set (real := rendered (None, None)).
  destruct (safe_total real p Hpan) as [safe Esafe]. rewrite Esafe. cbn [mbind option_bind].
  match goal with |- context [if decide (safe = real) then ?a else ?b] =>
    assert (exists s size, (if decide (safe = real) then a else b) = Some s /\ getSafeContentSize cf mapSize v size p = Some s) as (s & size & -> & Es) end.
  { destruct (decide (safe = real)) as [E|E]; [exists real, real; split; [done|by rewrite Esafe, E]|].
    repeat case_match; try (by exists safe, real);
      match goal with |- context [Some _ = Some _] => idtac | |- context [getSafeContentSize cf mapSize v ?c p = Some _] =>
        destruct (safe_total c p Hpan) as [s Es]; by exists s, c end. }
  cbn [mbind option_bind]. destruct (setSize_sets s (fixPadding p) Hp) as (p' & -> & Hs & Hcss & Hpn & _).
  eexists _, _. split; [reflexivity|]. split; [exact Hs|]. split; [|split; [done|rewrite Hpn; exact Hpan]]. exact (safe_fits size p s Hpan Es).
Qed.
End sizes.

(** ** Panned into view *)

Lemma round_shift q k : round (q - inject_Z k)%Q = round q - k.
Proof.
  unfold round. assert (q - inject_Z k + (1 # 2) == (q + (1 # 2)) + inject_Z (- k))%Q as ->.
  { rewrite inject_Z_opp. ring. }
  destruct (q + (1 # 2))%Q as [a b]. unfold Qfloor, Qplus, inject_Z. cbn [Qnum Qden]. rewrite Z.mul_1_r, Pos.mul_1_r, Z.div_add by lia. lia.
Qed.

Section panning.
Context (cf : config) (Hcf : usable cf) (L : view -> option (view * list event)).

Lemma target_still p z v n p' z' :
  zoom v = Some (inject_Z n) -> z = None \/ z = zoom v -> target cf p z v = (p', z') -> z' = None \/ z' = Some (inject_Z n).
Proof using Hcf.
  intros Hz Hor. unfold target. rewrite (us_whole _ Hcf), Hz. destruct Hor as [->|Hor]; [|rewrite Hz in Hor; subst z];
    cbn [fmap option_fmap option_map]; rewrite ?round_Z; destruct (restrictedExtent cf); intros [= _ <-]; auto.
Qed.

(** A move that names no other zoom keeps the origin of the container. *)
Lemma moveTo_still p z drag noEvent v o :
  vinv cf v -> origin v = Some o -> z = None \/ z = zoom v ->
  exists v' ev, moveTo cf L p z (Options drag false noEvent) v = Some (v', ev) /\
    vinv cf v' /\ v_size v' = v_size v /\ zoom v' = zoom v /\ origin v' = origin v /\ center v' <> None.
Proof using Hcf.
  intros Hv Ho Hor. destruct (vi_zoom _ _ Hv) as (n & Hn & Hnr).
  assert (askable cf z) as Hask. { intros q Hq. destruct Hor as [E|E]; rewrite E in Hq; [done|]. rewrite Hn in Hq. injection Hq as <-. by rewrite round_Z. }
  destruct (target_ok cf Hcf p z v Hv Hask) as (p' & z' & Et & Hlev & Ht).
  assert (isValidZoomLevel cf z' && negb (zoom_eqb z' (zoom v)) = false) as Hzc.
  { rewrite Hn. destruct (target_still p z v n p' z' Hn Hor Et) as [E|E]; rewrite E; [done|]. by rewrite (proj2 (zoom_eqb_levels n n) eq_refl), andb_false_r. }
  destruct (apply_ok cf Hcf v p' z' Hv Hlev Ht) as (v1 & E1 & M1 & Z1 & Hsame). rewrite Hzc in E1, Z1, Hsame.
  assert (origin v1 = origin v) as Ho1.
  { revert E1. unfold apply_move. set (w := match p' with Some _ => _ | None => v end).
    assert (origin w = origin v) as Hw by (unfold w; repeat case_match; done).
    rewrite Hw, Ho, (bool_decide_eq_false_2 (Some o = None)) by done. cbn [mbind option_bind orb]. intros [= <-]. congruence. }
  destruct (mv_center _ _ _ _ _ M1) as (c1 & C1 & _). unfold moveTo. rewrite Et. cbn [o_force o_dragging o_noEvent orb]. rewrite Hzc. cbn [orb].
  destruct ((isValidLonLat cf p' && ll_changed p' (center v)) || negb drag) eqn:Eb.
  - rewrite E1. cbn [mbind option_bind]. unfold getExtent. rewrite C1. cbn [fmap option_fmap option_map mbind option_bind].
    eexists _, _. split; [reflexivity|]. split; [apply vinv_drag, M1|]. split; [apply (mv_size _ _ _ _ _ M1)|]. split; [done|]. split; [done|]. cbn. congruence.
  - cbn [mbind option_bind]. apply orb_false_iff in Eb as [Eb _]. destruct (mv_center _ _ _ _ _ (Hsame eq_refl Eb)) as (c0 & C0 & _).
    eexists _, _. split; [reflexivity|]. split; [by apply vinv_drag|]. do 3 (split; [done|]). cbn. congruence.
Qed.

Lemma play_still frames v o : vinv cf v -> origin v = Some o -> center v <> None ->
  exists v', play cf L frames v = Some v' /\ vinv cf v' /\ v_size v' = v_size v /\ zoom v' = zoom v /\ origin v' = origin v /\ center v' <> None.
Proof using Hcf.
  revert v. induction frames as [|f frames IH]; intros v Hv Ho Hc; [by exists v|]. cbn [play].
  destruct (moveTo_still (Some f) (zoom v) true true v o Hv Ho (or_intror eq_refl)) as (v1 & ev & -> & H1 & H2 & H3 & H4 & H5). cbn [mbind option_bind].
  destruct (IH v1 H1) as (v' & -> & G1 & G2 & G3 & G4 & G5); [congruence|done|]. exists v'. split_and!; congruence || done.
Qed.

(** The centre [dx] and [dy] pixels away. *)
Definition away (v : view) (c : lonlat) (dx dy : Z) : lonlat :=
  LonLat (lon c + inject_Z dx * getResolution cf v) (lat c - inject_Z dy * getResolution cf v).

(** The container goes back by as much as the centre goes on. *)
Lemma container_follows v v' c c' o dx dy :
  vinv cf v -> vinv cf v' -> center v = Some c -> center v' = Some c' -> origin v = Some o -> origin v' = Some o -> zoom v' = zoom v ->
  (lon c' == lon (away v c dx dy))%Q -> (lat c' == lat (away v c dx dy))%Q ->
  div_left v' = div_left v - dx /\ div_top v' = div_top v - dy.
Proof using Hcf.
  intros Hv Hv' Hc Hc' Ho Ho' Hz Ex Ey. pose proof (resolution_pos cf Hcf v Hv) as Hpos.
  pose proof (vi_center _ _ Hv) as H1. pose proof (vi_center _ _ Hv') as H2. rewrite Hc, Ho in H1. rewrite Hc', Ho' in H2.
  destruct H1 as [_ [-> ->]], H2 as [_ [-> ->]].
  assert (getResolution cf v' = getResolution cf v) as -> by (unfold getResolution; by rewrite Hz).
  cbn [away lon lat] in Ex, Ey. set (res := getResolution cf v) in *. rewrite <-!round_shift. split; apply round_proper.
  - rewrite Ex. field. lra.
  - rewrite Ey. field. lra.
Qed.

Lemma pan_animated_moves frames dx dy v c o n :
  vinv cf v -> center v = Some c -> origin v = Some o -> zoom v = Some (inject_Z n) -> (0 <= n < levels cf) ->
  fits cf v (away v c dx dy) (resolution_at cf n) ->
  exists v', pan_animated cf L frames dx dy v = Some v' /\ div_left v' = div_left v - dx /\ div_top v' = div_top v - dy.
Proof using Hcf.
  intros Hv Hc Ho Hz Hn Hf. pose proof (resolution_pos cf Hcf v Hv) as Hpos.
  unfold pan_animated, getViewPortPxFromLonLat, getLonLatFromViewPortPx, getExtent. rewrite Hc, (us_wraps _ Hcf).
  cbn [mbind option_bind fmap option_fmap option_map]. set (res := getResolution cf v) in *. set (p := LonLat _ _).
  assert (lon (away v c dx dy) == lon p /\ lat (away v c dx dy) == lat p)%Q as [Ex Ey].
  { cbn [lon lat p away px_add x y left top calculateBounds]. fold res. split; field; lra. }
  pose proof (fits_eq cf v v _ p _ eq_refl Ex Ey Hf) as Hfp. unfold panTo, getExtent. rewrite Hc. cbn [mbind option_bind fmap option_fmap option_map].
  assert (land : forall v1 z drag noEvent, vinv cf v1 -> v_size v1 = v_size v -> zoom v1 = zoom v -> origin v1 = origin v -> center v1 <> None ->
    z = None \/ z = zoom v1 -> exists v' ev, moveTo cf L (Some p) z (Options drag false noEvent) v1 = Some (v', ev) /\
      div_left v' = div_left v - dx /\ div_top v' = div_top v - dy).
  { intros v1 z drag noEvent H1 H2 H3 H4 H5 Hor. destruct (center v1) as [c1|] eqn:Ec1; [|done]. rewrite Ho in H4.
    destruct (moveTo_still (Some p) z drag noEvent v1 o H1 H4 Hor) as (v' & ev & E & G1 & G2 & G3 & G4 & _).
    destruct (moveTo_lands cf Hcf L p z drag noEvent v1 c1 n H1 Ec1) as (v2 & ev2 & E2 & [_ _ _ _ (c2 & Hc2 & He)]).
    - destruct Hor as [E1|E1]; rewrite E1; cbn [asked]; [congruence|]. rewrite H3, Hz. apply round_Z.
    - done.
    - by eapply fits_eq; [symmetry; exact H2|reflexivity|reflexivity|].
    - left. congruence.
    - rewrite E in E2. injection E2 as <- <-. exists v', ev. split; [done|]. apply ll_equals_iff in He as [Hx Hy].
      eapply (container_follows v v' c c2 o dx dy); [done|done|done|done|done|congruence|congruence| |]; [rewrite <-Hx|rewrite <-Hy]; by symmetry. }
  destruct (containsLonLat _ p true).
  - destruct (ll_equals p c) eqn:E.
    + apply ll_equals_iff in E as [Hx Hy]. exists v. split; [done|].
      eapply (container_follows v v c c o dx dy); try done; [rewrite Ex|rewrite Ey]; by symmetry.
    + destruct (play_still frames v o Hv Ho) as (v1 & -> & G1 & G2 & G3 & G4 & G5); [congruence|]. cbn [mbind option_bind].
      destruct (land v1 (zoom v1) false true G1 G2 G3 G4 G5 (or_intror eq_refl)) as (v' & ev & -> & H). by exists v'.
  - unfold setCenter. destruct (land v None false false Hv eq_refl eq_refl eq_refl) as (v' & ev & -> & H); [congruence|by left|]. by exists v'.
Qed.
End panning.

(** The element of the map, in whole pixels. *)
Definition map_box (v : view) : box := Box (Qfloor (w (v_size v))) (Qfloor (h (v_size v))).

Lemma into_margins_in orig size total before after :
  size + before + after <= total ->
  before <= into_margins orig size total before after /\ into_margins orig size total before after + size <= total - after.
Proof. unfold into_margins. intros H. destruct (orig <? before) eqn:E1; [lia|]. destruct (total - after <? orig + size) eqn:E2; lia. Qed.

(** A popup that sizes itself is placed with room in the map. *)
Lemma lay_out_fits cf mapSize rendered scrolls scrollBar v p :
  usable cf -> center v <> None -> autoSize p = true -> has_content p = true -> panMapIfOutOfView p = true ->
  exists p' s, lay_out cf mapSize rendered scrolls scrollBar v p = Some p' /\ psize p' = Some s /\ room_for mapSize s /\
    css p' <> None /\ panMapIfOutOfView p' = true.
Proof.
  intros Hcf Hc Ha Hh Hp. unfold lay_out. destruct (layer_px_total cf v Hc p) as [px ->]. cbn [mbind option_bind].
  destruct (moved_popup cf v Hcf Hc px p) as (p1 & -> & [K1 K2 K3 K4 K5 K6] & Hcss). cbn [mbind option_bind].
  rewrite K4, Ha. cbn [negb andb mbind option_bind]. rewrite K6, Hh, K4, Ha. cbn [andb]. apply updateSize_fits; [done|done|done|congruence].
Qed.

(** C25 A popup that sizes itself and may move the map is in view when it is drawn: whatever
    the browser measures, through whatever frames the map is panned and whichever
    side of its anchor it hangs on, the whole popup is then within the margins of the map,
    provided the map can be panned there. *)
Theorem popup_in_view cf L rendered scrolls scrollBar frames v c n p :
  usable cf -> vinv cf v -> center v = Some c -> zoom v = Some (inject_Z n) -> 0 <= n < levels cf ->
  autoSize p = true -> has_content p = true -> panMapIfOutOfView p = true ->
  (forall p' dx dy, lay_out cf (map_box v) rendered scrolls scrollBar v p = Some p' -> pan_distance (map_box v) v p' = Some (dx, dy) ->
     fits cf v (away cf v c dx dy) (resolution_at cf n)) ->
  exists p' v' s l t, draw cf L (map_box v) rendered scrolls scrollBar frames v p = Some (p', v') /\
    psize p' = Some s /\ css p' = Some (l, t) /\
    15 <= l + div_left v' /\ l + div_left v' + bw s <= bw (map_box v) - 15 /\
    15 <= t + div_top v' /\ t + div_top v' + bh s <= bh (map_box v) - 15.
Proof.
  intros Hcf Hv Hc Hz Hn Ha Hh Hp Hfit. assert (center v <> None) as Hne by congruence.
  destruct (lay_out_fits cf (map_box v) rendered scrolls scrollBar v p Hcf Hne Ha Hh Hp) as (p' & s & E & Hs & [Rw Rh] & Hcss & Hp').
  destruct (css p') as [[l t]|] eqn:Ecss; [|done]. destruct (vinv_lookup cf Hcf v Hv Hne) as (_ & _ & o & _ & _ & _ & Ho & _).
  unfold draw. rewrite E. cbn [mbind option_bind]. rewrite Hp'. unfold panIntoView.
  assert (exists dx dy, pan_distance (map_box v) v p' = Some (dx, dy) /\
    dx = l + div_left v - into_margins (l + div_left v) (bw s) (bw (map_box v)) 15 15 /\
    dy = t + div_top v - into_margins (t + div_top v) (bh s) (bh (map_box v)) 15 15) as (dx & dy & Ed & -> & ->).
  { unfold pan_distance. rewrite Ecss, Hs. cbn [mbind option_bind]. eexists _, _. by split. }
  rewrite Ed. cbn [mbind option_bind].
  destruct (pan_animated_moves cf Hcf L frames _ _ v c o n Hv Hc Ho Hz Hn (Hfit p' _ _ E Ed)) as (v' & -> & Dl & Dt). cbn [mbind option_bind].
  exists p', v', s, l, t. split; [done|]. split; [done|]. split; [done|]. rewrite Dl, Dt.
  cbn [paddingForPopups e_left e_right e_top e_bottom] in Rw, Rh.
  pose proof (into_margins_in (l + div_left v) (bw s) (bw (map_box v)) 15 15). pose proof (into_margins_in (t + div_top v) (bh s) (bh (map_box v)) 15 15). lia.
Qed.

(** ** Examples *)

(** A cloud of the framed kind, above and below its anchor. *)
Definition cloud (r : string) : edges * (Z * Z) :=
  if charAt 0 r "t"%char then (Edges 8 40 8 9, if charAt 1 r "l"%char then (44, 0) else (-45, 0))
  else (Edges 8 9 8 40, if charAt 1 r "l"%char then (45, 0) else (-44, 0)).

Definition balloon (p : lonlat) : popup :=
  Popup (Framed (Anchor (Box 0 0) (0, 0)) cloud) p (Box 200 200) None (inl 0) (Edges 5 5 5 5) (Some 17)
    (Some (Box 105 10)) (Some (Box 1200 660)) true true false true None None true.

(** The popup of a position near the corner of the map, with more text than the map is high. *)
Lemma popup_in_view_witness :
  exists p' v' s l t,
    draw oess_config (keep_zoom oess_config 2) (map_box third_zoom) (fun _ => Box 300 900) true 15 [LonLat 1 1; LonLat 2 2] third_zoom (balloon (LonLat 9000000 5000000)) = Some (p', v') /\
    psize p' = Some s /\ css p' = Some (l, t) /\
    15 <= l + div_left v' /\ l + div_left v' + bw s <= bw (map_box third_zoom) - 15 /\
    15 <= t + div_top v' /\ t + div_top v' + bh s <= bh (map_box third_zoom) - 15.
Proof.
  apply (popup_in_view oess_config (keep_zoom oess_config 2) (fun _ => Box 300 900) true 15 [LonLat 1 1; LonLat 2 2] third_zoom middle 3 (balloon (LonLat 9000000 5000000)));
    [apply oess_usable|apply third_zoom_inv|reflexivity|reflexivity|vm_compute; intuition discriminate|reflexivity|reflexivity|reflexivity|].
  intros p' dx dy E1 E2.
  assert (lay_out oess_config (map_box third_zoom) (fun _ => Box 300 900) true 15 third_zoom (balloon (LonLat 9000000 5000000)) ≫= pan_distance (map_box third_zoom) third_zoom = Some (dx, dy)) as H by (by rewrite E1).
  vm_compute in H. injection H as <- <-. fits_there.
Defined.
