(* ===== verification/MapEvents.v ===== *)
(** Events and handlers of the map engine.

    [Events.js] keeps, for each type of event, the listeners in the order they
    are called; [Handler.js] puts the methods of a handler in front of them when
    it is activated and takes them away when it is deactivated.  The
    specification of both is the list of the active handlers, the last one
    activated first: the listeners of a type are those of the active handlers
    followed by the ones applications registered.  With it, triggering a mouse
    event on the map of the network page is the dispatch of [MapSelect]. *)

From stdpp Require Import base option list gmap sets strings tactics.
From Stdlib Require Import ZArith Lia.
From S2P Require Import Prelude MapSelect.

#[local] Open Scope string_scope.

(** ** Events *)

(** What a listener calls: the method of a handler for a type of event, its
    [setEvent], or a function of the application; [l_obj] is the object it is
    called on. *)
Inductive func :=
  | Method (type : string)
  | SetEvent
  | Application (k : nat).

Record listener := Listener { l_obj : nat; l_func : func }.

#[export] Instance func_eq_dec : EqDecision func.
Proof. solve_decision. Defined.
#[export] Instance listener_eq_dec : EqDecision listener.
Proof. solve_decision. Defined.

Record events := Events { eventTypes : list string; listeners : gmap string (list listener) }.

Definition BROWSER_EVENTS : list string :=
  ["mouseover"; "mouseout"; "mousedown"; "mouseup"; "mousemove"; "click"; "dblclick"; "rightclick";
   "dblrightclick"; "resize"; "focus"; "blur"].

Definition addEventType (e : events) (type : string) : events :=
  match listeners e !! type with
  | Some _ => e
  | None => Events (eventTypes e ++ [type])%list (<[type := []]> (listeners e))
  end.

Definition attachToElement (e : events) : events := foldl addEventType e BROWSER_EVENTS.

(** The constructor, with the custom types of the object and an element. *)
Definition new_events (types : list string) : events :=
  attachToElement (foldl addEventType (Events [] ∅) types).

Definition register (type : string) (l : listener) (e : events) : events :=
  if decide (type ∈ eventTypes e)
  then Events (eventTypes e) (alter (fun ls => ls ++ [l])%list type (listeners e))
  else e.

Definition registerPriority (type : string) (l : listener) (e : events) : events :=
  match listeners e !! type with
  | Some ls => Events (eventTypes e) (<[type := l :: ls]> (listeners e))
  | None => e
  end.

(** The loop of [unregister] splices the first listener that matches. *)
Fixpoint remove_first (l : listener) (ls : list listener) : list listener :=
  match ls with
  | [] => []
  | l' :: ls => if decide (l' = l) then ls else l' :: remove_first l ls
  end.

Definition unregister (type : string) (l : listener) (e : events) : events :=
  match listeners e !! type with
  | Some ls => Events (eventTypes e) (<[type := remove_first l ls]> (listeners e))
  | None => e
  end.

Definition remove (type : string) (e : events) : events :=
  match listeners e !! type with
  | Some _ => Events (eventTypes e) (<[type := []]> (listeners e))
  | None => e
  end.

Section Trigger.

(** What calling a listener does to the state of the page, and its value: [None]
    when it returns nothing. *)
Context {St : Type} (call : listener -> St -> option (St * option bool)).

Fixpoint call_all (ls : list listener) (ret : option bool) (s : St) : option (St * option bool) :=
  match ls with
  | [] => Some (s, ret)
  | l :: ls =>
      '(s, continueChain) ← call l s;
      match continueChain with
      | Some false => Some (s, Some false)
      | _ => call_all ls continueChain s
      end
  end.

(** The listeners are copied before the first is called, so that those that
    register and unregister meanwhile do not change this round. *)
Definition triggerEvent (type : string) (e : events) (s : St) : option (St * option bool) :=
  call_all (default [] (listeners e !! type)) None s.

End Trigger.

(** ** Handlers *)

Section Handlers.

(** [has h type]: the handler has a method of that name. *)
Context (has : nat -> string -> bool).

Record handlers := Handlers { table : events; is_active : gset nat }.

Definition h_register (h : nat) (e : events) (type : string) : events :=
  if has h type
  then registerPriority type (Listener h SetEvent) (registerPriority type (Listener h (Method type)) e)
  else e.

Definition h_unregister (h : nat) (e : events) (type : string) : events :=
  if has h type
  then unregister type (Listener h SetEvent) (unregister type (Listener h (Method type)) e)
  else e.

Definition activate (h : nat) (s : handlers) : handlers :=
  if decide (h ∈ is_active s) then s
  else Handlers (foldl (h_register h) (table s) BROWSER_EVENTS) ({[h]} ∪ is_active s).

Definition deactivate (h : nat) (s : handlers) : handlers :=
  if decide (h ∈ is_active s)
  then Handlers (foldl (h_unregister h) (table s) BROWSER_EVENTS) (is_active s ∖ {[h]})
  else s.

(** Handlers come and go, and applications register functions of theirs. *)
Inductive handler_op :=
  | Activate (h : nat)
  | Deactivate (h : nat)
  | Register (type : string) (k : nat)
  | Unregister (type : string) (k : nat).

Definition application (k : nat) : listener := Listener 0 (Application k).

Definition handler_step (s : handlers) (o : handler_op) : handlers :=
  match o with
  | Activate h => activate h s
  | Deactivate h => deactivate h s
  | Register type k => Handlers (register type (application k) (table s)) (is_active s)
  | Unregister type k => Handlers (unregister type (application k) (table s)) (is_active s)
  end.

(** ** The specification: active handlers in order, and application functions *)

Record roster := Roster { on_duty : list nat; apps : string -> list nat }.

Fixpoint drop_first (k : nat) (l : list nat) : list nat :=
  match l with [] => [] | x :: l => if decide (x = k) then l else x :: drop_first k l end.

Definition at_type (type : string) (f : list nat -> list nat) (a : string -> list nat) : string -> list nat :=
  fun t => if decide (t = type) then f (a t) else a t.

Definition roster_step (types : list string) (r : roster) (o : handler_op) : roster :=
  match o with
  | Activate h => if decide (h ∈ on_duty r) then r else Roster (h :: on_duty r) (apps r)
  | Deactivate h => Roster (filter (.≠ h) (on_duty r)) (apps r)
  | Register type k =>
      if decide (type ∈ types) then Roster (on_duty r) (at_type type (fun l => l ++ [k])%list (apps r)) else r
  | Unregister type k => Roster (on_duty r) (at_type type (drop_first k) (apps r))
  end.

Definition block (type : string) (h : nat) : list listener :=
  if has h type && bool_decide (type ∈ BROWSER_EVENTS)
  then [Listener h SetEvent; Listener h (Method type)] else [].

(** The listeners of a type, from the roster. *)
Definition called (r : roster) (type : string) : list listener :=
  ((on_duty r ≫= block type) ++ (application <$> apps r type))%list.

(** ** The refinement *)

Record represents (types : list string) (s : handlers) (r : roster) : Prop := {
  rep_types : eventTypes (table s) = types;
  rep_called : forall t, listeners (table s) !! t = if decide (t ∈ types) then Some (called r t) else None;
  rep_active : is_active s = list_to_set (on_duty r);
  rep_once : NoDup (on_duty r) }.

Lemma registerPriority_lookup type l e t :
  listeners (registerPriority type l e) !! t
  = if decide (t = type) then (fun ls => l :: ls) <$> listeners e !! t else listeners e !! t.
Proof.
  unfold registerPriority. destruct (listeners e !! type) as [ls|] eqn:E; cbn [listeners]; case_decide; subst.
  - by rewrite lookup_insert_eq, E.
  - by rewrite lookup_insert_ne.
  - by rewrite E.
  - done.
Qed.

Lemma unregister_lookup type l e t :
  listeners (unregister type l e) !! t
  = if decide (t = type) then remove_first l <$> listeners e !! t else listeners e !! t.
Proof.
  unfold unregister. destruct (listeners e !! type) as [ls|] eqn:E; cbn [listeners]; case_decide; subst.
  - by rewrite lookup_insert_eq, E.
  - by rewrite lookup_insert_ne.
  - by rewrite E.
  - done.
Qed.

(** A loop whose rounds change their own type only. *)
Lemma rounds_lookup (step : events -> string -> events) (f : string -> list listener -> list listener) ts e t :
  (forall e type, eventTypes (step e type) = eventTypes e) ->
  (forall e type t, listeners (step e type) !! t
                    = if decide (t = type) then f t <$> listeners e !! t else listeners e !! t) ->
  NoDup ts ->
  eventTypes (foldl step e ts) = eventTypes e /\
  listeners (foldl step e ts) !! t = if decide (t ∈ ts) then f t <$> listeners e !! t else listeners e !! t.
Proof.
  intros Ht Hl. revert e. induction ts as [|type ts IH]; intros e Hnd; cbn [foldl].
  - split; [done|]. rewrite decide_False by set_solver. done.
  - apply list.NoDup_cons in Hnd as [Hn Hnd]. destruct (IH (step e type) Hnd) as [-> ->].
    split; [apply Ht|]. rewrite Hl. destruct (decide (t = type)) as [->|Hne].
    + rewrite (decide_False (P := type ∈ ts)) by done. by rewrite decide_True by set_solver.
    + destruct (decide (t ∈ ts)); [rewrite decide_True by set_solver|rewrite decide_False by set_solver]; done.
Qed.

Lemma browser_once : NoDup BROWSER_EVENTS.
Proof. by apply (bool_decide_unpack _). Qed.

Lemma h_register_types h e type : eventTypes (h_register h e type) = eventTypes e.
Proof. unfold h_register, registerPriority. by repeat case_match. Qed.

Lemma h_unregister_types h e type : eventTypes (h_unregister h e type) = eventTypes e.
Proof. unfold h_unregister, unregister. by repeat case_match. Qed.

Definition put_on (h : nat) (t : string) (ls : list listener) : list listener :=
  if has h t then Listener h SetEvent :: Listener h (Method t) :: ls else ls.

Definition put_off (h : nat) (t : string) (ls : list listener) : list listener :=
  if has h t then remove_first (Listener h SetEvent) (remove_first (Listener h (Method t)) ls) else ls.

Lemma h_register_lookup h e type t :
  listeners (h_register h e type) !! t
  = if decide (t = type) then put_on h t <$> listeners e !! t else listeners e !! t.
Proof.
  unfold h_register, put_on. destruct (decide (t = type)) as [->|Hne].
  - destruct (has h type); [|by destruct (listeners e !! type)].
    rewrite !registerPriority_lookup, !decide_True by done. by destruct (listeners e !! type).
  - destruct (has h type); [|done]. by rewrite !registerPriority_lookup, !decide_False by done.
Qed.

Lemma h_unregister_lookup h e type t :
  listeners (h_unregister h e type) !! t
  = if decide (t = type) then put_off h t <$> listeners e !! t else listeners e !! t.
Proof.
  unfold h_unregister, put_off. destruct (decide (t = type)) as [->|Hne].
  - destruct (has h type); [|by destruct (listeners e !! type)].
    rewrite !unregister_lookup, !decide_True by done. by destruct (listeners e !! type).
  - destruct (has h type); [|done]. by rewrite !unregister_lookup, !decide_False by done.
Qed.

Lemma remove_first_app l ls1 ls2 :
  l ∉ ls1 -> remove_first l (ls1 ++ ls2)%list = (ls1 ++ remove_first l ls2)%list.
Proof.
  induction ls1 as [|l' ls1 IH]; intros Hn; cbn; [done|].
  rewrite decide_False by set_solver. by rewrite IH by set_solver.
Qed.

Lemma elem_of_blocks l t hs : l ∈ (hs ≫= block t) -> l_obj l ∈ hs /\ forall k, l_func l <> Application k.
Proof.
  intros (h & Hl & Hh)%list_elem_of_bind. unfold block in Hl. destruct (_ && _); [|set_solver].
  rewrite !elem_of_cons in Hl. destruct Hl as [->|[->|Hl]]; [done|done|set_solver].
Qed.

Lemma block_browser t h :
  t ∈ BROWSER_EVENTS -> block t h = if has h t then [Listener h SetEvent; Listener h (Method t)] else [].
Proof. intros Ht. unfold block. by rewrite bool_decide_true, andb_true_r. Qed.

Lemma blocks_other t hs : t ∉ BROWSER_EVENTS -> hs ≫= block t = [].
Proof.
  intros Ht. induction hs as [|x hs IH]; [done|]. rewrite bind_cons, IH. unfold block.
  by rewrite bool_decide_false, andb_false_r.
Qed.

Lemma put_off_called h t hs ks :
  NoDup hs -> h ∈ hs -> t ∈ BROWSER_EVENTS ->
  put_off h t ((hs ≫= block t) ++ ks)%list = ((filter (.≠ h) hs ≫= block t) ++ ks)%list.
Proof.
  intros Hnd (l1 & l2 & ->)%list_elem_of_split Ht.
  apply list.NoDup_app in Hnd as (_ & Hd & [Hn _]%list.NoDup_cons).
  assert (h ∉ l1) as Hn1 by (intros Hin; apply (Hd h Hin); set_solver).
  assert (forall l : list nat, h ∉ l -> filter (.≠ h) l = l) as Hf.
  { induction l as [|x l IH]; intros Hl; [done|]. rewrite filter_cons_True by set_solver.
    f_equal. apply IH. set_solver. }
  rewrite list.filter_app, filter_cons_False by (intros H; by apply H). rewrite !Hf by done.
  rewrite !bind_app, bind_cons, block_browser by done. unfold put_off. destruct (has h t); [|done].
  assert (forall g, Listener h g ∉ (l1 ≫= block t)) as Hb.
  { intros g Hin%elem_of_blocks. cbn in Hin. tauto. }
  rewrite <-!app_assoc. rewrite (remove_first_app (Listener h (Method t))) by done. cbn.
  rewrite decide_False, decide_True by done. rewrite remove_first_app by done. cbn.
  by rewrite decide_True by done.
Qed.

Lemma remove_first_application k ks :
  remove_first (application k) (application <$> ks) = application <$> drop_first k ks.
Proof.
  induction ks as [|x ks IH]; cbn; [done|]. destruct (decide (x = k)) as [->|Hx].
  - by rewrite decide_True.
  - rewrite decide_False by (by intros [= ->]). by rewrite IH.
Qed.

Lemma application_not_in_blocks k t hs : application k ∉ (hs ≫= block t).
Proof. intros [_ H]%elem_of_blocks. by apply (H k). Qed.

Lemma rep_activate types s r h :
  (forall t, t ∈ BROWSER_EVENTS -> t ∈ types) -> represents types s r ->
  represents types (activate h s) (roster_step types r (Activate h)).
Proof.
  intros Hb [R1 R2 R3 R4]. unfold activate. cbn [roster_step].
  destruct (decide (h ∈ is_active s)) as [Hin|Hin]; rewrite R3, elem_of_list_to_set in Hin.
  - by rewrite decide_True.
  - rewrite decide_False by done.
    pose proof (fun t => rounds_lookup (h_register h) (put_on h) BROWSER_EVENTS (table s) t (h_register_types h)
      (h_register_lookup h) browser_once) as L.
    split; cbn [table is_active on_duty].
    + by rewrite (proj1 (L "click")).
    + intros t. rewrite (proj2 (L t)), R2. unfold called. cbn [on_duty apps].
      destruct (decide (t ∈ BROWSER_EVENTS)) as [Ht|Ht].
      * rewrite !decide_True by auto. rewrite bind_cons, block_browser by done. cbn. unfold put_on.
        by destruct (has h t).
      * by rewrite !blocks_other.
    + by rewrite R3.
    + by constructor.
Qed.

Lemma rep_deactivate types s r h :
  (forall t, t ∈ BROWSER_EVENTS -> t ∈ types) -> represents types s r ->
  represents types (deactivate h s) (roster_step types r (Deactivate h)).
Proof.
  intros Hb [R1 R2 R3 R4]. unfold deactivate. cbn [roster_step].
  destruct (decide (h ∈ is_active s)) as [Hin|Hin]; rewrite R3, elem_of_list_to_set in Hin.
  - pose proof (fun t => rounds_lookup (h_unregister h) (put_off h) BROWSER_EVENTS (table s) t
      (h_unregister_types h) (h_unregister_lookup h) browser_once) as L.
    split; cbn [table is_active on_duty].
    + by rewrite (proj1 (L "click")).
    + intros t. rewrite (proj2 (L t)), R2. unfold called. cbn [on_duty apps].
      destruct (decide (t ∈ BROWSER_EVENTS)) as [Ht|Ht].
      * rewrite !decide_True by auto. cbn. by rewrite put_off_called.
      * by rewrite !blocks_other.
    + rewrite R3. apply set_eq. intros x.
      rewrite elem_of_difference, !elem_of_list_to_set, list_elem_of_filter, elem_of_singleton. tauto.
    + by apply list.NoDup_filter.
  - assert (filter (.≠ h) (on_duty r) = on_duty r) as ->; [|by split].
    clear -Hin. induction (on_duty r) as [|x l IH]; [done|]. rewrite filter_cons_True by set_solver.
    f_equal. apply IH. set_solver.
Qed.

Lemma rep_step types s r o :
  (forall t, t ∈ BROWSER_EVENTS -> t ∈ types) -> represents types s r ->
  represents types (handler_step s o) (roster_step types r o).
Proof.
  intros Hb R. destruct o as [h|h|type k|type k]; [by apply rep_activate|by apply rep_deactivate|..];
    destruct R as [R1 R2 R3 R4]; cbn [handler_step roster_step].
  - unfold register. rewrite R1. case_decide as Ht; [|by split]. split; cbn; try done.
    intros t. unfold called, at_type. cbn. destruct (decide (t = type)) as [->|Hne].
    + rewrite lookup_alter_eq, R2, !decide_True by done. unfold called. cbn. by rewrite fmap_app, app_assoc.
    + by rewrite lookup_alter_ne, R2.
  - split; cbn; try done.
    + unfold unregister. by destruct (listeners (table s) !! type).
    + intros t. rewrite unregister_lookup, R2. unfold called, at_type. cbn.
      destruct (decide (t = type)) as [->|Hne]; [|done]. destruct (decide (type ∈ types)); [|done]. cbn.
      by rewrite remove_first_app, remove_first_application by apply application_not_in_blocks.
Qed.

(** A map just made: no handler is active and nothing is registered. *)
Definition new_map (types : list string) : handlers := Handlers (new_events types) ∅.

Definition nobody : roster := Roster [] (fun _ => []).

(** The types of a new events object, and no listener for any of them. *)
Definition blank (e : events) : Prop :=
  forall t, listeners e !! t = if decide (t ∈ eventTypes e) then Some [] else None.

Lemma blank_add ts e :
  blank e ->
  blank (foldl addEventType e ts) /\
  forall t, t ∈ eventTypes (foldl addEventType e ts) <-> t ∈ eventTypes e \/ t ∈ ts.
Proof.
  revert e. induction ts as [|x ts IH]; intros e B; cbn [foldl]; [split; [done|set_solver]|].
  assert (blank (addEventType e x) /\ forall t, t ∈ eventTypes (addEventType e x) <-> t ∈ eventTypes e \/ t = x)
    as [B' E].
  { unfold addEventType. pose proof (B x) as Bx. destruct (listeners e !! x) eqn:Ex.
    - split; [done|]. intros t. destruct (decide (x ∈ eventTypes e)); [|done]. set_solver.
    - split; cbn [eventTypes]; [|set_solver]. intros t. cbn [listeners eventTypes].
      destruct (decide (t = x)) as [->|Hne].
      + rewrite lookup_insert_eq. by rewrite decide_True by set_solver.
      + rewrite lookup_insert_ne, B by done. by repeat case_decide; set_solver. }
  destruct (IH _ B') as [B2 E2]. split; [done|]. intros t. rewrite E2, E. set_solver.
Qed.

Lemma rep_new types :
  represents (eventTypes (new_events types)) (new_map types) nobody /\
  forall t, t ∈ BROWSER_EVENTS -> t ∈ eventTypes (new_events types).
Proof.
  destruct (blank_add types (Events [] ∅)) as [B1 _]; [by intros t|].
  destruct (blank_add BROWSER_EVENTS _ B1) as [B2 E2]. split.
  - split; cbn [table is_active new_map on_duty nobody]; [done|exact B2|done|constructor].
  - intros t Ht. apply E2. by right.
Qed.

Lemma rep_run types ops :
  represents (eventTypes (new_events types)) (foldl handler_step (new_map types) ops)
    (foldl (roster_step (eventTypes (new_events types))) nobody ops).
Proof.
  destruct (rep_new types) as [R Hb]. revert R. generalize (new_map types), nobody.
  induction ops as [|o ops IH]; intros s r R; cbn [foldl]; [done|]. apply IH. by apply rep_step.
Qed.

(** C16 Handlers refine a roster.  On a new map, however handlers are activated and
    deactivated and applications register and unregister functions, the listeners
    of every type the map has are those of the active handlers, each once, the
    last one activated first, followed by the functions of the applications in
    the order they were registered: activating twice does nothing, and
    deactivating a handler takes away its listeners and no other's, whichever
    handlers came after it. *)
Theorem handlers_refine types ops t :
  t ∈ eventTypes (new_events types) ->
  listeners (table (foldl handler_step (new_map types) ops)) !! t
  = Some (called (foldl (roster_step (eventTypes (new_events types))) nobody ops) t).
Proof. intros Ht. by rewrite (rep_called _ _ _ (rep_run types ops)), decide_True. Qed.

End Handlers.

Lemma handlers_refine_witness :
  let has := fun h t => bool_decide (t = "click") in
  listeners (table (foldl (handler_step has) (new_map ["moveend"])
    [Activate 1; Register "click" 7; Activate 2; Activate 1; Deactivate 1; Activate 3])) !! "click"
  = Some [Listener 3 SetEvent; Listener 3 (Method "click"); Listener 2 SetEvent; Listener 2 (Method "click");
          application 7].
Proof.
  intros has.
  assert (("click" : string) ∈ eventTypes (new_events ["moveend"])) as H
    by (apply (bool_decide_unpack _); vm_compute; exact I).
  rewrite (handlers_refine has ["moveend"]
    [Activate 1; Register "click" 7; Activate 2; Activate 1; Deactivate 1; Activate 3] "click" H).
  vm_compute. reflexivity.
Defined.

(** ** The handlers of the network map *)

(** The feature handlers of the click and the hover control, and the events
    [Handler.Feature] has a method for. *)
Definition click_handler : nat := 1.
Definition hover_handler : nat := 2.

Definition mouse_type (t : mouse) : string :=
  match t with
  | Mousedown => "mousedown" | Mouseup => "mouseup" | Click => "click" | Dblclick => "dblclick"
  | Mousemove => "mousemove"
  end.

Definition feature_methods : list string := ["mousedown"; "mouseup"; "click"; "mousemove"; "dblclick"].

Definition mentions (h : nat) (o : handler_op) : bool :=
  match o with Activate g | Deactivate g => bool_decide (g = h) | _ => false end.

Section Page.

(** The other handlers of the map and the functions registered on it: which
    methods they have, and what their calls return; they act on the view and
    leave the features of the layer and the two handlers as they are. *)
Context (other_has : nat -> string -> bool) (other_call : listener -> option bool).
Context (named : nat -> bool) (on_select : nat -> list nat -> list layer_op).

Definition page_has (h : nat) (type : string) : bool :=
  if decide (h = click_handler \/ h = hover_handler) then bool_decide (type ∈ feature_methods)
  else other_has h type.

(** Calling a listener of the map for a mouse event. *)
Definition page_call (t : mouse) (xy : Z * Z) (under : option nat) (l : listener) (w : world) :
    option (world * option bool) :=
  match l_func l with
  | SetEvent => Some (w, Some true)
  | Method _ =>
      if decide (l_obj l = click_handler) then
        '(w, on) ← receive named on_select ClickControl t xy under w; Some (w, Some on)
      else if decide (l_obj l = hover_handler) then
        '(w, on) ← receive named on_select HoverControl t xy under w; Some (w, Some on)
      else Some (w, other_call l)
  | Application _ => Some (w, other_call l)
  end.

(** Listeners of other handlers. *)
Definition foreign (l : listener) : Prop :=
  forall k, l_func l = Method k -> l_obj l <> click_handler /\ l_obj l <> hover_handler.

Lemma call_foreign t xy under ls ret w :
  Forall foreign ls -> fst <$> call_all (page_call t xy under) ls ret w = Some w.
Proof.
  intros Hf. revert ret. induction Hf as [|l ls Hl Hf IH]; intros ret; [done|]. cbn [call_all].
  assert (exists r, page_call t xy under l w = Some (w, r)) as [r ->].
  { unfold page_call. destruct (l_func l) as [k| |k] eqn:E; [|by eexists..].
    destruct (Hl k E). rewrite !decide_False by done. by eexists. }
  cbn. destruct r as [[]|]; [apply IH|done|apply IH].
Qed.

Lemma on_duty_without types h ops r :
  forallb (fun o => negb (mentions h o)) ops = true -> h ∉ on_duty r ->
  h ∉ on_duty (foldl (roster_step types) r ops).
Proof.
  revert r. induction ops as [|o ops IH]; intros r Ho Hr; cbn [foldl]; [done|].
  cbn [forallb] in Ho. apply andb_true_iff in Ho as [Ho Hos]. apply IH; [done|].
  destruct o as [g|g|ty k|ty k]; cbn in Ho |- *.
  - apply negb_true_iff, bool_decide_eq_false in Ho. case_decide; [done|]. cbn. set_solver.
  - rewrite list_elem_of_filter. tauto.
  - by case_decide.
  - done.
Qed.

Lemma foreign_called r t : click_handler ∉ on_duty r -> hover_handler ∉ on_duty r -> Forall foreign (called page_has r t).
Proof.
  intros H1 H2. apply list.Forall_forall. intros l Hl k Hk. unfold called in Hl.
  apply elem_of_app in Hl as [Hl|Hl].
  - apply elem_of_blocks in Hl as [Ho _]. split; intros E; by rewrite E in Ho.
  - apply list_elem_of_fmap in Hl as (x & -> & _). done.
Qed.

(** C17 From the events of the map to the selection of features.  Whatever handlers
    and functions the map had before, once the page has activated the handler of
    its hover control and then that of its click control, triggering a mouse
    event on the map does to the features and the popup exactly what the
    composition of the two controls does: the click control first, then the hover
    control unless the first one stopped the event, and no listener of the map in
    between or before. *)
Theorem trigger_dispatches types ops t xy under w :
  forallb (fun o => negb (mentions click_handler o) && negb (mentions hover_handler o)) ops = true ->
  let s := foldl (handler_step page_has) (new_map types)
             (ops ++ [Activate hover_handler; Activate click_handler])%list in
  fst <$> triggerEvent (page_call t xy under) (mouse_type t) (table s) w
  = dispatch named on_select t xy under w.
Proof.
  intros Ho s. destruct (rep_run page_has types (ops ++ [Activate hover_handler; Activate click_handler])%list) as [_ R _ _].
  unfold triggerEvent, s. rewrite R, decide_True by (apply rep_new; [exact page_has|by destruct t; apply (bool_decide_unpack _)]).
  rewrite foldl_app. set (r := foldl _ nobody ops).
  assert (click_handler ∉ on_duty r /\ hover_handler ∉ on_duty r) as [H1 H2].
  { rewrite forallb_forall in Ho. split; apply on_duty_without; try apply not_elem_of_nil;
      apply forallb_forall; intros o Hin; by apply Ho, andb_true_iff in Hin as [? ?]. }
  cbn [foldl roster_step]. rewrite (decide_False (P := hover_handler ∈ _)) by done. cbn [on_duty apps].
  rewrite decide_False by (rewrite elem_of_cons; by intros [?|?]).
  assert (forall h, h = click_handler \/ h = hover_handler ->
    block page_has (mouse_type t) h = [Listener h SetEvent; Listener h (Method (mouse_type t))]) as B.
  { intros h Hh. unfold block, page_has. rewrite decide_True by done.
    rewrite !bool_decide_true; [done|by destruct t; apply (bool_decide_unpack _)..]. }
  pose proof (foreign_called r (mouse_type t) H1 H2) as F. unfold called in *. cbn [on_duty apps default].
  rewrite !bind_cons, !B by auto. rewrite <-!app_assoc. set (ls := (_ ++ _ : list listener)%list) in *.
  unfold id. cbn [app from_option call_all page_call l_func l_obj mbind option_bind].
  rewrite decide_True by done.
  unfold dispatch. destruct (receive named on_select ClickControl t xy under w) as [[w1 [|]]|]; cbn [mbind option_bind]; [|done|done].
  rewrite decide_False, decide_True by done.
  destruct (receive named on_select HoverControl t xy under w1) as [[w2 [|]]|]; cbn; [|done|done].
  by apply call_foreign.
Qed.

End Page.

Lemma trigger_dispatches_witness :
  let has := page_has (fun _ _ => true) in
  let s := foldl (handler_step has) (new_map ["moveend"])
             [Activate 5; Register "click" 3; Activate hover_handler; Activate click_handler] in
  fst <$> triggerEvent (page_call (fun _ => None) (fun _ => true) (fun _ _ => []) Mousemove (0, 0)%Z (Some 4))
            "mousemove" (table s) (drawn [4])
  = dispatch (fun _ => true) (fun _ _ => []) Mousemove (0, 0)%Z (Some 4) (drawn [4]).
Proof.
  apply (trigger_dispatches (fun _ _ => true) (fun _ => None) (fun _ => true) (fun _ _ => []) ["moveend"]
           [Activate 5; Register "click" 3] Mousemove (0, 0)%Z (Some 4) (drawn [4])).
  reflexivity.
Defined.
