(* ===== verification/MapLayers.v ===== *)
(** The layers of a map and their order on the screen.

    [Map.js] keeps its layers in a list, one of them the base layer, and gives
    each a z-index computed from its place; a feature handler (Handler/Feature.js)
    raises the z-index of its layer as long as it is active, and again after each
    change of the order.  The page of the network (js_templates/maps.js) adds its
    background as layer 0 and the network, which it replaces on [reinitialize],
    as layer 1.

    - a [stack] holds the layers in order, the base layer, what each layer knows
      of itself ([linfo]), the layers of the active feature handlers and the
      popups;
    - an operation returns [None] where the code throws: removing a layer, or
      closing a popup, that is not there.

    The centre and zoom that [setBaseLayer] restores are those of [MapView];
    listeners of preaddlayer, which could refuse a layer, are not modelled (the
    sources register none). *)

From stdpp Require Import base option list gmap sets numbers tactics.
From Stdlib Require Import ZArith Lia.
From S2P Require Import Prelude.

#[local] Open Scope Z_scope.

(** ** Layers *)

Record linfo := LInfo { isBaseLayer : bool; visibility : bool; zIndex : Z }.

Record stack := Stack {
  layers : list nat;
  baseLayer : option nat;
  info : gmap nat linfo;
  allOverlays : bool;
  viewRequestID : nat;
  raised : list nat;
  popups : list nat }.

Definition info_of (w : stack) (l : nat) : linfo := default (LInfo false true 0) (info w !! l).

Definition set_info (w : stack) (l : nat) (i : linfo) : stack :=
  Stack (layers w) (baseLayer w) (<[l := i]> (info w)) (allOverlays w) (viewRequestID w) (raised w) (popups w).
Definition set_layers (w : stack) (ls : list nat) : stack :=
  Stack ls (baseLayer w) (info w) (allOverlays w) (viewRequestID w) (raised w) (popups w).
Definition set_base (w : stack) (b : option nat) : stack :=
  Stack (layers w) b (info w) (allOverlays w) (viewRequestID w) (raised w) (popups w).
Definition set_raised (w : stack) (r : list nat) : stack :=
  Stack (layers w) (baseLayer w) (info w) (allOverlays w) (viewRequestID w) r (popups w).
Definition set_popups (w : stack) (p : list nat) : stack :=
  Stack (layers w) (baseLayer w) (info w) (allOverlays w) (viewRequestID w) (raised w) p.
Definition next_request (w : stack) : stack :=
  Stack (layers w) (baseLayer w) (info w) (allOverlays w) (S (viewRequestID w)) (raised w) (popups w).

Definition Z_BASE : Z := 100.
Definition Z_OVERLAY : Z := 325.
Definition Z_FEATURE : Z := 725.

Definition setZIndex (w : stack) (l : nat) (z : Z) : stack :=
  let i := info_of w l in set_info w l (LInfo (isBaseLayer i) (visibility i) z).

Definition setVisibility (w : stack) (l : nat) (v : bool) : stack :=
  let i := info_of w l in set_info w l (LInfo (isBaseLayer i) v (zIndex i)).

(** The z-index of a layer at a place of the list. *)
Definition place_z (base : bool) (idx : Z) : Z := (if base then Z_BASE else Z_OVERLAY) + idx * 5.

Definition setLayerZIndex (w : stack) (l : nat) (idx : Z) : stack :=
  setZIndex w l (place_z (isBaseLayer (info_of w l)) idx).

(** The loop over the layers of the list, from place [i] on. *)
Fixpoint reset_from (i : nat) (ls : list nat) (w : stack) : stack :=
  match ls with
  | [] => w
  | l :: ls => reset_from (S i) ls (setLayerZIndex w l (Z.of_nat i))
  end.

Definition resetLayersZIndex (w : stack) : stack := reset_from 0 (layers w) w.

(** [indexOf]: the place of a layer, -1 when it has none. *)
Fixpoint index_from (i : Z) (l : nat) (ls : list nat) : Z :=
  match ls with
  | [] => -1
  | x :: ls => if decide (x = l) then i else index_from (i + 1) l ls
  end.

Definition getLayerIndex (w : stack) (l : nat) : Z := index_from 0 l (layers w).

(** ** The feature handlers *)

Definition top_z (z : Z) : Z := Z.max (Z_FEATURE - 1) z + 1.

Definition moveLayerToTop (w : stack) (l : nat) : stack := setZIndex w l (top_z (zIndex (info_of w l))).

Definition moveLayerBack (w : stack) (l : nat) : stack :=
  let z := zIndex (info_of w l) - 1 in
  if Z_FEATURE <=? z then setZIndex w l z else setLayerZIndex w l (getLayerIndex w l).

(** Every active handler listens to removelayer and to changes of the order. *)
Definition handleMapEvents (w : stack) : stack := foldl moveLayerToTop w (raised w).

Definition activate_on (w : stack) (l : nat) : stack := set_raised (moveLayerToTop w l) (l :: raised w).

Fixpoint remove_one (l : nat) (ls : list nat) : list nat :=
  match ls with [] => [] | x :: ls => if decide (x = l) then ls else x :: remove_one l ls end.

Definition deactivate_on (w : stack) (l : nat) : stack :=
  if decide (l ∈ raised w) then set_raised (moveLayerBack w l) (remove_one l (raised w)) else w.

(** ** The operations of the map *)

Definition setBaseLayer (w : stack) (l : nat) : stack :=
  if decide (Some l = baseLayer w) then w
  else if decide (l ∈ layers w) then
    let w := match baseLayer w with
             | Some b => if allOverlays w then w else setVisibility w b false
             | None => w
             end in
    let w := next_request (set_base w (Some l)) in
    if negb (allOverlays w) || visibility (info_of w l) then setVisibility w l true else w
  else w.

Definition addLayer (w : stack) (l : nat) : stack :=
  if decide (l ∈ layers w) then w
  else
    let i := info_of w l in
    let w := if allOverlays w then set_info w l (LInfo false (visibility i) (zIndex i)) else w in
    let w := setLayerZIndex w l (Z.of_nat (length (layers w))) in
    let w := set_layers w (layers w ++ [l]) in
    if isBaseLayer (info_of w l) || (allOverlays w && bool_decide (baseLayer w = None)) then
      match baseLayer w with
      | None => setBaseLayer w l
      | Some _ => setVisibility w l false
      end
    else w.

(** The first layer that can be the base layer. *)
Definition next_base (w : stack) : option nat :=
  head (filter (fun l => isBaseLayer (info_of w l) || allOverlays w = true) (layers w)).

Definition removeLayer (w : stack) (l : nat) (setNewBaseLayer : bool) : option stack :=
  if decide (l ∈ layers w) then
    let w := set_layers w (filter (.≠ l) (layers w)) in
    let w := if decide (baseLayer w = Some l) then
               let w := set_base w None in
               if setNewBaseLayer then match next_base w with Some b => setBaseLayer w b | None => w end else w
             else w in
    Some (handleMapEvents (resetLayersZIndex w))
  else None.

(** [splice(base, 1)]: a negative place counts from the end. *)
Definition splice_out (base : Z) (ls : list nat) : list nat :=
  let b := if base <? 0 then (length ls - 1)%nat else Z.to_nat base in take b ls ++ drop (S b) ls.

Definition splice_in (idx : Z) (l : nat) (ls : list nat) : list nat :=
  take (Z.to_nat idx) ls ++ l :: drop (Z.to_nat idx) ls.

Definition clamp_index (idx : Z) (n : nat) : Z :=
  if idx <? 0 then 0 else if Z.of_nat n <? idx then Z.of_nat n else idx.

Definition setLayerIndex (w : stack) (l : nat) (idx : Z) : stack :=
  let base := getLayerIndex w l in
  let idx := clamp_index idx (length (layers w)) in
  if base =? idx then w
  else
    let w := set_layers w (splice_in idx l (splice_out base (layers w))) in
    let w := handleMapEvents (resetLayersZIndex w) in
    if allOverlays w then
      if idx =? 0 then setBaseLayer w l
      else match head (layers w) with
           | Some first => if decide (baseLayer w = Some first) then w else setBaseLayer w first
           | None => w
           end
    else w.

Definition raiseLayer (w : stack) (l : nat) (delta : Z) : stack :=
  setLayerIndex w l (getLayerIndex w l + delta).

(** ** Popups *)

Definition removePopup (w : stack) (p : nat) : stack := set_popups w (filter (.≠ p) (popups w)).

(** The loop that closes every popup, from the last; a place that is gone gives
    undefined, whose [div] cannot be read. *)
Fixpoint close_from (n : nat) (w : stack) : option stack :=
  match n with
  | O => Some w
  | S i => p ← popups w !! i; close_from i (removePopup w p)
  end.

Definition close_popups (w : stack) : option stack := close_from (length (popups w)) w.

Definition addPopup (w : stack) (p : nat) (exclusive : bool) : option stack :=
  w ← (if exclusive then close_popups w else Some w); Some (set_popups w (popups w ++ [p])).

(** ** What the loops keep and set *)

(** The same layers in the same roles, whatever their z-indices. *)
Record keeps (w w' : stack) : Prop := {
  keeps_layers : layers w' = layers w;
  keeps_base : baseLayer w' = baseLayer w;
  keeps_all : allOverlays w' = allOverlays w;
  keeps_raised : raised w' = raised w;
  keeps_is : forall l, isBaseLayer (info_of w' l) = isBaseLayer (info_of w l);
  keeps_vis : forall l, visibility (info_of w' l) = visibility (info_of w l) }.

#[local] Instance keeps_preorder : PreOrder keeps.
Proof. split; [by intros w; split|]. intros ? ? ? [] []. split; intros; congruence. Qed.

Lemma info_of_set w l i x : info_of (set_info w l i) x = if decide (l = x) then i else info_of w x.
Proof.
  unfold info_of, set_info. cbn. case_decide; [subst; by rewrite lookup_insert_eq|by rewrite lookup_insert_ne].
Qed.

Lemma setZIndex_keeps w l z : keeps w (setZIndex w l z).
Proof.
  split; try done; intros x; unfold setZIndex; rewrite info_of_set; by destruct (decide (l = x)) as [->|].
Qed.

Lemma setZIndex_z w l z x :
  zIndex (info_of (setZIndex w l z) x) = if decide (l = x) then z else zIndex (info_of w x).
Proof. unfold setZIndex. rewrite info_of_set. by destruct (decide (l = x)). Qed.

Lemma reset_keeps ls i w : keeps w (reset_from i ls w).
Proof.
  revert i w. induction ls as [|l ls IH]; intros i w; cbn [reset_from]; [done|].
  etrans; [|apply IH]. apply setZIndex_keeps.
Qed.

Lemma reset_other ls i w x : x ∉ ls -> zIndex (info_of (reset_from i ls w) x) = zIndex (info_of w x).
Proof.
  revert i w. induction ls as [|l ls IH]; intros i w Hx; cbn [reset_from]; [done|].
  rewrite IH by set_solver. unfold setLayerZIndex. rewrite setZIndex_z, decide_False by set_solver. done.
Qed.

Lemma reset_z ls i w k l :
  NoDup ls -> ls !! k = Some l ->
  zIndex (info_of (reset_from i ls w) l) = place_z (isBaseLayer (info_of w l)) (Z.of_nat (i + k)).
Proof.
  revert i w k. induction ls as [|x ls IH]; intros i w k Hnd Hk; [done|]. cbn [reset_from].
  apply list.NoDup_cons in Hnd as [Hx Hnd]. destruct k as [|k].
  - injection Hk as ->. rewrite reset_other by done. unfold setLayerZIndex.
    rewrite setZIndex_z, decide_True by done. by rewrite Nat.add_0_r.
  - rewrite (IH (S i) _ k) by done. unfold setLayerZIndex. rewrite (keeps_is _ _ (setZIndex_keeps _ _ _)).
    by rewrite Nat.add_succ_r.
Qed.

Definition times (l : nat) (rs : list nat) : nat := length (filter (.= l) rs).

Lemma times_cons l x rs : times l (x :: rs) = ((if decide (x = l) then 1 else 0) + times l rs)%nat.
Proof. unfold times. rewrite filter_cons. by destruct (decide (x = l)). Qed.

Lemma raise_all rs w :
  keeps w (foldl moveLayerToTop w rs) /\
  forall l, zIndex (info_of (foldl moveLayerToTop w rs) l) = Nat.iter (times l rs) top_z (zIndex (info_of w l)).
Proof.
  revert w. induction rs as [|x rs IH]; intros w; cbn [foldl]; [done|].
  destruct (IH (moveLayerToTop w x)) as [K Hz]. split; [etrans; [apply setZIndex_keeps|exact K]|].
  intros l. rewrite Hz, times_cons. unfold moveLayerToTop. rewrite setZIndex_z.
  destruct (decide (x = l)) as [->|]; [|done]. cbn [Nat.add]. by rewrite Nat.iter_succ_r.
Qed.

(** The z-index of a layer, from its role, place and handlers. *)
Definition z_of (base : bool) (i n : nat) : Z := Nat.iter n top_z (place_z base (Z.of_nat i)).

Definition z_right (w : stack) : Prop :=
  forall i l, layers w !! i = Some l ->
    zIndex (info_of w l) = z_of (isBaseLayer (info_of w l)) i (times l (raised w)).

Lemma rearranged w :
  NoDup (layers w) -> keeps w (handleMapEvents (resetLayersZIndex w)) /\ z_right (handleMapEvents (resetLayersZIndex w)).
Proof.
  intros Hnd. unfold handleMapEvents, resetLayersZIndex.
  pose proof (reset_keeps (layers w) 0 w) as K1. destruct (raise_all (raised (reset_from 0 (layers w) w))
    (reset_from 0 (layers w) w)) as [K2 Hz]. split; [by etrans|].
  intros i l Hi. rewrite Hz, (keeps_raised _ _ K2), (keeps_is _ _ K2), (keeps_is _ _ K1). unfold z_of. f_equal.
  rewrite (keeps_layers _ _ K2), (keeps_layers _ _ K1) in Hi. by rewrite (reset_z _ 0 w i l).
Qed.

(** ** The base layer *)

(** The same places, whatever the base layer and what is visible. *)
Record lays (w w' : stack) : Prop := {
  lays_layers : layers w' = layers w;
  lays_all : allOverlays w' = allOverlays w;
  lays_raised : raised w' = raised w;
  lays_is : forall l, isBaseLayer (info_of w' l) = isBaseLayer (info_of w l);
  lays_z : forall l, zIndex (info_of w' l) = zIndex (info_of w l) }.

#[local] Instance lays_preorder : PreOrder lays.
Proof. split; [by intros w; split|]. intros ? ? ? [] []. split; intros; congruence. Qed.

Lemma z_right_lays w w' : lays w w' -> z_right w -> z_right w'.
Proof. intros [L1 L2 L3 L4 L5] H i l Hi. rewrite L1 in Hi. rewrite L5, L4, L3. by apply H. Qed.

Lemma setVisibility_lays w l v : lays w (setVisibility w l v).
Proof.
  split; try done; intros x; unfold setVisibility; rewrite info_of_set; by destruct (decide (l = x)) as [->|].
Qed.

Lemma setVisibility_vis w l v x :
  visibility (info_of (setVisibility w l v) x) = if decide (l = x) then v else visibility (info_of w x).
Proof. unfold setVisibility. rewrite info_of_set. by destruct (decide (l = x)). Qed.

Lemma set_base_lays w b : lays w (next_request (set_base w b)).
Proof. by split. Qed.

Lemma setBaseLayer_lays w l : lays w (setBaseLayer w l).
Proof.
  unfold setBaseLayer. case_decide; [done|]. case_decide; [|done]. cbn zeta.
  set (w1 := match baseLayer w with Some _ => _ | None => _ end).
  assert (lays w w1) as L1.
  { unfold w1. destruct (baseLayer w); [|done]. destruct (allOverlays w); [done|apply setVisibility_lays]. }
  destruct (_ || _); [etrans; [|apply setVisibility_lays]|]; etrans; [exact L1|apply set_base_lays|exact L1|apply set_base_lays].
Qed.

Lemma setBaseLayer_base w l : l ∈ layers w -> baseLayer (setBaseLayer w l) = Some l.
Proof.
  intros Hl. unfold setBaseLayer. case_decide; [done|]. rewrite decide_True by done. cbn zeta. by destruct (_ || _).
Qed.

Lemma setBaseLayer_vis w l x :
  allOverlays w = false -> l ∈ layers w -> Some l <> baseLayer w ->
  visibility (info_of (setBaseLayer w l) x)
  = if decide (l = x) then true else if decide (baseLayer w = Some x) then false else visibility (info_of w x).
Proof.
  intros Ha Hl Hb. unfold setBaseLayer. rewrite decide_False, decide_True by done. cbn zeta.
  rewrite (lays_all _ _ (set_base_lays _ _)).
  assert (forall b, allOverlays (setVisibility w b false) = false) as Ha' by done.
  destruct (baseLayer w) as [b|] eqn:Eb; rewrite ?Ha, ?Ha'; cbn [negb orb]; rewrite setVisibility_vis;
    destruct (decide (l = x)); try done.
  change (info_of (next_request (set_base ?v ?b)) x) with (info_of v x). rewrite setVisibility_vis.
  destruct (decide (b = x)) as [->|]; [by rewrite decide_True|]. rewrite decide_False by congruence. done.
Qed.

(** ** The invariant *)

(** One base layer, the only visible one, whenever the map has some; on a map of
    overlays only, the first layer stands for it. *)
Record base_right (w : stack) : Prop := {
  base_in : allOverlays w = false -> forall b, baseLayer w = Some b -> b ∈ layers w /\ isBaseLayer (info_of w b) = true;
  base_some : allOverlays w = false -> forall l, l ∈ layers w -> isBaseLayer (info_of w l) = true -> baseLayer w <> None;
  base_visible : allOverlays w = false -> forall l, l ∈ layers w -> isBaseLayer (info_of w l) = true ->
    visibility (info_of w l) = bool_decide (baseLayer w = Some l);
  base_first : allOverlays w = true -> baseLayer w = head (layers w) }.

Record stack_inv (w : stack) : Prop := {
  inv_once : NoDup (layers w);
  inv_base : base_right w;
  inv_z : z_right w }.

Lemma base_right_keeps w w' : keeps w w' -> base_right w -> base_right w'.
Proof.
  intros [K1 K2 K3 K4 K5 K6] [B1 B2 B3 B4].
  split; rewrite ?K3, ?K1, ?K2; [intros Ha b Hb|intros Ha l Hl|intros Ha l Hl|exact B4].
  - destruct (B1 Ha b Hb) as [H1 H2]. split; [done|by rewrite K5].
  - rewrite K5. by apply B2.
  - rewrite K5, K6. by apply B3.
Qed.

Lemma base_right_raised w r : base_right w -> base_right (set_raised w r).
Proof. by intros []. Qed.

(** Choosing a base layer among the layers of a map that is right but for it. *)
Lemma base_right_set w l :
  allOverlays w = false -> l ∈ layers w -> isBaseLayer (info_of w l) = true -> Some l <> baseLayer w ->
  (forall x, x ∈ layers w -> x <> l -> isBaseLayer (info_of w x) = true ->
     visibility (info_of w x) = bool_decide (baseLayer w = Some x)) ->
  base_right (setBaseLayer w l).
Proof.
  intros Ha Hl Hi Hb Hv. pose proof (setBaseLayer_lays w l) as [L1 L2 L3 L4 L5].
  pose proof (setBaseLayer_base w l Hl) as Hn.
  split; rewrite L2, ?L1, ?Hn; [intros _ b [= <-]|done|intros _ x Hx Hxi|congruence].
  - by rewrite L4.
  - rewrite L4 in Hxi. rewrite setBaseLayer_vis by done. destruct (decide (l = x)) as [->|Hne].
    + by rewrite bool_decide_true.
    + rewrite (bool_decide_false (Some l = Some x)) by congruence.
      destruct (decide (baseLayer w = Some x)); [done|]. rewrite Hv by done. by rewrite bool_decide_false.
Qed.

Lemma base_right_first w l :
  allOverlays w = true -> head (layers w) = Some l -> base_right (setBaseLayer w l).
Proof.
  intros Ha Hl. pose proof (setBaseLayer_lays w l) as [L1 L2 L3 L4 L5].
  split; rewrite L2, ?L1; try congruence. intros _. rewrite setBaseLayer_base, Hl; [done|].
  destruct (layers w) as [|x ls]; [done|]. injection Hl as ->. set_solver.
Qed.

(** A stack with one more layer, not yet seen to be a base layer or not. *)
Record appended (w w' : stack) (l : nat) : Prop := {
  app_layers : layers w' = layers w ++ [l];
  app_base : baseLayer w' = baseLayer w;
  app_all : allOverlays w' = allOverlays w;
  app_raised : raised w' = raised w;
  app_info : forall x, x <> l -> info_of w' x = info_of w x;
  app_z : zIndex (info_of w' l) = place_z (isBaseLayer (info_of w' l)) (Z.of_nat (length (layers w)));
  app_overlay : allOverlays w = true -> isBaseLayer (info_of w' l) = false }.

Lemma addLayer_unfold w l :
  l ∉ layers w ->
  exists w', appended w w' l /\
    addLayer w l = if isBaseLayer (info_of w' l) || (allOverlays w && bool_decide (baseLayer w = None)) then
                     match baseLayer w with None => setBaseLayer w' l | Some _ => setVisibility w' l false end
                   else w'.
Proof.
  intros Hl. unfold addLayer. rewrite decide_False by done. cbn zeta.
  set (w1 := if allOverlays w then _ else w).
  assert (keeps w1 (setLayerZIndex w1 l (Z.of_nat (length (layers w1))))) as K by apply setZIndex_keeps.
  assert (layers w1 = layers w /\ baseLayer w1 = baseLayer w /\ allOverlays w1 = allOverlays w /\ raised w1 = raised w)
    as (E1 & E2 & E3 & E4) by (unfold w1; by destruct (allOverlays w) eqn:Ea).
  eexists (set_layers (setLayerZIndex w1 l (Z.of_nat (length (layers w1)))) (layers w1 ++ [l])).
  split; [split|].
  - cbn. by rewrite E1.
  - by rewrite <-E2.
  - by rewrite <-E3.
  - by rewrite <-E4.
  - intros x Hx. change (info_of (set_layers ?v ?ls) x) with (info_of v x).
    unfold setLayerZIndex, setZIndex. rewrite info_of_set, decide_False by done.
    unfold w1. destruct (allOverlays w); [|done]. by rewrite info_of_set, decide_False.
  - change (info_of (set_layers ?v ?ls) l) with (info_of v l). rewrite (keeps_is _ _ K). unfold setLayerZIndex.
    rewrite setZIndex_z, decide_True by done. by rewrite E1.
  - intros Ha. change (info_of (set_layers ?v ?ls) l) with (info_of v l). rewrite (keeps_is _ _ K).
    unfold w1. rewrite Ha. by rewrite info_of_set, decide_True.
  - cbn [baseLayer allOverlays set_layers]. by rewrite (keeps_base _ _ K), (keeps_all _ _ K), E2, E3.
Qed.

Lemma times_none l rs : l ∉ rs -> times l rs = 0%nat.
Proof.
  unfold times. induction rs as [|y rs IH]; intros Hr; [done|].
  rewrite filter_cons_False by set_solver. apply IH. set_solver.
Qed.

Lemma appended_z w w' l : appended w w' l -> l ∉ layers w -> l ∉ raised w -> z_right w -> z_right w'.
Proof.
  intros [A1 A2 A3 A4 A5 A6 A7] Hl Hr Hz i x Hi. rewrite A1 in Hi. rewrite A4.
  apply lookup_app_Some in Hi as [Hi|[Hlen Hi]].
  - assert (x <> l) as Hx by (intros ->; apply Hl; by eapply list_elem_of_lookup_2).
    rewrite A5 by done. by apply Hz.
  - destruct (i - length (layers w))%nat eqn:En; [|done]. injection Hi as ->.
    replace i with (length (layers w)) by lia. by rewrite A6, times_none.
Qed.

(** The layers that were there are as right as they were. *)
Lemma appended_old w w' l x :
  appended w w' l -> x ∈ layers w' -> x <> l -> x ∈ layers w /\ info_of w' x = info_of w x.
Proof.
  intros A Hx Hne. rewrite (app_layers _ _ _ A), elem_of_app, list_elem_of_singleton in Hx.
  split; [tauto|]. by apply (app_info _ _ _ A).
Qed.

Lemma appended_overlay w w' l :
  appended w w' l -> l ∉ layers w -> base_right w -> isBaseLayer (info_of w' l) = false ->
  (allOverlays w = true -> baseLayer w <> None) -> base_right w'.
Proof.
  intros A Hl [B1 B2 B3 B4] Hi Hb. pose proof (fun x => appended_old w w' l x A) as O.
  destruct A as [A1 A2 A3 A4 A5 A6 A7]. split; rewrite A3, ?A2; [intros Ha b Eb|intros Ha x Hx Hxi|intros Ha x Hx Hxi|intros Ha].
  - destruct (B1 Ha b Eb) as [Hbw Hib]. rewrite A1, A5 by (by intros ->). set_solver.
  - destruct (O x Hx) as [Hxw Ex]; [by intros ->; congruence|]. rewrite Ex in Hxi. by apply (B2 Ha x).
  - destruct (O x Hx) as [Hxw Ex]; [by intros ->; congruence|]. rewrite Ex in *. by apply B3.
  - rewrite A1. specialize (B4 Ha). specialize (Hb Ha). destruct (layers w); [done|]. done.
Qed.

(** A second base layer is hidden. *)
Lemma appended_hidden w w' l b :
  appended w w' l -> l ∉ layers w -> base_right w -> allOverlays w = false -> baseLayer w = Some b ->
  base_right (setVisibility w' l false).
Proof.
  intros A Hl [B1 B2 B3 B4] Ha Eb. pose proof (fun x => appended_old w w' l x A) as O.
  destruct A as [A1 A2 A3 A4 A5 A6 A7]. destruct (B1 Ha b Eb) as [Hbw Hib].
  pose proof (setVisibility_lays w' l false) as S. destruct S as [S1 S2 S3 S4 S5].
  assert (baseLayer (setVisibility w' l false) = Some b) as E by (rewrite <-Eb; exact A2).
  split; rewrite S2, A3, E; [intros _ c [= <-]|done|intros _ x Hx Hxi|congruence].
  - rewrite S4, A5 by (by intros ->). rewrite S1, A1. set_solver.
  - rewrite S4 in Hxi. rewrite setVisibility_vis. destruct (decide (l = x)) as [->|Hne].
    + rewrite bool_decide_false; [done|]. by intros [= ->].
    + rewrite S1 in Hx. destruct (O x Hx (not_eq_sym Hne)) as [Hxw Ex]. rewrite Ex in *.
      rewrite B3 by done. by rewrite Eb.
Qed.

Lemma addLayer_inv w l : stack_inv w -> l ∈ layers w \/ l ∉ raised w -> stack_inv (addLayer w l).
Proof.
  intros [I1 I2 I3] Hr. destruct (decide (l ∈ layers w)) as [Hl|Hl].
  { unfold addLayer. by rewrite decide_True. }
  destruct Hr as [|Hr]; [done|]. destruct (addLayer_unfold w l Hl) as (w' & A & ->).
  pose proof (appended_z w w' l A Hl Hr I3) as Z'.
  assert (NoDup (layers w')) as N'.
  { rewrite (app_layers _ _ _ A). apply list.NoDup_app. split_and!; [done|set_solver|apply NoDup_singleton]. }
  assert (l ∈ layers w') as L' by (rewrite (app_layers _ _ _ A); set_solver).
  destruct (_ || _) eqn:Ec.
  - destruct (baseLayer w) as [b|] eqn:Eb.
    + split; [done| |exact (z_right_lays _ _ (setVisibility_lays w' l false) Z')].
      apply (appended_hidden w w' l b); try done. destruct (allOverlays w) eqn:Ea; [|done].
      rewrite (app_overlay _ _ _ A Ea) in Ec. done.
    + pose proof (setBaseLayer_lays w' l) as S. split; [by rewrite (lays_layers _ _ S)| |by eapply z_right_lays].
      destruct (allOverlays w) eqn:Ea.
      * apply base_right_first; [by rewrite (app_all _ _ _ A)|]. rewrite (app_layers _ _ _ A).
        pose proof (base_first w I2 Ea) as Hf. rewrite Eb in Hf. by destruct (layers w).
      * rewrite orb_false_r in Ec. apply base_right_set; [by rewrite (app_all _ _ _ A)|done|done|by rewrite (app_base _ _ _ A), Eb|].
        intros x Hx Hne Hxi. destruct (appended_old w w' l x A Hx Hne) as [Hxw Ex]. rewrite Ex in *.
        rewrite (app_base _ _ _ A). by apply (base_visible w I2).
  - apply orb_false_iff in Ec as [Ei Ec]. split; [done| |done]. apply (appended_overlay w w' l); try done.
    intros Ha Hb. by rewrite Ha, Hb in Ec.
Qed.

(** Removing a layer: the stack without it, before the order is announced. *)
Lemma next_base_spec w b :
  next_base w = Some b -> b ∈ layers w /\ (isBaseLayer (info_of w b) || allOverlays w = true).
Proof.
  unfold next_base. intros H. assert (b ∈ filter (fun l => isBaseLayer (info_of w l) || allOverlays w = true) (layers w)) as Hb
    by (destruct (filter _ _); [done|]; injection H as ->; set_solver).
  apply list_elem_of_filter in Hb. tauto.
Qed.

Lemma next_base_none w l :
  next_base w = None -> l ∈ layers w -> isBaseLayer (info_of w l) || allOverlays w = false.
Proof.
  unfold next_base. intros H Hl. apply not_true_iff_false. intros Hi.
  assert (l ∈ filter (fun l => isBaseLayer (info_of w l) || allOverlays w = true) (layers w)) as Hin
    by (by apply list_elem_of_filter). destruct (filter _ _); [set_solver|done].
Qed.

Lemma next_base_first w : allOverlays w = true -> next_base w = head (layers w).
Proof.
  intros Ha. unfold next_base. destruct (layers w) as [|l ls]; [done|].
  rewrite filter_cons_True; [done|]. by rewrite Ha, orb_true_r.
Qed.

Lemma removed_base w l w1 :
  base_right w -> w1 = set_layers w (filter (.≠ l) (layers w)) ->
  base_right (if decide (baseLayer w1 = Some l) then
                match next_base (set_base w1 None) with
                | Some b => setBaseLayer (set_base w1 None) b | None => set_base w1 None end
              else w1).
Proof.
  intros [B1 B2 B3 B4] ->. set (w1 := set_layers w _). change (baseLayer w1) with (baseLayer w).
  assert (forall x, x ∈ layers w1 <-> x <> l /\ x ∈ layers w) as Hin by (intros x; unfold w1; cbn; by rewrite list_elem_of_filter).
  destruct (decide (baseLayer w = Some l)) as [Eb|Eb].
  - destruct (next_base (set_base w1 None)) as [b|] eqn:En.
    + apply next_base_spec in En as Hb. destruct Hb as [Hb Hib].
      destruct (allOverlays w) eqn:Ea; [apply base_right_first; [done|by rewrite <-next_base_first]|].
      change (allOverlays (set_base w1 None)) with (allOverlays w) in Hib. rewrite Ea, orb_false_r in Hib.
      apply base_right_set; try done. intros x Hx Hne Hxi. apply Hin in Hx as [Hxl Hx].
      change (info_of (set_base w1 None) x) with (info_of w x) in *.
      rewrite B3, bool_decide_false by (done || congruence). by rewrite bool_decide_false.
    + pose proof (fun x Hx => next_base_none _ x En Hx) as Hn. cbn [layers set_base] in Hn.
      split; cbn [baseLayer set_base layers allOverlays]; [done|intros Ha x Hx Hxi|intros Ha x Hx Hxi|].
      * specialize (Hn x Hx). by rewrite Hxi in Hn.
      * specialize (Hn x Hx). by rewrite Hxi in Hn.
      * intros Ha. change (allOverlays w1) with (allOverlays w) in Ha. rewrite next_base_first in En by done. done.
  - split; cbn [layers set_layers baseLayer allOverlays];
      [intros Ha b Hb|intros Ha x Hx Hxi|intros Ha x Hx Hxi|intros Ha].
    + destruct (B1 Ha b Hb). split; [|done]. apply Hin. split; [|done]. intros ->. by apply Eb.
    + apply Hin in Hx as [_ Hx]. by apply (B2 Ha x).
    + apply Hin in Hx as [_ Hx]. by apply B3.
    + change (layers w1) with (filter (.≠ l) (layers w)). change (baseLayer w1) with (baseLayer w).
      rewrite (B4 Ha) in Eb |- *. destruct (layers w) as [|x ls]; [done|]. cbn in Eb.
      by rewrite filter_cons_True by congruence.
Qed.

Lemma rearranged_inv w : NoDup (layers w) -> base_right w -> stack_inv (handleMapEvents (resetLayersZIndex w)).
Proof.
  intros Hnd B. destruct (rearranged w Hnd) as [K Hz]. split; [by rewrite (keeps_layers _ _ K)| |done].
  by apply (base_right_keeps w).
Qed.

Lemma removeLayer_inv w l : stack_inv w -> l ∈ layers w -> exists w', removeLayer w l true = Some w' /\ stack_inv w'.
Proof.
  intros [I1 I2 I3] Hl. unfold removeLayer. rewrite decide_True by done. eexists. split; [done|]. cbn zeta.
  apply rearranged_inv; [|by apply (removed_base w l)].
  assert (NoDup (layers (set_layers w (filter (.≠ l) (layers w))))) as N by (cbn; by apply list.NoDup_filter).
  case_decide; [|done]. destruct (next_base _); [|done]. by rewrite (lays_layers _ _ (setBaseLayer_lays _ _)).
Qed.

Lemma setBaseLayer_inv w l :
  stack_inv w -> allOverlays w = false -> l ∉ layers w \/ isBaseLayer (info_of w l) = true -> stack_inv (setBaseLayer w l).
Proof.
  intros [I1 I2 I3] Ha Hi. pose proof (setBaseLayer_lays w l) as S.
  split; [by rewrite (lays_layers _ _ S)| |by eapply z_right_lays].
  destruct (decide (Some l = baseLayer w)) as [E|E]; [unfold setBaseLayer; by rewrite decide_True|].
  destruct (decide (l ∈ layers w)) as [Hl|Hl].
  - destruct Hi as [|Hi]; [done|]. apply base_right_set; try done. intros x Hx _. by apply I2.
  - unfold setBaseLayer. by rewrite !decide_False.
Qed.

(** ** Moving a layer *)

Lemma index_from_in i l ls :
  l ∈ ls -> exists k, index_from i l ls = i + Z.of_nat k /\ ls !! k = Some l /\ (k < length ls)%nat.
Proof.
  revert i. induction ls as [|x ls IH]; intros i Hl; [set_solver|]. cbn [index_from].
  destruct (decide (x = l)) as [->|Hne].
  - exists 0%nat. split_and!; [lia|done|cbn; lia].
  - destruct (IH (i + 1)) as (k & E & Hk & Hlt); [set_solver|]. exists (S k).
    split_and!; [rewrite E; lia|done|cbn; lia].
Qed.

(** The list with the layer at place [k] moved to another place. *)
Definition moved (k j : nat) (l : nat) (ls : list nat) : list nat :=
  take j (delete k ls) ++ l :: drop j (delete k ls).

Lemma splice_moved k idx l ls :
  ls !! k = Some l -> splice_in idx l (splice_out (Z.of_nat k) ls) = moved k (Z.to_nat idx) l ls.
Proof.
  intros Hk. unfold splice_in, splice_out, moved.
  replace (Z.of_nat k <? 0) with false by (symmetry; apply Z.ltb_ge; lia). cbn zeta.
  by rewrite Nat2Z.id, <-delete_take_drop.
Qed.

Lemma moved_perm k j l ls : ls !! k = Some l -> moved k j l ls ≡ₚ ls.
Proof.
  intros Hk. unfold moved. rewrite <-Permutation_middle, take_drop. symmetry. by apply delete_Permutation.
Qed.

Lemma moved_at k j l ls : (k < length ls)%nat -> (j < length ls)%nat -> moved k j l ls !! j = Some l.
Proof.
  intros Hk Hj. unfold moved. assert (length (delete k ls) = (length ls - 1)%nat) as E.
  { assert (is_Some (ls !! k)) as [x Hx] by (by apply lookup_lt_is_Some). rewrite (length_delete ls k); [lia|by eexists]. }
  apply list_lookup_middle. rewrite length_take. lia.
Qed.

Lemma base_right_perm w ls :
  allOverlays w = false -> ls ≡ₚ layers w -> base_right w -> base_right (set_layers w ls).
Proof.
  intros Ha Hp [B1 B2 B3 B4].
  split; cbn [layers set_layers baseLayer allOverlays]; [intros _ b Hb|intros _ x Hx|intros _ x Hx|congruence].
  - destruct (B1 Ha b Hb). split; [by rewrite Hp|done].
  - rewrite Hp in Hx. by apply B2.
  - rewrite Hp in Hx. by apply B3.
Qed.

Lemma overlays_reordered w :
  NoDup (layers w) -> allOverlays w = true ->
  let w1 := handleMapEvents (resetLayersZIndex w) in
  forall l, head (layers w) = Some l -> stack_inv (setBaseLayer w1 l).
Proof.
  intros Hnd Ha w1 l Hl. destruct (rearranged w Hnd) as [K Hz]. fold w1 in K, Hz.
  pose proof (setBaseLayer_lays w1 l) as S.
  split; [by rewrite (lays_layers _ _ S), (keeps_layers _ _ K)| |by eapply z_right_lays].
  apply base_right_first; [by rewrite (keeps_all _ _ K)|by rewrite (keeps_layers _ _ K)].
Qed.

Lemma setBaseLayer_same w l : baseLayer w = Some l -> setBaseLayer w l = w.
Proof. intros E. unfold setBaseLayer. by rewrite decide_True. Qed.

Lemma clamp_range idx n : 0 <= clamp_index idx n <= Z.of_nat n.
Proof. unfold clamp_index. repeat case_match; try lia. Qed.

Lemma setLayerIndex_inv w l idx : stack_inv w -> l ∈ layers w -> stack_inv (setLayerIndex w l idx).
Proof.
  intros I Hl. destruct I as [I1 I2 I3] eqn:EI. unfold setLayerIndex, getLayerIndex. cbn zeta.
  destruct (index_from_in 0 l (layers w) Hl) as (k & -> & Hk & Hlt). rewrite Z.add_0_l.
  set (j := clamp_index idx (length (layers w))). destruct (Z.of_nat k =? j); [done|].
  rewrite splice_moved by done. pose proof (moved_perm k (Z.to_nat j) l _ Hk) as Hp.
  set (w1 := set_layers w (moved k (Z.to_nat j) l (layers w))).
  assert (NoDup (layers w1)) as N1 by (cbn; by rewrite Hp).
  destruct (rearranged w1 N1) as [K _]. rewrite (keeps_all _ _ K). change (allOverlays w1) with (allOverlays w).
  destruct (allOverlays w) eqn:Ea.
  - destruct (j =? 0) eqn:Ej.
    + apply overlays_reordered; [done..|]. cbn. apply Z.eqb_eq in Ej. by rewrite Ej.
    + rewrite (keeps_layers _ _ K). destruct (head (layers w1)) as [f|] eqn:Ef.
      * pose proof (overlays_reordered w1 N1 Ea f Ef) as R.
        case_decide as Eb; [by rewrite setBaseLayer_same in R|done].
      * destruct (layers w1) eqn:E1; [|done]. cbn in E1. rewrite E1 in Hp. apply Permutation_nil_l in Hp.
        rewrite <-Hp in Hl. set_solver.
  - apply rearranged_inv; [done|]. by apply base_right_perm.
Qed.

(** ** Handlers *)

Lemma top_iter n z : (0 < n)%nat -> Nat.iter n top_z z = Z.max (Z_FEATURE - 1) z + Z.of_nat n.
Proof.
  induction n as [|n IH]; [lia|]. intros _. rewrite Nat.iter_succ. destruct n as [|n]; [done|].
  rewrite IH by lia. unfold top_z, Z_FEATURE. lia.
Qed.

Lemma activate_inv w l : stack_inv w -> stack_inv (activate_on w l).
Proof.
  intros [I1 I2 I3]. pose proof (setZIndex_keeps w l (top_z (zIndex (info_of w l)))) as K.
  change (setZIndex w l _) with (moveLayerToTop w l) in K. split; [done| |].
  - by apply base_right_raised, (base_right_keeps w).
  - intros i x Hi. change (layers (activate_on w l)) with (layers w) in Hi.
    change (info_of (activate_on w l) x) with (info_of (moveLayerToTop w l) x). rewrite (keeps_is _ _ K).
    unfold moveLayerToTop. rewrite setZIndex_z. cbn [raised activate_on set_raised]. rewrite times_cons.
    destruct (decide (l = x)) as [->|]; [|by apply I3]. unfold z_of. cbn. f_equal. by apply I3.
Qed.

Lemma times_remove x l rs :
  l ∈ rs -> times x rs = ((if decide (l = x) then 1 else 0) + times x (remove_one l rs))%nat.
Proof.
  induction rs as [|y rs IH]; intros Hl; [set_solver|]. cbn [remove_one]. destruct (decide (y = l)) as [->|Hne].
  - by rewrite times_cons.
  - rewrite !times_cons, IH by set_solver. lia.
Qed.

Lemma index_unique i l ls k : NoDup ls -> ls !! k = Some l -> index_from i l ls = i + Z.of_nat k.
Proof.
  intros Hnd Hk. destruct (index_from_in i l ls) as (k' & -> & Hk' & _); [by eapply list_elem_of_lookup_2|].
  by rewrite (NoDup_lookup ls k' k l).
Qed.

Lemma deactivate_inv w l : stack_inv w -> stack_inv (deactivate_on w l).
Proof.
  intros I. unfold deactivate_on. case_decide as Hr; [|done]. destruct I as [I1 I2 I3].
  assert (keeps w (moveLayerBack w l)) as K.
  { unfold moveLayerBack. cbn zeta. case_match; apply setZIndex_keeps. }
  split; [|by apply base_right_raised, (base_right_keeps w)|].
  { cbn. by rewrite (keeps_layers _ _ K). }
  intros i x Hi. change (layers (set_raised ?v ?r)) with (layers v) in Hi. rewrite (keeps_layers _ _ K) in Hi.
  change (info_of (set_raised ?v ?r) x) with (info_of v x). cbn [raised set_raised]. rewrite (keeps_is _ _ K).
  pose proof (I3 i x Hi) as Hz. rewrite (times_remove x l) in Hz by done.
  unfold moveLayerBack. cbn zeta. destruct (decide (l = x)) as [->|Hne].
  - assert (zIndex (info_of w x) = Z.max (Z_FEATURE - 1) (place_z (isBaseLayer (info_of w x)) (Z.of_nat i))
      + Z.of_nat (1 + times x (remove_one x (raised w)))) as E by (rewrite Hz; apply top_iter; lia).
    unfold z_of. destruct (times x (remove_one x (raised w))) as [|n] eqn:En.
    + destruct (Z_FEATURE <=? _) eqn:El; unfold setLayerZIndex; rewrite setZIndex_z, decide_True by done; cbn.
      * apply Z.leb_le in El. unfold Z_FEATURE in *. lia.
      * unfold getLayerIndex. by rewrite (index_unique 0 x _ i).
    + rewrite top_iter by lia. destruct (Z_FEATURE <=? _) eqn:El.
      * rewrite setZIndex_z, decide_True by done. lia.
      * apply Z.leb_gt in El. unfold Z_FEATURE in *. lia.
  - assert (forall z, zIndex (info_of (setZIndex w l z) x) = zIndex (info_of w x)) as E
      by (intros z; by rewrite setZIndex_z, decide_False).
    cbn [Nat.add] in Hz. destruct (_ <=? _); unfold setLayerZIndex; rewrite E; done.
Qed.

(** ** The map over time *)

Inductive stack_op :=
  | AddLayer (l : nat)
  | RemoveLayer (l : nat)
  | SetBase (l : nat)
  | SetIndex (l : nat) (idx : Z)
  | Raise (l : nat) (delta : Z)
  | Show (l : nat) (v : bool)
  | ActivateOn (l : nat)
  | DeactivateOn (l : nat).

Definition stack_step (w : stack) (o : stack_op) : option stack :=
  match o with
  | AddLayer l => Some (addLayer w l)
  | RemoveLayer l => removeLayer w l true
  | SetBase l => Some (setBaseLayer w l)
  | SetIndex l idx => Some (setLayerIndex w l idx)
  | Raise l delta => Some (raiseLayer w l delta)
  | Show l v => Some (setVisibility w l v)
  | ActivateOn l => Some (activate_on w l)
  | DeactivateOn l => Some (deactivate_on w l)
  end.

(** Layers are moved and removed while they are on the map, a layer with an
    active handler is not added again, base layers are chosen with [setBaseLayer]
    and not shown or hidden one by one. *)
Definition permitted (w : stack) (o : stack_op) : Prop :=
  match o with
  | AddLayer l => l ∈ layers w \/ l ∉ raised w
  | RemoveLayer l | SetIndex l _ | Raise l _ => l ∈ layers w
  | SetBase l => allOverlays w = false /\ (l ∉ layers w \/ isBaseLayer (info_of w l) = true)
  | Show l _ => allOverlays w = true \/ isBaseLayer (info_of w l) = false
  | ActivateOn _ | DeactivateOn _ => True
  end.

Definition new_stack (all : bool) (inf : gmap nat linfo) : stack := Stack [] None inf all 0 [] [].

Inductive reachable (all : bool) (inf : gmap nat linfo) : stack -> Prop :=
  | reach_new : reachable all inf (new_stack all inf)
  | reach_step w o w' : reachable all inf w -> permitted w o -> stack_step w o = Some w' -> reachable all inf w'.

Lemma show_inv w l v : stack_inv w -> permitted w (Show l v) -> stack_inv (setVisibility w l v).
Proof.
  intros [I1 [B1 B2 B3 B4] I3] Hp. pose proof (setVisibility_lays w l v) as S.
  split; [done| |by eapply z_right_lays]. destruct S as [S1 S2 S3 S4 S5].
  split; rewrite S2, ?S1; [intros Ha b Hb|intros Ha x Hx|intros Ha x Hx|exact B4].
  - rewrite S4. by apply B1.
  - rewrite S4. by apply B2.
  - rewrite S4, setVisibility_vis. intros Hi. destruct (decide (l = x)) as [->|]; [|by apply B3].
    destruct Hp as [Hp|Hp]; congruence.
Qed.

Lemma stack_step_inv w o : stack_inv w -> permitted w o -> exists w', stack_step w o = Some w' /\ stack_inv w'.
Proof.
  intros I Hp. destruct o; cbn [stack_step permitted] in *; try (eexists; split; [done|]).
  - by apply addLayer_inv.
  - by apply removeLayer_inv.
  - apply setBaseLayer_inv; tauto.
  - by apply setLayerIndex_inv.
  - by apply setLayerIndex_inv.
  - by apply show_inv.
  - by apply activate_inv.
  - by apply deactivate_inv.
Qed.

Lemma new_stack_inv all inf : stack_inv (new_stack all inf).
Proof. split; [constructor| |by intros i l]. by split; try (intros _ l Hl; set_solver). Qed.

Lemma reachable_inv all inf w : reachable all inf w -> stack_inv w.
Proof.
  induction 1 as [|w o w' _ I Hp Hs]; [apply new_stack_inv|].
  destruct (stack_step_inv w o I Hp) as (w2 & E & I2). rewrite E in Hs. by injection Hs as <-.
Qed.

(** *** Any operations *)


Lemma reordered_layers w : layers (handleMapEvents (resetLayersZIndex w)) = layers w.
Proof.
  unfold handleMapEvents, resetLayersZIndex. rewrite (keeps_layers _ _ (proj1 (raise_all _ _))).
  apply (keeps_layers _ _ (reset_keeps _ _ _)).
Qed.










(** C19 What covers what.  On a reachable map with at most 45 layers, of two layers
    without handlers the later one is in front of the earlier one when both are
    base layers or both overlays, and any overlay is in front of any base layer;
    and a layer with an active feature handler is in front of every layer without
    one, so that it gets the events of the mouse. *)
Theorem painted_in_order all inf w i j a b :
  reachable all inf w -> (length (layers w) <= 45)%nat ->
  layers w !! i = Some a -> layers w !! j = Some b -> a ∉ raised w ->
  (b ∈ raised w -> zIndex (info_of w a) < zIndex (info_of w b)) /\
  (b ∉ raised w -> isBaseLayer (info_of w a) = isBaseLayer (info_of w b) -> (i < j)%nat ->
     zIndex (info_of w a) < zIndex (info_of w b)) /\
  (b ∉ raised w -> isBaseLayer (info_of w a) = true -> isBaseLayer (info_of w b) = false ->
     zIndex (info_of w a) < zIndex (info_of w b)).
Proof.
  intros R Hn Hi Hj Ha. pose proof (inv_z w (reachable_inv all inf w R)) as Hz.
  rewrite (Hz i a Hi), (Hz j b Hj), (times_none a) by done.
  apply lookup_lt_Some in Hi, Hj. split_and!.
  - intros Hb. unfold z_of. rewrite (top_iter (times b (raised w))); [|rewrite (times_remove b b), decide_True by done; lia].
    unfold place_z, Z_BASE, Z_OVERLAY, Z_FEATURE. cbn [Nat.iter nat_rect]. destruct (isBaseLayer (info_of w a)); lia.
  - intros Hb -> Hij. rewrite times_none by done. unfold z_of, place_z. cbn. lia.
  - intros Hb -> ->. rewrite times_none by done. unfold z_of, place_z, Z_BASE, Z_OVERLAY. cbn. lia.
Qed.

(** Beyond that a base layer reaches the overlays: the 46th layer, a base layer,
    has the z-index of an overlay at the bottom of the list. *)
Lemma base_reaches_overlays : place_z true 45 = place_z false 0.
Proof. done. Qed.

(** Moving a layer leaves the order of the others, and puts it where asked. *)
Lemma setLayerIndex_moves w l k idx :
  NoDup (layers w) -> layers w !! k = Some l -> Z.of_nat k <> clamp_index idx (length (layers w)) ->
  layers (setLayerIndex w l idx) = moved k (Z.to_nat (clamp_index idx (length (layers w)))) l (layers w).
Proof.
  intros Hnd Hk Hne. unfold setLayerIndex, getLayerIndex. rewrite (index_unique 0 l _ k) by done. cbn zeta.
  rewrite Z.add_0_l, (proj2 (Z.eqb_neq _ _)) by done. rewrite splice_moved by done.
  set (w1 := set_layers w _).
  pose proof (reordered_layers w1) as E.
  destruct (allOverlays _); [|by rewrite E]. destruct (_ =? 0); [by rewrite (lays_layers _ _ (setBaseLayer_lays _ _)), E|].
  destruct (head _); [|by rewrite E]. case_decide; [by rewrite E|]. by rewrite (lays_layers _ _ (setBaseLayer_lays _ _)), E.
Qed.

(** A layer that is not on the map has place -1, which [splice] counts from the
    end: moving it takes the last layer off the list and puts the stranger on it. *)
Lemma stranger_replaces_last :
  layers (setLayerIndex (addLayer (addLayer (new_stack false ∅) 1) 2) 3 0) = [3%nat; 1%nat].
Proof. vm_compute. reflexivity. Qed.

Lemma painted_in_order_witness :
  let w := addLayer (addLayer (new_stack false {[ 0%nat := LInfo true true 0 ]}) 0) 1 in
  zIndex (info_of w 0) < zIndex (info_of w 1).
Proof.
  intros w. assert (reachable false {[ 0%nat := LInfo true true 0 ]} w) as R.
  { apply (reach_step _ _ (addLayer (new_stack false {[ 0%nat := LInfo true true 0 ]}) 0) (AddLayer 1)); [|right; cbn; set_solver|done].
    apply (reach_step _ _ (new_stack false {[ 0%nat := LInfo true true 0 ]}) (AddLayer 0)); [apply reach_new|right; cbn; set_solver|done]. }
  apply (painted_in_order false {[ 0%nat := LInfo true true 0 ]} w 0 1 0 1 R).
  - vm_compute. lia.
  - reflexivity.
  - reflexivity.
  - apply not_elem_of_nil.
  - apply not_elem_of_nil.
  - reflexivity.
  - reflexivity.
Defined.


(** ** Popups *)

Lemma filter_last (p : nat) ps : p ∉ ps -> filter (.≠ p) (ps ++ [p]) = ps.
Proof.
  intros Hp. rewrite list.filter_app, filter_cons_False by (intros H; by apply H). cbn. rewrite app_nil_r.
  induction ps as [|x ps IH]; [done|]. rewrite filter_cons_True by set_solver. f_equal. apply IH. set_solver.
Qed.

Lemma close_popups_none w : NoDup (popups w) -> close_popups w = Some (set_popups w []).
Proof.
  unfold close_popups. remember (popups w) as ps eqn:E. revert w E.
  induction ps as [|p ps IH] using rev_ind; intros w E Hnd.
  - cbn. rewrite E. by destruct w.
  - rewrite length_app, Nat.add_1_r. cbn [close_from]. rewrite <-E, lookup_app_r, Nat.sub_diag by lia. cbn.
    apply list.NoDup_app in Hnd as (Hnd & Hd & _). rewrite (IH (removePopup w p)); [done| |done].
    unfold removePopup. cbn. rewrite <-E, filter_last; [done|]. intros Hp. apply (Hd p Hp). set_solver.
Qed.

(** A popup that is on the map twice breaks the loop. *)
Lemma popup_twice : close_popups (set_popups (new_stack false ∅) [1%nat; 1%nat]) = None.
Proof. done. Qed.

(** ** The page of the network *)

(** [next]: the layer the next answer makes; [pending]: requests under way. *)
Record netpage := NetPage { pg_stack : stack; pg_pending : nat; pg_next : nat }.

Definition world_layer : nat := 0.

Definition open_page : netpage :=
  NetPage (addLayer (new_stack false {[ world_layer := LInfo true true 0 ]}) world_layer) 1 1.

(** The answer adds a vector layer, a hover and a click control. *)
Definition map_answer (p : netpage) : netpage :=
  let w := addLayer (pg_stack p) (pg_next p) in
  NetPage (activate_on (activate_on w (pg_next p)) (pg_next p)) (pg_pending p - 1) (S (pg_next p)).

(** [layers[1]] is undefined while no network is on the map. *)
Definition reinitialize (p : netpage) : option netpage :=
  l ← layers (pg_stack p) !! 1%nat;
  w ← removeLayer (pg_stack p) l true;
  Some (NetPage w (S (pg_pending p)) (pg_next p)).

Fixpoint refreshed (n : nat) (p : netpage) : option netpage :=
  match n with
  | O => Some p
  | S n => p ← reinitialize p; refreshed n (map_answer p)
  end.

(** The page between a request answered and the next. *)
Record settled (k : nat) (p : netpage) : Prop := {
  set_inv : stack_inv (pg_stack p);
  set_all : allOverlays (pg_stack p) = false;
  set_two : layers (pg_stack p) = [world_layer; k];
  set_world : baseLayer (pg_stack p) = Some world_layer;
  set_net : forall l, l <> world_layer -> isBaseLayer (info_of (pg_stack p) l) = false;
  set_old : forall l, l ∈ raised (pg_stack p) -> (0 < l <= k)%nat;
  set_here : times k (raised (pg_stack p)) = 2%nat;
  set_next : pg_next p = S k }.

Lemma addLayer_overlay w l :
  l ∉ layers w -> allOverlays w = false -> isBaseLayer (info_of w l) = false ->
  keeps (set_layers w (layers w ++ [l])) (addLayer w l).
Proof.
  intros Hl Ha Hi. unfold addLayer. rewrite decide_False by done. cbn zeta. rewrite Ha.
  set (w2 := setLayerZIndex w l _). assert (keeps w w2) as K by apply setZIndex_keeps.
  change (info_of (set_layers ?v ?ls) l) with (info_of v l). change (allOverlays (set_layers ?v ?ls)) with (allOverlays v).
  rewrite (keeps_is _ _ K), (keeps_all _ _ K), Hi, Ha. cbn [orb andb]. rewrite (keeps_layers _ _ K).
  destruct K. by split.
Qed.

Lemma map_answer_settled p k :
  stack_inv (pg_stack p) -> allOverlays (pg_stack p) = false -> layers (pg_stack p) = [world_layer] ->
  baseLayer (pg_stack p) = Some world_layer ->
  (forall l, l <> world_layer -> isBaseLayer (info_of (pg_stack p) l) = false) ->
  (forall l, l ∈ raised (pg_stack p) -> (0 < l < k)%nat) -> (0 < k)%nat -> pg_next p = k -> settled k (map_answer p).
Proof.
  intros I Ha Hl Hb Hn Hr Hk En.
  assert (k ∉ layers (pg_stack p)) as Hkl by (rewrite Hl; unfold world_layer; set_solver by lia).
  assert (k ∉ raised (pg_stack p)) as Hkr by (intros Hin; apply Hr in Hin; lia).
  pose proof (addLayer_overlay (pg_stack p) k Hkl Ha (Hn k ltac:(unfold world_layer; lia))) as K.
  pose proof (addLayer_inv (pg_stack p) k I (or_intror Hkr)) as I1.
  unfold map_answer. rewrite En. set (w := addLayer (pg_stack p) k) in *. destruct K as [K1 K2 K3 K4 K5 K6].
  cbn in K1, K2, K3, K4. split; cbn [pg_stack pg_next].
  - by apply activate_inv, activate_inv.
  - change (allOverlays w = false). congruence.
  - change (layers w = [world_layer; k]). rewrite K1, Hl. done.
  - change (baseLayer w = Some world_layer). congruence.
  - intros l Hne. change (info_of (activate_on ?v k) l) with (info_of (moveLayerToTop v k) l).
    unfold moveLayerToTop. rewrite (keeps_is _ _ (setZIndex_keeps _ _ _)).
    change (info_of (activate_on ?v k) l) with (info_of (moveLayerToTop v k) l).
    unfold moveLayerToTop. rewrite (keeps_is _ _ (setZIndex_keeps _ _ _)). rewrite K5. by apply Hn.
  - cbn. rewrite K4. intros l [->|[->|Hin]%elem_of_cons]%elem_of_cons; [lia|lia|]. apply Hr in Hin. lia.
  - cbn [raised activate_on set_raised]. change (raised (activate_on w k)) with (k :: raised w).
    by rewrite K4, !times_cons, !decide_True, times_none.
  - done.
Qed.

Lemma open_settled : settled 1 (map_answer open_page).
Proof.
  apply map_answer_settled; try done; [| |intros l Hl; by apply not_elem_of_nil in Hl|lia].
  - apply addLayer_inv; [apply new_stack_inv|]. right. apply not_elem_of_nil.
  - intros l Hl. unfold open_page. cbn [pg_stack].
    destruct (addLayer_unfold (new_stack false {[ world_layer := LInfo true true 0 ]}) world_layer) as (w & A & ->);
      [apply not_elem_of_nil|]. cbn [baseLayer new_stack].
    assert (isBaseLayer (info_of w l) = false) as E.
    { rewrite (app_info _ _ _ A) by done. unfold info_of. cbn [info new_stack]. by rewrite lookup_singleton_ne. }
    destruct (_ || _); [|done]. by rewrite (lays_is _ _ (setBaseLayer_lays _ _)).
Qed.

Lemma refresh_settled k p :
  settled k p -> exists p', reinitialize p = Some p' /\ settled (S k) (map_answer p') /\
    length (raised (pg_stack (map_answer p'))) = (2 + length (raised (pg_stack p)))%nat.
Proof.
  intros [S1 S2 S3 S4 S5 S6 S7 S8]. assert (0 < k)%nat as Hk.
  { apply (S6 k). destruct (decide (k ∈ raised (pg_stack p))); [done|]. by rewrite times_none in S7. }
  unfold reinitialize. rewrite S3. cbn [lookup list_lookup mbind option_bind].
  assert (k ∈ layers (pg_stack p)) as Hin by (rewrite S3; set_solver).
  destruct (removeLayer_inv _ _ S1 Hin) as (w & E & I). rewrite E. cbn. eexists. split; [done|].
  unfold removeLayer in E. rewrite decide_True in E by done. cbn [baseLayer set_layers] in E.
  rewrite S4, decide_False in E by (unfold world_layer; intros [= <-]; lia). injection E as E.
  assert (filter (.≠ k) [world_layer; k] = [world_layer]) as Ef.
  { rewrite filter_cons_True by (unfold world_layer; lia). by rewrite filter_cons_False by (intros H; by apply H). }
  rewrite S3, Ef in E. destruct (rearranged (set_layers (pg_stack p) [world_layer])) as [K _]; [apply NoDup_singleton|].
  rewrite E in K. destruct K as [K1 K2 K3 K4 K5 K6]. cbn in K1, K2, K3, K4. split.
  - apply map_answer_settled; cbn [pg_stack pg_next]; try done; try congruence; try lia.
    + intros l Hl. rewrite K5. by apply S5.
    + rewrite K4. intros l Hl%S6. lia.
  - rewrite S8. cbn [map_answer pg_stack raised activate_on set_raised pg_next length].
    assert (keeps (set_layers w (layers w ++ [S k])) (addLayer w (S k))) as K.
    { apply addLayer_overlay; [rewrite K1; unfold world_layer; set_solver by lia|congruence|].
      rewrite K5. apply S5. unfold world_layer. lia. }
    rewrite (keeps_raised _ _ K). cbn. by rewrite K4.
Qed.

(** C20 Reloading the network.  However often the page reloads, each time after the
    answer to the request before, the background stays the base layer and layer 0,
    and the network of the last answer is layer 1, where the page looks for it,
    above the background and within reach of the mouse.  The controls of the
    networks before it are never taken away: each reload leaves two more feature
    handlers listening to the map. *)
Theorem network_reloaded n :
  exists p, refreshed n (map_answer open_page) = Some p /\
    layers (pg_stack p) = [world_layer; S n] /\ baseLayer (pg_stack p) = Some world_layer /\
    visibility (info_of (pg_stack p) world_layer) = true /\
    zIndex (info_of (pg_stack p) world_layer) = Z_BASE /\ zIndex (info_of (pg_stack p) (S n)) = Z_FEATURE + 1 /\
    length (raised (pg_stack p)) = (2 * S n)%nat.
Proof.
  assert (forall m k p, settled k p -> exists p', refreshed m p = Some p' /\ settled (k + m) p' /\
    length (raised (pg_stack p')) = (2 * m + length (raised (pg_stack p)))%nat) as H.
  { induction m as [|m IH]; intros k p Hs; cbn [refreshed].
    - exists p. by rewrite Nat.add_0_r.
    - destruct (refresh_settled k p Hs) as (p1 & -> & Hs1 & L1). cbn [mbind option_bind].
      destruct (IH (S k) _ Hs1) as (p2 & ? & Hs2 & L2). exists p2. rewrite Nat.add_succ_r.
      split_and!; [done|done|]. rewrite L2, L1. lia. }
  destruct (H n 1%nat _ open_settled) as (p & Hp & [S1 S2 S3 S4 S5 S6 S7 S8] & L). exists p.
  change (1 + n)%nat with (S n) in *. split_and!; try done.
  - rewrite (base_visible _ (inv_base _ S1) S2), S4.
    + by rewrite bool_decide_true.
    + rewrite S3. set_solver.
    + by apply (base_in _ (inv_base _ S1)).
  - rewrite (inv_z _ S1 0%nat world_layer) by (by rewrite S3).
    rewrite times_none by (intros Hw%S6; unfold world_layer in Hw; lia).
    by rewrite (proj2 (base_in _ (inv_base _ S1) S2 _ S4)).
  - rewrite (inv_z _ S1 1%nat (S n)) by (by rewrite S3). rewrite S7, S5 by (unfold world_layer; lia). done.
  - rewrite L. change (length (raised (pg_stack (map_answer open_page)))) with 2%nat. lia.
Qed.

(** Reloading again before the answer: there is no layer 1, and the page throws. *)
Lemma reloaded_too_early : (reinitialize (map_answer open_page) ≫= reinitialize) = None.
Proof. vm_compute. reflexivity. Qed.
