(* ===== verification/AdminRoutes.v ===== *)
(** * Routes, links and first loading of the administration pages
    (new/admin_new/src)

    Which page App.jsx shows for an address and who may see it (AdminRoute.jsx),
    the addresses the pages link to, the entry of the menu that is marked
    (AdminNavBar.jsx), what each page asks of the service when it opens, and the
    message the user sees (Toast.jsx).

    The matching of an address with the pattern of a route is that of
    react-router: the class [Router] states its documentation for addresses made
    of lower-case letters and digits, and an instance shows that it can hold. *)

From Stdlib Require Import ZArith Lia Ascii String.
From stdpp Require Import base option list sets strings numbers tactics.
From S2P Require Import Prelude JsValue JsJson Fetch Api Checks AdminApi AdminPages.

(** ** Addresses and patterns *)

Inductive seg := Lit (s : string) | Par (name : string).

Definition params := list (string * string).

(** [/a/b]; the root is [/]. *)
Definition path_text (s : list string) : string :=
  match s with [] => "/" | _ => str_concat (map (fun x => "/" +:+ x) s) end.

(** The segments of a pattern bind the first segments of an address; with
    [exact] there are no others. *)
Fixpoint match_segs (exact : bool) (p : list seg) (s : list string) : option params :=
  match p, s with
  | [], [] => Some []
  | [], _ => if exact then None else Some []
  | Lit a :: p, b :: s => if String.eqb a b then match_segs exact p s else None
  | Par k :: p, b :: s => (fun r => (k, b) :: r) <$> match_segs exact p s
  | _, [] => None
  end.

Definition seg_char (c : ascii) : bool :=
  let n := nat_of_ascii c in is_digit c || (Nat.leb 97 n && Nat.leb n 122).
Definition seg_ok (s : string) : bool := negb (String.eqb s estr) && str_forall seg_char s.

Class Router := {
  matchPath : bool -> list seg -> string -> option params;
  matchPath_segments exact p s : forallb seg_ok s = true -> matchPath exact p (path_text s) = match_segs exact p s }.

(** ** App.jsx *)

Inductive page :=
  | ToUsers | Cloud | CreateUser | EditUser | Users | CreateNode | CreateAcl | EditAcl | Acls | EditInterface
  | Interfaces | EditNode | Nodes | Links | CreateWorkgroup | WorkgroupInterfaces | AddWorkgroupUser | WorkgroupUsers
  | EditWorkgroup | Workgroups.

Record route := Route { r_exact : bool; r_path : list seg; r_page : page }.

Definition routes : list route := [
  Route true [] ToUsers;
  Route false [Lit "cloud"] Cloud;
  Route false [Lit "users"; Lit "new"] CreateUser;
  Route false [Lit "users"; Par "id"] EditUser;
  Route false [Lit "users"] Users;
  Route false [Lit "users"] Users;
  Route false [Lit "nodes"; Lit "new"] CreateNode;
  Route false [Lit "nodes"; Par "id"; Lit "interfaces"; Par "interfaceId"; Lit "acls"; Lit "new"] CreateAcl;
  Route false [Lit "nodes"; Par "id"; Lit "interfaces"; Par "interfaceId"; Lit "acls"; Par "interfaceAclId"] EditAcl;
  Route false [Lit "nodes"; Par "id"; Lit "interfaces"; Par "interfaceId"; Lit "acls"] Acls;
  Route false [Lit "nodes"; Par "id"; Lit "interfaces"; Par "interfaceId"] EditInterface;
  Route false [Lit "nodes"; Par "id"; Lit "interfaces"] Interfaces;
  Route false [Lit "nodes"; Par "id"] EditNode;
  Route false [Lit "nodes"] Nodes;
  Route false [Lit "links"] Links;
  Route false [Lit "workgroups"; Lit "new"] CreateWorkgroup;
  Route false [Lit "workgroups"; Par "id"; Lit "interfaces"] WorkgroupInterfaces;
  Route false [Lit "workgroups"; Par "id"; Lit "users"; Lit "add"] AddWorkgroupUser;
  Route false [Lit "workgroups"; Par "id"; Lit "users"] WorkgroupUsers;
  Route false [Lit "workgroups"; Par "id"] EditWorkgroup;
  Route false [Lit "workgroups"] Workgroups ].

(** A [Switch] shows the first of its routes that matches; every route is an
    [AdminRoute], which shows its page to administrators only. *)
Inductive shown_page := NoPage | NotAuthorized | ShownPage (p : page) (ps : params).

Fixpoint switch (rs : list route) (m : route -> option params) : option (page * params) :=
  match rs with
  | [] => None
  | r :: rs => match m r with Some ps => Some (r_page r, ps) | None => switch rs m end
  end.

Definition AdminRoute (user : val) (p : page) (ps : params) : res shown_page :=
  let? a := prop user "is_admin" in Ok (if truthy a then ShownPage p ps else NotAuthorized).

Section Routing.
Context `{Router}.

Definition App (user : val) (address : string) : res shown_page :=
  match switch routes (fun r => matchPath (r_exact r) (r_path r) address) with
  | None => Ok NoPage
  | Some (p, ps) => AdminRoute user p ps
  end.

End Routing.

(** The link to these pages in the bar at the top (NavBar.jsx). *)
Definition admin_link (user : val) : res bool := let? a := prop user "is_admin" in Ok (loose_eq a (VStr "1")).

(** ** AdminNavBar.jsx *)

Definition nav_links : list (string * string) :=
  [("Cloud", "/cloud"); ("Nodes", "/nodes"); ("Links", "/links"); ("Users", "/users"); ("Workgroups", "/workgroups")].

(** The menu: these and the link to the former pages, which opens outside these and is
    never marked. *)
Definition side_nav : list (string * string) := nav_links ++ [("Other", "/../../admin")].

Definition active_links (pathname : string) : list string :=
  omap (fun l => if starts_with (snd l) pathname then Some (fst l) else None) nav_links.

(** ** The links of the pages *)

(** Where the buttons of the pages lead, from the identifiers of a row or of the
    address of the page (Users.jsx, Nodes.jsx, Interfaces.jsx, Workgroups.jsx,
    WorkgroupUsers.jsx, WorkgroupInterfaces.jsx and AclTable.jsx); an interface is edited
    unless its role is trunk. *)
Inductive link :=
  | LNav (k : nat)
  | LNewUser | LUser (id : string)
  | LNewNode | LNode (id : string) | LNodeInterfaces (id : string)
  | LInterface (role : val) (node intf : string) | LAcls (node intf : string) | LNewAcl (node intf : string)
  | LAcl (node intf acl : string)
  | LNewWorkgroup | LWorkgroup (id : string) | LMembers (id : string) | LAddMember (id : string)
  | LWorkgroupInterfaces (id : string).

Definition link_text (l : link) : string :=
  match l with
  | LNav k => default estr (snd <$> side_nav !! k)
  | LNewUser => "/users/new"
  | LUser id => "/users/" +:+ id
  | LNewNode => "/nodes/new"
  | LNode id => "/nodes/" +:+ id
  | LNodeInterfaces id => "/nodes/" +:+ id +:+ "/interfaces"
  | LInterface role node intf =>
      if strict_eq role (VStr "trunk") then "#" else "/nodes/" +:+ node +:+ "/interfaces/" +:+ intf
  | LAcls node intf => "/nodes/" +:+ node +:+ "/interfaces/" +:+ intf +:+ "/acls"
  | LNewAcl node intf => "/nodes/" +:+ node +:+ "/interfaces/" +:+ intf +:+ "/acls/new"
  | LAcl node intf acl => "/nodes/" +:+ node +:+ "/interfaces/" +:+ intf +:+ "/acls/" +:+ acl
  | LNewWorkgroup => "/workgroups/new"
  | LWorkgroup id => "/workgroups/" +:+ id
  | LMembers id => "/workgroups/" +:+ id +:+ "/users"
  | LAddMember id => "/workgroups/" +:+ id +:+ "/users/add"
  | LWorkgroupInterfaces id => "/workgroups/" +:+ id +:+ "/interfaces"
  end.

(** The page a link is for, with what it needs to know; the last entry of the menu and
    the button of a trunk interface are for none of these pages. *)
Definition intended (l : link) : option (page * params) :=
  match l with
  | LNav k => (fun p => (p, [])) <$> [Cloud; Nodes; Links; Users; Workgroups] !! k
  | LNewUser => Some (CreateUser, [])
  | LUser id => Some (EditUser, [("id", id)])
  | LNewNode => Some (CreateNode, [])
  | LNode id => Some (EditNode, [("id", id)])
  | LNodeInterfaces id => Some (Interfaces, [("id", id)])
  | LInterface role node intf =>
      if strict_eq role (VStr "trunk") then None else Some (EditInterface, [("id", node); ("interfaceId", intf)])
  | LAcls node intf => Some (Acls, [("id", node); ("interfaceId", intf)])
  | LNewAcl node intf => Some (CreateAcl, [("id", node); ("interfaceId", intf)])
  | LAcl node intf acl => Some (EditAcl, [("id", node); ("interfaceId", intf); ("interfaceAclId", acl)])
  | LNewWorkgroup => Some (CreateWorkgroup, [])
  | LWorkgroup id => Some (EditWorkgroup, [("id", id)])
  | LMembers id => Some (WorkgroupUsers, [("id", id)])
  | LAddMember id => Some (AddWorkgroupUser, [("id", id)])
  | LWorkgroupInterfaces id => Some (WorkgroupInterfaces, [("id", id)])
  end.

(** ** What a page asks when it opens *)

(** What became of an error: told to the user with its text, given to the status
    as it is, or written to the console only. *)
Inductive report := NoReport | Told (e : exn) | Raw (e : exn) | Console (e : exn).

Definition opened := (option val * report)%type.

Definition load (m : io val) (on_error : exn -> report) : io opened :=
  io_try (await v := m in Ret (Some v, NoReport)) (fun e => Ret (None, on_error e)).

(** [interfaces.forEach(x => x.utilized_total_bandwith = ...)] *)
Definition with_total (x : val) : res val :=
  let? u := prop x "utilized_bandwidth" in
  let? b := prop x "bandwidth" in
  match x with
  | VObj o => Ok (VObj (obj_set "utilized_total_bandwith" (VStr (show u +:+ " / " +:+ show b)) o))
  | _ => Err EType
  end.

Definition with_totals (l : val) : res val :=
  let? xs := elements_of l in let? ys := res_map with_total xs in Ok (VArr ys).

(** [acl.interface = intf] *)
Definition with_interface (intf acl : val) : res val :=
  match acl with VObj o => Ok (VObj (obj_set "interface" intf o)) | _ => Err EType end.

Definition param (ps : params) (k : string) : val :=
  match find (fun kv => String.eqb (fst kv) k) ps with Some (_, v) => VStr v | None => VUndef end.

Section Loading.
Variable base : string.

Definition open_interfaces (id : val) : io opened :=
  load (await node := Admin.getNode base id in
        await l := Admin.getInterfaces base id in
        pure rows := with_totals l in Ret (VObj [("node", node); ("interfaces", rows)])) Told.

(** The table of ACLs is rendered, and asks for its rows, once the interface is
    there. *)
Definition open_acls (intf : val) : io opened :=
  await i := load (Admin.getInterface base intf) Told in
  match fst i with
  | Some (VNull | VUndef) | None => Ret i
  | Some _ => load (Admin.getAcls base intf) Told
  end.

Definition open_edit_acl (intf acl : val) : io opened :=
  load (await a := Admin.getAcl base acl in
        await i := Admin.getInterface base intf in io_lift (with_interface i a)) Told.

Definition open_user (id : val) : io opened := load (Admin.getUser base id) Raw.
Definition open_node (id : val) : io opened := load (Admin.getNode base id) Raw.
Definition open_workgroup (id : val) : io opened := load (Admin.getWorkgroup base id) Raw.
Definition open_interface (id : val) : io opened := load (Admin.getInterface base id) Told.
Definition open_workgroup_interfaces (id : val) : io opened := load (Admin.getInterfacesByWorkgroupId base id) Told.
Definition open_members (id : val) : io opened := load (Admin.getWorkgroupUsers base id) Console.
Definition open_users : io opened := load (Admin.getUsers base) Console.
Definition open_workgroups : io opened := load (Admin.getAllWorkgroups base) Console.
Definition open_nodes : io opened := load (Admin.getNodes base) Console.
Definition open_links : io opened := load (Admin.getLinks base) Told.
Definition open_cloud : io opened := load (Admin.getEndpointsInReview base) Told.

Definition page_effect (p : page) (ps : params) : io opened :=
  match p with
  | EditUser => open_user (param ps "id")
  | EditNode => open_node (param ps "id")
  | EditWorkgroup => open_workgroup (param ps "id")
  | EditInterface => open_interface (param ps "interfaceId")
  | EditAcl => open_edit_acl (param ps "interfaceId") (param ps "interfaceAclId")
  | Acls => open_acls (param ps "interfaceId")
  | Interfaces => open_interfaces (param ps "id")
  | WorkgroupInterfaces => open_workgroup_interfaces (param ps "id")
  | WorkgroupUsers => open_members (param ps "id")
  | Users => open_users
  | Workgroups => open_workgroups
  | Nodes => open_nodes
  | Links => open_links
  | Cloud => open_cloud
  | ToUsers | CreateUser | CreateNode | CreateAcl | CreateWorkgroup | AddWorkgroupUser => Ret (None, NoReport)
  end.


End Loading.

(** ** Toast.jsx *)

(** [Alert]: a box for the error, with its text or message. *)
Inductive toast := Nothing | Alert (e : exn) | Crash.

(** The value of an error: what was thrown, or an object with a message. *)
Definition exn_val (e : exn) : val := match e with EVal v => v | _ => VObj [] end.

(** A status whose type is none of the four shows nothing; reading the type of
    null throws. *)
Definition Toast (r : report) : toast :=
  match r with
  | Told e => Alert e
  | Raw e => match prop (exn_val e) "type" with
             | Err _ => Crash
             | Ok t => if existsb (fun k => strict_eq t (VStr k)) ["success"; "info"; "warning"; "error"]
                       then Alert e else Nothing
             end
  | NoReport | Console _ => Nothing
  end.

(** [{type: 'error', message: error}], as the pages that create a node or a
    workgroup set it: React renders texts and numbers, and throws for objects. *)
Definition error_message (e : exn) : toast := match exn_val e with VObj _ => Crash | _ => Alert e end.

(** ** An instance of the router *)

Lemma seg_char_no_slash c : seg_char c = true -> negb (Ascii.eqb c "/") = true.
Proof. intros H. destruct (Ascii.eqb_spec c "/") as [->|]; [by vm_compute in H|done]. Qed.

Lemma str_forall_impl (p q : ascii -> bool) s :
  (forall c, p c = true -> q c = true) -> str_forall p s = true -> str_forall q s = true.
Proof.
  intros Hpq. induction s as [|c s IH]; cbn; [done|]. intros [Hc Hs]%andb_true_iff. by rewrite Hpq, IH.
Qed.

Lemma path_text_join x s : path_text (x :: s) = "/" +:+ str_join "/" (x :: s).
Proof.
  revert x. induction s as [|y s IH]; intros x; [cbn; by rewrite str_app_nil_r|].
  rewrite str_join_cons. change (path_text (x :: y :: s)) with (("/" +:+ x) +:+ path_text (y :: s)).
  rewrite IH. by rewrite str_app_assoc.
Qed.

Definition segments (path : string) : list string :=
  match path with String _ EmptyString | EmptyString => [] | String _ rest => split_on "/" rest end.

Lemma segments_path s : forallb seg_ok s = true -> segments (path_text s) = s.
Proof.
  destruct s as [|x s]; [done|]. intros H. rewrite path_text_join.
  assert (str_join "/" (x :: s) <> estr) as Hne.
  { cbn in H. apply andb_true_iff in H as [[Hx _]%andb_true_iff _]. destruct x as [|c x]; [done|].
    by destruct s. }
  change ("/" +:+ str_join "/" (x :: s)) with (String "/" (str_join "/" (x :: s))).
  assert (segments (String "/" (str_join "/" (x :: s))) = split_on "/" (str_join "/" (x :: s))) as ->
    by (unfold segments; by destruct (str_join "/" (x :: s))).
  apply split_on_of_join; [done|]. apply list.Forall_forall. intros y Hy. rewrite forallb_forall in H.
  apply list_elem_of_In in Hy. apply H in Hy. apply andb_true_iff in Hy as [_ Hy].
  by apply (str_forall_impl seg_char); [apply seg_char_no_slash|].
Qed.

#[export] Instance segment_router : Router.
Proof.
  refine (Build_Router (fun exact p path => match_segs exact p (segments path)) _).
  intros exact p s Hs. by rewrite segments_path.
Defined.

(** ** Links reach their pages *)

(** The identifiers of the service are numbers. *)
Definition id_ok (s : string) : bool := negb (String.eqb s estr) && str_forall is_digit s.

Definition link_ids (l : link) : list string :=
  match l with
  | LNav _ | LNewUser | LNewNode | LNewWorkgroup => []
  | LUser a | LNode a | LNodeInterfaces a | LWorkgroup a | LMembers a | LAddMember a | LWorkgroupInterfaces a => [a]
  | LInterface _ a b | LAcls a b | LNewAcl a b => [a; b]
  | LAcl a b c => [a; b; c]
  end.

Definition link_segs (l : link) : list string :=
  match l with
  | LNav k => [default estr (["cloud"; "nodes"; "links"; "users"; "workgroups"] !! k)]
  | LNewUser => ["users"; "new"]
  | LUser a => ["users"; a]
  | LNewNode => ["nodes"; "new"]
  | LNode a => ["nodes"; a]
  | LNodeInterfaces a => ["nodes"; a; "interfaces"]
  | LInterface _ a b => ["nodes"; a; "interfaces"; b]
  | LAcls a b => ["nodes"; a; "interfaces"; b; "acls"]
  | LNewAcl a b => ["nodes"; a; "interfaces"; b; "acls"; "new"]
  | LAcl a b c => ["nodes"; a; "interfaces"; b; "acls"; c]
  | LNewWorkgroup => ["workgroups"; "new"]
  | LWorkgroup a => ["workgroups"; a]
  | LMembers a => ["workgroups"; a; "users"]
  | LAddMember a => ["workgroups"; a; "users"; "add"]
  | LWorkgroupInterfaces a => ["workgroups"; a; "interfaces"]
  end.

Lemma id_seg s : id_ok s = true -> seg_ok s = true.
Proof.
  unfold id_ok, seg_ok. intros [-> H]%andb_true_iff. cbn.
  apply (str_forall_impl is_digit); [|done]. intros c Hc. unfold seg_char. by rewrite Hc.
Qed.

Lemma id_not_word s w : id_ok s = true -> str_forall is_digit w = false -> String.eqb w s = false.
Proof. intros [_ H]%andb_true_iff Hw. apply String.eqb_neq. intros ->. congruence. Qed.

Lemma link_text_segs l : is_Some (intended l) -> link_text l = path_text (link_segs l).
Proof.
  destruct l as [k| |?| |?|?|role ? ?|? ?|? ?|? ? ?| |?|?|?|?]; try (intros _; cbn; by rewrite ?str_app_nil_r).
  - destruct k as [|[|[|[|[|k]]]]]; [done..|]. by intros [? ?].
  - cbn [intended link_text]. destruct (strict_eq role _); [by intros [? ?]|]. intros _. cbn. by rewrite ?str_app_nil_r.
Qed.

Lemma link_segs_ok l : is_Some (intended l) -> forallb id_ok (link_ids l) = true -> forallb seg_ok (link_segs l) = true.
Proof.
  intros Hl Hi.
  destruct l as [k|a|a|a|a|a|a|a|a|a|a|a|a|a|a];
    try (cbn [forallb link_ids link_segs] in Hi |- *; repeat match goal with
      H : _ && _ = true |- _ => apply andb_true_iff in H as [? ?] end;
      repeat match goal with H : id_ok _ = true |- _ => apply id_seg in H; rewrite H; clear H end; reflexivity).
  destruct k as [|[|[|[|[|k]]]]]; [done..|]. by destruct Hl.
Qed.

Lemma unintended l : intended l = None ->
  (exists k, l = LNav k /\ (k = 5 /\ link_text l = "/../../admin" \/ side_nav !! k = None)) \/
  (exists node intf, l = LInterface (VStr "trunk") node intf /\ link_text l = "#").
Proof.
  destruct l as [k| |?| |?|?|role ? ?|? ?|? ?|? ? ?| |?|?|?|?]; try done; cbn [intended].
  - intros Hk. left. exists k. split; [done|].
    destruct k as [|[|[|[|[|[|k]]]]]]; try done; [by left|by right].
  - cbn [link_text]. destruct (strict_eq role (VStr "trunk")) eqn:E; [|done]. intros _. right.
    destruct role as [| | | |t| |]; try done. cbn in E. apply String.eqb_eq in E as ->. eauto.
Qed.

Section Reaching.
Context `{Router}.

Lemma switch_links l r :
  intended l = Some r -> forallb id_ok (link_ids l) = true ->
  switch routes (fun r => match_segs (r_exact r) (r_path r) (link_segs l)) = Some r.
Proof.
  intros Hl Hi.
  assert (forall s, id_ok s = true -> String.eqb "new" s = false) as Hnew by (intros s Hs; by apply id_not_word).
  assert (forall s, id_ok s = true -> String.eqb "add" s = false) as Hadd by (intros s Hs; by apply id_not_word).
  destruct l as [k|?|?|?|?|?|?|?|?|?|?|?|?|?|?];
    try (cbn [forallb link_ids] in Hi; cbn -[String.eqb]; repeat match goal with
      H : _ && _ = true |- _ => apply andb_true_iff in H as [? ?] end;
      rewrite ?Hnew, ?Hadd by assumption; first [exact Hl|by cbn [intended] in Hl; destruct (strict_eq _ _)]).
  destruct k as [|[|[|[|[|k]]]]]; [exact Hl..|done].
Qed.

(** C34 The links of the administration pages lead where they should.  For identifiers that
    are numbers, the address behind the button of a user, a node and its interfaces, an
    interface that is not a trunk, its ACLs, a workgroup, its members and its interfaces,
    behind the buttons that create one, and behind the first five entries of the menu,
    is shown by the page the link is for, with those identifiers, to a user whose
    [is_admin] is true for JavaScript (as the text 0 is), and by the notice that they
    are not authorized to any other; a page for creating is never taken for the page of
    a record.  The sixth entry of the menu leaves these pages, and the button of a trunk
    interface has no address. *)
Theorem links_reach user l a :
  forallb id_ok (link_ids l) = true -> prop user "is_admin" = Ok a ->
  match intended l with
  | Some r => App user (link_text l) = Ok (if truthy a then ShownPage (fst r) (snd r) else NotAuthorized)
  | None => (exists k, l = LNav k /\ (k = 5 /\ link_text l = "/../../admin" \/ side_nav !! k = None)) \/
            (exists node intf, l = LInterface (VStr "trunk") node intf /\ link_text l = "#")
  end.
Proof.
  intros Hi Ha. destruct (intended l) as [r|] eqn:Hl; [|by apply unintended]. unfold App. rewrite link_text_segs by (by eexists).
  assert (switch routes (fun r => matchPath (r_exact r) (r_path r) (path_text (link_segs l))) = Some r) as ->.
  { rewrite <-(switch_links l r Hl Hi). induction routes as [|x rs IH]; [done|]. cbn [switch].
    rewrite matchPath_segments by (apply link_segs_ok; [by eexists|done]). destruct (match_segs _ _ _); [done|exact IH]. }
  destruct r as [p ps]. unfold AdminRoute. by rewrite Ha.
Qed.

End Reaching.

Lemma links_reach_witness :
  App (VObj [("is_admin", VInt 1)]) "/nodes/12/interfaces/7/acls/new"
  = Ok (ShownPage CreateAcl [("id", "12"); ("interfaceId", "7")]).
Proof.
  apply (links_reach (VObj [("is_admin", VInt 1)]) (LNewAcl "12" "7") (VInt 1)); vm_compute; reflexivity.
Defined.

(** The two tests of the administrator disagree on the text 0, which is true. *)
Lemma zero_text_admitted :
  App (VObj [("is_admin", VStr "0")]) "/users" = Ok (ShownPage Users [])
  /\ admin_link (VObj [("is_admin", VStr "0")]) = Ok false.
Proof. split; vm_compute; reflexivity. Qed.

(** ** Pages ask for what they show *)








Lemma param_text ps k v : find (fun kv => String.eqb (fst kv) k) ps = Some v -> show (param ps k) = snd v.
Proof. unfold param. intros ->. by destruct v. Qed.






(** [rows.filter] of CustomTable.jsx, before anything is typed: only a list has it. *)
Definition table_rows (rows : val) : res (list val) := match rows with VArr l => Ok l | _ => Err EType end.

(** An answer without results is taken for the rows of the table, which throws. *)
Lemma missing_rows_throw :
  run_result (const_server (OJson (VObj []))) (page_effect "/oess" Nodes []) tt = Ok (Some VUndef, NoReport) /\
  table_rows VUndef = Err EType.
Proof. split; vm_compute; reflexivity. Qed.

(** ** Errors that are not shown *)

(** The pages that edit a node, a user or a workgroup hand the error itself to the
    status: the box shows nothing, and the page of a node says it is loading for
    good. *)
Lemma failed_node_silent :
  run_result (const_server (OJson (VObj [("error_text", VStr "no such node")]))) (page_effect "/oess" EditNode [("id", "31")]) tt
  = Ok (None, Raw (EVal (VStr "no such node")))
  /\ Toast (Raw (EVal (VStr "no such node"))) = Nothing /\ Toast (Raw ENet) = Nothing.
Proof. split_and!; vm_compute; reflexivity. Qed.

(** A workgroup that cannot be read is an empty list, not null: the form opens. *)
Lemma failed_workgroup_opens :
  run_result (const_server OBadJson) (page_effect "/oess" EditWorkgroup [("id", "5")]) tt = Ok (Some (VArr []), NoReport).
Proof. vm_compute. reflexivity. Qed.

(** Creating a node while the service cannot be reached: the message is the error
    object, which cannot be rendered. *)
Lemma unreachable_crashes : error_message ENet = Crash.
Proof. done. Qed.
